(* ===== verification/_CoqProject ===== *)
-Q . S2P
Prelude.v
NonceWindow.v
Dencryptor.v
Domain.v
HostPath.v
HostController.v
FsController.v
Disk.v
DriveHandler.v
DriveSafety.v
DriveFiles.v
KeyExchange.v
IdleExpiryMap.v
ScopedExpiryMap.v
TtlMap.v
SessionManager.v
RequestRegistry.v
Registries.v
SessionTransport.v
FileReader.v
SendManager.v
ReceiveManager.v
Transfer.v
Receiver.v
FileTracker.v
TrackerInvariant.v
TrackerAccounting.v
TrackerLocks.v
BrainTypes.v
EventLoop.v
NodeRuns.v
Brain.v
BrainAccess.v
BrainAnswers.v
BrainFiles.v
Invites.v
BrainExample.v
Restart.v
NodeKeys.v
Sql.v
SqlText.v
SqlTheory.v
Connection.v
SqliteActor.v
Migrations.v
Sqlite.v
SqliteStore.v
SqliteExample.v
SqliteAtomic.v
SqliteReads.v
SqliteRoundtrip.v
SqlitePending.v
SqliteKeys.v
MigrationRuns.v
StreamRegistry.v
Wire.v
Conversions.v
ApiServer.v
ApiToken.v
ApiBrain.v
ApiStore.v
ApiExample.v
Notifications.v
