(* ===== verification/Prelude.v ===== *)
(** * Fyles: verification of the file transfer service

    Fyles lets contacts exchange files between their own machines. The service
    (src/fyles_service/, Rust) has four crates that carry its logic; the paths
    below are relative to that directory:

    - crypto: the encryption of messages under a session key, with a counter of
      send nonces and a sliding window against replays;
    - p2p: the network node. A _file tracker_ keeps the files to send to each peer
      and drives one transfer per peer; a _receiver_ answers the requests of peers
      and writes part files; both talk to the brain through requests. Below them
      are the handshake, the _session manager_, the _request registry_ with its
      timeouts, and the transport of requests over sessions;
    - core: the _brain_, which owns filerequests, contacts and the database and
      decides who may send what; the _drive handler_, through which the receiver
      reaches the disk; the _API server_ (gRPC), through which a frontend calls the
      brain, and the _stream registry_, through which the brain sends messages to
      frontends; and the domain types;
    - direct_host_utils: the _file system controller_ behind the drive handler, and
      notifications with their translations.

    A transfer runs like this. The tracker takes a pending file, opens it and
    sends NewTransfer (or ContinueTransfer for an interrupted one). The transport
    asks the session manager for a session with the peer, which shakes hands if
    there is none, encrypts the request and registers it. The receiver asks the
    brain whether the contact of the session may drop a file there, opens a part
    file with the drive handler it gets and answers AcceptNewTransfer or
    AcceptContinueTransfer. The tracker checks that the answer comes from the
    contact the file is meant for, and sends chunks through a window of eight; the
    receiver puts them in order, writes them and confirms each. When all are
    confirmed the tracker sends Done, the receiver checks the size, has the part
    file moved to its final name and recorded by the brain, and answers
    ConfirmDone; the tracker reports the file as sent and takes the next one.

    ** The files

    - Prelude.v: results and outcomes, machine integers, arithmetic of sliding
      windows, tactics.

    Sessions:
    - NonceWindow.v: crypto/src/rolling_nonce_window.rs. BitStore is a class with
      laws, the Vec<bool> store an instance; RollingNonceWindow and
      NonceGeneratorValidator are records, is_valid, get_next_send_nonce and
      validate functions on them.
    - Dencryptor.v: encryption and decryption of crypto/src/lib.rs, and the two
      ciphers of a session (p2p/src/crypto.rs, to_cipher).
    - KeyExchange.v: the handshake of p2p/src/crypto.rs (both request and response
      messages, their signatures, the keys of contacts).
    - TtlMap.v: core/src/library/ttlmap.rs, map and set.
    - SessionManager.v: p2p/src/send_receive_traits/get_session.rs and
      event_loop/handle_session_establishment_event.rs; the callers that wait for a
      session, the builds under way and their channels as a step relation.
    - RequestRegistry.v: p2p/src/send_receive_traits/request_registry.rs, the
      registry and its worker with the queue of commands and the timers.
    - Registries.v: p2p/src/event_loop/trait_impls/request_registry.rs: the trait of
      registries as a class with a contract, and the three registries of a node.
    - SessionTransport.v: session_send_receive.rs, session_responder.rs and the
      handlers of network events for files, contact shares and self-contact
      invites (event_loop/handle_*_event.rs): sending, resending, answers.

    Transfers:
    - Domain.v: core/src/core/domain_models.rs (statuses, their database columns,
      access, retry intervals), p2p/src/types.rs (the messages) and
      core/src/library/util/part_file.rs (names of part files).
    - IdleExpiryMap.v and ScopedExpiryMap.v: the two expiring maps of
      p2p/src/data_structures/.
    - FileReader.v: p2p/src/file_reader.rs, the double buffered reader.
    - SendManager.v: p2p/src/event_loop/filerequest/send_manager.rs, the sending
      window and the lock on the contact.
    - ReceiveManager.v: p2p/src/event_loop/filerequest/receive_manager.rs, the
      receiving window and the answers to all requests. Receiver.v: its properties.
    - Transfer.v: both windows joined by a network.
    - FileTracker.v: p2p/src/event_loop/filerequest/file_tracker.rs, all
      operations. TrackerInvariant.v, TrackerAccounting.v and TrackerLocks.v: its
      properties.

    The disk:
    - HostPath.v: std::path by components, names and their variants.
    - HostController.v: core/src/io_controller.rs: the trait as a class, errors, and
      the monad [io] of computations on a disk with its weakest preconditions.
    - FsController.v: direct_host_utils/src/direct_fs_controller.rs, an instance of
      that class over the class [FileSystem].
    - Disk.v: the laws of a file system, a disk in memory, a disk with a log.
    - DriveHandler.v: core/src/core/filerequest_drive_handler.rs. DriveSafety.v and
      DriveFiles.v: its properties on the controller.

    The brain:
    - BrainTypes.v: its data, errors and requests, the traits FilerequestDb
      (core/src/core/db.rs) and NetworkNode (core/src/core/p2p.rs) as classes, and
      core/src/library/bounded_list.rs.
    - Brain.v: core/src/core/brain/handle_action.rs, one definition per action, and
      brain/stale_cleanup.rs.
    - BrainAccess.v: who may send, with receiver and brain joined. BrainAnswers.v:
      answers, readiness, challenges. BrainFiles.v: start-up and cleanup.
      BrainExample.v: a node in memory on which the witnesses run.
    - Invites.v: the receivers of invites and shared contacts in p2p/src/event_loop/,
      on the brain.

    The running node:
    - EventLoop.v: p2p/src/event_loop.rs and the client in p2p/src/lib.rs: commands, the tasks
      they start, the swarm events that change state, and the runs of a node as a
      step relation. NodeRuns.v: its properties.
    - Restart.v: brain and node joined: what the brain reads from the database at
      start goes through the client into the tracker.
    - NodeKeys.v: keys of a node on which examples run.

    The database:
    - Sql.v: the statements of SQL that the program uses, as syntax, and their
      documented meaning: three-valued conditions, constraints, cascades, changes of
      tables, transactions. SqlText.v: a lexer and a parser, so that the files below
      contain the SQL of the source as text. SqlTheory.v: what holds for all of it
      (constraints are kept, kinds of columns, tables a statement does not touch).
    - Connection.v: what is used of rusqlite. The engine is the class
      [SqliteConnection]; its laws say that a statement does what Sql.v says, or fails
      for its constraints, or fails as the engine may at any time.
    - SqliteActor.v: core/src/library/sqlite/actor.rs and util.rs, one definition per
      handler. Migrations.v: schema.rs, migrations.rs and all_migrations.rs, one
      definition per step. Sqlite.v: messages (command.rs), the loop of the actor,
      backups, and core/src/library/sqlite.rs, the client, as an instance of
      [FilerequestDb].
    - SqliteStore.v: the invariant of the data. SqliteExample.v: a database in memory.
      SqliteAtomic.v: each message is done or not. SqliteReads.v: initialization,
      reachable states, what is stored can be read. SqliteRoundtrip.v,
      SqlitePending.v, SqliteKeys.v: what is read is what was stored.
      MigrationRuns.v: runs of migrations.

    The API:
    - Wire.v: src/wire/filerequest.proto and nodestatus.proto as the generated code
      has them, a record per message; the calls as a type indexed by their response.
    - Conversions.v: core/src/core/domain_proto_conversion.rs, one definition per
      conversion.
    - ApiServer.v: core/src/core/api_server.rs, one definition per call, against the
      channel to the brain (class [BrainChannel]). ApiToken.v: the authentication of
      calls over TCP (api_server/tcp_token_interceptor.rs).
    - ApiBrain.v: the channel to the brain, implemented by the brain of Brain.v; what
      calls do on it. ApiStore.v: what the API asks of a database (class
      [FilerequestStore]), with the database of Sqlite.v as an instance.
      ApiExample.v: server, brain, disk and database in memory.
    - StreamRegistry.v: core/src/core/api_server/stream_registry.rs and the task that
      forwards the messages of the brain, as a step relation.
    - Notifications.v: direct_host_utils/src/i18n.rs and the text of notifications.

    ** How the code is modelled

    A Rust function is a function on its arguments that returns the new value of
    what it mutates; one that can panic, block or loop returns an [outcome]. The release
    profile aborts on a panic (panic = "abort" in Cargo.toml), so that a panic anywhere
    ends the process: [Panic] is the outcome of the whole node, never of one task. Code
    that threads shared state and effects through many calls is written in a state
    monad: the tracker (FileTracker.v), the disk (HostController.v) and the brain
    (Brain.v). u32, u64 and usize are [Z] with explicit wrap-around, as in the
    release profile. A clock reading (Instant::now()) is an argument or a call of
    the environment. f64, which only the sizes in notifications use, is binary64 of the
    Standard Library. HashMap is gmap, its iteration order that of map_to_list.
    Logging is left out.

    Concurrency: an operation of the tracker is one step up to the points where it
    gives its lock back; the steps of several operations interleave (reachable
    states of TrackerInvariant.v). Calls for sessions interleave with the events of
    the network at every await (SessionManager.v), and the registry with its worker
    at every command (RequestRegistry.v); a request is transmitted and then registered,
    and answers, errors and timeouts come in between (SessionTransport.v). The clock of
    the scoped map is read before its lock is taken, so that calls can overtake each
    other (ScopedExpiryMap.v). The tasks of the stream registry interleave
    wherever they wait for its mutex or a channel (StreamRegistry.v). An action of the
    brain is one step; tasks meet in the mutex of the ephemeral data, which a blocked
    task keeps. Calls of the operating system are atomic, but tokio's [write_all] may
    return before its bytes are on disk: the laws of the part file ([SinkLaws]) keep
    what was handed over and what is written apart.

    Third-party code and the parts of the program that a component only calls are
    classes: [Aead] and [Bincode] (cipher and serializer), [Primitives] and
    [KeyBytes] (signatures and key agreement), [ExpiringMap], [ExpiringSet] and
    [DelayQueue] (containers of crates), [AsyncFile] (tokio files), [Sanitizer]
    (the crate sanitize_filename), [FileSystem] (std::fs and tokio::fs),
    [ManagerEnv] and [Peer] (surroundings of the session manager and of the
    transport), [ReceiverEnv] and [TrackerEnv] (what receiver and tracker call),
    [HostController], [FilerequestDb], [NetworkNode] and [BrainEnv] (what the brain
    calls), [LoopEnv] (the swarm), [SqliteConnection], [ActorEnv], [Json], [Semver]
    and [BackupHost] (SQLite, ids, serde_json, versions as text, and the files of
    backups), [Base64], [ConstantTimeEq] and [Metadata] (what the token of the API is
    checked with), [Fluent] (translations). Their laws are separate classes ([AeadLaws], [PrimitivesLaws],
    [FileSystemLaws], [SanitizerLaws], [ExpiringSetLaws] and so on) that only the
    theorems which need them assume, and each has an instance in memory with which
    the witnesses run. Some interfaces are discharged within the development: the
    controller of FsController.v is an instance of [HostController] and, in
    BrainFiles.v, of [HostReturns], which the theorems on the brain assume; and the
    brain supplies the part of [ReceiverEnv] that decides on access
    (receiver_with_brain in BrainAccess.v). The client of the database is an instance
    of [FilerequestDb] and, beside the disk, of [FilerequestStore]; the brain supplies
    the [BrainChannel] of the API server. The runs of the event loop are shown to
    be sequences of operations of the tracker (node_refines_tracker), so that the
    invariant of the tracker holds in a running node.

    Loops: the loop of the replay window, of mark_done and of store empty or fill
    one slot per turn and get one unit of fuel more than there are slots; the
    sending loop of the tracker fills a slot of the window of eight per turn and
    gets nine; the search for an accessible directory tries at most 100 variants
    and gets 101; send_next recurses on the queue. Theorems on these loops show
    that they return, so the fuel is enough: the result [Diverge] does not occur in
    rolling_window_refines_set, send_manager_never_panics, honest_chunks_accepted,
    tracker_never_blocks and controller_new_returns.

    ** What is proved

    - Transfer: from any interleaving of sends, deliveries (delayed, reordered,
      repeated) and acknowledgements, the receiver never rejects a chunk, and when
      the sender reports the end the receiver has handed exactly the file to the part
      file; the disk may lack the last chunk, since nothing flushes the file before it
      is finalized (unflushed_tail).
    - Sending window: what is sent is a gapless numbering of a prefix of the file,
      the progress is that of the acknowledged prefix, no panic, no premature end.
    - Tracker: an invariant of all reachable states (by induction over the
      operations, the single critical sections of responses and the turns of the
      sending loops, in any interleaving); chunks
      go only to the contact they are meant for; every file stays tracked, is
      reported with one outcome or is lost, and the two ways to lose a file are
      counted (tracker_loses_files is an example); an operation blocks on its own
      lock in exactly two situations (tracker_deadlocks is an example), and every
      loop ends; the retry policy.
    - Receiver: what acceptance and completion presuppose, chunks of others are
      never written, peers do not affect each other.
    - Session encryption: the replay window refines a set of seen nonces, no nonce
      is accepted twice, cipher nonces are unique over both directions, and
      messages reordered within the window decrypt to what was sent.
    - Sessions: an honest handshake yields a working channel; nobody impersonates a
      contact whose keys the brain knows if signatures cannot be forged (on the
      handlers of the session manager, which look the keys up); waiting calls are
      served and end; a request is transmitted at most twice, has at most one outcome
      besides at most one timeout, and is reported if it is not answered in time. What the node registers its answer finds; one
      operation of the node, which is not called, breaks the contract of registries.
    - The disk: whatever names peers choose, the drive handler stays in its
      directories and destroys no file; where a finished file goes; the search for
      unused names agrees with its definition.
    - The brain: transfers are accepted only with access; each request is answered
      exactly once; readiness (and its deadlock); the keys of a device leave at
      most once per invite; the cleanup spares recent part files.
    - The running node: whatever arrives and however tasks interleave, the tracker does
      what the inputs call for and nothing else; every command is answered once, with
      an answer of its kind; after a restart the unfinished files are queued again,
      unless one of them has a peer id that cannot be read, which ends the process.
    - The database: in every state that messages and restarts lead to, constraints
      hold and all lists can be read (type); a message that fails changes nothing,
      apart from the one that stores keys and those for backups;
      filerequests, statuses of files, contacts and keys are read as they were
      stored; a deleted contact is in no audience; migrations stop only between
      steps and are resumed there. A theorem shows that one migration deletes the
      files that wait to be sent.
    - The API: every call is answered, with an answer of its type, and the three that can
      panic are named with their conditions; a call without the token or without a
      required argument changes nothing; what the frontend stores it reads, through server, brain and
      database; exported identities and contacts are imported unchanged.
    - Streams: a frontend gets the messages sent since it connected, in order and each
      once; only a frontend that does not read holds the registry up, and then it
      holds up everybody.
    - Notifications: the translation is that of the locale, of its language, or English;
      every notification has a text.
    - Containers and domain: both maps refine specifications by timestamps, up to what
      cleanup and waiting for the lock can show; names of part files and database
      columns round-trip; the retry interval and where its computation overflows.

    ** What is not modelled

    The construction of the swarm and the retrieval of the key pair at start
    (LocalEventLoop::new), and the declarations of libp2p behaviours, are calls of
    third-party code; so is the transport of the API (tonic), with its sockets and the
    encoding of messages. The mock server of core/src/core/api_server.rs has no
    behaviour. A call of [new_connection] of the stream registry that is cancelled
    before it returns is left out. The cipher, bincode, SQLite, libp2p, tokio and the
    generated gRPC code are third-party; Sql.v states the documented behaviour of
    SQLite that the laws of a connection refer to, for the statements of this program
    only. One step down of the migrations depends on an unspecified choice of SQLite
    and is left out. Brain::run and the daemon start the parts; logging is output
    only, and the track map (core/src/library/util/track_map.rs) is a HashMap that
    logs. *)

From stdpp Require Export base tactics option list numbers gmap strings.
From Stdlib Require Export ZArith Lia.

Declare Scope fyles_scope.
Delimit Scope fyles_scope with fyles.
#[global] Open Scope Z_scope.

(** ** Rust results *)

Inductive result (A E : Type) : Type :=
| Ok (a : A)
| Err (e : E).
Arguments Ok {A E} a.
Arguments Err {A E} e.

#[global] Instance result_eq_dec {A E} `{EqDecision A, EqDecision E} : EqDecision (result A E).
Proof. solve_decision. Defined.

(** [Result::ok] *)
Definition result_ok {A E} (r : result A E) : option A :=
  match r with Ok a => Some a | Err _ => None end.

Definition is_ok {A E} (r : result A E) : bool :=
  match r with Ok _ => true | Err _ => false end.

(** The operator [?] and [Result::map_err] *)
Definition res_bind {A B E} (m : result A E) (k : A -> result B E) : result B E :=
  match m with Ok a => k a | Err e => Err e end.

Notation "'let!' x ':=' m 'in' k" := (res_bind m (fun x => k))
  (at level 10, x pattern, m at level 100, k at level 200) : fyles_scope.

Definition result_map_err {A E E'} (f : E -> E') (r : result A E) : result A E' :=
  match r with Ok a => Ok a | Err e => Err (f e) end.

(** [Option::ok_or] *)
Definition ok_or {A E} (o : option A) (e : E) : result A E :=
  match o with Some a => Ok a | None => Err e end.

Lemma res_bind_Ok {A B E} (m : result A E) (k : A -> result B E) b :
  res_bind m k = Ok b -> exists a, m = Ok a /\ k a = Ok b.
Proof. destruct m; cbn; [eauto|done]. Qed.

(** ** Outcomes of effectful code

    [Ret] is a normal return; [Panic] a failed [expect], [assert!] or index;
    [Deadlock] a task that waits for a lock it already holds; [Diverge] the
    exhausted fuel of a loop, which the termination theorems rule out. *)
Inductive outcome (A : Type) : Type :=
| Ret (a : A)
| Panic
| Deadlock
| Diverge.
Arguments Ret {A} a.
Arguments Panic {A}.
Arguments Deadlock {A}.
Arguments Diverge {A}.

Definition outcome_bind {A B} (m : outcome A) (f : A -> outcome B) : outcome B :=
  match m with
  | Ret a => f a
  | Panic => Panic
  | Deadlock => Deadlock
  | Diverge => Diverge
  end.

Notation "'let?' x ':=' m 'in' k" := (outcome_bind m (fun x => k))
  (at level 10, x pattern, m at level 100, k at level 200) : fyles_scope.
#[global] Open Scope fyles_scope.

Definition unwrap_panic {A} (o : option A) : outcome A :=
  match o with Some a => Ret a | None => Panic end.

Lemma outcome_bind_ret {A B} (m : outcome A) (f : A -> outcome B) b :
  outcome_bind m f = Ret b -> exists a, m = Ret a /\ f a = Ret b.
Proof. destruct m; simpl; intros; try discriminate; eauto. Qed.

(** ** Machine integers

    The release profile of the workspace leaves overflow checks off, so the
    arithmetic of [u32], [u64] and [usize] wraps. *)
Definition u32_modulus : Z := 2 ^ 32.
Definition u64_modulus : Z := 2 ^ 64.
Definition wrap32 (z : Z) : Z := z mod u32_modulus.
Definition wrap64 (z : Z) : Z := z mod u64_modulus.
Definition u64_max : Z := u64_modulus - 1.

(** Of an [u64] [as i64], and back *)
Definition i64_modulus : Z := 2 ^ 63.
Definition as_i64 (z : Z) : Z := if z <? i64_modulus then z else z - u64_modulus.
Definition as_u64 (z : Z) : Z := wrap64 z.

Definition is_u32 (z : Z) : Prop := 0 <= z < u32_modulus.
Definition is_u64 (z : Z) : Prop := 0 <= z < u64_modulus.

Lemma wrap32_id z : is_u32 z -> wrap32 z = z.
Proof. unfold is_u32, wrap32. intros. by apply Z.mod_small. Qed.

Lemma wrap64_id z : is_u64 z -> wrap64 z = z.
Proof. unfold is_u64, wrap64. intros. by apply Z.mod_small. Qed.

Lemma wrap64_range z : is_u64 (wrap64 z).
Proof. unfold is_u64, wrap64, u64_modulus. apply Z.mod_pos_bound. lia. Qed.

Create HintDb fyles.
#[export] Hint Resolve wrap64_range : fyles.

(** ** Residues of a sliding window *)

(** Two numbers of one window of width [s] with the same residue are equal. *)
Lemma mod_inj_window s a b lb :
  0 < s -> lb <= a < lb + s -> lb <= b < lb + s -> a mod s = b mod s -> a = b.
Proof.
  intros Hs Ha Hb Hm.
  assert (a - b = s * (a / s - b / s)).
  { rewrite (Z.div_mod a s) at 1 by lia. rewrite (Z.div_mod b s) at 1 by lia. lia. }
  assert (a / s - b / s = 0) by nia. nia.
Qed.

Lemma mod_to_nat_lt s a : 0 < s -> (Z.to_nat (a mod s) < Z.to_nat s)%nat.
Proof. intros. pose proof (Z.mod_pos_bound a s). lia. Qed.

Lemma mod_to_nat_inj_window s a b lb :
  0 < s -> lb <= a < lb + s -> lb <= b < lb + s ->
  Z.to_nat (a mod s) = Z.to_nat (b mod s) -> a = b.
Proof.
  intros. apply (mod_inj_window s a b lb); auto.
  pose proof (Z.mod_pos_bound a s). pose proof (Z.mod_pos_bound b s). lia.
Qed.

Lemma mod_add_window s a : 0 < s -> (a + s) mod s = a mod s.
Proof. intros. rewrite <- (Z.mul_1_l s) at 1. apply Z.mod_add. lia. Qed.

(** ** Proof steps shared by the components *)

(** Case analysis on the scrutinee of a match or conditional in the goal. *)
Ltac case_goal :=
  match goal with
  | |- context [match ?x with _ => _ end] => destruct x eqn:?
  end.

(** The same on the hypothesis [H]. *)
Ltac case_hyp H :=
  match type of H with
  | context [match ?x with _ => _ end] => destruct x eqn:?
  end.

(** Booleans of integer comparisons into propositions. *)
Ltac bools :=
  repeat match goal with
  | H : _ && _ = true |- _ => apply andb_true_iff in H; destruct H
  | H : _ && _ = false |- _ => apply andb_false_iff in H
  | H : _ || _ = false |- _ => apply orb_false_iff in H; destruct H
  | H : negb _ = true |- _ => apply negb_true_iff in H
  | H : negb _ = false |- _ => apply negb_false_iff in H
  | H : (_ <? _) = true |- _ => apply Z.ltb_lt in H
  | H : (_ <? _) = false |- _ => apply Z.ltb_ge in H
  | H : (_ <=? _) = true |- _ => apply Z.leb_le in H
  | H : (_ <=? _) = false |- _ => apply Z.leb_gt in H
  | H : (_ =? _) = true |- _ => apply Z.eqb_eq in H
  | H : (_ =? _) = false |- _ => apply Z.eqb_neq in H
  | H : bool_decide _ = true |- _ => apply bool_decide_eq_true in H
  | H : bool_decide _ = false |- _ => apply bool_decide_eq_false in H
  end.
