(* ===== verification/NonceWindow.v ===== *)
(** * Nonces of a session (crypto/src/rolling_nonce_window.rs)

    The replay window of received nonces, over the [BitStore] interface and its
    [Vec<bool>] implementation, and the generator of send nonces. *)

From S2P Require Import Prelude.

(** ** Definitions *)

(** [U64_HALF] *)
Definition U64_HALF : Z := u64_max / 2.

(** [fn modulo] *)
Definition modulo (nonce : Z) (window_size : nat) : nat :=
  Z.to_nat (nonce mod Z.of_nat window_size).

(** [trait BitStore] *)
Class BitStore (T : Type) := {
  size : T -> nat;
  get_invalidate_at : T -> nat -> bool * T;
  validate_at : T -> nat -> bool * T;
}.

Inductive BitStoreError :=
| OutOfBoundsAccess (tried min max : Z)
| RepeatedAccess (nonce : Z).

(** [impl BitStore for Vec<bool>] *)
Definition vec_get_invalidate_at (v : list bool) (index : nat) : bool * list bool :=
  match (v !! index : option bool) with
  | Some validity => (validity, <[index := false]> v)
  | None => (false, v)
  end.

Definition vec_validate_at (v : list bool) (index : nat) : bool * list bool :=
  match (v !! index : option bool) with
  | Some validity => if validity then (false, v) else (true, <[index := true]> v)
  | None => (false, v)
  end.

#[export] Instance vec_bool_BitStore : BitStore (list bool) := {
  size := @length bool;
  get_invalidate_at := vec_get_invalidate_at;
  validate_at := vec_validate_at;
}.

(** [struct RollingNonceWindow] *)
Record RollingNonceWindow (T : Type) := mk_window {
  lower_bound : Z;
  window : T;
}.
Arguments mk_window {T}.
Arguments lower_bound {T}.
Arguments window {T}.

Section Validator.
Context {T : Type} `{BitStore T}.

Definition is_in_bounds (self : RollingNonceWindow T) (nonce : Z) : bool :=
  (lower_bound self <=? nonce)
  && (nonce <? wrap64 (lower_bound self + Z.of_nat (size (window self)))).

(** The [while] loop of [is_valid]: revalidate slots while they were used. *)
Fixpoint revalidate (fuel : nat) (nonce : Z) (w : T) : outcome (Z * T) :=
  match fuel with
  | O => Diverge
  | S fuel =>
      let '(changed, w') := validate_at w (modulo nonce (size w)) in
      if changed then revalidate fuel (wrap64 (nonce + 1)) w' else Ret (nonce, w')
  end.

Definition is_valid (self : RollingNonceWindow T) (nonce : Z)
  : outcome (result unit BitStoreError * RollingNonceWindow T) :=
  if negb (is_in_bounds self nonce) then
    Ret (Err (OutOfBoundsAccess nonce (lower_bound self)
                (wrap64 (lower_bound self + Z.of_nat (size (window self))))), self)
  else
    let '(valid, w) := get_invalidate_at (window self) (modulo nonce (size (window self))) in
    if negb valid then
      Ret (Err (RepeatedAccess nonce), mk_window (lower_bound self) w)
    else if nonce =? lower_bound self then
      let? (n, w') := revalidate (S (size w)) nonce w in
      Ret (Ok tt, mk_window n w')
    else Ret (Ok tt, mk_window (lower_bound self) w).

End Validator.

(** [struct NonceGeneratorValidator] *)
Record NonceGeneratorValidator (T : Type) := mk_ngv {
  used_nonce_counter : Z;
  is_initiator_session : bool;
  validator : RollingNonceWindow T;
}.
Arguments mk_ngv {T}.
Arguments used_nonce_counter {T}.
Arguments is_initiator_session {T}.
Arguments validator {T}.

(** [NonceGenerationError::NonceSpaceExhausted] *)
Inductive NonceGenerationError := NonceSpaceExhausted (space_bits : Z).

Definition get_next_send_nonce {T} (self : NonceGeneratorValidator T)
  : result Z NonceGenerationError * NonceGeneratorValidator T :=
  if used_nonce_counter self =? U64_HALF then (Err (NonceSpaceExhausted 63), self)
  else
    let nonce := used_nonce_counter self in
    let self' := mk_ngv (wrap64 (used_nonce_counter self + 1))
                   (is_initiator_session self) (validator self) in
    if is_initiator_session self then (Ok nonce, self')
    else (Ok (wrap64 (nonce + U64_HALF)), self').

Definition validate {T} `{BitStore T} (self : NonceGeneratorValidator T) (nonce : Z)
  : outcome (result unit BitStoreError * NonceGeneratorValidator T) :=
  let? (r, v) := is_valid (validator self)
                   (if is_initiator_session self then wrap64 (nonce - U64_HALF) else nonce) in
  Ret (r, mk_ngv (used_nonce_counter self) (is_initiator_session self) v).

Definition new_rolling_nonce_window : RollingNonceWindow (list bool) :=
  mk_window 0 (replicate 100 true).

Definition new_nonce_generator_validator_for_session_initiator
  : NonceGeneratorValidator (list bool) := mk_ngv 0 true new_rolling_nonce_window.

Definition new_nonce_generator_validator_for_session_responder
  : NonceGeneratorValidator (list bool) := mk_ngv 0 false new_rolling_nonce_window.

(** ** What a bit store promises *)

(** [bit w i] is the truth value stored at index [i]. *)
Class BitStoreLaws (T : Type) `{BitStore T} := {
  bit : T -> nat -> bool;
  get_invalidate_result w i : (i < size w)%nat -> (get_invalidate_at w i).1 = bit w i;
  get_invalidate_size w i : size (get_invalidate_at w i).2 = size w;
  get_invalidate_bit w i j : (i < size w)%nat ->
    bit (get_invalidate_at w i).2 j = if decide (i = j) then false else bit w j;
  validate_result w i : (i < size w)%nat -> (validate_at w i).1 = negb (bit w i);
  validate_size w i : size (validate_at w i).2 = size w;
  validate_bit w i j : (i < size w)%nat ->
    bit (validate_at w i).2 j = if decide (i = j) then true else bit w j;
}.

#[export] Program Instance vec_bool_laws : BitStoreLaws (list bool) :=
  {| bit := fun v i => default false (v !! i) |}.
Next Obligation.
  intros v i Hi; simpl in *. unfold vec_get_invalidate_at.
  by destruct (lookup_lt_is_Some_2 v i Hi) as [b ->].
Qed.
Next Obligation.
  intros v i; simpl in *. unfold vec_get_invalidate_at.
  destruct (v !! i); simpl; by rewrite ?length_insert.
Qed.
Next Obligation.
  intros v i j Hi; simpl in *. unfold vec_get_invalidate_at.
  destruct (lookup_lt_is_Some_2 v i Hi) as [b Hb]; rewrite Hb; simpl.
  case_decide; subst; [by rewrite list_lookup_insert_eq | by rewrite list_lookup_insert_ne].
Qed.
Next Obligation.
  intros v i Hi; simpl in *. unfold vec_validate_at.
  by destruct (lookup_lt_is_Some_2 v i Hi) as [[] ->].
Qed.
Next Obligation.
  intros v i; simpl in *. unfold vec_validate_at.
  destruct (v !! i) as [[]|]; simpl; by rewrite ?length_insert.
Qed.
Next Obligation.
  intros v i j Hi; simpl in *. unfold vec_validate_at.
  destruct (lookup_lt_is_Some_2 v i Hi) as [[] Hb]; rewrite Hb; simpl;
    case_decide; subst; rewrite ?Hb; auto;
    [by rewrite list_lookup_insert_eq | by rewrite list_lookup_insert_ne].
Qed.

(** ** The window refines a set of accepted nonces *)

Section Refinement.
Context {T : Type} `{BitStoreLaws T}.

Definition zsize (w : T) : Z := Z.of_nat (size w).

(** The slots of the window starting at [n] tell which nonces are in [seen]. *)
Definition slots_match (seen : gset Z) (n : Z) (w : T) : Prop :=
  forall m, n <= m < n + zsize w -> bit w (modulo m (size w)) = bool_decide (m ∉ seen).

(** Abstract state: the set of nonces accepted so far; [lower_bound] is its
    least missing number and nothing beyond the window was accepted. *)
Record window_rep (seen : gset Z) (self : RollingNonceWindow T) : Prop := {
  rep_size : 0 < zsize (window self);
  rep_lb : 0 <= lower_bound self;
  rep_below : forall m, 0 <= m < lower_bound self -> m ∈ seen;
  rep_least : lower_bound self ∉ seen;
  rep_above : forall m, m ∈ seen -> 0 <= m < lower_bound self + zsize (window self);
  rep_slots : slots_match seen (lower_bound self) (window self);
}.

Lemma modulo_lt n w : 0 < zsize w -> (modulo n (size w) < size w)%nat.
Proof. unfold zsize, modulo. intros. pose proof (mod_to_nat_lt (Z.of_nat (size w)) n). lia. Qed.

Lemma modulo_inj lb a b w :
  0 < zsize w -> lb <= a < lb + zsize w -> lb <= b < lb + zsize w ->
  modulo a (size w) = modulo b (size w) -> a = b.
Proof. unfold zsize, modulo. intros. by eapply mod_to_nat_inj_window. Qed.

Lemma modulo_shift n w : 0 < zsize w -> modulo (n + zsize w) (size w) = modulo n (size w).
Proof. unfold zsize, modulo. intros. by rewrite mod_add_window. Qed.

(** The loop stops at the least missing number, revalidating what it passed. *)
Lemma revalidate_spec fuel n lb0 (seen : gset Z) w :
  0 < zsize w -> 0 <= lb0 -> lb0 <= n <= lb0 + zsize w ->
  lb0 + zsize w < u64_modulus ->
  (forall m, m ∈ seen -> 0 <= m < lb0 + zsize w) ->
  (forall m, 0 <= m < n -> m ∈ seen) ->
  slots_match seen n w ->
  lb0 + zsize w - n < Z.of_nat fuel ->
  exists n' w', revalidate fuel n w = Ret (n', w') /\ n <= n' /\ size w' = size w /\
    window_rep seen (mk_window n' w').
Proof.
  revert n w. induction fuel as [|fuel IH]; intros n w Hs Hlb Hn Hmax Habove Hbelow Hm Hf; [lia|].
  simpl. pose proof (modulo_lt n w Hs) as Hi.
  pose proof (validate_result w _ Hi) as Hr. pose proof (validate_size w (modulo n (size w))) as Hsz.
  pose proof (fun j => validate_bit w _ j Hi) as Hb.
  destruct (validate_at w (modulo n (size w))) as [changed w1] eqn:Hv. simpl in *.
  assert (Hz : zsize w1 = zsize w) by (unfold zsize; congruence).
  rewrite (Hm n) in Hr by lia.
  destruct changed.
  - symmetry in Hr. bools. assert (n ∈ seen) as Hin by (destruct (decide (n ∈ seen)); tauto).
    pose proof (Habove n Hin). rewrite wrap64_id by (unfold is_u64; lia).
    destruct (IH (n + 1) w1) as (n' & w' & E & Hle & Hs' & Hrep); rewrite ?Hz; auto; try lia.
    + intros m Hm'. destruct (decide (m = n)) as [->|]; [done|apply Hbelow; lia].
    + intros m Hm'. rewrite Hz in Hm'. rewrite Hsz, Hb. case_decide as Hd.
      * assert (m = n + zsize w).
        { apply (modulo_inj (n + 1) _ _ w); try lia. by rewrite modulo_shift. }
        subst m. symmetry. apply bool_decide_eq_true. intros Hc. apply Habove in Hc. lia.
      * apply Hm. destruct (decide (m = n + zsize w)) as [->|]; [|lia].
        by rewrite modulo_shift in Hd.
    + exists n', w'. split; [done|]. split; [lia|]. split; [congruence|done].
  - symmetry in Hr. bools. exists n, w1. split; [done|]. split; [lia|]. split; [done|].
    split; simpl; rewrite ?Hz; auto; try lia.
    + intros m Hin. apply Habove in Hin. lia.
    + intros m Hm'. rewrite Hz in Hm'. rewrite Hsz, Hb. case_decide as Hd; [|by apply Hm].
      assert (m = n) as -> by (symmetry; apply (modulo_inj n _ _ w); try lia; done).
      by symmetry; apply bool_decide_eq_true.
Qed.

#[local] Arguments revalidate : simpl never.

Lemma in_bounds_iff self n :
  is_u64 (lower_bound self + zsize (window self)) ->
  is_in_bounds self n = true <-> lower_bound self <= n < lower_bound self + zsize (window self).
Proof.
  intros Hmax. unfold is_in_bounds. fold (zsize (window self)). rewrite wrap64_id by done.
  rewrite andb_true_iff, Z.leb_le, Z.ltb_lt. lia.
Qed.

(** What [is_valid] does to the abstract set. *)
Definition valid_spec (seen : gset Z) (self : RollingNonceWindow T) (n : Z)
    (r : result unit BitStoreError) (self' : RollingNonceWindow T) : Prop :=
  let lb := lower_bound self in
  let s := zsize (window self) in
  size (window self') = size (window self) /\
  match r with
  | Ok _ => lb <= n < lb + s /\ (n ∉ seen) /\ window_rep ({[n]} ∪ seen) self'
  | Err (RepeatedAccess m) => m = n /\ n ∈ seen /\ lb <= n /\ window_rep seen self'
  | Err (OutOfBoundsAccess t mn mx) =>
      t = n /\ mn = lb /\ mx = lb + s /\ (n < lb \/ lb + s <= n) /\ self' = self
  end.

(** Clearing the slot of an in-window nonce records it in the set. *)
Lemma invalidate_slots seen n m w :
  0 < zsize w -> n <= m < n + zsize w -> slots_match seen n w ->
  slots_match ({[m]} ∪ seen) n (get_invalidate_at w (modulo m (size w))).2.
Proof.
  intros Hs Hm Hmatch k. unfold zsize. rewrite get_invalidate_size. fold (zsize w). intros Hk.
  rewrite get_invalidate_bit by by apply modulo_lt. case_decide as Hd.
  - assert (k = m) as -> by (symmetry; by apply (modulo_inj n _ _ w)).
    symmetry; apply bool_decide_eq_false. set_solver.
  - rewrite Hmatch by done. apply bool_decide_ext. assert (k <> m) by congruence. set_solver.
Qed.

Lemma is_valid_spec seen self n :
  window_rep seen self -> lower_bound self + zsize (window self) < u64_modulus ->
  exists r self', is_valid self n = Ret (r, self') /\ valid_spec seen self n r self'.
Proof.
  intros [Hs Hlb Hbelow Hleast Habove Hslots] Hmax. unfold is_valid, valid_spec.
  assert (is_u64 (lower_bound self + zsize (window self))) as Hu by (unfold is_u64; lia).
  pose proof (in_bounds_iff self n Hu) as Hin. fold (zsize (window self)).
  destruct (is_in_bounds self n); simpl.
  2:{ do 2 eexists. split; [done|]. simpl. rewrite wrap64_id by done.
      do 4 (split; [done|]). split; [|done].
      destruct (decide (lower_bound self <= n < lower_bound self + zsize (window self)))
        as [Hc|]; [apply Hin in Hc; discriminate|lia]. }
  destruct Hin as [Hin _]. specialize (Hin eq_refl).
  pose proof (modulo_lt n _ Hs) as Hi.
  pose proof (get_invalidate_result _ _ Hi) as Hr.
  pose proof (get_invalidate_size (window self) (modulo n (size (window self)))) as Hsz.
  pose proof (invalidate_slots seen _ n _ Hs Hin Hslots) as Hslots'.
  destruct (get_invalidate_at _ _) as [valid w]; simpl in *.
  assert (Hz : zsize w = zsize (window self)) by (unfold zsize; congruence).
  rewrite Hslots in Hr by done. subst valid.
  destruct (decide (n ∈ seen)) as [Hseen|Hseen].
  - rewrite bool_decide_eq_false_2 by tauto. simpl. do 2 eexists. split; [done|].
    do 4 (split; [done || lia|]). split; simpl; rewrite ?Hz; auto.
    assert ({[n]} ∪ seen = seen) as Heq by set_solver. by rewrite Heq in Hslots'.
  - rewrite bool_decide_eq_true_2 by done. simpl.
    destruct (Z.eqb_spec n (lower_bound self)) as [->|Hne].
    + destruct (revalidate_spec (S (size w)) (lower_bound self) (lower_bound self)
        ({[lower_bound self]} ∪ seen) w) as (n' & w' & E & Hle & Hs' & Hrep);
        rewrite ?Hz; auto; try lia.
      * set_solver by lia.
      * set_solver.
      * unfold zsize in *. lia.
      * rewrite E. simpl. do 2 eexists. split; [done|]. simpl.
        split; [congruence|]. split; [lia|]. done.
    + do 2 eexists. split; [done|]. simpl. split; [done|]. split; [lia|]. split; [done|].
      split; simpl; rewrite ?Hz; auto; set_solver by lia.
Qed.

(** A representation never lies beyond the nonces it accepted. *)
Lemma rep_lb_bound seen self B :
  window_rep seen self -> (forall m, m ∈ seen -> m < B) -> 0 <= B -> lower_bound self <= B.
Proof.
  intros [? ? Hbelow] HB ?. destruct (decide (lower_bound self = 0)); [lia|].
  assert (lower_bound self - 1 ∈ seen) as Hin by (apply Hbelow; lia).
  apply HB in Hin. lia.
Qed.

End Refinement.

(** Process incoming nonces in order and collect the accepted ones. *)
Fixpoint accept_all {T} `{BitStore T} (self : RollingNonceWindow T) (ns : list Z)
  : outcome (list Z * RollingNonceWindow T) :=
  match ns with
  | [] => Ret ([], self)
  | n :: ns =>
      let? (r, self') := is_valid self n in
      let? (acc, self'') := accept_all self' ns in
      Ret (if is_ok r then n :: acc else acc, self'')
  end.

Lemma fresh_window_rep n : (0 < n)%nat -> window_rep ∅ (mk_window 0 (replicate n true)).
Proof.
  intros Hn. assert (0 < zsize (replicate n true)) as Hs.
  { unfold zsize; simpl. rewrite length_replicate. lia. }
  split; cbn [lower_bound window]; auto; try set_solver by lia.
  intros m Hm. rewrite bool_decide_eq_true_2 by set_solver.
  pose proof (modulo_lt m _ Hs) as Hi. cbn [bit vec_bool_laws size vec_bool_BitStore] in *.
  rewrite length_replicate in *. by rewrite lookup_replicate_2.
Qed.

Lemma new_window_rep : window_rep ∅ new_rolling_nonce_window.
Proof. apply (fresh_window_rep 100). lia. Qed.

(** A sequence of nonces below [B] runs without panic; what is accepted is
    exactly added to the abstract set, once. *)
Lemma accept_all_spec {T} `{BitStoreLaws T} ns seen (self : RollingNonceWindow T) B :
  window_rep seen self -> (forall m, m ∈ seen -> m < B) -> Forall (fun n => n < B) ns ->
  0 <= B -> B + zsize (window self) < u64_modulus ->
  exists acc self', accept_all self ns = Ret (acc, self') /\
    NoDup acc /\ (forall m, m ∈ acc -> m ∉ seen) /\
    window_rep (list_to_set acc ∪ seen) self' /\ size (window self') = size (window self).
Proof.
  intros Hrep HB Hns HB0 Hmax. revert seen self Hrep HB Hmax.
  induction Hns as [|n ns Hn Hns IH]; intros seen self Hrep HB Hmax; cbn [accept_all].
  - exists [], self. split; [done|]. split; [apply NoDup_nil_2|]. split; [set_solver|].
    assert ((list_to_set [] : gset Z) ∪ seen = seen) as -> by set_solver. done.
  - pose proof (rep_lb_bound _ _ _ Hrep HB HB0).
    destruct (is_valid_spec seen self n Hrep) as (r & self1 & E & Hsz & Hspec); [lia|].
    assert (Hz : zsize (window self1) = zsize (window self)) by (unfold zsize; congruence).
    rewrite E. cbn [outcome_bind].
    destruct r as [[]|e]; cbn [is_ok].
    + destruct Hspec as (Hin & Hnew & Hrep1).
      destruct (IH ({[n]} ∪ seen) self1) as (acc & self2 & E2 & Hnd & Hfr & Hrep2 & Hs2);
        [done|set_solver|lia|].
      rewrite E2. cbn [outcome_bind]. exists (n :: acc), self2.
      split; [done|]. split; [constructor; [|done]; set_solver|]. split; [set_solver|].
      assert ((list_to_set (n :: acc) : gset Z) ∪ seen = list_to_set acc ∪ ({[n]} ∪ seen)) as -> by set_solver.
      split; [done|congruence].
    + assert (window_rep seen self1) as Hrep1.
      { destruct e; [destruct Hspec as (?&?&?&?&->)|destruct Hspec as (?&?&?&?)]; done. }
      destruct (IH seen self1 Hrep1 HB) as (acc & self2 & E2 & ? & ? & ? & ?); [lia|].
      rewrite E2. cbn [outcome_bind]. exists acc, self2. do 4 (split; [done|]). congruence.
Qed.

(** Lists in which every number comes after all numbers [s] or more below it. *)
Definition reordered_within (s : Z) (ns : list Z) : Prop :=
  NoDup ns /\
  forall l1 n l2, ns = l1 ++ n :: l2 -> 0 <= n /\ forall m, 0 <= m <= n - s -> m ∈ l1.

Lemma accept_all_reordered ns done_ (self : RollingNonceWindow (list bool)) B :
  window_rep (list_to_set done_) self -> Forall (fun n => n < B) (done_ ++ ns) ->
  0 <= B -> B + zsize (window self) < u64_modulus ->
  reordered_within (zsize (window self)) (done_ ++ ns) ->
  exists self', accept_all self ns = Ret (ns, self').
Proof.
  revert done_ self. induction ns as [|n ns IH]; intros pre self Hrep HB HB0 Hmax Hre; [by exists self|].
  cbn [accept_all]. destruct Hre as [Hnd Hre].
  assert (lower_bound self <= B) as Hlb.
  { apply (rep_lb_bound _ _ _ Hrep); [|done]. intros m Hm. rewrite Forall_forall in HB.
    apply HB. set_solver. }
  destruct (Hre pre n ns eq_refl) as [Hn0 Hbefore].
  destruct (is_valid_spec _ self n Hrep) as (r & self1 & E & Hsz & Hspec); [lia|].
  assert (Hz : zsize (window self1) = zsize (window self)) by (unfold zsize; congruence).
  assert (n ∉ pre) as Hfresh by (apply NoDup_app in Hnd; set_solver).
  rewrite E. cbn [outcome_bind].
  destruct r as [[]|[t mn mx|t]]; cbn [is_ok].
  - destruct Hspec as (Hin & Hnew & Hrep1).
    destruct (IH (pre ++ [n]) self1) as [self2 E2]; rewrite ?Hz, <- ?app_assoc; auto.
    { assert (list_to_set (pre ++ [n]) = {[n]} ∪ (list_to_set pre : gset Z)) as -> by set_solver. done. }
    { by split. }
    rewrite E2. by exists self2.
  - exfalso. destruct Hspec as (-> & -> & -> & [Hlt|Hge] & ->).
    + assert (n ∈ (list_to_set pre : gset Z)) by (apply (rep_below _ _ Hrep); lia). set_solver.
    + apply (rep_least _ _ Hrep). pose proof (rep_lb _ _ Hrep).
      assert (lower_bound self ∈ pre) by (apply Hbefore; lia). set_solver.
  - exfalso. destruct Hspec as (-> & Hc & _). set_solver.
Qed.

(** ** The send nonces *)

(** The state of a session after [k] sends, and its [k]-th send nonce. *)
Fixpoint after_sends {T} (k : nat) (g : NonceGeneratorValidator T) : NonceGeneratorValidator T :=
  match k with O => g | S k => after_sends k (get_next_send_nonce g).2 end.

Definition nth_send_nonce {T} (g : NonceGeneratorValidator T) (k : nat) :=
  (get_next_send_nonce (after_sends k g)).1.

(** A fresh session of either role. *)
Definition fresh_session (initiator : bool) : NonceGeneratorValidator (list bool) :=
  if initiator then new_nonce_generator_validator_for_session_initiator
  else new_nonce_generator_validator_for_session_responder.

Lemma U64_HALF_val : U64_HALF = 2 ^ 63 - 1.
Proof. reflexivity. Qed.

Lemma after_sends_counter {T} k (g : NonceGeneratorValidator T) :
  0 <= used_nonce_counter g <= U64_HALF ->
  used_nonce_counter (after_sends k g) = Z.min (used_nonce_counter g + Z.of_nat k) U64_HALF /\
  is_initiator_session (after_sends k g) = is_initiator_session g.
Proof.
  rewrite U64_HALF_val. revert g. induction k as [|k IH]; intros g Hg; cbn [after_sends]; [split; [lia|done]|].
  assert (0 <= used_nonce_counter (get_next_send_nonce g).2 <= 2 ^ 63 - 1 /\
    used_nonce_counter (get_next_send_nonce g).2 = Z.min (used_nonce_counter g + 1) (2 ^ 63 - 1) /\
    is_initiator_session (get_next_send_nonce g).2 = is_initiator_session g) as (H1 & H2 & H3).
  { unfold get_next_send_nonce. rewrite U64_HALF_val.
    destruct (Z.eqb_spec (used_nonce_counter g) (2 ^ 63 - 1)); simpl; [split_and!; lia || done|].
    destruct (is_initiator_session g) eqn:?; simpl;
      rewrite wrap64_id by (unfold is_u64, u64_modulus; lia); split_and!; lia || done. }
  destruct (IH _ H1) as [-> ->]. rewrite H2. split; [lia|done].
Qed.

Lemma nth_send_nonce_val role k :
  nth_send_nonce (fresh_session role) k =
    if Z.of_nat k <? U64_HALF
    then Ok (if role then Z.of_nat k else Z.of_nat k + U64_HALF)
    else Err (NonceSpaceExhausted 63).
Proof.
  unfold nth_send_nonce.
  assert (used_nonce_counter (fresh_session role) = 0) as H0 by by destruct role.
  destruct (after_sends_counter k (fresh_session role)) as [Hc Hi]; [rewrite H0; by vm_compute|].
  unfold get_next_send_nonce. rewrite Hc, Hi, H0, Z.add_0_l, U64_HALF_val.
  destruct (Z.ltb_spec (Z.of_nat k) (2 ^ 63 - 1)).
  - rewrite Z.min_l by lia. destruct (Z.eqb_spec (Z.of_nat k) (2 ^ 63 - 1)); [lia|].
    destruct role; simpl; [done|]. rewrite wrap64_id by (unfold is_u64, u64_modulus; lia). done.
  - rewrite Z.min_r by lia. by rewrite Z.eqb_refl.
Qed.

(** Nonces of the two peers never coincide. *)
Lemma nth_send_nonce_inj (role1 role2 : bool) (i j : nat) (n : Z) :
  nth_send_nonce (fresh_session role1) i = Ok n ->
  nth_send_nonce (fresh_session role2) j = Ok n ->
  role1 = role2 /\ i = j.
Proof.
  rewrite !nth_send_nonce_val, !U64_HALF_val.
  destruct (Z.ltb_spec (Z.of_nat i) (2 ^ 63 - 1)); [|discriminate].
  destruct (Z.ltb_spec (Z.of_nat j) (2 ^ 63 - 1)); [|discriminate].
  intros [= <-] [= E]. destruct role1, role2; split; lia || done.
Qed.

(** Validating the [k]-th nonce of the peer looks up number [k] in the window. *)
Lemma validate_peer_nonce {T} `{BitStore T} (g : NonceGeneratorValidator T) k :
  Z.of_nat k < U64_HALF ->
  validate g (if is_initiator_session g then Z.of_nat k + U64_HALF else Z.of_nat k) =
    let? (r, v) := is_valid (validator g) (Z.of_nat k) in
    Ret (r, mk_ngv (used_nonce_counter g) (is_initiator_session g) v).
Proof.
  rewrite U64_HALF_val. intros Hk. unfold validate. rewrite U64_HALF_val.
  destruct (is_initiator_session g); [|done].
  replace (Z.of_nat k + (2 ^ 63 - 1) - (2 ^ 63 - 1)) with (Z.of_nat k) by lia.
  by rewrite wrap64_id by (unfold is_u64, u64_modulus; lia).
Qed.

(** ** Properties *)

(** C5 (refinement). The rolling window implements a set of accepted nonces:
    for every bit store, a nonce is accepted exactly when it lies in the window
    that starts at the least unseen nonce and was not accepted before, and is
    then added to the set; an earlier nonce in the window is reported as
    repeated, any other as out of bounds, and both leave the set unchanged. The
    revalidation loop terminates. *)
Theorem rolling_window_refines_set {T} `{BitStoreLaws T} (seen : gset Z)
    (self : RollingNonceWindow T) (n : Z) :
  window_rep seen self -> lower_bound self + zsize (window self) < u64_modulus ->
  exists r self', is_valid self n = Ret (r, self') /\ valid_spec seen self n r self'.
Proof. apply is_valid_spec. Qed.

Lemma rolling_window_refines_set_witness :
  exists r self', is_valid new_rolling_nonce_window 7 = Ret (r, self') /\
    valid_spec ∅ new_rolling_nonce_window 7 r self'.
Proof. apply rolling_window_refines_set; [apply new_window_rep | by vm_compute]. Defined.

(** No replay: whatever nonces arrive, in whatever order, a fresh
    session accepts no nonce twice, and processing them never panics. The bound
    keeps the window below the end of the [u64] range. *)
Theorem accepted_nonces_are_distinct (ns : list Z) :
  Forall (fun n => n < u64_modulus - 200) ns ->
  exists acc self', accept_all new_rolling_nonce_window ns = Ret (acc, self') /\ NoDup acc.
Proof.
  intros Hns.
  destruct (accept_all_spec ns ∅ new_rolling_nonce_window (u64_modulus - 200) new_window_rep)
    as (acc & self' & E & Hnd & _); eauto; try set_solver; by vm_compute.
Qed.

Lemma accepted_nonces_are_distinct_witness :
  exists acc self', accept_all new_rolling_nonce_window [2; 0; 2; 1; 150; 0] = Ret (acc, self') /\ NoDup acc.
Proof. apply accepted_nonces_are_distinct. repeat constructor. Defined.

(** Tolerated reordering: if every nonce arrives after all
    nonces that are 100 or more below it, no nonce is rejected. *)
Theorem reordering_within_window_is_accepted (ns : list Z) :
  Forall (fun n => n < u64_modulus - 200) ns -> reordered_within 100 ns ->
  exists self', accept_all new_rolling_nonce_window ns = Ret (ns, self').
Proof.
  intros Hns Hre.
  apply (accept_all_reordered ns [] _ (u64_modulus - 200)); auto; try by vm_compute.
  apply new_window_rep.
Qed.

Lemma reordering_within_window_is_accepted_witness :
  exists self', accept_all new_rolling_nonce_window [3; 0; 2; 1] = Ret ([3; 0; 2; 1], self').
Proof.
  apply reordering_within_window_is_accepted; [repeat constructor|].
  split; [apply (bool_decide_unpack _); by vm_compute|].
  intros l1 n l2 E. assert (n ∈ [3; 0; 2; 1]) as Hn by (rewrite E; set_solver).
  assert (n = 3 \/ n = 0 \/ n = 2 \/ n = 1) by set_solver. split; intros; lia.
Defined.

(** Split of the nonce space: the [k]-th nonce an initiator
    sends is [k] and a responder's is [k + U64_HALF]; after [U64_HALF] sends
    both report exhaustion and never wrap around. *)
Theorem send_nonce_values (role : bool) (k : nat) :
  nth_send_nonce (fresh_session role) k =
    if Z.of_nat k <? U64_HALF
    then Ok (if role then Z.of_nat k else Z.of_nat k + U64_HALF)
    else Err (NonceSpaceExhausted 63).
Proof. apply nth_send_nonce_val. Qed.

(** A reflected message is rejected: a nonce that the session
    itself sent is out of bounds of its own receive window, also when the
    initiator's subtraction wraps around. *)
Theorem reflected_nonce_rejected {T} `{BitStoreLaws T} (g : NonceGeneratorValidator T)
    (seen : gset Z) (k : nat) :
  window_rep seen (validator g) ->
  lower_bound (validator g) + zsize (window (validator g)) <= U64_HALF ->
  Z.of_nat k < U64_HALF ->
  exists t mn mx,
    validate g (if is_initiator_session g then Z.of_nat k else Z.of_nat k + U64_HALF) =
      Ret (Err (OutOfBoundsAccess t mn mx), g).
Proof.
  rewrite U64_HALF_val. intros Hrep Hlb Hk. unfold validate. rewrite U64_HALF_val.
  set (m := if is_initiator_session g then _ else _).
  assert (2 ^ 63 - 1 <= m) as Hm.
  { subst m. destruct (is_initiator_session g); [|lia].
    unfold wrap64, u64_modulus. rewrite <- (Z.mod_add _ 1) by lia. rewrite Z.mod_small; lia. }
  destruct (is_valid_spec seen (validator g) m Hrep) as (r & v & E & Hsz & Hs);
    [unfold u64_modulus; lia|].
  rewrite E. destruct r as [[]|[t mn mx|t]]; simpl in *.
  - lia.
  - destruct Hs as (-> & -> & -> & _ & ->). destruct g; eauto.
  - destruct Hs as (-> & Hin & _). apply (rep_above _ _ Hrep) in Hin. lia.
Qed.

Lemma reflected_nonce_rejected_witness :
  exists t mn mx, validate (fresh_session true) 5 = Ret (Err (OutOfBoundsAccess t mn mx), fresh_session true).
Proof. apply (reflected_nonce_rejected (fresh_session true) ∅ 5); [apply new_window_rep|by vm_compute|by vm_compute]. Defined.
