(* ===== verification/Dencryptor.v ===== *)
(** * Message encryption of a session (crypto/src/lib.rs)

    [Dencryptor] couples an AEAD cipher with the nonce state of NonceWindow.v;
    [Encrypt] and [Decrypt] add the serialization. The cipher (ChaCha20-Poly1305)
    and the serializer (bincode) are third-party code and enter as classes whose
    laws state that decryption inverts encryption and decoding inverts encoding. *)

From S2P Require Import Prelude NonceWindow.

Abbreviation bytes := (list Z).

(** [u64::to_le_bytes] of width [n]. *)
Fixpoint le_bytes (n : nat) (z : Z) : bytes :=
  match n with O => [] | S n => (z mod 256) :: le_bytes n (z / 256) end.

(** The 12 byte nonce of the cipher: the [u64] and four zero bytes. *)
Definition nonce_vec (nonce : Z) : bytes := le_bytes 8 nonce ++ [0; 0; 0; 0].

(** The [Aead] trait of the cipher crate. *)
Class Aead (K : Type) := {
  aead_encrypt : K -> bytes -> bytes -> option bytes;
  aead_decrypt : K -> bytes -> bytes -> option bytes;
}.

Class AeadLaws (K : Type) `{Aead K} := {
  aead_decrypt_encrypt k n p c : aead_encrypt k n p = Some c -> aead_decrypt k n c = Some p;
}.

(** [serde] with the bincode configuration. *)
Class Bincode (P : Type) := {
  encode_to_vec : P -> option bytes;
  decode_from_slice : bytes -> option (P * nat);
}.

Class BincodeLaws (P : Type) `{Bincode P} := {
  decode_encode p b : encode_to_vec p = Some b -> exists n, decode_from_slice b = Some (p, n);
}.

Inductive EncryptionError :=
| EncNonceGenerationError (e : NonceGenerationError)
| EncryptionFailure.

Inductive DecryptionError :=
| NonceValidationError (e : BitStoreError)
| DecryptionFailure.

Inductive SerCryptError :=
| SelializationError
| SerEncryptionError (e : EncryptionError).

Inductive DeSerCryptError :=
| DeserializationError
| DeSerDecryptionError (e : DecryptionError).

(** [struct Encrypted<T>] (the phantom type parameter is erased) *)
Record Encrypted := mk_encrypted { enc_nonce : Z; enc_message : bytes }.

(** [struct EncryptAndNonce] *)
Record EncryptAndNonce := mk_ean { ean_encrypted : bytes; ean_nonce : Z }.

(** [struct Dencryptor] *)
Record Dencryptor (K T : Type) := mk_dencryptor {
  cipher : K;
  nonce_generator_validator : NonceGeneratorValidator T;
}.
Arguments mk_dencryptor {K T}.
Arguments cipher {K T}.
Arguments nonce_generator_validator {K T}.

Section Dencrypt.
Context {K T : Type} `{Aead K} `{BitStore T}.

Definition dencryptor_encrypt (self : Dencryptor K T) (plaintext : bytes)
  : result EncryptAndNonce EncryptionError * Dencryptor K T :=
  let '(r, ngv) := get_next_send_nonce (nonce_generator_validator self) in
  let self' := mk_dencryptor (cipher self) ngv in
  match r with
  | Err e => (Err (EncNonceGenerationError e), self')
  | Ok nonce =>
      match aead_encrypt (cipher self) (nonce_vec nonce) plaintext with
      | Some c => (Ok (mk_ean c nonce), self')
      | None => (Err EncryptionFailure, self')
      end
  end.

Definition dencryptor_decrypt (self : Dencryptor K T) (ciphertext : bytes) (nonce : Z)
  : outcome (result bytes DecryptionError * Dencryptor K T) :=
  let? (r, ngv) := validate (nonce_generator_validator self) nonce in
  let self' := mk_dencryptor (cipher self) ngv in
  match r with
  | Err e => Ret (Err (NonceValidationError e), self')
  | Ok _ =>
      match aead_decrypt (cipher self) (nonce_vec nonce) ciphertext with
      | Some p => Ret (Ok p, self')
      | None => Ret (Err DecryptionFailure, self')
      end
  end.

Context {P : Type} `{Bincode P}.

(** [impl Encrypt for T] *)
Definition encrypt (self : P) (dencryptor : Dencryptor K T)
  : result Encrypted SerCryptError * Dencryptor K T :=
  match encode_to_vec self with
  | None => (Err SelializationError, dencryptor)
  | Some serialized =>
      match dencryptor_encrypt dencryptor serialized with
      | (Err e, d) => (Err (SerEncryptionError e), d)
      | (Ok encrypted, d) => (Ok (mk_encrypted (ean_nonce encrypted) (ean_encrypted encrypted)), d)
      end
  end.

(** [impl Decrypt for Encrypted<T>] *)
Definition decrypt (self : Encrypted) (dencryptor : Dencryptor K T)
  : outcome (result P DeSerCryptError * Dencryptor K T) :=
  let? (r, d) := dencryptor_decrypt dencryptor (enc_message self) (enc_nonce self) in
  match r with
  | Err e => Ret (Err (DeSerDecryptionError e), d)
  | Ok serialized =>
      match decode_from_slice serialized with
      | Some (value, _) => Ret (Ok value, d)
      | None => Ret (Err DeserializationError, d)
      end
  end.

(** A peer that encrypts messages in order, and one that decrypts what arrives. *)
Fixpoint encrypt_all (d : Dencryptor K T) (ps : list P)
  : list (result Encrypted SerCryptError) * Dencryptor K T :=
  match ps with
  | [] => ([], d)
  | p :: ps =>
      let '(r, d') := encrypt p d in
      let '(rs, d'') := encrypt_all d' ps in (r :: rs, d'')
  end.

Fixpoint decrypt_all (d : Dencryptor K T) (es : list Encrypted)
  : outcome (list (result P DeSerCryptError) * Dencryptor K T) :=
  match es with
  | [] => Ret ([], d)
  | e :: es =>
      let? (r, d') := decrypt e d in
      let? (rs, d'') := decrypt_all d' es in Ret (r :: rs, d'')
  end.
End Dencrypt.

(** [SessionSecrets::to_cipher]: both peers of a session hold the same key and
    opposite roles. *)
Definition session_dencryptor {K} (key : K) (for_initiator : bool) : Dencryptor K (list bool) :=
  mk_dencryptor key (if for_initiator
                     then new_nonce_generator_validator_for_session_initiator
                     else new_nonce_generator_validator_for_session_responder).

(** ** Lemmas *)

Lemma le_bytes_inj n a b :
  0 <= a < 256 ^ Z.of_nat n -> 0 <= b < 256 ^ Z.of_nat n -> le_bytes n a = le_bytes n b -> a = b.
Proof.
  revert a b. induction n as [|n IH]; intros a b Ha Hb E; [simpl in *; lia|].
  rewrite Nat2Z.inj_succ, Z.pow_succ_r in Ha, Hb by lia. simpl in E. injection E as E1 E2.
  assert (a / 256 = b / 256) as Hd.
  { apply IH; [| |done]; (split; [apply Z.div_pos; lia|apply Z.div_lt_upper_bound; lia]). }
  rewrite (Z.div_mod a 256), (Z.div_mod b 256), E1, Hd by lia. done.
Qed.

Lemma le_bytes_range n z : Forall (fun b => 0 <= b < 256) (le_bytes n z).
Proof.
  revert z. induction n as [|n IH]; intros z; simpl; constructor; auto.
  apply Z.mod_pos_bound. lia.
Qed.

Lemma length_le_bytes n z : length (le_bytes n z) = n.
Proof. revert z. induction n; intros; simpl; auto. Qed.

Lemma nonce_vec_inj a b : is_u64 a -> is_u64 b -> nonce_vec a = nonce_vec b -> a = b.
Proof.
  intros Ha Hb E. apply app_inv_tail in E. by apply (le_bytes_inj 8).
Qed.

(** The [i]-th nonce sent by a peer of the given role. *)
Definition nonce_of (role : bool) (i : Z) : Z := if role then i else i + U64_HALF.

Lemma accept_all_length {T} `{BitStore T} ns (self : RollingNonceWindow T) acc self' :
  accept_all self ns = Ret (acc, self') -> (length acc <= length ns)%nat.
Proof.
  revert self acc self'. induction ns as [|n ns IH]; intros self acc self' E; cbn [accept_all] in E.
  - by injection E as <- <-.
  - apply outcome_bind_ret in E as [[r w] [_ E]]. apply outcome_bind_ret in E as [[a w'] [E1 E]].
    apply IH in E1. injection E as <- _. destruct (is_ok r); simpl; lia.
Qed.

(** If every nonce was accepted, the first one was. *)
Lemma accept_all_cons_inv {T} `{BitStore T} n ns (self : RollingNonceWindow T) self' :
  accept_all self (n :: ns) = Ret (n :: ns, self') ->
  exists w, is_valid self n = Ret (Ok tt, w) /\ accept_all w ns = Ret (ns, self').
Proof.
  cbn [accept_all]. intros E. apply outcome_bind_ret in E as [[r w] [Ev E]].
  apply outcome_bind_ret in E as [[a w'] [E1 E]]. exists w.
  destruct r as [[]|e]; cbn [is_ok] in E; injection E as -> ->; [done|].
  apply accept_all_length in E1. simpl in E1. lia.
Qed.

Section Channel.
Context {K : Type} `{AeadLaws K} {P : Type} `{BincodeLaws P}.

Lemma encrypt_spec {T} (d d' : Dencryptor K T) (p : P) e :
  0 <= used_nonce_counter (nonce_generator_validator d) <= U64_HALF ->
  encrypt p d = (Ok e, d') ->
  let c := used_nonce_counter (nonce_generator_validator d) in
  c < U64_HALF /\
  used_nonce_counter (nonce_generator_validator d') = c + 1 /\
  is_initiator_session (nonce_generator_validator d') =
    is_initiator_session (nonce_generator_validator d) /\
  cipher d' = cipher d /\
  enc_nonce e = nonce_of (is_initiator_session (nonce_generator_validator d)) c /\
  exists b, encode_to_vec p = Some b /\
    aead_decrypt (cipher d) (nonce_vec (enc_nonce e)) (enc_message e) = Some b.
Proof.
  rewrite U64_HALF_val. intros Hc E. unfold encrypt in E.
  destruct (encode_to_vec p) as [b|] eqn:Hb; [|done].
  unfold dencryptor_encrypt, get_next_send_nonce in E. rewrite U64_HALF_val in E.
  unfold nonce_of. rewrite U64_HALF_val.
  destruct (Z.eqb_spec (used_nonce_counter (nonce_generator_validator d)) (2 ^ 63 - 1)); [done|].
  destruct (is_initiator_session (nonce_generator_validator d)) eqn:Hr; cbn in E;
    rewrite ?(wrap64_id (_ + _)) in E by (unfold is_u64, u64_modulus; lia);
    destruct (aead_encrypt _ _ _) as [m|] eqn:Hm; try done; injection E as <- <-; cbn;
    apply aead_decrypt_encrypt in Hm; split_and!; eauto; lia.
Qed.

Lemma encrypt_all_spec {T} (ps : list P) es (d d' : Dencryptor K T) i p e :
  0 <= used_nonce_counter (nonce_generator_validator d) <= U64_HALF ->
  encrypt_all d ps = (Ok <$> es, d') -> ps !! i = Some p -> es !! i = Some e ->
  let j := used_nonce_counter (nonce_generator_validator d) + Z.of_nat i in
  j < U64_HALF /\
  enc_nonce e = nonce_of (is_initiator_session (nonce_generator_validator d)) j /\
  exists b, encode_to_vec p = Some b /\
    aead_decrypt (cipher d) (nonce_vec (enc_nonce e)) (enc_message e) = Some b.
Proof.
  revert es d i. induction ps as [|q ps IH]; intros es d i Hc E Hp He; [done|].
  cbn [encrypt_all] in E. destruct (encrypt q d) as [r d1] eqn:E1.
  destruct (encrypt_all d1 ps) as [rs d2] eqn:E2. destruct es as [|e0 es]; [done|].
  injection E as -> -> ->. destruct (encrypt_spec _ _ _ _ Hc E1) as (Hlt & Hc' & Hr & Hk & Hn & Hdec).
  destruct i as [|i]; simpl in Hp, He.
  - injection Hp as ->. injection He as ->. rewrite Z.add_0_r. eauto.
  - destruct (IH es d1 i ltac:(lia) E2 Hp He) as (? & ? & ?). rewrite Hc', Hr, Hk in *.
    replace (used_nonce_counter (nonce_generator_validator d) + Z.of_nat (S i)) with
      (used_nonce_counter (nonce_generator_validator d) + 1 + Z.of_nat i) by lia. eauto.
Qed.

(** A message whose nonce the window accepts decrypts to the plaintext. *)
Lemma decrypt_accepted {T} `{BitStore T} (d : Dencryptor K T) e (p : P) b i w :
  Z.of_nat i < U64_HALF ->
  enc_nonce e = nonce_of (negb (is_initiator_session (nonce_generator_validator d))) (Z.of_nat i) ->
  is_valid (validator (nonce_generator_validator d)) (Z.of_nat i) = Ret (Ok tt, w) ->
  encode_to_vec p = Some b ->
  aead_decrypt (cipher d) (nonce_vec (enc_nonce e)) (enc_message e) = Some b ->
  decrypt e d = Ret (Ok p, mk_dencryptor (cipher d)
    (mk_ngv (used_nonce_counter (nonce_generator_validator d))
       (is_initiator_session (nonce_generator_validator d)) w)).
Proof.
  intros Hi Hn Hv Hb Hd. unfold decrypt, dencryptor_decrypt.
  pose proof (validate_peer_nonce (nonce_generator_validator d) i Hi) as Hval.
  rewrite Hv in Hval. cbn [outcome_bind] in Hval.
  destruct (decode_encode p b Hb) as [n Hdec].
  destruct (is_initiator_session (nonce_generator_validator d)); cbn [negb nonce_of] in Hn;
    rewrite Hn in *; rewrite Hval; cbn [outcome_bind]; rewrite Hd; cbn [outcome_bind]; by rewrite Hdec.
Qed.

Lemma decrypt_all_accepted {T} `{BitStore T} (order : list nat) (ps : list P) es (d : Dencryptor K T) w :
  let g := nonce_generator_validator d in
  Forall (fun i => (i < length ps)%nat) order -> length es = length ps ->
  (forall i p e, ps !! i = Some p -> es !! i = Some e ->
     Z.of_nat i < U64_HALF /\ enc_nonce e = nonce_of (negb (is_initiator_session g)) (Z.of_nat i) /\
     exists b, encode_to_vec p = Some b /\
       aead_decrypt (cipher d) (nonce_vec (enc_nonce e)) (enc_message e) = Some b) ->
  accept_all (validator g) (Z.of_nat <$> order) = Ret (Z.of_nat <$> order, w) ->
  exists d', decrypt_all d (omap (fun i => es !! i) order) =
    Ret (Ok <$> omap (fun i => ps !! i) order, d').
Proof.
  intros g Hord Hlen Hwire. subst g. revert d Hwire.
  induction Hord as [|i order Hi Hord IH]; intros d Hwire Hacc; [by exists d|].
  cbn [fmap list_fmap] in Hacc. apply accept_all_cons_inv in Hacc as (w1 & Hv & Hacc).
  destruct (lookup_lt_is_Some_2 ps i Hi) as [p Hp].
  destruct (lookup_lt_is_Some_2 es i) as [e He]; [lia|].
  destruct (Hwire i p e Hp He) as (Hlt & Hn & b & Hb & Hd).
  cbn [omap list_omap]. rewrite Hp, He. cbn [decrypt_all].
  rewrite (decrypt_accepted d e p b i w1) by done. cbn [outcome_bind].
  edestruct IH as [d' E]; [| |rewrite E; by exists d']; cbn; [exact Hwire|exact Hacc].
Qed.

End Channel.

(** A validated nonce is used up. *)
Lemma validate_once {T} `{BitStoreLaws T} seen (g g' : NonceGeneratorValidator T) n :
  window_rep seen (validator g) ->
  lower_bound (validator g) + 2 * zsize (window (validator g)) < u64_modulus ->
  validate g n = Ret (Ok tt, g') ->
  exists e g'', validate g' n = Ret (Err e, g'').
Proof.
  intros Hrep Hmax E. unfold validate in *. set (m := if is_initiator_session g then _ else _) in E.
  pose proof (rep_size _ _ Hrep).
  destruct (is_valid_spec seen _ m Hrep) as (r & v & Ev & Hsz & Hs); [lia|].
  rewrite Ev in E. simpl in E. injection E as -> <-. simpl.
  destruct Hs as (Hin & Hnew & Hrep'). fold m.
  assert (lower_bound v <= lower_bound (validator g) + zsize (window (validator g))).
  { pose proof (rep_lb _ _ Hrep). apply (rep_lb_bound _ _ _ Hrep'); [|lia]. intros k Hk.
    apply elem_of_union in Hk as [->%elem_of_singleton|Hk]; [lia|].
    apply (rep_above _ _ Hrep) in Hk. lia. }
  destruct (is_valid_spec _ v m Hrep') as (r & v' & Ev' & _ & Hs');
    [unfold zsize in *; rewrite Hsz; lia|].
  rewrite Ev'. simpl. destruct r as [[]|e]; [|eauto].
  exfalso. destruct Hs' as (_ & Hc & _). set_solver.
Qed.

(** A result that is not a nonce error means the nonce was validated. *)
Lemma decrypt_validated {K T P} `{Aead K} `{BitStore T} `{Bincode P} e
    (d d' : Dencryptor K T) (r : result P DeSerCryptError) :
  decrypt e d = Ret (r, d') ->
  (forall err, r <> Err (DeSerDecryptionError (NonceValidationError err))) ->
  validate (nonce_generator_validator d) (enc_nonce e) =
    Ret (Ok tt, nonce_generator_validator d').
Proof.
  unfold decrypt, dencryptor_decrypt. destruct (validate _ _) as [[v g]| | |]; try done.
  simpl. destruct v as [[]|err]; simpl; [|intros [= <- <-] Hn; by destruct (Hn err)].
  destruct (aead_decrypt _ _ _) as [b|]; simpl; [|by intros [= <- <-]].
  destruct (decode_from_slice b) as [[]|]; by intros [= <- <-].
Qed.

(** A fresh session has used no nonce. *)
Lemma session_counter {K} (key : K) role :
  0 <= used_nonce_counter (nonce_generator_validator (session_dencryptor key role)) <= U64_HALF.
Proof. rewrite U64_HALF_val. destruct role; simpl; lia. Qed.

(** Messages reordered within the window are decrypted. *)
Lemma channel_roundtrip {K P} `{AeadLaws K} `{BincodeLaws P} (key : K) (role : bool)
    (ps : list P) (es : list Encrypted) ds (order : list nat) :
  encrypt_all (session_dencryptor key role) ps = (Ok <$> es, ds) -> length es = length ps ->
  Forall (fun i => (i < length ps)%nat) order ->
  reordered_within 100 (Z.of_nat <$> order) ->
  exists d', decrypt_all (session_dencryptor key (negb role)) (omap (fun i => es !! i) order) =
    Ret (Ok <$> omap (fun i => ps !! i) order, d').
Proof.
  intros E Hlen Hord Hre.
  assert (forall i p e, ps !! i = Some p -> es !! i = Some e -> Z.of_nat i < U64_HALF /\
    enc_nonce e = nonce_of role (Z.of_nat i) /\ exists b, encode_to_vec p = Some b /\
    aead_decrypt key (nonce_vec (enc_nonce e)) (enc_message e) = Some b) as Hwire.
  { intros i p e Hp He.
    destruct (encrypt_all_spec _ _ _ _ _ _ _ (session_counter key role) E Hp He) as (? & ? & ?).
    by destruct role. }
  destruct (accept_all_reordered (Z.of_nat <$> order) [] new_rolling_nonce_window (u64_modulus - 200))
    as [w Hw]; [apply new_window_rep| |by vm_compute|by vm_compute|done|].
  { rewrite app_nil_l, Forall_fmap. eapply Forall_impl; [exact Hord|]. intros i Hi. cbv beta in Hi |- *.
    destruct (lookup_lt_is_Some_2 ps i Hi) as [p Hp].
    destruct (lookup_lt_is_Some_2 es i) as [e He]; [lia|].
    destruct (Hwire _ _ _ Hp He) as [Hlt _]. rewrite U64_HALF_val in Hlt. unfold compose, u64_modulus. lia. }
  apply (decrypt_all_accepted order ps es (session_dencryptor key (negb role)) w); try done.
  - intros i p e Hp He. destruct (Hwire i p e Hp He) as (? & ? & ?). by destruct role.
  - by destruct role.
Qed.

(** ** A cipher and a serializer for the witnesses *)

Module Toy.
#[export] Instance toy_aead : Aead Z := {
  aead_encrypt k n p := Some (k :: n ++ p);
  aead_decrypt k n c :=
    match c with
    | k' :: r => if decide (k' = k /\ take (length n) r = n) then Some (drop (length n) r) else None
    | [] => None
    end;
}.
#[export] Instance toy_aead_laws : AeadLaws Z.
Proof.
  split. intros k n p c [= <-]. simpl. rewrite take_app_length, drop_app_length.
  by rewrite decide_True.
Qed.
#[export] Instance toy_bincode : Bincode Z := {
  encode_to_vec z := Some [z];
  decode_from_slice b := match b with z :: _ => Some (z, 1%nat) | [] => None end;
}.
#[export] Instance toy_bincode_laws : BincodeLaws Z.
Proof. split. intros p b [= <-]. by exists 1%nat. Qed.
End Toy.
Import Toy.

(** ** Properties *)

(** C7 (safety). Cipher nonces are never reused: among all messages the two
    peers of a session encrypt under its key, two carry the same 12 byte nonce
    only if they are the same message of the same peer. *)
Theorem cipher_nonces_unique {K P} `{AeadLaws K} `{BincodeLaws P} (key : K) (role1 role2 : bool)
    (ps1 ps2 : list P) es1 es2 d1 d2 (i j : nat) (e1 e2 : Encrypted) :
  encrypt_all (session_dencryptor key role1) ps1 = (Ok <$> es1, d1) ->
  encrypt_all (session_dencryptor key role2) ps2 = (Ok <$> es2, d2) ->
  es1 !! i = Some e1 -> es2 !! j = Some e2 -> length es1 = length ps1 -> length es2 = length ps2 ->
  nonce_vec (enc_nonce e1) = nonce_vec (enc_nonce e2) ->
  role1 = role2 /\ i = j.
Proof.
  intros E1 E2 He1 He2 L1 L2 Hn.
  destruct (lookup_lt_is_Some_2 ps1 i) as [p1 Hp1]; [apply lookup_lt_Some in He1; lia|].
  destruct (lookup_lt_is_Some_2 ps2 j) as [p2 Hp2]; [apply lookup_lt_Some in He2; lia|].
  destruct (encrypt_all_spec _ _ _ _ _ _ _ (session_counter key role1) E1 Hp1 He1) as (Hi & Hn1 & _).
  destruct (encrypt_all_spec _ _ _ _ _ _ _ (session_counter key role2) E2 Hp2 He2) as (Hj & Hn2 & _).
  assert (forall r : bool, used_nonce_counter (nonce_generator_validator (session_dencryptor key r)) = 0
    /\ is_initiator_session (nonce_generator_validator (session_dencryptor key r)) = r) as Hf by (by intros []).
  destruct (Hf role1) as [F1 G1], (Hf role2) as [F2 G2].
  rewrite F1, Z.add_0_l in Hi, Hn1. rewrite F2, Z.add_0_l in Hj, Hn2.
  rewrite G1 in Hn1. rewrite G2 in Hn2.
  unfold nonce_of in *. rewrite U64_HALF_val in *.
  apply nonce_vec_inj in Hn.
  2-3: unfold is_u64, u64_modulus; rewrite ?Hn1, ?Hn2; clear -Hi Hj; repeat case_goal; lia.
  rewrite Hn1, Hn2 in Hn. clear -Hn Hi Hj.
  destruct role1, role2; split; solve [lia | done | exfalso; lia].
Qed.

Lemma cipher_nonces_unique_witness : true = true /\ 1%nat = 1%nat.
Proof.
  eapply (cipher_nonces_unique (7 : Z) true true [10; 11; 12 : Z] [10; 11; 12 : Z]
    [mk_encrypted 0 _; mk_encrypted 1 _; mk_encrypted 2 _]
    [mk_encrypted 0 _; mk_encrypted 1 _; mk_encrypted 2 _]); by vm_compute.
Defined.

(** C6 (roundtrip). What one peer encrypts the other decrypts: if the messages
    of a session arrive in any order in which each comes after all messages 100
    or more before it, every one decrypts to what was sent. *)
Theorem session_channel_roundtrip {K P} `{AeadLaws K} `{BincodeLaws P} (key : K) (role : bool)
    (ps : list P) (es : list Encrypted) ds (order : list nat) :
  encrypt_all (session_dencryptor key role) ps = (Ok <$> es, ds) -> length es = length ps ->
  Forall (fun i => (i < length ps)%nat) order ->
  reordered_within 100 (Z.of_nat <$> order) ->
  exists d', decrypt_all (session_dencryptor key (negb role)) (omap (fun i => es !! i) order) =
    Ret (Ok <$> omap (fun i => ps !! i) order, d').
Proof. apply channel_roundtrip. Qed.

Lemma session_channel_roundtrip_witness :
  exists d', decrypt_all (session_dencryptor (7 : Z) false)
    (omap (fun i => [mk_encrypted 0 (7 :: nonce_vec 0 ++ [10]); mk_encrypted 1 (7 :: nonce_vec 1 ++ [11])] !! i) [1; 0]%nat)
    = Ret (Ok <$> omap (fun i => [10; 11 : Z] !! i) [1; 0]%nat, d').
Proof.
  apply (session_channel_roundtrip (7 : Z) true [10; 11 : Z]
    [mk_encrypted 0 (7 :: nonce_vec 0 ++ [10]); mk_encrypted 1 (7 :: nonce_vec 1 ++ [11])]
    (mk_dencryptor 7 (mk_ngv 2 true new_rolling_nonce_window)) [1; 0]%nat);
    [by vm_compute|done|repeat constructor|].
  split; [apply (bool_decide_unpack _); by vm_compute|].
  intros l1 n l2 E. assert (n ∈ [1; 0]) as Hn by (change [1; 0] with (Z.of_nat <$> [1; 0]%nat); rewrite E; set_solver).
  assert (n = 1 \/ n = 0) by set_solver. split; intros; lia.
Defined.

(** A decrypted message cannot be replayed: after a message was
    decrypted, every message with its nonce is rejected by the nonce check. *)
Theorem replayed_message_rejected {K T P} `{Aead K} `{BitStoreLaws T} `{Bincode P} seen
    (d d' : Dencryptor K T) (e e' : Encrypted) (p : P) :
  window_rep seen (validator (nonce_generator_validator d)) ->
  lower_bound (validator (nonce_generator_validator d)) +
    2 * zsize (window (validator (nonce_generator_validator d))) < u64_modulus ->
  decrypt e d = Ret (Ok p, d') -> enc_nonce e' = enc_nonce e ->
  exists err d'', decrypt (P := P) e' d' =
    Ret (Err (DeSerDecryptionError (NonceValidationError err)), d'').
Proof.
  intros Hrep Hmax E Hn. apply decrypt_validated in E; [|done].
  destruct (validate_once _ _ _ _ Hrep Hmax E) as (err & g & Ev).
  unfold decrypt, dencryptor_decrypt. rewrite Hn, Ev. simpl. eauto.
Qed.

Lemma replayed_message_rejected_witness :
  exists err d'', decrypt (P := Z) (mk_encrypted 0 (7 :: nonce_vec 0 ++ [10]))
      (mk_dencryptor (7 : Z) (mk_ngv 0 false (mk_window 1 (replicate 100 true)))) =
    Ret (Err (DeSerDecryptionError (NonceValidationError err)), d'').
Proof.
  apply (replayed_message_rejected ∅ (session_dencryptor (7 : Z) false) _
    (mk_encrypted 0 (7 :: nonce_vec 0 ++ [10])) _ (10 : Z));
    [apply new_window_rep|by vm_compute|by vm_compute|done].
Defined.

(** A message that fails authentication still uses up its nonce:
    after it, the genuine message with that nonce is rejected as well, because
    the nonce is validated before the ciphertext is authenticated. *)
Theorem failed_decryption_burns_nonce {K T P} `{Aead K} `{BitStoreLaws T} `{Bincode P} seen
    (d d' : Dencryptor K T) (forged genuine : Encrypted) :
  window_rep seen (validator (nonce_generator_validator d)) ->
  lower_bound (validator (nonce_generator_validator d)) +
    2 * zsize (window (validator (nonce_generator_validator d))) < u64_modulus ->
  decrypt (P := P) forged d = Ret (Err (DeSerDecryptionError DecryptionFailure), d') ->
  enc_nonce genuine = enc_nonce forged ->
  exists err d'', decrypt (P := P) genuine d' =
    Ret (Err (DeSerDecryptionError (NonceValidationError err)), d'').
Proof.
  intros Hrep Hmax E Hn. apply decrypt_validated in E; [|done].
  destruct (validate_once _ _ _ _ Hrep Hmax E) as (err & g & Ev).
  unfold decrypt, dencryptor_decrypt. rewrite Hn, Ev. simpl. eauto.
Qed.

Lemma failed_decryption_burns_nonce_witness :
  decrypt (mk_encrypted 3 (7 :: nonce_vec 3 ++ [10])) (session_dencryptor (7 : Z) false) =
    Ret (Ok (10 : Z), mk_dencryptor (7 : Z) (mk_ngv 0 false
           (mk_window 0 (<[3%nat := false]> (replicate 100 true))))) /\
  exists err d'', decrypt (P := Z) (mk_encrypted 3 (7 :: nonce_vec 3 ++ [10]))
      (mk_dencryptor (7 : Z) (mk_ngv 0 false (mk_window 0 (<[3%nat := false]> (replicate 100 true))))) =
    Ret (Err (DeSerDecryptionError (NonceValidationError err)), d'').
Proof.
  split; [by vm_compute|].
  apply (failed_decryption_burns_nonce ∅ (session_dencryptor (7 : Z) false) _
    (mk_encrypted 3 [0]) _); [apply new_window_rep|by vm_compute|by vm_compute|done].
Defined.
