(* ===== verification/Domain.v ===== *)
(** * Domain models and wire types

    core/src/core/domain_models.rs (statuses, access, retry strategy),
    p2p/src/types.rs (file transfer messages) and
    core/src/library/util/part_file.rs (names of partial files). *)

From S2P Require Import Prelude.
From Stdlib Require Import Ascii.
From stdpp Require Import pretty.
#[local] Open Scope Z_scope.

(** [ContactId], [FylesId], [PeerIdWrapper]: newtypes over strings *)
Abbreviation ContactId := string (only parsing).
Abbreviation FylesId := string (only parsing).
Abbreviation PeerId := string (only parsing).

(** ** Access to a file request *)

(** [enum FilerequestAccess] *)
Inductive FilerequestAccess :=
| Public
| Audience (contact_ids : list ContactId).

Definition is_accessible_by (self : FilerequestAccess) (contact_id : option ContactId) : bool :=
  match self with
  | Public => true
  | Audience contact_ids =>
      match contact_id with
      | Some id => bool_decide (id ∈ contact_ids)
      | None => false
      end
  end.

(** ** Send status *)

Record TransferData := mk_transfer_data {
  progress_bytes : Z;
  file_size_bytes : Z;
  transfer_id : FylesId;
}.

Inductive InProgressSendStatus := Prepared | Sending | Interrupted | PendingSent.

Record InProgress := mk_in_progress {
  ip_status : InProgressSendStatus;
  transfer_data : TransferData;
}.

Inductive SendStatus :=
| SPending
| SInProgress (p : InProgress)
| SSent
| SRejected
| SFailed
| SUnknown (s : string).

#[export] Instance TransferData_eq_dec : EqDecision TransferData.
Proof. solve_decision. Defined.
#[export] Instance InProgressSendStatus_eq_dec : EqDecision InProgressSendStatus.
Proof. solve_decision. Defined.
#[export] Instance InProgress_eq_dec : EqDecision InProgress.
Proof. solve_decision. Defined.
#[export] Instance SendStatus_eq_dec : EqDecision SendStatus.
Proof. solve_decision. Defined.

(** [SendStatus::status_tag] *)
Definition status_tag (self : SendStatus) : result string string :=
  match self with
  | SPending => Ok "Pending"
  | SInProgress status =>
      match ip_status status with
      | Prepared => Err "Prepared is an ephemeral status and must not be persisted"
      | Sending => Ok "Sending"
      | Interrupted => Ok "Interrupted"
      | PendingSent => Err "PendingSent is an ephemeral status and must not be persisted"
      end
  | SSent => Ok "Sent"
  | SRejected => Ok "Rejected"
  | SFailed => Ok "Failed"
  | SUnknown s => Err ("Unknown status '" +:+ s +:+ "' must not be persisted")
  end%string.

(** [SendStatus::transfer_data] *)
Definition status_transfer_data (self : SendStatus) : option TransferData :=
  match self with
  | SInProgress status => Some (transfer_data status)
  | _ => None
  end.

(** [SendStatus::from_db_columns] *)
Definition from_db_columns (tag : string) (progress size : option Z) (tid : option string)
  : result SendStatus string :=
  let td :=
    match progress, size, tid with
    | Some p, Some f, Some t => Some (mk_transfer_data p f t)
    | _, _, _ => None
    end in
  if decide (tag = "Pending") then Ok SPending
  else if decide (tag = "Prepared") then
    Err "Prepared status is ephemeral and must not be persisted to DB"
  else if decide (tag = "Sending") then
    match td with
    | Some it => Ok (SInProgress (mk_in_progress Sending it))
    | None => Err "Sending status requires transfer data but columns are NULL"
    end
  else if decide (tag = "Interrupted") then
    match td with
    | Some it => Ok (SInProgress (mk_in_progress Interrupted it))
    | None => Err "Interrupted status requires transfer data but columns are NULL"
    end
  else if decide (tag = "Sent") then Ok SSent
  else if decide (tag = "Rejected") then Ok SRejected
  else if decide (tag = "Failed") then Ok SFailed
  else Ok (SUnknown tag).

(** [impl Display for SendStatus] *)
Definition send_status_display (self : SendStatus) : string :=
  match self with
  | SPending => "Pending"
  | SSent => "Sent"
  | SRejected => "Rejected"
  | SFailed => "Failed"
  | SInProgress progress =>
      match ip_status progress with
      | Prepared => "Prepared"
      | Sending => "Sending"
      | Interrupted => "Interrupted"
      | PendingSent => "PendingSent"
      end
  | SUnknown s => s
  end.

(** ** Receive status *)

Inductive ReceiveStatus :=
| RReceiving
| RInterrupted
| RCompleted
| RFailed
| RUnknown (s : string).

Definition receive_status_tag (self : ReceiveStatus) : result string string :=
  match self with
  | RReceiving => Ok "Receiving"
  | RInterrupted => Ok "Interrupted"
  | RCompleted => Ok "Completed"
  | RFailed => Ok "Failed"
  | RUnknown s => Err ("Unknown status '" +:+ s +:+ "' must not be persisted")
  end%string.

Definition from_db_column (tag : string) : ReceiveStatus :=
  if decide (tag = "Receiving") then RReceiving
  else if decide (tag = "Interrupted") then RInterrupted
  else if decide (tag = "Completed") then RCompleted
  else if decide (tag = "Failed") then RFailed
  else RUnknown tag.

(** ** Files to send *)

Record PendingFile := mk_pending_file {
  pf_id : FylesId;
  pf_contact_id : ContactId;
  pf_file_path : string;
  pf_retry_count : Z;
  pf_target_filerequest_id : FylesId;
  pf_status : SendStatus;
  pf_display_name : option string;
  pf_interruption_reasons : list string;
}.

Definition pf_with_status (f : PendingFile) (s : SendStatus) : PendingFile :=
  mk_pending_file (pf_id f) (pf_contact_id f) (pf_file_path f) (pf_retry_count f)
    (pf_target_filerequest_id f) s (pf_display_name f) (pf_interruption_reasons f).

Definition pf_with_retry_count (f : PendingFile) (n : Z) : PendingFile :=
  mk_pending_file (pf_id f) (pf_contact_id f) (pf_file_path f) n
    (pf_target_filerequest_id f) (pf_status f) (pf_display_name f) (pf_interruption_reasons f).

(** ** Retry intervals (durations in nanoseconds) *)

Definition second : Z := 1000000000.

Record CappedExponentialRetry := mk_retry { base_interval : Z; max_interval : Z }.

Definition default_retry : CappedExponentialRetry := mk_retry (5 * second) (6 * 60 * 60 * second).

(** [Duration::MAX]: u64::MAX seconds and 999999999 nanoseconds *)
Definition duration_max : Z := u64_modulus * second - 1.

(** [Duration * u32], which panics on overflow *)
Definition duration_mul (d n : Z) : outcome Z := if d * n <=? duration_max then Ret (d * n) else Panic.

(** [2usize.pow(n - 1) as u32]: the power wraps at 64 bits and is truncated to 32. *)
Definition n_th_interval (self : CappedExponentialRetry) (n : Z) : outcome Z :=
  if n =? 0 then Ret 0
  else let? interval := duration_mul (base_interval self) (wrap32 (wrap64 (2 ^ (n - 1)))) in
       Ret (Z.min interval (max_interval self)).

(** ** File transfer messages (p2p/src/types.rs) *)

Record DataChunk := mk_chunk {
  ck_transfer_uuid : FylesId;
  ck_data : list Z;
  ck_idx : Z;
}.

#[export] Instance DataChunk_eq_dec : EqDecision DataChunk.
Proof. solve_decision. Defined.

Inductive FileRequest :=
| NewTransfer (filerequest_id : FylesId) (file_name : string) (file_size : Z) (transfer_uuid : FylesId)
| ContinueTransfer (filerequest_id transfer_uuid : FylesId)
| AbortTransfer (transfer_uuid : option FylesId)
| Chunk (c : DataChunk)
| Done (transfer_uuid : FylesId)
| ReqProtocolViolation (transfer_uuid : option FylesId).

Inductive FileResponse :=
| AcceptNewTransfer
| RejectNewTransfer
| AcceptContinueTransfer (offset : Z)
| RestartContinueTransfer
| RejectContinueTransfer
| ConfirmChunk
| RejectChunk
| ConfirmAbort
| ConfirmDone
| RejectDone
| AcknowledgeProtocolViolation
| ProtocolViolation
| InternalError.

#[export] Instance FileResponse_eq_dec : EqDecision FileResponse.
Proof. solve_decision. Defined.

(** [FileResponse::random] for the drawn number and the drawn offset. *)
Definition random_response (drawn offset : Z) : FileResponse :=
  if drawn =? 1 then AcceptNewTransfer
  else if drawn =? 2 then RejectNewTransfer
  else if drawn =? 3 then AcceptContinueTransfer offset
  else if drawn =? 4 then RestartContinueTransfer
  else if drawn =? 5 then RejectContinueTransfer
  else if drawn =? 6 then ConfirmChunk
  else if drawn =? 7 then RejectChunk
  else if drawn =? 8 then ConfirmAbort
  else if drawn =? 9 then ConfirmDone
  else if drawn =? 10 then RejectDone
  else if drawn =? 11 then AcknowledgeProtocolViolation
  else if drawn =? 12 then ProtocolViolation
  else InternalError.

(** ** Names of partial files (part_file.rs) *)

(** [get_part_file_name] *)
Definition get_part_file_name (started_at_ms : Z) (tid peer : string) (contact : option ContactId)
  : string :=
  pretty started_at_ms +:+ "_" +:+ default "unknown-contact" contact +:+ "_" +:+ peer +:+ "_"
    +:+ tid +:+ ".part".

(** [str::split(c)] then its first piece. *)
Fixpoint split_first (c : Ascii.ascii) (s : string) : string :=
  match s with
  | EmptyString => EmptyString
  | String a s => if decide (a = c) then EmptyString else String a (split_first c s)
  end.

(** [str::ends_with] *)
Fixpoint ends_with (suffix s : string) : bool :=
  bool_decide (s = suffix)
  || match s with EmptyString => false | String _ s => ends_with suffix s end.

(** Decimal digits of [i64::from_str], accumulating from the left. *)
Fixpoint parse_digits (acc : Z) (s : string) : option Z :=
  match s with
  | EmptyString => Some acc
  | String a s =>
      let d := Z.of_nat (Ascii.nat_of_ascii a) - 48 in
      if (0 <=? d) && (d <=? 9) then parse_digits (10 * acc + d) s else None
  end.

(** [str::parse::<i64>]: an optional sign, at least one digit, in range. *)
Definition parse_i64 (s : string) : option Z :=
  let unsigned (t : string) := match t with EmptyString => None | _ => parse_digits 0 t end in
  let v :=
    match s with
    | String a t =>
        if decide (a = "-"%char) then Z.opp <$> unsigned t
        else if decide (a = "+"%char) then unsigned t
        else unsigned s
    | EmptyString => None
    end in
  match v with
  | Some z => if (- 2 ^ 63 <=? z) && (z <? 2 ^ 63) then Some z else None
  | None => None
  end.

(** [parse_part_file_started_at_ms] *)
Definition parse_part_file_started_at_ms (filename : string) : option Z :=
  if negb (ends_with ".part" filename) then None
  else parse_i64 (split_first "_" filename).

Example part_file_ex :
  parse_part_file_started_at_ms (get_part_file_name 1700 "t" "peer" None) = Some 1700.
Proof. by vm_compute. Qed.

(** ** Lemmas on partial file names *)

(** The character [c] does not occur in [s]. *)
Fixpoint no_char (c : Ascii.ascii) (s : string) : Prop :=
  match s with EmptyString => True | String a s => a <> c /\ no_char c s end.

Lemma append_nil_l s : EmptyString +:+ s = s.
Proof. reflexivity. Qed.

Lemma append_cons x a b : String x a +:+ b = String x (a +:+ b).
Proof. reflexivity. Qed.

Lemma append_assoc_r a b c : (a +:+ b) +:+ c = a +:+ (b +:+ c).
Proof. induction a as [|x a IH]; [done|]. by rewrite !append_cons, IH. Qed.

Lemma split_first_app c a b : no_char c a -> split_first c (a +:+ String c b) = a.
Proof.
  induction a as [|x a IH]; rewrite ?append_nil_l, ?append_cons; cbn [split_first no_char];
    intros Ha; [by rewrite decide_True|].
  destruct Ha as [Hx Ha]. rewrite decide_False by done. by rewrite IH.
Qed.

Lemma ends_with_app a suffix : ends_with suffix (a +:+ suffix) = true.
Proof.
  induction a as [|x a IH]; rewrite ?append_nil_l, ?append_cons; cbn [ends_with].
  - destruct suffix; cbn [ends_with]; by rewrite bool_decide_eq_true_2.
  - by rewrite IH, orb_true_r.
Qed.

Lemma pretty_N_char_digit x :
  (x < 10)%N -> Z.of_nat (Ascii.nat_of_ascii (pretty_N_char x)) - 48 = Z.of_N x.
Proof.
  intros Hx. assert (x = 0 \/ x = 1 \/ x = 2 \/ x = 3 \/ x = 4 \/ x = 5 \/ x = 6 \/ x = 7 \/ x = 8
    \/ x = 9)%N by lia. naive_solver.
Qed.

Lemma parse_digits_pretty x s : parse_digits 0 (pretty_N_go x s) = parse_digits (Z.of_N x) s.
Proof.
  revert s. induction (N.lt_wf_0 x) as [x _ IH]; intros s.
  destruct (decide (x = 0)%N) as [->|]; [by rewrite pretty_N_go_0|].
  rewrite pretty_N_go_step by lia. rewrite IH by (apply N.div_lt; lia). cbn [parse_digits].
  pose proof (N.mod_lt x 10 ltac:(done)).
  rewrite pretty_N_char_digit by done.
  assert (Z.of_N x = 10 * Z.of_N (x / 10) + Z.of_N (x mod 10)) as -> by
    (rewrite (N.div_mod x 10) at 1 by done; lia).
  generalize dependent (x mod 10)%N. intros r Hr.
  destruct (Z.leb_spec 0 (Z.of_N r)), (Z.leb_spec (Z.of_N r) 9); done || lia.
Qed.

Lemma pretty_N_parse x : parse_digits 0 (pretty x) = Some (Z.of_N x) /\ pretty x <> EmptyString.
Proof.
  unfold pretty, pretty_N. destruct (decide (x = 0)%N) as [->|]; [done|].
  rewrite parse_digits_pretty. split; [done|]. intros Hc.
  pose proof (parse_digits_pretty x EmptyString) as E. rewrite Hc in E. cbn in E.
  injection E as E. lia.
Qed.

(** A parsed string consists of digits, so it starts with no sign and has no separator. *)
Lemma parse_digits_no_char c s acc z :
  parse_digits acc s = Some z -> c = "_"%char \/ c = "-"%char \/ c = "+"%char -> no_char c s.
Proof.
  revert acc. induction s as [|a s IH]; cbn; intros acc E Hc; [done|].
  destruct (_ && _) eqn:Hd; [|done]. bools. split; [|by eapply IH].
  intros ->. destruct Hc as [->|[->| ->]]; vm_compute in H, H0; done.
Qed.

Lemma parse_i64_pretty z : - 2 ^ 63 <= z < 2 ^ 63 -> parse_i64 (pretty z) = Some z.
Proof.
  intros Hz.
  assert (((- 2 ^ 63 <=? z) && (z <? 2 ^ 63)) = true) as Hr.
  { apply andb_true_iff. rewrite Z.leb_le, Z.ltb_lt. lia. }
  assert (forall x, parse_i64 (pretty x) = if (- 2 ^ 63 <=? Z.of_N x) && (Z.of_N x <? 2 ^ 63)
    then Some (Z.of_N x) else None) as Hpos.
  { intros x. destruct (pretty_N_parse x) as [Hp Hne]. unfold parse_i64.
    pose proof (parse_digits_no_char "-" _ _ _ Hp ltac:(auto)) as H1.
    pose proof (parse_digits_no_char "+" _ _ _ Hp ltac:(auto)) as H2.
    destruct (pretty x) as [|a t]; [done|]. cbn [no_char] in H1, H2.
    rewrite !decide_False by tauto. by rewrite Hp. }
  destruct z as [|p|p].
  - by vm_compute.
  - change (pretty (Z.pos p)) with (pretty (N.pos p)). rewrite Hpos.
    change (Z.of_N (N.pos p)) with (Z.pos p). by rewrite Hr.
  - change (pretty (Z.neg p)) with ("-" +:+ pretty (N.pos p)).
    destruct (pretty_N_parse (N.pos p)) as [Hp Hne]. unfold parse_i64. rewrite append_cons, append_nil_l.
    rewrite decide_True by done. destruct (pretty (N.pos p)); [done|]. rewrite Hp. cbn [fmap option_fmap option_map].
    change (- Z.of_N (N.pos p)) with (Z.neg p). by rewrite Hr.
Qed.

Lemma pretty_Z_no_underscore (z : Z) : no_char "_" (pretty z).
Proof.
  assert (forall x : N, no_char "_" (pretty x)) as Hpos.
  { intros x. destruct (pretty_N_parse x) as [Hp _]. eapply parse_digits_no_char; eauto. }
  destruct z as [|p|p]; [by vm_compute|apply (Hpos (N.pos p))|split; [done|apply (Hpos (N.pos p))]].
Qed.

(** ** Properties *)

Lemma parse_part_file_name (started_at_ms : Z) (tid peer : string) (contact : option ContactId) :
  - 2 ^ 63 <= started_at_ms < 2 ^ 63 ->
  parse_part_file_started_at_ms (get_part_file_name started_at_ms tid peer contact) = Some started_at_ms.
Proof.
  intros Hz. unfold parse_part_file_started_at_ms, get_part_file_name.
  rewrite <- !append_assoc_r, ends_with_app. cbn [negb]. rewrite !append_assoc_r.
  rewrite (append_cons "_"), append_nil_l.
  rewrite split_first_app by apply pretty_Z_no_underscore. by apply parse_i64_pretty.
Qed.

(** A partial file's name gives back its start time: for every
    [i64] start time and any transfer, peer and contact ids, parsing the
    generated name returns that time. *)
Theorem part_file_name_roundtrip (started_at_ms : Z) (tid peer : string) (contact : option ContactId) :
  - 2 ^ 63 <= started_at_ms < 2 ^ 63 ->
  parse_part_file_started_at_ms (get_part_file_name started_at_ms tid peer contact) = Some started_at_ms.
Proof. apply parse_part_file_name. Qed.

Lemma part_file_name_roundtrip_witness :
  parse_part_file_started_at_ms (get_part_file_name (-5) "t_1" "12D3" (Some "bob")) = Some (-5).
Proof. apply part_file_name_roundtrip. lia. Defined.

(** A status written to the database is read back unchanged:
    exactly the statuses other than [Prepared], [PendingSent] and [Unknown] have
    a tag, and the tag with the transfer data columns reconstructs the status. *)
Theorem send_status_db_roundtrip (s : SendStatus) (tag : string) :
  status_tag s = Ok tag ->
  from_db_columns tag (progress_bytes <$> status_transfer_data s)
    (file_size_bytes <$> status_transfer_data s) (transfer_id <$> status_transfer_data s) = Ok s.
Proof. destruct s as [|[[] []]| | | |]; cbn; intros [= <-]; by vm_compute. Qed.

Lemma send_status_db_roundtrip_witness :
  from_db_columns "Interrupted" (Some 3) (Some 9) (Some "t") =
    Ok (SInProgress (mk_in_progress Interrupted (mk_transfer_data 3 9 "t"))).
Proof.
  apply (send_status_db_roundtrip (SInProgress (mk_in_progress Interrupted (mk_transfer_data 3 9 "t")))).
  reflexivity.
Defined.

(** C24 (bounds). The retry interval doubles up to its cap for the first 32
    attempts, or panics when the doubled interval exceeds the largest duration, and is
    zero for every later attempt, because the power of two is truncated to 32 bits.
    With the default policy it never panics. *)
Theorem retry_interval_collapses (r : CappedExponentialRetry) (n : Z) :
  0 <= base_interval r -> 0 <= max_interval r -> 1 <= n ->
  n_th_interval r n =
    (if n <=? 32
     then if base_interval r * 2 ^ (n - 1) <=? duration_max then Ret (Z.min (base_interval r * 2 ^ (n - 1)) (max_interval r)) else Panic
     else Ret 0) /\
  n_th_interval default_retry n = Ret (if n <=? 32 then Z.min (5 * second * 2 ^ (n - 1)) (6 * 60 * 60 * second) else 0).
Proof.
  intros Hb Hm Hn. unfold n_th_interval, duration_mul. destruct (Z.eqb_spec n 0); [lia|].
  assert (wrap32 (wrap64 (2 ^ (n - 1))) = (2 ^ (n - 1)) mod 2 ^ 32) as ->.
  { unfold wrap32, wrap64, u32_modulus, u64_modulus.
    apply Z.mod_mod_divide. exists (2 ^ 32). lia. }
  destruct (Z.leb_spec n 32).
  - assert (2 ^ (n - 1) <= 2 ^ 31) by (apply Z.pow_le_mono_r; lia). rewrite Z.mod_small by lia. split.
    + by destruct (_ <=? _).
    + destruct (Z.leb_spec (base_interval default_retry * 2 ^ (n - 1)) duration_max) as [_|Hlt]; [done|].
      unfold default_retry, duration_max, second, u64_modulus in Hlt. cbn [base_interval] in Hlt. lia.
  - replace (n - 1) with ((n - 33) + 32) by lia. rewrite Z.pow_add_r, Z.mod_mul, !Z.mul_0_r by lia.
    change (0 <=? duration_max) with true. split; [|done]. cbn [outcome_bind]. f_equal. lia.
Qed.

(** The default policy at the 33rd attempt, and a policy that panics. *)
Lemma retry_interval_collapses_witness :
  n_th_interval default_retry 33 = Ret 0 /\ n_th_interval (mk_retry duration_max second) 2 = Panic.
Proof.
  split.
  - apply (retry_interval_collapses default_retry 33); by vm_compute.
  - apply (retry_interval_collapses (mk_retry duration_max second) 2); by vm_compute.
Defined.
