(* ===== verification/HostPath.v ===== *)
(** * Paths and file names

    What the host controller uses of std::path on Unix (paths by components) and
    of the string functions of std, and the names of the variants of a file
    (direct_host_utils/src/direct_fs_controller.rs). The crate sanitize_filename is
    third-party: the class [Sanitizer]. *)

From S2P Require Import Prelude Domain.
From stdpp Require Import pretty.
From Stdlib Require Import Ascii.

(** ** std::path

    [components] are those of the iterator Path::components. [trailing] records a
    final slash (or a final [.]), which the components forget and the system
    calls, which get the whole path, do not. *)
Inductive component : Type :=
| RootDir
| CurDir
| ParentDir
| Normal (name : string).

#[global] Instance component_eq_dec : EqDecision component.
Proof. solve_decision. Defined.

#[global] Instance component_countable : Countable component.
Proof.
  refine (inj_countable'
    (fun c => match c with RootDir => inl 0%N | CurDir => inl 1%N | ParentDir => inl 2%N | Normal n => inr n end)
    (fun x : N + string =>
       match x with inl 0%N => RootDir | inl 1%N => CurDir | inl _ => ParentDir | inr n => Normal n end) _).
  by intros [].
Defined.

Record path := mk_path { components : list component; trailing : bool }.

#[global] Instance path_eq_dec : EqDecision path.
Proof. solve_decision. Defined.

Definition slash : Ascii.ascii := "/"%char.
Definition dot : Ascii.ascii := "."%char.

Fixpoint split (c : Ascii.ascii) (s : string) : list string :=
  match s with
  | EmptyString => [EmptyString]
  | String a s =>
      if decide (a = c) then EmptyString :: split c s
      else match split c s with
           | w :: ws => String a w :: ws
           | [] => [String a EmptyString]
           end
  end.

(** Components after the first: empty pieces and [.] are dropped. *)
Definition component_of (piece : string) : list component :=
  if decide (piece = "") then []
  else if decide (piece = ".") then []
  else if decide (piece = "..") then [ParentDir]
  else [Normal piece].

(** [PathBuf::from] *)
Definition path_from (s : string) : path :=
  let pieces := split slash s in
  let rest := concat (map component_of pieces) in
  let first :=
    match s, pieces with
    | String a _, p :: _ =>
        if decide (a = slash) then [RootDir] else if decide (p = ".") then [CurDir] else []
    | _, _ => []
    end in
  let cs := first ++ rest in
  mk_path cs (bool_decide (cs <> []) && match last pieces with
                                       | Some p => bool_decide (p = "" \/ p = ".")
                                       | None => false
                                       end).

Definition path_empty : path := mk_path [] false.

Definition is_absolute (p : path) : bool :=
  match components p with RootDir :: _ => true | _ => false end.

Definition skip_cur_dir (cs : list component) : list component :=
  match cs with CurDir :: cs => cs | _ => cs end.

(** [PathBuf::push] and [Path::join] *)
Definition path_join (p q : path) : path :=
  if is_absolute q then q
  else match components p, components q with
       | [], _ => q
       | cs, [] => mk_path cs true
       | cs, ds => mk_path (cs ++ skip_cur_dir ds) (trailing q)
       end.

Definition file_name (p : path) : option string :=
  match last (components p) with Some (Normal n) => Some n | _ => None end.

Definition parent (p : path) : option path :=
  match last (components p) with
  | None | Some RootDir => None
  | Some _ => Some (mk_path (removelast (components p)) false)
  end.

Definition with_file_name (p : path) (name : string) : path :=
  path_join (match file_name p, parent p with Some _, Some d => d | _, _ => p end) (path_from name).

Definition path_starts_with (p q : path) : bool :=
  bool_decide (take (length (components q)) (components p) = components q).

Definition component_string (c : component) : string :=
  match c with RootDir => "" | CurDir => "." | ParentDir => ".." | Normal n => n end.

(** [Path::to_string_lossy] *)
Definition path_to_string (p : path) : string :=
  match components p with
  | [RootDir] => "/"
  | cs => String.concat "/" (map component_string cs) +:+ (if trailing p then "/" else "")
  end.

(** ** Strings *)

(** [str::rsplit_once] *)
Fixpoint rsplit_once (c : Ascii.ascii) (s : string) : option (string * string) :=
  match s with
  | EmptyString => None
  | String a s =>
      match rsplit_once c s with
      | Some (l, r) => Some (String a l, r)
      | None => if decide (a = c) then Some (EmptyString, s) else None
      end
  end.

Definition starts_with_char (c : Ascii.ascii) (s : string) : bool :=
  match s with String a _ => bool_decide (a = c) | EmptyString => false end.

Fixpoint contains_char (c : Ascii.ascii) (s : string) : bool :=
  match s with
  | EmptyString => false
  | String a s => bool_decide (a = c) || contains_char c s
  end.

Class Sanitizer := sanitize : string -> string.

(** What the crate documents: its output is the name of one file, if not empty. *)
Class SanitizerLaws `{!Sanitizer} := {
  sanitize_no_slash : forall s, contains_char slash (sanitize s) = false;
  sanitize_no_dot : forall s, sanitize s <> ".";
  sanitize_no_dotdot : forall s, sanitize s <> "..";
}.

(** ** Names of variants *)

Definition split_name (file_name : string) : string * option string :=
  match rsplit_once dot file_name with
  | Some (s, e) => (s, Some e)
  | None => (file_name, None)
  end.

Definition candidate_name (stem : string) (ext : option string) (i : nat) : string :=
  match ext with
  | Some e => stem +:+ "_" +:+ pretty (N.of_nat i) +:+ "." +:+ e
  | None => stem +:+ "_" +:+ pretty (N.of_nat i)
  end.

(** ** Plain names

    The names that stay one component when they are pushed onto a path. *)
Definition plain (s : string) : Prop :=
  contains_char slash s = false /\ s <> "" /\ s <> "." /\ s <> "..".

#[global] Instance plain_dec s : Decision (plain s).
Proof. unfold plain. apply _. Defined.

Lemma contains_char_app c a b : contains_char c (a +:+ b) = contains_char c a || contains_char c b.
Proof.
  induction a as [|x a IH]; [done|]. rewrite append_cons. simpl. rewrite IH. by rewrite orb_assoc.
Qed.

Lemma split_plain c s : contains_char c s = false -> split c s = [s].
Proof.
  induction s as [|a s IH]; simpl; [done|]. intros H. bools. rewrite decide_False by done.
  by rewrite IH.
Qed.

Lemma component_of_plain s : plain s -> component_of s = [Normal s].
Proof. intros (_ & ? & ? & ?). unfold component_of. by rewrite !decide_False. Qed.

Lemma path_from_plain s : plain s -> path_from s = mk_path [Normal s] false.
Proof.
  intros Hp. pose proof Hp as (Hs & H1 & H2 & H3). unfold path_from. rewrite split_plain by done.
  simpl map. rewrite component_of_plain by done. destruct s as [|a s]; [done|].
  simpl in Hs. bools. rewrite !decide_False by done. simpl.
  by rewrite (bool_decide_eq_false_2 (String a s = "" \/ _)) by naive_solver.
Qed.

Lemma path_from_nil : path_from "" = path_empty.
Proof. done. Qed.

Lemma path_join_plain p s :
  components p <> [] -> plain s -> path_join p (path_from s) = mk_path (components p ++ [Normal s]) false.
Proof. intros Hp Hs. rewrite path_from_plain by done. unfold path_join. simpl. by destruct (components p). Qed.

Lemma path_join_nil p : components p <> [] -> path_join p (path_from "") = mk_path (components p) true.
Proof. intros Hp. rewrite path_from_nil. unfold path_join. simpl. by destruct (components p). Qed.

Lemma file_name_app cs n t : file_name (mk_path (cs ++ [Normal n]) t) = Some n.
Proof. unfold file_name. simpl. by rewrite last_snoc. Qed.

Lemma parent_app cs n t : parent (mk_path (cs ++ [Normal n]) t) = Some (mk_path cs false).
Proof. unfold parent. simpl. by rewrite last_snoc, removelast_last. Qed.

Lemma with_file_name_app cs n t m :
  cs <> [] -> plain m -> with_file_name (mk_path (cs ++ [Normal n]) t) m = mk_path (cs ++ [Normal m]) false.
Proof. intros. unfold with_file_name. rewrite file_name_app, parent_app. by rewrite path_join_plain. Qed.

Lemma path_starts_with_prefix p q : path_starts_with p q = true <-> components q `prefix_of` components p.
Proof.
  unfold path_starts_with. rewrite bool_decide_eq_true. split.
  - intros E. exists (drop (length (components q)) (components p)). rewrite <- E at 1. by rewrite take_drop.
  - intros [k E]. by rewrite E, take_app_length.
Qed.

Lemma sanitize_plain `{SanitizerLaws} s : sanitize s <> "" -> plain (sanitize s).
Proof. intros. split_and!; [apply sanitize_no_slash|done|apply sanitize_no_dot|apply sanitize_no_dotdot]. Qed.

(** *** The variants of a name *)

Lemma rsplit_once_Some c s l r :
  rsplit_once c s = Some (l, r) -> s = l +:+ String c r /\ contains_char c r = false.
Proof.
  revert l. induction s as [|a s IH]; intros l E; simpl in E; [done|].
  destruct (rsplit_once c s) as [[l' r']|] eqn:Es.
  - injection E as <- <-. destruct (IH l' eq_refl) as [-> ?]. done.
  - case_decide; [|done]. injection E as <- <-. subst. split; [done|].
    clear IH. revert Es. induction s as [|b s IH]; simpl; [done|].
    destruct (rsplit_once c s) as [[]|] eqn:E2; [done|]. case_decide; [done|]. intros _.
    rewrite IH by done. by rewrite bool_decide_eq_false_2.
Qed.

Lemma rsplit_once_None c s : rsplit_once c s = None -> contains_char c s = false.
Proof.
  induction s as [|b s IH]; simpl; [done|].
  destruct (rsplit_once c s) as [[]|] eqn:E2; [done|]. case_decide; [done|]. intros _.
  rewrite IH by done. by rewrite bool_decide_eq_false_2.
Qed.

Lemma append_length a b : String.length (a +:+ b) = (String.length a + String.length b)%nat.
Proof. induction a as [|x a IH]; [done|]. rewrite append_cons. simpl. by rewrite IH. Qed.

Lemma append_inj_r a b c : a +:+ c = b +:+ c -> a = b.
Proof.
  revert b. induction a as [|x a IH]; intros [|y b] E; [done| | |].
  - apply (f_equal String.length) in E. rewrite !append_length in E. simpl in E. lia.
  - apply (f_equal String.length) in E. rewrite !append_length in E. simpl in E. lia.
  - rewrite !append_cons in E. injection E as -> E. f_equal. by apply IH.
Qed.

Lemma candidate_name_inj stem ext i j :
  candidate_name stem ext i = candidate_name stem ext j -> i = j.
Proof.
  assert (forall i j, stem +:+ "_" +:+ pretty (N.of_nat i) = stem +:+ "_" +:+ pretty (N.of_nat j) -> i = j) as Hn.
  { intros i' j' E. do 2 apply (inj (String.append _)) in E. apply (inj pretty) in E. lia. }
  unfold candidate_name. destruct ext as [e|]; [|apply Hn]. intros E.
  do 2 apply (inj (String.append _)) in E. apply append_inj_r in E. apply (inj pretty) in E. lia.
Qed.

Lemma pretty_N_char_plain x : pretty_N_char x <> slash.
Proof. unfold pretty_N_char. repeat case_match; done. Qed.

Lemma pretty_N_go_no_slash x s :
  contains_char slash s = false -> contains_char slash (pretty_N_go x s) = false.
Proof.
  revert s. induction (N.lt_wf_0 x) as [x _ IH]; intros s Hs.
  destruct (decide (x = 0%N)) as [->|Hx]; [by rewrite pretty_N_go_0|].
  rewrite pretty_N_go_step by lia. apply IH; [apply N.div_lt; lia|].
  simpl. rewrite Hs, bool_decide_eq_false_2 by apply pretty_N_char_plain. done.
Qed.

Lemma pretty_N_no_slash (x : N) : contains_char slash (pretty x) = false.
Proof.
  unfold pretty, pretty_N. case_decide; [done|]. by apply pretty_N_go_no_slash.
Qed.

(** A variant of a plain name is a plain name. *)
Lemma candidate_name_plain n i :
  plain n -> plain (candidate_name (split_name n).1 (split_name n).2 i).
Proof.
  intros (Hs & _). assert (forall s e : string, contains_char "_"%char (s +:+ "_" +:+ e) = true) as Hu.
  { intros s e. rewrite !contains_char_app. simpl. apply orb_true_r. }
  assert (contains_char "_"%char (candidate_name (split_name n).1 (split_name n).2 i) = true) as Hc.
  { unfold candidate_name. case_match; apply Hu. }
  assert (contains_char slash (candidate_name (split_name n).1 (split_name n).2 i) = false) as Hf.
  { unfold candidate_name, split_name. destruct (rsplit_once dot n) as [[l r]|] eqn:E; simpl;
      rewrite !contains_char_app, pretty_N_no_slash; simpl.
    - apply rsplit_once_Some in E as [-> _]. rewrite contains_char_app in Hs. simpl in Hs. bools.
      by repeat match goal with H : contains_char slash _ = false |- _ => rewrite H end.
    - by rewrite Hs. }
  split_and!; [done|..]; intros E; rewrite E in Hc; done.
Qed.

(** *** Basenames *)

Lemma split_pieces c s w : w ∈ split c s -> contains_char c w = false.
Proof.
  revert w. induction s as [|a s IH]; intros w Hw; simpl in Hw.
  - by apply list_elem_of_singleton in Hw as ->.
  - case_decide; [apply elem_of_cons in Hw as [->|?]; [done|by apply IH]|].
    destruct (split c s) as [|v vs].
    + apply list_elem_of_singleton in Hw as ->. simpl. by rewrite bool_decide_eq_false_2.
    + apply elem_of_cons in Hw as [->|Hw]; [|apply IH; by right].
      simpl. rewrite bool_decide_eq_false_2 by done. apply IH. by left.
Qed.

Lemma component_of_Normal s n : Normal n ∈ component_of s -> s = n.
Proof.
  unfold component_of. repeat case_decide; try (intros H'; by apply list_elem_of_singleton in H' as [=]).
  all: set_solver.
Qed.

Lemma path_from_Normal s n : Normal n ∈ components (path_from s) -> n ∈ split slash s.
Proof.
  unfold path_from. simpl. rewrite elem_of_app. intros [H|H].
  - repeat case_match; set_solver.
  - apply list_elem_of_In, in_concat in H as (cs & Hcs & Hn).
    apply in_map_iff in Hcs as (w & <- & Hw). apply list_elem_of_In, component_of_Normal in Hn as ->.
    by apply list_elem_of_In.
Qed.

(** A string that is the file name of the path it denotes is a plain name. *)
Lemma basename_plain f : file_name (path_from f) = Some f -> plain f.
Proof.
  intros Hf. assert (contains_char slash f = false) as Hs.
  { apply (split_pieces slash f), path_from_Normal. unfold file_name in Hf.
    destruct (last (components (path_from f))) as [[]|] eqn:El; try done. injection Hf as ->.
    by apply last_Some_elem_of. }
  split; [done|]. split_and!; intros ->; vm_compute in Hf; done.
Qed.

(** *** Clean paths *)

(** Absolute, without [.] and [..]. *)
Definition clean (p : path) : Prop :=
  exists names, Forall plain names /\ components p = RootDir :: map Normal names.

(** In the directory [d], by names that are single components. *)
Definition within (d p : path) : Prop :=
  exists names, Forall plain names /\ components p = components d ++ map Normal names.
