(* ===== verification/HostController.v ===== *)
(** * The host controller as an interface

    core/src/io_controller.rs: the namespaces of files and the trait HostController
    through which core reaches the disk, as a class; the errors of
    core/src/core/filerequest_drive_handler.rs and of
    direct_host_utils/src/direct_fs_controller.rs, which contain each other. *)

From S2P Require Import Prelude Domain HostPath.

(** ** Fallible effects

    A computation on the state of the disk that panics or returns a Result. *)
Definition io (S E A : Type) : Type := S -> outcome (result A E * S).

Section Io.
Context {S : Type}.

Definition io_ret {E A} (a : A) : io S E A := fun s => Ret (Ok a, s).
Definition io_throw {E A} (e : E) : io S E A := fun s => Ret (Err e, s).

(** The operator [?]. *)
Definition io_bind {E A B} (m : io S E A) (k : A -> io S E B) : io S E B :=
  fun s => let? (r, s) := m s in
           match r with Ok a => k a s | Err e => Ret (Err e, s) end.

Definition io_map_err {E E' A} (f : E -> E') (m : io S E A) : io S E' A :=
  fun s => let? (r, s) := m s in
           Ret (match r with Ok a => Ok a | Err e => Err (f e) end, s).

(** A call of the host, a question to it, a Result that is at hand, [expect]. *)
Definition sys {E A} (f : S -> result A E * S) : io S E A := fun s => Ret (f s).
Definition ask {E A} (f : S -> A) : io S E A := fun s => Ret (Ok (f s), s).
Definition io_result {E A} (r : result A E) : io S E A := fun s => Ret (r, s).
Definition io_expect {E A} (o : option A) : io S E A :=
  fun s => let? a := unwrap_panic o in Ret (Ok a, s).
End Io.

(** *** Weakest preconditions

    [iwp m Q s]: from [s] the computation does not panic or diverge, and its result
    and final state satisfy [Q]. *)
Definition iwp {S E A} (m : io S E A) (Q : result A E -> S -> Prop) (s : S) : Prop :=
  match m s with Ret (r, s') => Q r s' | _ => False end.

Section Wp.
Context {S : Type}.

Lemma iwp_ret {E A} (a : A) Q (s : S) : Q (Ok a) s -> iwp (E:=E) (io_ret a) Q s.
Proof. done. Qed.

Lemma iwp_throw {E A} (e : E) Q (s : S) : Q (Err e) s -> iwp (A:=A) (io_throw e) Q s.
Proof. done. Qed.

Lemma iwp_sys {E A} (f : S -> result A E * S) Q s : Q (f s).1 (f s).2 -> iwp (sys f) Q s.
Proof. unfold iwp, sys. by destruct (f s). Qed.

Lemma iwp_ask {E A} (f : S -> A) Q s : Q (Ok (f s)) s -> iwp (E:=E) (ask f) Q s.
Proof. done. Qed.

Lemma iwp_result {E A} (r : result A E) Q (s : S) : Q r s -> iwp (io_result r) Q s.
Proof. done. Qed.

Lemma iwp_expect {E A} (o : option A) a Q (s : S) : o = Some a -> Q (Ok a) s -> iwp (E:=E) (io_expect o) Q s.
Proof. by intros ->. Qed.

Lemma iwp_bind {E A B} (m : io S E A) (k : A -> io S E B) Q s :
  iwp m (fun r s' => match r with Ok a => iwp (k a) Q s' | Err e => Q (Err e) s' end) s ->
  iwp (io_bind m k) Q s.
Proof. unfold iwp, io_bind. destruct (m s) as [[[a|e] s']| | |]; done. Qed.

Lemma iwp_map_err {E E' A} (f : E -> E') (m : io S E A) Q s :
  iwp m (fun r s' => Q (match r with Ok a => Ok a | Err e => Err (f e) end) s') s ->
  iwp (io_map_err f m) Q s.
Proof. unfold iwp, io_map_err. destruct (m s) as [[[a|e] s']| | |]; done. Qed.

Lemma iwp_run {E A} (m : io S E A) Q (s : S) : iwp m Q s -> exists r s', m s = Ret (r, s') /\ Q r s'.
Proof. unfold iwp. destruct (m s) as [[r s']| | |]; try done. eauto. Qed.

Lemma iwp_mono {E A} (m : io S E A) (Q Q' : result A E -> S -> Prop) s :
  iwp m Q s -> (forall r s', Q r s' -> Q' r s') -> iwp m Q' s.
Proof. unfold iwp. destruct (m s) as [[]| | |]; auto. Qed.
End Wp.

(** Computations that neither panic nor diverge. *)
Definition io_returns {S E A} (m : io S E A) : Prop := forall s, exists r s', m s = Ret (r, s').

Section Returns.
Context {S : Type}.

Lemma returns_ret {E A} (a : A) : io_returns (S:=S) (E:=E) (io_ret a).
Proof. intros s. by eexists _, _. Qed.

Lemma returns_throw {E A} (e : E) : io_returns (S:=S) (A:=A) (io_throw e).
Proof. intros s. by eexists _, _. Qed.

Lemma returns_sys {E A} (f : S -> result A E * S) : io_returns (sys f).
Proof. intros s. unfold sys. destruct (f s). by eexists _, _. Qed.

Lemma returns_ask {E A} (f : S -> A) : io_returns (E:=E) (ask f).
Proof. intros s. by eexists _, _. Qed.

Lemma returns_result {E A} (r : result A E) : io_returns (S:=S) (io_result r).
Proof. intros s. by eexists _, _. Qed.

Lemma returns_bind {E A B} (m : io S E A) (k : A -> io S E B) :
  io_returns m -> (forall a, io_returns (k a)) -> io_returns (io_bind m k).
Proof.
  intros Hm Hk s. unfold io_bind. destruct (Hm s) as ([a|e] & s' & ->); cbn; [apply Hk|by eexists _, _].
Qed.

Lemma returns_map_err {E E' A} (f : E -> E') (m : io S E A) : io_returns m -> io_returns (io_map_err f m).
Proof. intros Hm s. unfold io_map_err. destruct (Hm s) as (r & s' & ->). by eexists _, _. Qed.
End Returns.

Create HintDb io_returns.
#[export] Hint Resolve returns_ret returns_throw returns_sys returns_ask returns_result returns_map_err : io_returns.

Ltac returns_step :=
  first
    [ solve [eauto with io_returns]
    | match goal with
      | |- io_returns (io_bind _ _) => apply returns_bind; [|intros ?]
      | |- io_returns (io_map_err _ _) => apply returns_map_err
      | |- io_returns (match ?x with _ => _ end) => destruct x
      end ].
Ltac returns_solve := repeat returns_step.

(** One step of a computation; [io_steps] goes on while no call needs a choice. *)
Ltac io_step :=
  match goal with
  | |- iwp (io_bind _ _) _ _ => apply iwp_bind
  | |- iwp (io_map_err _ _) _ _ => apply iwp_map_err
  | |- iwp (io_ret _) _ _ => apply iwp_ret
  | |- iwp (io_throw _) _ _ => apply iwp_throw
  | |- iwp (ask _) _ _ => apply iwp_ask
  | |- iwp (io_result _) _ _ => apply iwp_result
  | |- iwp (sys _) _ _ => apply iwp_sys
  end; cbv beta iota.
Ltac io_steps := repeat io_step.

Notation "'try!' x ':=' m 'in' k" := (io_bind m (fun x => k))
  (at level 10, x pattern, m at level 100, k at level 200) : fyles_scope.

(** ** Namespaces *)

#[local] Unset Elimination Schemes.
Inductive FileNamespace : Type :=
| Namespace (namespace : string) (child : option FileNamespace)
| Filename (name : string).
#[local] Set Elimination Schemes.

Fixpoint namespace_ind (P : FileNamespace -> Prop)
    (Hleaf : forall n, P (Namespace n None)) (Hnode : forall n c, P c -> P (Namespace n (Some c)))
    (Hname : forall n, P (Filename n)) (ns : FileNamespace) : P ns :=
  match ns with
  | Namespace n (Some c) => Hnode n c (namespace_ind P Hleaf Hnode Hname c)
  | Namespace n None => Hleaf n
  | Filename n => Hname n
  end.

(** [From<FileNamespace> for PathBuf] *)
Fixpoint namespace_path (ns : FileNamespace) : path :=
  match ns with
  | Namespace namespace child =>
      match child with
      | Some child => path_join (path_from namespace) (namespace_path child)
      | None => path_from namespace
      end
  | Filename name => path_from name
  end.

(** ** Errors

    Where the code formats an error into a message, the model keeps the value. *)
Inductive FileNamespaceError : Type :=
| AbsolutePath (p : string).

Inductive FileReadError (E : Type) : Type :=
| ReadIo (e : E).

Inductive FileRenameError (E : Type) : Type :=
| RenameIo (e : E)
| AsymmetricPaths
| RenamingTooMuch
| TargetAlreadyExists (p : path)
| UniqueVariantNotFound (n : nat).

Inductive FilerequestDirError (E : Type) : Type :=
| DirCreate (p : path) (source : E)
| DirCanonicalize (p : path) (source : E)
| DirEscape (actual root : path).

Inductive DeescalatePathError (E : Type) : Type :=
| InvalidBasePath (p : path)
| DeescalateCreateDirectory (p : path) (source : E)
| NoAccessibleVariantFound (p : path) (n : nat).

Inductive DirectFsControllerError (E : Type) : Type :=
| CreateDirectory (p : path) (source : E)
| CanonicalizePath (p : path) (source : E)
| Deescalate (e : DeescalatePathError E).

Inductive GetFileError (E : Type) : Type :=
| FileNameStartsWithDot
| SanitizedEmpty (original : string)
| ContainsSeparator (sanitized : string)
| BaseDirMissing (base : path)
| ConstructedPathEscapedBaseDirectory
| UniqueFileNameVariantNotFound (base : path)
| FileExists
| Io (p : path) (source : E)
| FilerequestDir (source : BoxedError E)
with FileWriteError (E : Type) : Type :=
| InvalidPath (e : FileNamespaceError)
| NotWritingToRoot
| CreateParentDirs (e : E)
| CanonicalizePathFailed (e : E)
| PathOutsideParent
| WriteFilerequestDir (e : FilerequestDirError E)
| WriteGetFile (e : GetFileError E)
with BoxedError (E : Type) : Type :=
| BoxRead (e : FileReadError E)
| BoxWrite (e : FileWriteError E)
| BoxRename (e : FileRenameError E)
| BoxDir (e : FilerequestDirError E)
| BoxNamespace (e : FileNamespaceError)
| BoxIo (e : E)
| CouldNotRemoveFile
| NotABasename (filename : string)
| NoFilename
| NoUniqueFilename (n : nat).

Arguments ReadIo {E}.
Arguments RenameIo {E}.
Arguments AsymmetricPaths {E}.
Arguments RenamingTooMuch {E}.
Arguments TargetAlreadyExists {E}.
Arguments UniqueVariantNotFound {E}.
Arguments DirCreate {E}.
Arguments DirCanonicalize {E}.
Arguments DirEscape {E}.
Arguments InvalidBasePath {E}.
Arguments DeescalateCreateDirectory {E}.
Arguments NoAccessibleVariantFound {E}.
Arguments CreateDirectory {E}.
Arguments CanonicalizePath {E}.
Arguments Deescalate {E}.
Arguments FileNameStartsWithDot {E}.
Arguments SanitizedEmpty {E}.
Arguments ContainsSeparator {E}.
Arguments BaseDirMissing {E}.
Arguments ConstructedPathEscapedBaseDirectory {E}.
Arguments UniqueFileNameVariantNotFound {E}.
Arguments FileExists {E}.
Arguments Io {E}.
Arguments FilerequestDir {E}.
Arguments InvalidPath {E}.
Arguments NotWritingToRoot {E}.
Arguments CreateParentDirs {E}.
Arguments CanonicalizePathFailed {E}.
Arguments PathOutsideParent {E}.
Arguments WriteFilerequestDir {E}.
Arguments WriteGetFile {E}.
Arguments BoxRead {E}.
Arguments BoxWrite {E}.
Arguments BoxRename {E}.
Arguments BoxDir {E}.
Arguments BoxNamespace {E}.
Arguments BoxIo {E}.
Arguments CouldNotRemoveFile {E}.
Arguments NotABasename {E}.
Arguments NoFilename {E}.
Arguments NoUniqueFilename {E}.

(** ** The trait *)

(** [struct FileMeta], [struct OutgoingFileInfo] *)
Record FileMeta (F : Type) := mk_file_meta {
  meta_file : F;
  meta_path : string;
  meta_file_name : string;
}.
Arguments mk_file_meta {F}.
Arguments meta_file {F}.
Arguments meta_path {F}.
Arguments meta_file_name {F}.

Record OutgoingFileInfo := mk_outgoing_file_info {
  outgoing_path : string;
  modified_ms : Z;
}.

(** Controllers [C] on a disk [S] with open files [F] and errors [E] of the host. *)
Class HostController (C S F E : Type) := {
  host_access_file_for_reading : C -> string -> io S (BoxedError E) (FileMeta F);
  host_create_file_for_writing : C -> FileNamespace -> io S (BoxedError E) (F * string);
  host_get_exact_file_for_writing : C -> FileNamespace -> io S (BoxedError E) F;
  host_remove_file : C -> FileNamespace -> io S (BoxedError E) unit;
  host_create_filerequest_resource : C -> FileNamespace -> io S (BoxedError E) unit;
  host_rename_resource : C -> FileNamespace -> FileNamespace -> io S (BoxedError E) unit;
  host_get_path_to_db_backup_file : C -> io S (BoxedError E) F;
  host_remove_source_file_if_temporary : C -> string -> io S (BoxedError E) bool;
  host_list_temporary_outgoing_files : C -> io S (BoxedError E) (list OutgoingFileInfo);
  host_get_partial_file_for_writing : C -> string -> io S (BoxedError E) F;
  host_remove_partial_file : C -> string -> io S (BoxedError E) unit;
  host_finalize_partial_file : C -> string -> FileNamespace -> io S (BoxedError E) unit;
  host_list_partial_files : C -> io S (BoxedError E) (list string);
}.
