(* ===== verification/FsController.v ===== *)
(** * The file system controller

    direct_host_utils/src/direct_fs_controller.rs: the implementation of the trait
    HostController on the file system, with the choice of the output directory.
    The file system is the class [FileSystem]; [FileSystemLaws] states what its
    calls keep and [MemoryDisk] is an instance. The text that send_notification shows
    on the desktop is in Notifications.v. *)

From S2P Require Import Prelude Domain HostPath HostController.
From stdpp Require Import pretty.
From Stdlib Require Import Ascii.
#[local] Open Scope Z_scope.

(** ** The file system

    [metadata] tells whether a path exists and is a directory, following links.
    [read_dir] has the name of each entry where it is valid UTF-8. *)
Class FileSystem (S F E : Type) := {
  metadata : path -> S -> result bool E;
  current_dir : S -> result path E;
  canonicalize : path -> S -> result path E;
  read_dir : path -> S -> result (list (result (option string) E)) E;
  create_dir_all : path -> S -> result unit E * S;
  open_read : path -> S -> result F E * S;
  open_append_create : path -> S -> result F E * S;
  open_create_new : path -> S -> result F E * S;
  open_truncate : path -> S -> result F E * S;
  fs_remove_file : path -> S -> result unit E * S;
  fs_rename : path -> path -> S -> result unit E * S;
  system_nanos : S -> option Z * S;
  process_id : Z;
  local_date : S -> string * S;
  invalid_input : E;
}.

Definition NUMBER_OF_VARIATIONS_TO_TRY : nat := 100.

(** [u128::rotate_left] and the format [{:x}] *)
Definition rotate_left128 (x n : Z) : Z :=
  Z.lor (Z.shiftl x n mod 2 ^ 128) (Z.shiftr x (128 - n)).

Definition hex_digit (d : Z) : ascii :=
  ascii_of_nat (Z.to_nat (if d <? 10 then 48 + d else 87 + d)).

Fixpoint hex_go (fuel : nat) (x : Z) (s : string) : string :=
  match fuel with
  | O => s
  | Datatypes.S fuel =>
      let s := String (hex_digit (x mod 16)) s in
      if x / 16 =? 0 then s else hex_go fuel (x / 16) s
  end.
Definition hex (x : Z) : string := hex_go 32 x "".

(** [struct DirectFsController], less the language of its messages *)
Record DirectFsController := mk_controller {
  file_drop_dir : path;
  backup_dir : path;
  partial_dir : path;
}.

Section Controller.
Context {S F E : Type} `{!FileSystem S F E} `{!Sanitizer}.

Definition exists_at (p : path) (s : S) : bool := is_ok (metadata p s).
Definition is_dir (p : path) (s : S) : bool :=
  match metadata p s with Ok d => d | Err _ => false end.

(** [std::path::absolute] *)
Definition path_absolute (p : path) (s : S) : result path E :=
  match components p with
  | [] => Err invalid_input
  | RootDir :: _ => Ok p
  | cs =>
      match current_dir s with
      | Ok d => Ok (path_join d (mk_path (skip_cur_dir cs) (trailing p)))
      | Err e => Err e
      end
  end.

(** [FileNamespaceExt::parse_sanitized] *)
Fixpoint parse_loop (p : path) (current : FileNamespace) : path :=
  match current with
  | Namespace namespace child =>
      let p := path_join p (path_from (sanitize namespace)) in
      match child with
      | Some c => parse_loop p c
      | None => p
      end
  | Filename name => path_join p (path_from (sanitize name))
  end.

Definition parse_sanitized (self : FileNamespace) : result path FileNamespaceError :=
  let p := parse_loop path_empty self in
  if is_absolute p then Err (AbsolutePath (path_to_string p)) else Ok p.

(** *** Unused names *)

Definition find_candidate (p : path) (stem : string) (ext : option string) (s : S) : nat -> nat -> option path :=
  fix go (n i : nat) : option path :=
    match n with
    | O => None
    | Datatypes.S n =>
        let candidate := with_file_name p (candidate_name stem ext i) in
        if exists_at candidate s then go n (Datatypes.S i) else Some candidate
    end.

Definition escalate_existing_file (p : path) : io S (GetFileError E) path :=
  try! file_name := io_result (match file_name p with
                               | Some n => Ok n
                               | None => Err (Io p invalid_input)
                               end) in
  let (stem, ext) := split_name file_name in
  try! candidate := ask (fun s => find_candidate p stem ext s NUMBER_OF_VARIATIONS_TO_TRY 0) in
  match candidate with
  | Some candidate => io_ret candidate
  | None => io_throw (UniqueFileNameVariantNotFound p)
  end.

Definition escalate_existing_path (p : path) : io S nat path :=
  try! file_name := io_expect (file_name p) in
  let (stem, ext) := split_name file_name in
  try! candidate := ask (fun s => find_candidate p stem ext s NUMBER_OF_VARIATIONS_TO_TRY 0) in
  match candidate with
  | Some candidate => io_ret candidate
  | None => io_throw NUMBER_OF_VARIATIONS_TO_TRY
  end.

Definition get_unique_file (base_dir : path) (filename : string) : io S (GetFileError E) (path * F) :=
  try! base_exists := ask (exists_at base_dir) in
  if negb base_exists then io_throw (BaseDirMissing base_dir)
  else
    let p := path_join base_dir (path_from filename) in
    if negb (path_starts_with p base_dir) then io_throw ConstructedPathEscapedBaseDirectory
    else
      try! p := (try! taken := ask (exists_at p) in
                 if taken : bool then escalate_existing_file p else io_ret p) in
      try! f := io_map_err (Io p) (sys (open_create_new p)) in
      io_ret (p, f).

(** *** Directories *)

Definition ensure_filerequest_dir (out_dir safe_dir_name : path) : io S (FilerequestDirError E) path :=
  let dir := path_join out_dir safe_dir_name in
  try! there := ask (exists_at dir) in
  try! _ := if there : bool then io_ret tt
            else io_map_err (DirCreate dir) (sys (create_dir_all dir)) in
  try! r := ask (canonicalize dir) in
  match r with
  | Ok actual =>
      if negb (path_starts_with actual out_dir) then io_throw (DirEscape actual out_dir)
      else io_ret actual
  | Err e => io_throw (DirCanonicalize dir e)
  end.

Definition test_write_permission_in_dir (dir : path) : S -> bool * S := fun s =>
  let (nanos, s) := system_nanos s in
  let mixed := Z.lxor (default 0 nanos) (rotate_left128 process_id 17) in
  let test_file := path_join dir (path_from (".test_write_permissions_" +:+ hex mixed)) in
  match open_create_new test_file s with
  | (Ok _, s) => let (r, s) := fs_remove_file test_file s in (is_ok r, s)
  | (Err _, s) => (false, s)
  end.

Definition ask_mut {E' A} (f : S -> A * S) : io S E' A := fun s => let (a, s) := f s in Ret (Ok a, s).

Fixpoint deescalate_loop (p : path) (base : string) (fuel to_append : nat)
  : io S (DeescalatePathError E) path :=
  match fuel with
  | O => fun _ => Diverge
  | Datatypes.S fuel =>
      let candidate := with_file_name p (base +:+ "_" +:+ pretty (N.of_nat to_append)) in
      let next :=
        if Nat.leb NUMBER_OF_VARIATIONS_TO_TRY to_append
        then io_throw (NoAccessibleVariantFound p NUMBER_OF_VARIATIONS_TO_TRY)
        else deescalate_loop p base fuel (Datatypes.S to_append) in
      try! there := ask (exists_at candidate) in
      if there : bool then
        try! dir := ask (is_dir candidate) in
        try! usable := if dir : bool then ask_mut (test_write_permission_in_dir candidate) else io_ret false in
        if usable : bool then io_ret candidate else next
      else
        try! _ := io_map_err (DeescalateCreateDirectory candidate) (sys (create_dir_all candidate)) in
        io_ret candidate
  end.

Definition deescalate_existing_inaccessible_path (p : path) : io S (DeescalatePathError E) path :=
  try! base := io_result (match file_name p with Some n => Ok n | None => Err (InvalidBasePath p) end) in
  deescalate_loop p base (NUMBER_OF_VARIATIONS_TO_TRY + 1) 0.

(** Its end: the three directories of the controller. *)
Definition controller_at (out_dir : path) : io S (DirectFsControllerError E) DirectFsController :=
  try! r := ask (canonicalize out_dir) in
  match r with
  | Ok canonical =>
      io_ret (mk_controller (path_join canonical (path_from "Received")) (path_join canonical (path_from "Backup"))
                (path_join canonical (path_from "Partial")))
  | Err e => io_throw (CanonicalizePath out_dir e)
  end.

Definition controller_new (requested_path : path) : io S (DirectFsControllerError E) DirectFsController :=
  try! there := ask (exists_at requested_path) in
  try! out_dir :=
    if there : bool then
      try! dir := ask (is_dir requested_path) in
      if dir : bool then
        try! writable := ask_mut (test_write_permission_in_dir requested_path) in
        if writable : bool then io_ret requested_path
        else io_map_err Deescalate (deescalate_existing_inaccessible_path requested_path)
      else io_map_err Deescalate (deescalate_existing_inaccessible_path requested_path)
    else
      try! _ := io_map_err (CreateDirectory requested_path) (sys (create_dir_all requested_path)) in
      io_ret requested_path in
  controller_at out_dir.

(** *** Files of filerequests *)

Definition access_file_for_reading (uri : string) : io S (FileReadError E) (FileMeta F) :=
  let p := path_from uri in
  try! f := io_map_err ReadIo (sys (open_read p)) in
  try! name := io_expect (file_name p) in
  io_ret (mk_file_meta f (path_to_string p) name).

(** The part that creating a file with an exact and with a unique name share:
    the absolute path, after its directory was created and checked. *)
Definition prepare_path (self : DirectFsController) (uri : FileNamespace) : io S (FileWriteError E) path :=
  try! p := io_map_err InvalidPath (io_result (parse_sanitized uri)) in
  let raw_path := path_join (file_drop_dir self) p in
  try! parent_path := io_result (match parent raw_path with Some d => Ok d | None => Err NotWritingToRoot end) in
  try! _ := io_map_err CreateParentDirs (sys (create_dir_all parent_path)) in
  try! absolute := ask (path_absolute raw_path) in
  try! abs_path := io_map_err CanonicalizePathFailed (io_result absolute) in
  if negb (path_starts_with abs_path (file_drop_dir self)) then io_throw PathOutsideParent
  else
    try! dir := io_expect (parent abs_path) in
    try! _ := io_map_err WriteFilerequestDir (ensure_filerequest_dir (file_drop_dir self) dir) in
    io_ret abs_path.

Definition create_exact_file_for_writing (self : DirectFsController) (uri : FileNamespace)
  : io S (FileWriteError E) (F * string) :=
  try! abs_path := prepare_path self uri in
  try! f := io_map_err (fun e => WriteGetFile (Io abs_path e)) (sys (open_append_create abs_path)) in
  io_ret (f, path_to_string abs_path).

Definition create_file_for_writing (self : DirectFsController) (uri : FileNamespace)
  : io S (FileWriteError E) (F * string) :=
  try! abs_path := prepare_path self uri in
  try! dir := io_expect (parent abs_path) in
  try! name := io_expect (file_name abs_path) in
  try! (p, f) := io_map_err WriteGetFile (get_unique_file dir name) in
  io_ret (f, path_to_string p).

Definition remove_file (self : DirectFsController) (uri : FileNamespace) : io S unit unit :=
  try! p := io_map_err (fun _ => tt) (io_result (parse_sanitized uri)) in
  let raw_path := path_join (file_drop_dir self) p in
  try! absolute := ask (path_absolute raw_path) in
  try! abs_path := io_map_err (fun _ => tt) (io_result absolute) in
  if negb (path_starts_with abs_path (file_drop_dir self)) then io_throw tt
  else io_map_err (fun _ => tt) (sys (fs_remove_file abs_path)).

(** The loop of rename_resource: both paths, and whether a file is renamed. *)
Fixpoint rename_paths (from_path to_path : path) (current_from current_to : FileNamespace)
  : result (path * path * bool) (FileRenameError E) :=
  match current_from, current_to with
  | Namespace namespace_from child_from, Namespace namespace_to child_to =>
      match child_from, child_to with
      | None, None =>
          Ok (path_join from_path (path_from (sanitize namespace_from)),
              path_join to_path (path_from (sanitize namespace_to)), false)
      | None, Some _ | Some _, None => Err AsymmetricPaths
      | Some child_from, Some child_to =>
          if negb (bool_decide (namespace_from = namespace_to)) then Err RenamingTooMuch
          else rename_paths (path_join from_path (path_from namespace_from)) (path_join to_path (path_from namespace_to))
                 child_from child_to
      end
  | Namespace _ _, Filename _ | Filename _, Namespace _ _ => Err AsymmetricPaths
  | Filename name_from, Filename name_to =>
      Ok (path_join from_path (path_from (sanitize name_from)), path_join to_path (path_from (sanitize name_to)), true)
  end.

Definition rename_resource (self : DirectFsController) (from to : FileNamespace)
  : io S (FileRenameError E) unit :=
  try! (from_path, to_path, is_file_rename) :=
    io_result (rename_paths (file_drop_dir self) (file_drop_dir self) from to) in
  try! to_path :=
    try! taken := ask (exists_at to_path) in
    if taken : bool then
      if is_file_rename : bool then io_map_err UniqueVariantNotFound (escalate_existing_path to_path)
      else io_throw (TargetAlreadyExists to_path)
    else io_ret to_path in
  io_map_err RenameIo (sys (fs_rename from_path to_path)).

(** ** [impl HostController for DirectFsControllerWrapper] *)

Definition create_filerequest_resource (self : DirectFsController) (name : FileNamespace)
  : io S (BoxedError E) unit :=
  try! safe_path := io_map_err BoxNamespace (io_result (parse_sanitized name)) in
  try! dir := io_map_err BoxDir (ensure_filerequest_dir (file_drop_dir self) safe_path) in
  io_map_err BoxIo (sys (create_dir_all dir)).

Definition get_path_to_db_backup_file (self : DirectFsController) : io S (BoxedError E) F :=
  try! _ := io_map_err BoxIo (sys (create_dir_all (backup_dir self))) in
  try! date := ask_mut local_date in
  let backup_path := path_join (backup_dir self) (path_from (date +:+ "_fyles.bak")) in
  io_map_err BoxIo (sys (open_truncate backup_path)).

Definition validate_partial_basename (filename : string) : io S (BoxedError E) unit :=
  if negb (bool_decide (file_name (path_from filename) = Some filename))
  then io_throw (NotABasename filename)
  else io_ret tt.

Definition get_partial_file_for_writing (self : DirectFsController) (filename : string)
  : io S (BoxedError E) F :=
  try! _ := validate_partial_basename filename in
  try! _ := io_map_err BoxIo (sys (create_dir_all (partial_dir self))) in
  let p := path_join (partial_dir self) (path_from filename) in
  io_map_err BoxIo (sys (open_append_create p)).

Definition remove_partial_file (self : DirectFsController) (filename : string) : io S (BoxedError E) unit :=
  try! _ := validate_partial_basename filename in
  let p := path_join (partial_dir self) (path_from filename) in
  try! there := ask (exists_at p) in
  if there : bool then io_map_err BoxIo (sys (fs_remove_file p)) else io_ret tt.

Definition finalize_partial_file (self : DirectFsController) (partial_filename : string)
    (final_namespace : FileNamespace) : io S (BoxedError E) unit :=
  try! _ := validate_partial_basename partial_filename in
  let from_p := path_join (partial_dir self) (path_from partial_filename) in
  try! safe_path := io_map_err BoxNamespace (io_result (parse_sanitized final_namespace)) in
  try! filename := io_result (match file_name safe_path with Some n => Ok n | None => Err NoFilename end) in
  let dir_rel := default path_empty (parent safe_path) in
  try! dest_dir := io_map_err BoxDir (ensure_filerequest_dir (file_drop_dir self) dir_rel) in
  let raw_to := path_join dest_dir (path_from filename) in
  try! to_p := (try! taken := ask (exists_at raw_to) in
                if taken : bool then io_map_err NoUniqueFilename (escalate_existing_path raw_to)
                else io_ret raw_to) in
  io_map_err BoxIo (sys (fs_rename from_p to_p)).

Fixpoint collect_names (entries : list (result (option string) E)) : result (list string) E :=
  match entries with
  | [] => Ok []
  | Err e :: _ => Err e
  | Ok name :: entries =>
      match collect_names entries with
      | Ok files => Ok (match name with Some n => n :: files | None => files end)
      | Err e => Err e
      end
  end.

Definition list_partial_files (self : DirectFsController) : io S (BoxedError E) (list string) :=
  try! there := ask (exists_at (partial_dir self)) in
  if negb there then io_ret []
  else
    try! entries := ask (read_dir (partial_dir self)) in
    try! entries := io_map_err BoxIo (io_result entries) in
    io_map_err BoxIo (io_result (collect_names entries)).

#[global] Instance direct_fs_host : HostController DirectFsController S F E := {|
  host_access_file_for_reading _ uri := io_map_err BoxRead (access_file_for_reading uri);
  host_create_file_for_writing self uri := io_map_err BoxWrite (create_file_for_writing self uri);
  host_get_exact_file_for_writing self uri :=
    try! (f, _) := io_map_err BoxWrite (create_exact_file_for_writing self uri) in io_ret f;
  host_remove_file self uri := io_map_err (fun _ => CouldNotRemoveFile) (remove_file self uri);
  host_create_filerequest_resource := create_filerequest_resource;
  host_rename_resource self from to := io_map_err BoxRename (rename_resource self from to);
  host_get_path_to_db_backup_file := get_path_to_db_backup_file;
  host_remove_source_file_if_temporary _ _ := io_ret false;
  host_list_temporary_outgoing_files _ := io_ret [];
  host_get_partial_file_for_writing := get_partial_file_for_writing;
  host_remove_partial_file := remove_partial_file;
  host_finalize_partial_file := finalize_partial_file;
  host_list_partial_files := list_partial_files;
|}.
End Controller.

(** ** Unused names *)

Section Variants.
Context {S F E : Type} `{!FileSystem S F E}.

(** The [i]-th variant of a path with the name [n]. *)
Definition variant (p : path) (n : string) (i : nat) : path :=
  with_file_name p (candidate_name (split_name n).1 (split_name n).2 i).

(** [q] is the first variant that is not in use. *)
Definition first_variant (p : path) (n : string) (s : S) (q : path) : Prop :=
  exists i, (i < NUMBER_OF_VARIATIONS_TO_TRY)%nat /\ q = variant p n i /\ exists_at q s = false
    /\ forall j, (j < i)%nat -> exists_at (variant p n j) s = true.

(** The name itself if it is free, or else its first free variant. *)
Definition unused_name (p : path) (s : S) (q : path) : Prop :=
  q = p /\ exists_at p s = false
  \/ exists n, file_name p = Some n /\ exists_at p s = true /\ first_variant p n s q.

Lemma find_candidate_spec p n s k i :
  match find_candidate p (split_name n).1 (split_name n).2 s k i with
  | Some q => exists j, (i <= j < i + k)%nat /\ q = variant p n j /\ exists_at q s = false
              /\ forall m, (i <= m < j)%nat -> exists_at (variant p n m) s = true
  | None => forall m, (i <= m < i + k)%nat -> exists_at (variant p n m) s = true
  end.
Proof.
  revert i. induction k as [|k IH]; intros i; simpl; [lia|]. fold (variant p n i).
  destruct (exists_at (variant p n i) s) eqn:Ex.
  - specialize (IH (Datatypes.S i)). destruct (find_candidate _ _ _ s k (Datatypes.S i)) as [q|].
    + destruct IH as (j & Hj & -> & Hq & Hm). exists j. split_and!; [lia..|done|done|].
      intros m Hm'. destruct (decide (m = i)) as [->|]; [done|]. apply Hm. lia.
    + intros m Hm. destruct (decide (m = i)) as [->|]; [done|]. apply IH. lia.
  - exists i. split_and!; [lia..|done|done|]. lia.
Qed.

Lemma find_candidate_first p n s :
  match find_candidate p (split_name n).1 (split_name n).2 s NUMBER_OF_VARIATIONS_TO_TRY 0 with
  | Some q => first_variant p n s q
  | None => forall j, (j < NUMBER_OF_VARIATIONS_TO_TRY)%nat -> exists_at (variant p n j) s = true
  end.
Proof.
  pose proof (find_candidate_spec p n s NUMBER_OF_VARIATIONS_TO_TRY 0) as H.
  destruct (find_candidate _ _ _ s _ 0) as [q|].
  - destruct H as (j & Hj & -> & Hq & Hm). exists j. split_and!; [lia|done..|]. intros. apply Hm. lia.
  - intros j Hj. apply H. lia.
Qed.

Lemma escalate_path_run p n s :
  file_name p = Some n ->
  escalate_existing_path p s
  = Ret (match find_candidate p (split_name n).1 (split_name n).2 s NUMBER_OF_VARIATIONS_TO_TRY 0 with
         | Some q => Ok q
         | None => Err NUMBER_OF_VARIATIONS_TO_TRY
         end, s).
Proof.
  intros Hn. unfold escalate_existing_path, io_bind, io_expect. rewrite Hn. cbn -[find_candidate].
  destruct (split_name n) as [stem ext]. unfold ask. cbn -[find_candidate].
  by destruct (find_candidate p stem ext s _ 0).
Qed.

Lemma escalate_file_run p n s :
  file_name p = Some n ->
  escalate_existing_file p s
  = Ret (match find_candidate p (split_name n).1 (split_name n).2 s NUMBER_OF_VARIATIONS_TO_TRY 0 with
         | Some q => Ok q
         | None => Err (UniqueFileNameVariantNotFound p)
         end, s).
Proof.
  intros Hn. unfold escalate_existing_file, io_bind, io_result. rewrite Hn. cbn -[find_candidate].
  destruct (split_name n) as [stem ext]. unfold ask. cbn -[find_candidate].
  by destruct (find_candidate p stem ext s _ 0).
Qed.

(** The two uses of the search. *)
Lemma unused_path_spec {E'} (f : nat -> E') p s :
  (exists n, file_name p = Some n /\ plain n) ->
  iwp (try! taken := ask (exists_at p) in
      if taken : bool then io_map_err f (escalate_existing_path p) else io_ret p)
     (fun r s' => s' = s /\ forall q, r = Ok q -> unused_name p s q) s.
Proof.
  intros (n & Hn & _). io_steps. destruct (exists_at p s) eqn:Ex; io_steps.
  - unfold iwp. rewrite (escalate_path_run p n s Hn). pose proof (find_candidate_first p n s) as Hf.
    destruct (find_candidate _ _ _ s _ 0) as [q|]; split; try done. intros q' [= <-]. right. eauto.
  - split; [done|]. intros q [= <-]. by left.
Qed.

Lemma unused_file_spec p s :
  (exists n, file_name p = Some n /\ plain n) ->
  iwp (try! taken := ask (exists_at p) in if taken : bool then escalate_existing_file p else io_ret p)
     (fun r s' => s' = s /\ forall q, r = Ok q -> unused_name p s q) s.
Proof.
  intros (n & Hn & _). io_steps. destruct (exists_at p s) eqn:Ex; io_steps.
  - unfold iwp. rewrite (escalate_file_run p n s Hn). pose proof (find_candidate_first p n s) as Hf.
    destruct (find_candidate _ _ _ s _ 0) as [q|]; split; try done. intros q' [= <-]. right. eauto.
  - split; [done|]. intros q [= <-]. by left.
Qed.
End Variants.
