(* ===== verification/Disk.v ===== *)
(** * Disks

    What the theorems on the controller assume of the file system
    ([FileSystemLaws]), a disk in memory that satisfies it, and a disk that records
    the paths it is told to change. *)

From S2P Require Import Prelude Domain HostPath HostController FsController.
From stdpp Require Import pretty fin_sets.
From Stdlib Require Import Ascii.
#[local] Open Scope Z_scope.

(** ** Laws

    [file_at] is the file a path leads to and [data] its content; both are notions
    of the laws, not of the code. Links are possible: two paths can lead to one
    file. *)
Section Laws.
Context {S F E N : Type} `{!FileSystem S F E}.
Context (file_at : path -> S -> option N) (data : N -> S -> option (list Z)).

(** No content is lost. *)
Definition kept (s s' : S) : Prop := forall n b, data n s = Some b -> data n s' = Some b.

(** And every file is where it was. *)
Definition stays (s s' : S) : Prop :=
  kept s s' /\ forall p n, file_at p s = Some n -> file_at p s' = Some n.

Class FileSystemLaws : Prop := {
  law_canonical : forall p s d, canonicalize p s = Ok d -> clean d;
  law_file_exists : forall p s n, file_at p s = Some n -> exists_at p s = true;
  law_create_dir : forall p s, stays s (create_dir_all p s).2;
  law_append : forall p s, stays s (open_append_create p s).2;
  law_create_new : forall p s, stays s (open_create_new p s).2;
  law_create_new_fresh : forall p s f s', open_create_new p s = (Ok f, s') ->
    exists_at p s = false
    /\ exists n, file_at p s' = Some n /\ data n s = None /\ data n s' = Some [];
  law_rename_keeps : forall p q s, exists_at q s = false -> kept s (fs_rename p q s).2;
  law_rename_moves : forall p q s s' n, exists_at q s = false -> fs_rename p q s = (Ok tt, s') ->
    file_at p s = Some n ->
    file_at q s' = Some n /\ forall r m, file_at r s = Some m -> m <> n -> file_at r s' = Some m;
  law_rename_fails : forall p q s e s', fs_rename p q s = (Err e, s') -> stays s s';
  law_remove : forall p s n b,
    data n s = Some b -> file_at p s <> Some n -> data n (fs_remove_file p s).2 = Some b;
  law_remove_at : forall p q s n, file_at q (fs_remove_file p s).2 = Some n -> file_at q s = Some n;
}.

Lemma kept_refl s : kept s s.
Proof. by intros ?. Qed.
Lemma kept_trans s1 s2 s3 : kept s1 s2 -> kept s2 s3 -> kept s1 s3.
Proof. unfold kept. eauto. Qed.
Lemma stays_refl s : stays s s.
Proof. split; [apply kept_refl|auto]. Qed.
Lemma stays_trans s1 s2 s3 : stays s1 s2 -> stays s2 s3 -> stays s1 s3.
Proof. intros [] []. split; [by eapply kept_trans|auto]. Qed.
End Laws.
Arguments FileSystemLaws S F E N {_} _ _.

(** ** A disk that records changes *)

Definition traced {S F E : Type} (base : FileSystem S F E) : FileSystem (S * list path) F E :=
  let record {A} (ps : list path) (f : S -> A * S) (s : S * list path) : A * (S * list path) :=
    let (a, s') := f s.1 in (a, (s', s.2 ++ ps)) in
  {|
    metadata p s := metadata p s.1;
    current_dir s := current_dir s.1;
    canonicalize p s := canonicalize p s.1;
    read_dir p s := read_dir p s.1;
    create_dir_all p := record [p] (create_dir_all p);
    open_read p := record [] (open_read p);
    open_append_create p := record [p] (open_append_create p);
    open_create_new p := record [p] (open_create_new p);
    open_truncate p := record [p] (open_truncate p);
    fs_remove_file p := record [p] (fs_remove_file p);
    fs_rename p q := record [p; q] (fs_rename p q);
    system_nanos := record [] system_nanos;
    process_id := process_id;
    local_date := record [] local_date;
    invalid_input := invalid_input;
  |}.

(** ** A disk in memory

    Directories and files by their components; a handle is the number of a file.
    There are no links, and directories are not renamed. *)
Module MemoryDisk.
Record disk := mk_disk {
  dirs : gset (list component);
  files : gmap (list component) nat;
  contents : gmap nat (list Z);
}.

Definition file_at (p : path) (s : disk) : option nat :=
  if trailing p then None else files s !! components p.

Definition data (n : nat) (s : disk) : option (list Z) := contents s !! n.

Definition mem_metadata (p : path) (s : disk) : result bool unit :=
  if bool_decide (components p ∈ dirs s) then Ok true
  else match file_at p s with Some _ => Ok false | None => Err tt end.

Definition parent_exists (p : path) (s : disk) : bool :=
  bool_decide (removelast (components p) ∈ dirs s).

Definition prefixes (cs : list component) : list (list component) :=
  map (fun n => take n cs) (seq 1 (length cs)).

Definition mem_create_dir_all (p : path) (s : disk) : result unit unit * disk :=
  if existsb (fun k => bool_decide (is_Some (files s !! k))) (prefixes (components p)) then (Err tt, s)
  else (Ok tt, mk_disk (list_to_set (prefixes (components p)) ∪ dirs s) (files s) (contents s)).

Definition new_file (p : path) (s : disk) : result nat unit * disk :=
  let n := fresh (dom (contents s)) in
  (Ok n, mk_disk (dirs s) (<[components p := n]> (files s)) (<[n := []]> (contents s))).

Definition mem_open_create_new (p : path) (s : disk) : result nat unit * disk :=
  if is_ok (mem_metadata p s) || negb (parent_exists p s) || trailing p || bool_decide (is_Some (files s !! components p)) then (Err tt, s)
  else new_file p s.

Definition mem_open_append (p : path) (s : disk) : result nat unit * disk :=
  match file_at p s with
  | Some n => (Ok n, s)
  | None => mem_open_create_new p s
  end.

Definition mem_open_truncate (p : path) (s : disk) : result nat unit * disk :=
  match file_at p s with
  | Some n => (Ok n, mk_disk (dirs s) (files s) (<[n := []]> (contents s)))
  | None => mem_open_create_new p s
  end.

Definition mem_open_read (p : path) (s : disk) : result nat unit * disk :=
  (match file_at p s with Some n => Ok n | None => Err tt end, s).

Definition mem_remove (p : path) (s : disk) : result unit unit * disk :=
  match file_at p s with
  | Some n => (Ok tt, mk_disk (dirs s) (delete (components p) (files s)) (delete n (contents s)))
  | None => (Err tt, s)
  end.

Definition mem_rename (p q : path) (s : disk) : result unit unit * disk :=
  match file_at p s with
  | Some n =>
      if trailing q || negb (parent_exists q s) || bool_decide (components q ∈ dirs s) then (Err tt, s)
      else
        let cs := match files s !! components q with Some m => delete m (contents s) | None => contents s end in
        (Ok tt, mk_disk (dirs s) (<[components q := n]> (delete (components p) (files s))) cs)
  | None => (Err tt, s)
  end.

Definition normal_names (cs : list component) : option (list string) :=
  mapM (fun c => match c with Normal n => if decide (plain n) then Some n else None | _ => None end) cs.

Definition mem_canonicalize (p : path) (s : disk) : result path unit :=
  match components p with
  | RootDir :: cs =>
      match normal_names cs with
      | Some _ => if is_ok (mem_metadata p s) then Ok (mk_path (components p) false) else Err tt
      | None => Err tt
      end
  | _ => Err tt
  end.

Definition mem_read_dir (d : path) (s : disk) : result (list (result (option string) unit)) unit :=
  if bool_decide (components d ∈ dirs s) then
    Ok (omap (fun e => match last e.1 with
                       | Some (Normal n) =>
                           if bool_decide (removelast e.1 = components d) then Some (Ok (Some n)) else None
                       | _ => None
                       end) (map_to_list (files s)))
  else Err tt.

#[global] Instance memory_disk : FileSystem disk nat unit := {|
  metadata := mem_metadata;
  current_dir _ := Ok (path_from "/");
  canonicalize := mem_canonicalize;
  read_dir := mem_read_dir;
  create_dir_all := mem_create_dir_all;
  open_read := mem_open_read;
  open_append_create := mem_open_append;
  open_create_new := mem_open_create_new;
  open_truncate := mem_open_truncate;
  fs_remove_file := mem_remove;
  fs_rename := mem_rename;
  system_nanos s := (Some 0, s);
  process_id := 1;
  local_date s := ("2025-01-01", s);
  invalid_input := tt;
|}.

Abbreviation mstays := (stays file_at data).

Lemma file_at_exists p s n : file_at p s = Some n -> is_ok (mem_metadata p s) = true.
Proof. intros E. unfold mem_metadata. rewrite E. by case_bool_decide. Qed.

Lemma new_file_stays p s : files s !! components p = None -> mstays s (new_file p s).2.
Proof.
  intros Hf. split.
  - intros n b Hn. unfold data in *. simpl. rewrite lookup_insert_ne; [done|].
    intros <-. apply (is_fresh (dom (contents s))). by apply elem_of_dom.
  - intros q n Hq. unfold file_at in *. simpl. destruct (trailing q); [done|].
    rewrite lookup_insert_ne; [done|]. intros E. by rewrite E, Hq in Hf.
Qed.

Lemma create_new_stays p s : mstays s (mem_open_create_new p s).2.
Proof.
  unfold mem_open_create_new. destruct (_ || _) eqn:E; [apply stays_refl|]. bools.
  apply new_file_stays. by apply eq_None_not_Some.
Qed.

Lemma normal_names_map cs ns : normal_names cs = Some ns -> Forall plain ns /\ cs = map Normal ns.
Proof.
  unfold normal_names. rewrite mapM_Some. induction 1 as [|x y l k H _ [IH1 IH2]]; [done|].
  destruct x; try done. case_decide; [|done]. injection H as ->. simpl. rewrite IH2 at 1. auto.
Qed.

Lemma mem_canonical p s d : mem_canonicalize p s = Ok d -> clean d.
Proof.
  unfold mem_canonicalize. destruct (components p) as [|[] cs] eqn:Ec; try done.
  destruct (normal_names cs) as [ns|] eqn:En; [|done]. destruct (is_ok _); [|done].
  intros [= <-]. exists ns. apply normal_names_map in En as [? ->]. done.
Qed.

Lemma mem_rename_spec p q s :
  is_ok (mem_metadata q s) = false ->
  (exists n, file_at p s = Some n /\ files s !! components q = None /\ trailing q = false /\
    mem_rename p q s = (Ok tt, mk_disk (dirs s) (<[components q := n]> (delete (components p) (files s))) (contents s)))
  \/ mem_rename p q s = (Err tt, s).
Proof.
  intros Hq. unfold mem_rename. destruct (file_at p s) as [n|] eqn:Ep; [|by right].
  destruct (_ || _) eqn:E; [by right|]. bools. left. exists n.
  assert (files s !! components q = None) as Hn.
  { unfold mem_metadata, file_at in Hq.
    rewrite bool_decide_eq_false_2 in Hq by done. repeat case_match; naive_solver. }
  rewrite Hn. done.
Qed.

#[global] Instance memory_disk_laws : FileSystemLaws disk nat unit nat file_at data.
Proof.
  split.
  - apply mem_canonical.
  - intros p s n. apply file_at_exists.
  - intros p s. simpl. unfold mem_create_dir_all. case_match; [apply stays_refl|]. split; by intros ? ?.
  - intros p s. simpl. unfold mem_open_append. case_match; [apply stays_refl|apply create_new_stays].
  - intros p s. apply create_new_stays.
  - intros p s f s'. simpl. unfold mem_open_create_new. destruct (_ || _) eqn:E; [done|].
    apply orb_false_iff in E as [E _]. apply orb_false_iff in E as [E Ht].
    apply orb_false_iff in E as [E _]. intros [= <- <-]. split; [done|]. exists (fresh (dom (contents s))).
    unfold file_at, data. simpl. rewrite Ht, !lookup_insert_eq. split_and!; [done| |done].
    apply not_elem_of_dom, is_fresh.
  - intros p q s Hq n b Hn. destruct (mem_rename_spec p q s Hq) as [(m & _ & _ & _ & E)|E]; simpl; rewrite E; done.
  - intros p q s s' n Hq E Hp. destruct (mem_rename_spec p q s Hq) as [(m & Hm & Hfq & Ht & E')|E']; simpl in E;
      rewrite E' in E; [|done]. injection E as <-. rewrite Hm in Hp. injection Hp as ->.
    unfold file_at in *. simpl. rewrite Ht, lookup_insert_eq. split; [done|]. intros r m Hr Hne.
    destruct (trailing r); [done|]. destruct (trailing p); [done|].
    rewrite lookup_insert_ne by (intros Eq; by rewrite Eq, Hr in Hfq).
    rewrite lookup_delete_ne; [done|]. intros Eq. rewrite Eq in Hm. congruence.
  - intros p q s e s'. simpl. unfold mem_rename. repeat case_match; intros [= _ <-]; apply stays_refl.
  - intros p s n b Hn Hp. simpl. unfold mem_remove. destruct (file_at p s) as [m|]; [|done].
    unfold data in *. simpl. rewrite lookup_delete_ne; [done|]. congruence.
  - intros p q s n. simpl. unfold mem_remove. destruct (file_at p s) as [m|]; [|done].
    unfold file_at. simpl. destruct (trailing q); [done|]. by intros [_ ?]%lookup_delete_Some.
Qed.
End MemoryDisk.
