(* ===== verification/DriveHandler.v ===== *)
(** * The drive handler of a filerequest

    core/src/core/filerequest_drive_handler.rs, against the interface
    [HostController]; then, for the controller on the file system, what the
    handler's operations do to the disk. *)

From S2P Require Import Prelude Domain HostPath HostController FsController.
From stdpp Require Import pretty.
From Stdlib Require Import Ascii.
#[local] Open Scope Z_scope.

(** [struct FilerequestDriveHandler] *)
Record FilerequestDriveHandler (C : Type) := mk_drive_handler {
  dir_handler : C;
  safe_dir_name : string;
}.
Arguments mk_drive_handler {C}.
Arguments dir_handler {C}.
Arguments safe_dir_name {C}.

Section Handler.
Context {C S F E : Type} `{!HostController C S F E} `{!Sanitizer}.
Abbreviation Handler := (FilerequestDriveHandler C).

Definition get_name_from_string (name : string) : string := sanitize name.

Definition handler_new (dir_handler : C) (filerequest_id filerequest_title : string) : Handler :=
  let safe := get_name_from_string filerequest_title in
  mk_drive_handler dir_handler (if bool_decide (safe = "") then filerequest_id else safe).

(** The namespaces the operations use: the directory, or a file in it. *)
Definition directory_namespace (name : string) : FileNamespace := Namespace name None.
Definition file_namespace (self : Handler) (safe_name : string) : FileNamespace :=
  Namespace (safe_dir_name self) (Some (Filename safe_name)).

Definition sanitize_filename (filename : string) : result string (GetFileError E) :=
  if starts_with_char dot filename then Err FileNameStartsWithDot
  else
    let safe_name := sanitize filename in
    if bool_decide (safe_name = "") then Err (SanitizedEmpty filename)
    else if contains_char slash safe_name then Err (ContainsSeparator safe_name)
    else Ok safe_name.

(** The new title is taken over only when the directory was renamed. *)
Definition rename_filerquest (self : Handler) (new_title : string) : io S unit Handler :=
  let safe := get_name_from_string new_title in
  if bool_decide (safe = "") then io_throw tt
  else
    try! _ := io_map_err (fun _ => tt)
                (host_rename_resource (dir_handler self)
                   (directory_namespace (safe_dir_name self)) (directory_namespace safe)) in
    io_ret (mk_drive_handler (dir_handler self) safe).

Definition get_file_for_writing (self : Handler) (filename : string) : io S (GetFileError E) (string * F) :=
  try! safe_name := io_result (sanitize_filename filename) in
  try! (file, name) := io_map_err FilerequestDir
                         (host_create_file_for_writing (dir_handler self) (file_namespace self safe_name)) in
  io_ret (name, file).

Definition get_exact_file_for_writing (self : Handler) (filename : string) : io S (GetFileError E) F :=
  try! safe_name := io_result (sanitize_filename filename) in
  io_map_err FilerequestDir (host_get_exact_file_for_writing (dir_handler self) (file_namespace self safe_name)).

Definition get_partial_file_for_writing (self : Handler) (filename : string) : io S (GetFileError E) F :=
  try! safe_name := io_result (sanitize_filename filename) in
  io_map_err FilerequestDir (host_get_partial_file_for_writing (dir_handler self) safe_name).

Definition remove_partial_file (self : Handler) (filename : string) : io S (GetFileError E) unit :=
  try! safe_name := io_result (sanitize_filename filename) in
  io_map_err FilerequestDir (host_remove_partial_file (dir_handler self) safe_name).

Definition finalize_partial_file (self : Handler) (partial_filename final_filename : string)
  : io S (GetFileError E) string :=
  try! safe_part_name := io_result (sanitize_filename partial_filename) in
  try! safe_final_name := io_result (sanitize_filename final_filename) in
  try! _ := io_map_err FilerequestDir
              (host_finalize_partial_file (dir_handler self) safe_part_name
                 (file_namespace self safe_final_name)) in
  io_ret safe_final_name.

Definition remove_file (self : Handler) (filename : string) : io S (GetFileError E) unit :=
  try! safe_name := io_result (sanitize_filename filename) in
  io_map_err FilerequestDir (host_remove_file (dir_handler self) (file_namespace self safe_name)).

Definition rename_file (self : Handler) (from to : string) : io S (GetFileError E) string :=
  try! safe_from := io_result (sanitize_filename from) in
  try! safe_to := io_result (sanitize_filename to) in
  try! _ := io_map_err FilerequestDir
              (host_rename_resource (dir_handler self) (file_namespace self safe_from)
                 (file_namespace self safe_to)) in
  io_ret safe_to.
End Handler.
