(* ===== verification/DriveSafety.v ===== *)
(** * What the drive handler does to the disk

    The operations of DriveHandler.v on the controller of FsController.v: they
    touch no path outside the two directories of the controller, and none but the
    removals loses the content of a file. *)

From S2P Require Import Prelude Domain HostPath HostController FsController Disk DriveHandler.
From stdpp Require Import pretty.
From Stdlib Require Import Ascii.
#[local] Open Scope Z_scope.

(** ** Paths of the controller *)

(** What [DirectFsController::new] sets up: clean directories with a name. *)
Definition controller_ok (c : DirectFsController) : Prop :=
  (clean (file_drop_dir c) /\ exists n, plain n /\ last (components (file_drop_dir c)) = Some (Normal n))
  /\ clean (partial_dir c).

Lemma within_self d p : components p = components d -> within d p.
Proof. intros E. exists []. by rewrite app_nil_r. Qed.

Lemma clean_nonempty p : clean p -> components p <> [].
Proof. by intros (? & ? & ->). Qed.

Lemma within_nonempty d p : components d <> [] -> within d p -> components p <> [].
Proof. intros Hd (ns & _ & ->). by destruct (components d). Qed.

Lemma within_push d p s :
  components d <> [] -> within d p -> s = "" \/ plain s -> within d (path_join p (path_from s)).
Proof.
  intros Hd Hp Hs. pose proof (within_nonempty d p Hd Hp). destruct Hp as (ns & Hns & Hc).
  destruct Hs as [->|Hs].
  - rewrite path_join_nil by done. by exists ns.
  - rewrite path_join_plain by done. exists (ns ++ [s]). simpl.
    rewrite Forall_app, map_app, Hc, app_assoc. by repeat split; auto.
Qed.

(** A clean path that starts with a directory is in it. *)
Lemma clean_within d p : clean p -> components d <> [] -> path_starts_with p d = true -> within d p.
Proof.
  intros (ns & Hns & E) Hd Hpre. apply path_starts_with_prefix in Hpre as [k Hk].
  destruct (components d) as [|c cs] eqn:Eq; [done|]. rewrite E in Hk. injection Hk as <- Hk.
  exists (drop (length cs) ns). split; [by apply Forall_drop|]. rewrite E, Eq. simpl. f_equal.
  assert (map Normal (drop (length cs) ns) = k) as ->; [|done].
  rewrite <- skipn_map. change (drop (length cs) (map Normal ns) = k). rewrite Hk. by rewrite drop_app_length.
Qed.

Lemma path_absolute_rooted {S F E : Type} `{!FileSystem S F E} p (s : S) :
  is_absolute p = true -> path_absolute (F:=F) (E:=E) p s = Ok p.
Proof. unfold is_absolute, path_absolute. by repeat case_match. Qed.

Lemma within_starts_with d p : within d p -> path_starts_with p d = true.
Proof. intros (ns & _ & E). apply path_starts_with_prefix. rewrite E. by eexists. Qed.

Lemma clean_absolute p : clean p -> is_absolute p = true.
Proof. intros (ns & _ & E). unfold is_absolute. by rewrite E. Qed.

Lemma within_absolute d p : clean d -> within d p -> is_absolute p = true.
Proof. intros (ns & _ & E) (ms & _ & E'). unfold is_absolute. by rewrite E', E. Qed.

(** A path with a last name [n], and its variants. *)
Definition ends_in (p : path) (n : string) : Prop :=
  plain n /\ exists cs t, cs <> [] /\ p = mk_path (cs ++ [Normal n]) t.

Lemma ends_in_file_name p n : ends_in p n -> file_name p = Some n.
Proof. intros (_ & cs & t & _ & ->). apply file_name_app. Qed.

Lemma ends_in_push p n : components p <> [] -> plain n ->
  ends_in (path_join p (path_from n)) n /\ parent (path_join p (path_from n)) = Some (mk_path (components p) false).
Proof.
  intros Hp Hn. rewrite path_join_plain by done. rewrite parent_app. split; [|done].
  split; [done|]. by exists (components p), false.
Qed.

Lemma sanitize_cases `{!Sanitizer, !SanitizerLaws} s : sanitize s = "" \/ plain (sanitize s).
Proof. destruct (decide (sanitize s = "")); [by left|right]. by apply sanitize_plain. Qed.

(** ** Effects that are permitted

    A relation between states of the disk that is kept by every call on a path of
    the controller, where a rename needs an unused target. Removals and
    renames are permitted or not. *)
Section Permits.
Context {S F E : Type} `{!FileSystem S F E} `{!Sanitizer} `{!SanitizerLaws}.
Variable c : DirectFsController.

Definition allowed (p : path) : Prop := within (file_drop_dir c) p \/ within (partial_dir c) p.

Record permits (R : S -> S -> Prop) (removal moving : bool) : Prop := {
  permits_refl : forall s, R s s;
  permits_trans : forall s1 s2 s3, R s1 s2 -> R s2 s3 -> R s1 s3;
  permits_canonical : forall p s d, canonicalize p s = Ok d -> clean d;
  permits_create_dir : forall p s, allowed p -> R s (create_dir_all p s).2;
  permits_append : forall p s, allowed p -> R s (open_append_create p s).2;
  permits_create_new : forall p s, allowed p -> R s (open_create_new p s).2;
  permits_rename : moving = true -> forall p q s,
    allowed p -> allowed q -> exists_at q s = false -> R s (fs_rename p q s).2;
  permits_remove : removal = true -> forall p s, allowed p -> R s (fs_remove_file p s).2;
}.

Context (R : S -> S -> Prop) (removal moving : bool) (HR : permits R removal moving) (Hc : controller_ok c).

Lemma permitted_refl s : R s s.
Proof. by eapply permits_refl. Qed.

Lemma drop_nonempty : components (file_drop_dir c) <> [].
Proof. destruct Hc as [[? _] _]. by apply clean_nonempty. Qed.

Lemma partial_nonempty : components (partial_dir c) <> [].
Proof. destruct Hc as [_ ?]. by apply clean_nonempty. Qed.

#[local] Hint Resolve permitted_refl drop_nonempty partial_nonempty : core.

Lemma ensure_dir_spec rel (s : S) :
  within (file_drop_dir c) (path_join (file_drop_dir c) rel) ->
  iwp (ensure_filerequest_dir (file_drop_dir c) rel)
     (fun r s' => R s s' /\ forall d, r = Ok d -> within (file_drop_dir c) d) s.
Proof.
  intros Hw. unfold ensure_filerequest_dir. io_steps.
  assert (forall s', R s s' ->
    iwp (try! r := ask (canonicalize (path_join (file_drop_dir c) rel)) in
        match r with
        | Ok actual => if negb (path_starts_with actual (file_drop_dir c))
                       then io_throw (DirEscape actual (file_drop_dir c)) else io_ret actual
        | Err e => io_throw (DirCanonicalize (path_join (file_drop_dir c) rel) e)
        end) (fun r s' => R s s' /\ forall d, r = Ok d -> within (file_drop_dir c) d) s') as Hrest.
  { intros s' Hs. io_steps. destruct (canonicalize _ s') as [d|e] eqn:Ed; [|by io_step].
    destruct (path_starts_with d (file_drop_dir c)) eqn:Ep; simpl; io_step; split; try done.
    intros d' [= <-]. apply clean_within; auto. by eapply permits_canonical. }
  destruct (exists_at _ s); io_steps; [by apply Hrest|].
  pose proof (permits_create_dir R removal moving HR _ s (or_introl Hw)) as Hd.
  destruct (create_dir_all _ s) as [[|] s']; simpl in *; [by apply Hrest|done].
Qed.

(** A path with a name of its own in the drop directory. *)
Definition drop_file (p : path) : Prop :=
  exists n b, ends_in p n /\ parent p = Some b /\ within (file_drop_dir c) b.

Lemma drop_file_within p : drop_file p -> within (file_drop_dir c) p.
Proof.
  intros (n & b & (Hn & cs & t & _ & ->) & Hb & ns & Hns & En). rewrite parent_app in Hb. injection Hb as <-.
  simpl in En. subst. exists (ns ++ [n]). simpl.
  rewrite Forall_app, map_app, app_assoc. auto.
Qed.

Lemma drop_file_push p n : within (file_drop_dir c) p -> plain n -> drop_file (path_join p (path_from n)).
Proof.
  intros Hp Hn. destruct (ends_in_push p n) as [He Hb]; [by eapply (within_nonempty (file_drop_dir c)); auto|done|].
  exists n, (mk_path (components p) false). split_and!; [done..|]. by destruct Hp as (ns & ? & ?); exists ns.
Qed.

(** An empty name only appends a slash. *)
Lemma drop_file_push_nil p : drop_file p -> drop_file (path_join p (path_from "")).
Proof.
  intros (n & b & (Hn & cs & t & Hcs & ->) & Hb & Hw). rewrite path_join_nil by (simpl; by destruct cs). simpl.
  exists n, b. rewrite parent_app in *. split_and!; [|done..]. split; [done|]. eauto.
Qed.

Lemma drop_file_push_sanitized p f :
  drop_file p -> drop_file (path_join p (path_from (sanitize f))).
Proof.
  intros Hp. destruct (sanitize_cases f) as [->|Hf]; [by apply drop_file_push_nil|].
  apply drop_file_push; [|done]. by apply drop_file_within.
Qed.

Lemma drop_file_variant p n i : drop_file p -> file_name p = Some n -> drop_file (variant p n i).
Proof.
  intros (n' & b & (Hn & cs & t & Hcs & ->) & Hb & Hw). rewrite file_name_app. intros [= ->].
  rewrite parent_app in Hb. injection Hb as <-. unfold variant.
  rewrite with_file_name_app by (done || by apply candidate_name_plain).
  rewrite <- path_join_plain with (p := mk_path cs false) by (done || by apply candidate_name_plain).
  apply drop_file_push; [done|by apply candidate_name_plain].
Qed.

Lemma drop_file_name p : drop_file p -> exists n, file_name p = Some n /\ plain n.
Proof. intros (n & b & He & _). exists n. split; [by apply ends_in_file_name|apply He]. Qed.

Lemma drop_file_unused p q s : drop_file p -> unused_name p s q -> drop_file q /\ exists_at q s = false.
Proof.
  intros Hp [[-> Hu]|(n & Hn & _ & i & _ & -> & Hu & _)]; [done|]. split; [|done]. by apply drop_file_variant.
Qed.

(** The names of the handler's directories. *)
Definition dir_name_ok (ns : string) : Prop := plain ns /\ sanitize ns = ns.

(** The drop directory and the relative path of a file of the handler. *)
Lemma parse_file_namespace ns f :
  dir_name_ok ns ->
  parse_sanitized (Namespace ns (Some (Filename f)))
  = Ok (path_join (mk_path [Normal ns] false) (path_from (sanitize f))).
Proof.
  intros [Hp Hs]. unfold parse_sanitized. simpl. rewrite Hs, (path_from_plain ns) by done. simpl.
  change (path_join path_empty (mk_path [Normal ns] false)) with (mk_path [Normal ns] false).
  destruct (sanitize_cases f) as [->|Hf]; [by rewrite path_join_nil|]. by rewrite path_join_plain.
Qed.

Lemma path_join_file ns f :
  plain ns ->
  path_join (file_drop_dir c) (path_join (mk_path [Normal ns] false) (path_from (sanitize f)))
  = path_join (path_join (file_drop_dir c) (path_from ns)) (path_from (sanitize f)).
Proof.
  intros Hp. rewrite (path_join_plain (file_drop_dir c)) by auto.
  destruct (sanitize_cases f) as [->|Hf].
  - rewrite !path_join_nil by (simpl; by destruct (components (file_drop_dir c))). simpl.
    unfold path_join. simpl. pose proof drop_nonempty. by destruct (components (file_drop_dir c)).
  - rewrite !path_join_plain by (done || simpl; by destruct (components (file_drop_dir c))). simpl.
    unfold path_join. simpl. pose proof drop_nonempty. destruct (components (file_drop_dir c)); [done|].
    simpl. by rewrite <- app_assoc.
Qed.

Lemma handler_path_drop_file ns f :
  plain ns -> drop_file (path_join (path_join (file_drop_dir c) (path_from ns)) (path_from (sanitize f))).
Proof.
  intros Hp. apply drop_file_push_sanitized, drop_file_push; [by apply within_self|done].
Qed.

Lemma drop_file_absolute p : drop_file p -> is_absolute p = true.
Proof. destruct Hc as [[Hd _] _]. intros Hp. eapply within_absolute; [done|]. by apply drop_file_within. Qed.

Lemma path_join_within p : within (file_drop_dir c) p -> path_join (file_drop_dir c) p = p.
Proof.
  destruct Hc as [[Hd _] _]. intros Hp. unfold path_join. by rewrite (within_absolute _ _ Hd Hp).
Qed.

Lemma prepare_path_spec ns f (s : S) :
  dir_name_ok ns ->
  iwp (prepare_path c (Namespace ns (Some (Filename f))))
     (fun r s' => R s s' /\ forall p, r = Ok p -> drop_file p) s.
Proof.
  intros Hns. unfold prepare_path. io_steps. rewrite parse_file_namespace by done. io_steps.
  rewrite path_join_file by apply Hns.
  pose proof (handler_path_drop_file ns f (proj1 Hns)) as Hf. revert Hf.
  generalize (path_join (path_join (file_drop_dir c) (path_from ns)) (path_from (sanitize f))) as p.
  intros p Hp. pose proof Hp as (n & b & He & Hb & Hw). rewrite Hb. io_steps.
  pose proof (permits_create_dir R removal moving HR b s (or_introl Hw)) as Hd.
  destruct (create_dir_all b s) as [[|e] s1]; simpl in Hd; cbn -[io_bind io_map_err]; [|done].
  io_steps. rewrite path_absolute_rooted by by apply drop_file_absolute. io_steps.
  rewrite within_starts_with by by apply drop_file_within. cbn -[io_bind io_map_err].
  io_step. eapply iwp_expect; [done|]. io_steps.
  eapply iwp_mono; [eapply ensure_dir_spec; by rewrite path_join_within|].
  intros [d|e] s2 [H2 _]; cbn; (split; [by eapply permits_trans|]); [|done]. by intros ? [= <-].
Qed.

(** The shape of the remaining specifications: a permitted effect, no panic. *)
Abbreviation permitted m := (forall s, iwp m (fun _ s' => R s s') s).

(** A file that was created: last, at a path of the drop directory. *)
Definition created (s : S) (p : path) (f : F) (s' : S) : Prop :=
  drop_file p /\ exists s1, R s s1 /\ open_create_new p s1 = (Ok f, s').

Lemma create_new_spec q (s : S) :
  drop_file q ->
  iwp (try! f := io_map_err (Io q) (sys (open_create_new q)) in io_ret (q, f))
     (fun r s' => R s s' /\ forall p f, r = Ok (p, f) -> created s p f s') s.
Proof.
  intros Hq. io_steps.
  pose proof (permits_create_new R removal moving HR q s (or_introl (drop_file_within q Hq))) as Hd.
  destruct (open_create_new q s) as [[f|] s2] eqn:Eo; simpl in *; [io_step|done].
  split; [done|]. intros p f' [= <- <-]. split; [done|]. eauto.
Qed.

Lemma unique_file_spec b n (s : S) :
  within (file_drop_dir c) b -> plain n ->
  iwp (get_unique_file b n) (fun r s' => R s s' /\ forall p f, r = Ok (p, f) -> created s p f s') s.
Proof.
  intros Hb Hn. pose proof (drop_file_push b n Hb Hn) as Hp. unfold get_unique_file. io_steps.
  destruct (exists_at b s); simpl; [|by io_step].
  destruct (path_starts_with _ b); simpl; [|by io_step]. io_step.
  eapply iwp_mono; [by apply unused_file_spec, drop_file_name|].
  intros [q|e] s' [-> Hq]; cbv beta iota; [|by split; auto]. apply create_new_spec.
  by apply (drop_file_unused _ q s Hp), Hq.
Qed.

Lemma create_file_spec ns f (s : S) :
  dir_name_ok ns ->
  iwp (create_file_for_writing c (Namespace ns (Some (Filename f))))
     (fun r s' => R s s' /\ forall h name, r = Ok (h, name) ->
        exists p, name = path_to_string p /\ created s p h s') s.
Proof.
  intros Hns. unfold create_file_for_writing. io_step. eapply iwp_mono; [by apply prepare_path_spec|].
  intros [p|e] s1 [H1 Hp]; [|done]. destruct (Hp p eq_refl) as (n & b & He & Hb & Hw).
  io_step. eapply iwp_expect; [done|]. io_step. eapply iwp_expect; [by apply ends_in_file_name|].
  io_steps. eapply iwp_mono; [apply unique_file_spec; [done|apply He]|].
  intros [[q h]|e] s2 [H2 Hq]; cbv beta iota; [io_step|]; (split; [by eapply permits_trans|]); [|done].
  intros h' name [= <- <-]. exists q. split; [done|]. destruct (Hq q h eq_refl) as [Hd (s3 & H3 & Ho)].
  split; [done|]. exists s3. split; [by eapply permits_trans|done].
Qed.

Lemma create_exact_spec ns f :
  dir_name_ok ns -> permitted (create_exact_file_for_writing c (Namespace ns (Some (Filename f)))).
Proof.
  intros Hns s. unfold create_exact_file_for_writing. io_step. eapply iwp_mono; [by apply prepare_path_spec|].
  intros [p|e] s1 [H1 Hp]; [|done]. io_steps.
  pose proof (permits_append R removal moving HR p s1 (or_introl (drop_file_within p (Hp p eq_refl)))) as Hd.
  destruct (open_append_create p s1) as [[|] s2]; simpl in *; [io_step|]; by eapply permits_trans.
Qed.

Lemma remove_file_spec ns f :
  removal = true -> dir_name_ok ns -> permitted (FsController.remove_file c (Namespace ns (Some (Filename f)))).
Proof.
  intros Hrm Hns s. unfold FsController.remove_file. io_steps. rewrite parse_file_namespace by done. io_steps.
  rewrite path_join_file by apply Hns.
  pose proof (handler_path_drop_file ns f (proj1 Hns)) as Hf. revert Hf.
  generalize (path_join (path_join (file_drop_dir c) (path_from ns)) (path_from (sanitize f))) as p.
  intros p Hp. rewrite path_absolute_rooted by by apply drop_file_absolute. io_steps.
  rewrite within_starts_with by by apply drop_file_within. simpl. io_steps.
  apply (permits_remove R removal moving HR); [done|]. left. by apply drop_file_within.
Qed.

Lemma rename_files_spec ns a b :
  moving = true -> plain ns ->
  permitted (rename_resource c (Namespace ns (Some (Filename a))) (Namespace ns (Some (Filename b)))).
Proof.
  intros Hmv Hns s. unfold rename_resource. io_steps. simpl. rewrite bool_decide_eq_true_2 by done. simpl. io_steps.
  pose proof (drop_file_within _ (handler_path_drop_file ns a Hns)) as Ha.
  pose proof (handler_path_drop_file ns b Hns) as Hb.
  eapply iwp_mono; [by apply unused_path_spec, drop_file_name|].
  intros [q|e] s' [-> Hq]; cbv beta iota; [|auto]. destruct (drop_file_unused _ q s Hb (Hq q eq_refl)).
  io_steps. apply (permits_rename R removal moving HR); [done|by left|left; by apply drop_file_within|done].
Qed.

Lemma rename_dirs_spec a b : moving = true -> permitted (rename_resource c (Namespace a None) (Namespace b None)).
Proof.
  intros Hmv s. unfold rename_resource. io_steps. simpl. io_steps.
  assert (forall n, allowed (path_join (file_drop_dir c) (path_from (sanitize n)))) as Hw.
  { intros n. left. apply within_push; [auto|by apply within_self|apply sanitize_cases]. }
  destruct (exists_at _ s) eqn:Ex; simpl; io_steps; [auto|].
  by apply (permits_rename R removal moving HR).
Qed.

(** *** Part files: any name *)

Lemma validate_spec (f : string) (Q : result unit (BoxedError E) -> S -> Prop) s :
  Q (Err (NotABasename f)) s -> (plain f -> Q (Ok tt) s) -> iwp (validate_partial_basename f) Q s.
Proof.
  intros H1 H2. unfold validate_partial_basename.
  destruct (bool_decide _) eqn:Eb; simpl; io_step; [|done]. bools. by apply H2, basename_plain.
Qed.

Lemma partial_allowed f : plain f -> allowed (path_join (partial_dir c) (path_from f)).
Proof. intros Hf. right. apply within_push; [auto|by apply within_self|by right]. Qed.

Lemma get_partial_spec f : permitted (FsController.get_partial_file_for_writing c f).
Proof.
  intros s. unfold FsController.get_partial_file_for_writing. io_step. apply validate_spec; [auto|]. intros Hf. io_steps.
  pose proof (permits_create_dir R removal moving HR (partial_dir c) s (or_intror (within_self _ _ eq_refl))) as Hd.
  destruct (create_dir_all _ s) as [[|] s1]; simpl in *; [|done]. io_steps.
  eapply permits_trans; [done..|]. apply (permits_append R removal moving HR). by apply partial_allowed.
Qed.

Lemma remove_partial_spec f : removal = true -> permitted (FsController.remove_partial_file c f).
Proof.
  intros Hrm s. unfold FsController.remove_partial_file. io_step. apply validate_spec; [auto|]. intros Hf. io_steps.
  destruct (exists_at _ s); io_steps; [|auto]. apply (permits_remove R removal moving HR); [done|by apply partial_allowed].
Qed.

(** A part file that was moved: last, to an unused name in the drop directory. *)
Definition moved (s : S) (part n : string) (r : result unit (BoxedError E)) (s' : S) : Prop :=
  exists s1 d q, R s s1 /\ plain part /\ within (file_drop_dir c) d /\ plain n
    /\ unused_name (path_join d (path_from n)) s1 q
    /\ (let (r1, s2) := fs_rename (path_join (partial_dir c) (path_from part)) q s1 in
        r = match r1 with Ok a => Ok a | Err e => Err (BoxIo e) end /\ s' = s2).

Lemma finalize_moves part ns f (s : S) :
  dir_name_ok ns ->
  iwp (FsController.finalize_partial_file c part (Namespace ns (Some (Filename f))))
     (fun r s' => (exists e, r = Err e) /\ R s s'
                  \/ moved s part (if decide (sanitize f = "") then ns else sanitize f) r s') s.
Proof.
  intros Hns. unfold FsController.finalize_partial_file. io_step.
  apply validate_spec; [left; split; [by eexists|auto]|]. intros Hpart. io_steps.
  rewrite parse_file_namespace by done. io_steps.
  set (n := if decide (sanitize f = "") then ns else sanitize f).
  assert (exists d, file_name (path_join (mk_path [Normal ns] false) (path_from (sanitize f))) = Some n /\ plain n
    /\ parent (path_join (mk_path [Normal ns] false) (path_from (sanitize f))) = Some d
    /\ within (file_drop_dir c) (path_join (file_drop_dir c) d)) as (d & -> & Hn & -> & Hd).
  { unfold n. destruct (sanitize_cases f) as [->|Hf].
    - rewrite decide_True by done. exists path_empty. split_and!; [done|apply Hns|done|]. apply (within_push _ _ ""); auto. by apply within_self.
    - rewrite decide_False by apply Hf. exists (mk_path [Normal ns] false).
      rewrite path_join_plain by done. split_and!; [done..|].
      rewrite <- (path_from_plain ns) by apply Hns. apply within_push; [auto|by apply within_self|right; apply Hns]. }
  io_steps. eapply iwp_mono; [by apply ensure_dir_spec|].
  intros [dest|e] s1 [H1 Hdest]; cbv beta iota; [|left; split; [by eexists|done]].
  pose proof (drop_file_push dest n (Hdest dest eq_refl) Hn) as Hto.
  io_step. io_step. io_step. eapply iwp_mono; [by apply unused_path_spec, drop_file_name|].
  intros [q|e] s2 [-> Hq]; cbv beta iota; [|left; split; [by eexists|done]]. io_steps. right.
  exists s1, dest, q. split_and!; auto. by destruct (fs_rename _ q s1).
Qed.

Lemma finalize_spec part ns f :
  moving = true -> dir_name_ok ns ->
  permitted (FsController.finalize_partial_file c part (Namespace ns (Some (Filename f)))).
Proof.
  intros Hmv Hns s. eapply iwp_mono; [by apply finalize_moves|].
  intros r s' [[_ ?]|(s1 & d & q & H1 & Hpart & Hd & Hn & Hq & E')]; [done|].
  destruct (drop_file_unused _ q s1 (drop_file_push d _ Hd Hn) Hq) as [Hq1 Hq2].
  pose proof (permits_rename R removal moving HR Hmv _ q s1 (partial_allowed part Hpart)
    (or_introl (drop_file_within q Hq1)) Hq2) as Hr.
  destruct (fs_rename _ q s1) as [r1 s2]. destruct E' as [_ ->]. by eapply permits_trans.
Qed.
End Permits.

(** ** The operations of the handler *)

Inductive HandlerOp : Type :=
| GetFile (filename : string)
| GetExactFile (filename : string)
| GetPartialFile (filename : string)
| RemovePartialFile (filename : string)
| FinalizePartialFile (partial_filename final_filename : string)
| RemoveFile (filename : string)
| RenameFile (from to : string)
| RenameFilerequest (new_title : string).

Definition removes (op : HandlerOp) : bool :=
  match op with RemovePartialFile _ | RemoveFile _ => true | _ => false end.

(** The controller sanitizes the name of the directory once more. The crate does not
    promise that this changes nothing, so it is a condition on new titles. *)
Definition title_ok `{!Sanitizer} (op : HandlerOp) : Prop :=
  match op with RenameFilerequest t => sanitize (sanitize t) = sanitize t | _ => True end.

Definition handler_ok `{!Sanitizer} (h : FilerequestDriveHandler DirectFsController) : Prop :=
  controller_ok (dir_handler h) /\ dir_name_ok (safe_dir_name h).

Section Operations.
Context {S F E : Type} `{!FileSystem S F E} `{!Sanitizer} `{!SanitizerLaws}.
Abbreviation Handler := (FilerequestDriveHandler DirectFsController).

Definition run_op (h : Handler) (op : HandlerOp) (s : S) : outcome (Handler * S) :=
  let discard {E' A} (m : io S E' A) := let? (_, s) := m s in Ret (h, s) in
  match op with
  | GetFile f => discard (get_file_for_writing h f)
  | GetExactFile f => discard (get_exact_file_for_writing h f)
  | GetPartialFile f => discard (get_partial_file_for_writing h f)
  | RemovePartialFile f => discard (remove_partial_file h f)
  | FinalizePartialFile p f => discard (finalize_partial_file h p f)
  | RemoveFile f => discard (remove_file h f)
  | RenameFile a b => discard (rename_file h a b)
  | RenameFilerequest t =>
      let? (r, s) := rename_filerquest h t s in
      Ret (match r with Ok h' => h' | Err _ => h end, s)
  end.

Fixpoint run_ops (h : Handler) (ops : list HandlerOp) (s : S) : outcome (Handler * S) :=
  match ops with
  | [] => Ret (h, s)
  | op :: ops => let? (h, s) := run_op h op s in run_ops h ops s
  end.

Context (R : S -> S -> Prop) (removal : bool).

Lemma discard_spec {E' A} (m : io S E' A) (h : Handler) (Q : Handler -> S -> Prop) s :
  iwp m (fun _ s' => Q h s') s ->
  exists h' s', (let? (_, s) := m s in Ret (h, s)) = Ret (h', s') /\ Q h' s'.
Proof. unfold iwp. destruct (m s) as [[r s']| | |]; try done. simpl. eauto. Qed.

Lemma sanitized_then {A} (f : string) (k : string -> io S (GetFileError E) A) Q s :
  (forall e, Q (Err e) s) -> (forall n, iwp (k n) Q s) ->
  iwp (try! n := io_result (sanitize_filename f) in k n) Q s.
Proof. intros H1 H2. io_steps. by destruct (sanitize_filename f). Qed.

(** The calls of the interface are those of the controller. *)
Ltac host_steps :=
  cbn [host_create_file_for_writing host_get_exact_file_for_writing host_remove_file host_rename_resource
       host_get_partial_file_for_writing host_remove_partial_file host_finalize_partial_file direct_fs_host];
  io_steps.

Lemma run_op_spec (h : Handler) op s :
  permits (dir_handler h) R removal true -> handler_ok h -> title_ok op -> (removes op = true -> removal = true) ->
  exists h' s', run_op h op s = Ret (h', s')
    /\ R s s' /\ handler_ok h' /\ dir_handler h' = dir_handler h.
Proof.
  intros HR [Hc Hd] Ht Hrm. pose proof (permits_refl _ _ _ _ HR s) as Hrefl.
  assert (forall {E' A} (m : io S E' A), iwp m (fun _ s' => R s s') s ->
    exists h' s', (let? (_, s) := m s in Ret (h, s)) = Ret (h', s')
      /\ R s s' /\ handler_ok h' /\ dir_handler h' = dir_handler h) as Hdis.
  { intros E' A m Hm. apply (discard_spec m h (fun h' s' => R s s' /\ handler_ok h' /\ dir_handler h' = dir_handler h)).
    eapply iwp_mono; [exact Hm|]. by intros. }
  destruct op as [f|f|f|f|p f|f|a b|t]; simpl run_op; try apply Hdis.
  - apply sanitized_then; [done|]. intros n. io_steps. host_steps. eapply iwp_mono; [by eapply create_file_spec|].
    by intros [[]|] s' [? _].
  - apply sanitized_then; [done|]. intros n. io_steps. host_steps. eapply iwp_mono; [by eapply create_exact_spec|].
    by intros [[]|] s'.
  - apply sanitized_then; [done|]. intros n. io_steps. host_steps. by eapply get_partial_spec.
  - apply sanitized_then; [done|]. intros n. io_steps. host_steps. eapply remove_partial_spec; eauto.
  - do 2 (apply sanitized_then; [done|]; intros ?). io_steps. host_steps. eapply iwp_mono; [by eapply finalize_spec|].
    by intros [[]|] s'.
  - apply sanitized_then; [done|]. intros n. io_steps. host_steps. eapply remove_file_spec; eauto.
  - do 2 (apply sanitized_then; [done|]; intros ?). io_steps. host_steps.
    eapply iwp_mono; [eapply rename_files_spec; [done..|apply Hd]|]. by intros [[]|] s'.
  - assert (iwp (rename_filerquest h t) (fun r s' => R s s' /\ forall h', r = Ok h' ->
      handler_ok h' /\ dir_handler h' = dir_handler h) s) as Hr.
    { unfold rename_filerquest. case_bool_decide as Et; [by io_step|]. io_steps. host_steps.
      eapply iwp_mono; [by eapply rename_dirs_spec|]. intros [[]|] s' Hs; cbv beta iota; [|done]. io_step.
      split; [done|]. intros h' [= <-]. split; [|done]. split; [done|].
      split; [by apply sanitize_plain|exact Ht]. }
    unfold iwp in Hr. destruct (rename_filerquest h t s) as [[[h'|] s']| | |]; try done; destruct Hr as [Hs Hr];
      simpl; eexists _, _; (split; [done|]); (split; [done|]); [by apply Hr|done].
Qed.

(** In every run the handler stays sound, no operation panics, and the permitted
    relation holds between the first and the last state. *)
Lemma run_ops_spec (h : Handler) ops s :
  permits (dir_handler h) R removal true -> handler_ok h -> Forall title_ok ops ->
  (existsb removes ops = true -> removal = true) ->
  exists h' s', run_ops h ops s = Ret (h', s') /\ R s s' /\ handler_ok h' /\ dir_handler h' = dir_handler h.
Proof.
  revert h s. induction ops as [|op ops IH]; intros h s HR Hh Ht Hrm; simpl.
  { eexists _, _. split_and!; try done. by eapply permits_refl. }
  inversion Ht as [|? ? Ht1 Ht2]; subst. simpl in Hrm.
  destruct (run_op_spec h op s HR Hh Ht1) as (h1 & s1 & -> & H1 & Hh1 & Ed).
  { intros Eo. apply Hrm. by rewrite Eo. }
  simpl. rewrite <- Ed in HR. destruct (IH h1 s1 HR Hh1 Ht2) as (h2 & s2 & -> & H2 & Hh2 & Ed2).
  { intros Eo. apply Hrm. by rewrite Eo, orb_true_r. }
  eexists _, _. split_and!; [done|by eapply permits_trans|done|congruence].
Qed.
End Operations.

(** ** The theorems *)

Section Theorems.
Context {S F E : Type} `{!FileSystem S F E} `{!Sanitizer} `{!SanitizerLaws}.

Definition log_grows (ok : path -> Prop) (s s' : S * list path) : Prop :=
  exists l, s'.2 = s.2 ++ l /\ Forall ok l.

Lemma traced_permits (c : DirectFsController) :
  (forall p (s : S) d, canonicalize p s = Ok d -> clean d) ->
  permits (FileSystem0:=traced _) c (log_grows (allowed c)) true true.
Proof.
  intros Hcan. split.
  - intros s. exists []. by rewrite app_nil_r.
  - intros s1 s2 s3 (l1 & E1 & ?) (l2 & E2 & ?). exists (l1 ++ l2). rewrite E2, E1, app_assoc, Forall_app. auto.
  - intros p s d. apply Hcan.
  - intros p s Hp. simpl. destruct (create_dir_all p s.1). exists [p]. auto.
  - intros p s Hp. simpl. destruct (open_append_create p s.1). exists [p]. auto.
  - intros p s Hp. simpl. destruct (open_create_new p s.1). exists [p]. auto.
  - intros _ p q s Hp Hq _. simpl. destruct (fs_rename p q s.1). exists [p; q]. auto.
  - intros _ p s Hp. simpl. destruct (fs_remove_file p s.1). exists [p]. auto.
Qed.

(** C33 For all names a peer may send, the operations of the drive handler never
    panic and change only paths in the two directories of the controller: whatever
    sequence of operations runs, every path that was created, opened for writing,
    renamed or removed consists of the path of the drop directory or of the
    directory of part files followed by plain names. *)
Theorem handler_stays_in_its_directories (h : FilerequestDriveHandler DirectFsController) ops (s : S) :
  (forall p (s : S) d, canonicalize p s = Ok d -> clean d) ->
  handler_ok h -> Forall title_ok ops ->
  exists h' s' log, run_ops (FileSystem0:=traced _) h ops (s, []) = Ret (h', (s', log))
    /\ Forall (fun p => within (file_drop_dir (dir_handler h)) p \/ within (partial_dir (dir_handler h)) p) log.
Proof.
  intros Hcan Hh Ht.
  destruct (run_ops_spec (FileSystem0:=traced _) _ true h ops (s, []) (traced_permits _ Hcan) Hh Ht)
    as (h' & [s' log] & -> & (l & E' & Hl) & _); [done|].
  simpl in E'. subst. eauto.
Qed.

Context {N : Type} (file_at : path -> S -> option N) (data : N -> S -> option (list Z)).
Context `{!FileSystemLaws S F E N file_at data}.

Lemma kept_permits (c : DirectFsController) : permits c (kept data) false true.
Proof.
  split.
  - apply kept_refl.
  - apply kept_trans.
  - apply (law_canonical _ _).
  - intros p s _. apply (law_create_dir _ _).
  - intros p s _. apply (law_append _ _).
  - intros p s _. apply (law_create_new _ _).
  - intros _ p q s _ _ Hq. by apply (law_rename_keeps _ _).
  - done.
Qed.

(** C34 No operation of the drive handler but the removals ever destroys the
    content of a file: not creating a file whose name is taken, not finishing a
    transfer or renaming a file onto a name that is taken, not renaming a
    filerequest to the title of another; and no operation panics. *)
Theorem handler_keeps_files (h : FilerequestDriveHandler DirectFsController) ops (s : S) :
  handler_ok h -> Forall title_ok ops -> existsb removes ops = false ->
  exists h' s', run_ops h ops s = Ret (h', s') /\ handler_ok h'
    /\ forall n b, data n s = Some b -> data n s' = Some b.
Proof.
  intros Hh Ht Hrm.
  destruct (run_ops_spec _ false h ops s (kept_permits _) Hh Ht) as (h' & s' & -> & Hk & Hh' & _); [congruence|].
  eauto.
Qed.
End Theorems.
