(* ===== verification/DriveFiles.v ===== *)
(** * Files of a filerequest

    Where the operations of the drive handler put files, the choice of the output
    directory, and examples on the disk in memory. *)

From S2P Require Import Prelude Domain HostPath HostController FsController Disk DriveHandler DriveSafety.
From stdpp Require Import pretty.
From Stdlib Require Import Ascii.
#[local] Open Scope Z_scope.

Section Files.
Context {S F E : Type} `{!FileSystem S F E} `{!Sanitizer} `{!SanitizerLaws}.
Context {N : Type} (file_at : path -> S -> option N) (data : N -> S -> option (list Z)).
Context `{!FileSystemLaws S F E N file_at data}.

Lemma stays_permits (c : DirectFsController) : permits c (stays file_at data) false false.
Proof.
  split; try done.
  - apply stays_refl.
  - apply stays_trans.
  - apply (law_canonical _ _).
  - intros p s _. apply (law_create_dir _ _).
  - intros p s _. apply (law_append _ _).
  - intros p s _. apply (law_create_new _ _).
Qed.

Lemma unused_no_file p s q : unused_name p s q -> file_at q s = None.
Proof.
  intros Hu. destruct (file_at q s) as [n|] eqn:Eq; [|done]. apply (law_file_exists _ _) in Eq.
  destruct Hu as [[-> Hu]|(m & _ & _ & i & _ & _ & Hu & _)]; congruence.
Qed.

Lemma stays_no_file p s s' : stays file_at data s s' -> file_at p s' = None -> file_at p s = None.
Proof. intros [_ Hf] Hp. destruct (file_at p s) eqn:Ep; [|done]. apply Hf in Ep. congruence. Qed.

(** get_file_for_writing hands out a new, empty file: on success the path it
    returns names a file in the drop directory that did not exist before; all other
    files stay where they are with their content, also when it fails. *)
Theorem new_file_is_fresh (h : FilerequestDriveHandler DirectFsController) (filename : string) (s : S) :
  handler_ok h ->
  exists r s', get_file_for_writing h filename s = Ret (r, s') /\ stays file_at data s s'
    /\ forall name f, r = Ok (name, f) ->
         exists p n, name = path_to_string p /\ within (file_drop_dir (dir_handler h)) p
           /\ file_at p s = None /\ file_at p s' = Some n /\ data n s = None /\ data n s' = Some [].
Proof.
  intros [Hc Hd]. apply iwp_run.
  apply sanitized_then; [intros e; split; [apply stays_refl|done]|]. intros n. io_steps.
    cbn [host_create_file_for_writing direct_fs_host]. io_steps.
    eapply iwp_mono; [by eapply create_file_spec; [apply stays_permits|..]|].
    intros [[f name]|e] s' [Hs Hf]; cbv beta iota; [io_step|done]. split; [done|].
    intros ? ? [= <- <-]. destruct (Hf f name eq_refl) as (p & -> & Hp & s1 & H1 & Ho).
    destruct (law_create_new_fresh _ _ p s1 f s' Ho) as (Hp1 & n' & Hn1 & Hn2 & Hn3).
    exists p, n'. split_and!; [done|by apply drop_file_within| |done| |done].
    - apply (stays_no_file p s s1 H1). destruct (file_at p s1) eqn:Ep; [|done].
      apply (law_file_exists _ _) in Ep. congruence.
    - destruct (data n' s) as [b|] eqn:Eb; [|done]. apply (proj1 H1) in Eb. congruence.
Qed.

(** finalize_partial_file moves a part file to an unused name. If it succeeds,
    the file is in the drop directory under the requested name or, where that is
    taken, under the first of its variants that is not, no file was there before,
    and every other file is where it was; if it fails, nothing has moved and the
    part file is still there. No content is lost in either case. *)
Theorem finalize_moves_part_file (h : FilerequestDriveHandler DirectFsController)
    (part final : string) (s : S) (n : N) :
  handler_ok h ->
  sanitize (sanitize final) = sanitize final ->
  file_at (path_join (partial_dir (dir_handler h)) (path_from (sanitize part))) s = Some n ->
  exists r s', finalize_partial_file h part final s = Ret (r, s') /\ kept data s s'
    /\ match r with
       | Ok name => name = sanitize final /\ exists d s1 q,
           within (file_drop_dir (dir_handler h)) d /\ stays file_at data s s1
           /\ unused_name (path_join d (path_from name)) s1 q
           /\ file_at q s = None /\ file_at q s' = Some n
           /\ (forall p m, file_at p s = Some m -> m <> n -> file_at p s' = Some m)
       | Err _ => stays file_at data s s'
       end.
Proof.
  intros [Hc Hd] Hst Hn.
  apply iwp_run. match goal with |- iwp _ ?P _ => set (Q := P) end.
  assert (forall e, Q (Err e) s) as Herr by (intros e; split; [apply kept_refl|apply stays_refl]).
  unfold finalize_partial_file. io_step. io_step.
    destruct (sanitize_filename part) as [sp|e] eqn:Ep; [|apply Herr]. io_step. io_step.
    destruct (sanitize_filename final) as [sf|e] eqn:Ef; [|apply Herr].
    assert (sp = sanitize part /\ sf = sanitize final /\ sanitize final <> "") as (-> & -> & Hne).
    { unfold sanitize_filename in Ep, Ef. repeat (case_match; try done). bools. naive_solver. }
    io_steps. cbn [host_finalize_partial_file direct_fs_host].
    eapply iwp_mono; [by eapply finalize_moves; [apply stays_permits|..]|]. rewrite Hst, decide_False by done.
    intros r s' [[(e & ->) Hs]|Hm]; cbv beta iota; [split; [apply Hs|done]|].
    destruct Hm as (s1 & d & q & H1 & _ & Hw & _ & Hq & Hr).
    pose proof (unused_no_file _ _ _ Hq) as Hq0. apply (stays_no_file q s s1 H1) in Hq0.
    assert (exists_at q s1 = false) as Hex.
    { destruct Hq as [[-> ?]|(m & _ & _ & i & _ & _ & ? & _)]; done. }
    destruct (fs_rename _ q s1) as [[[]|e] s2] eqn:Er; destruct Hr as [-> ->]; cbv beta iota.
    - io_step. pose proof (law_rename_keeps _ _ (path_join (partial_dir (dir_handler h)) (path_from (sanitize part))) q s1 Hex) as Hk.
      rewrite Er in Hk. simpl in Hk.
      destruct (law_rename_moves _ _ _ _ _ _ n Hex Er (proj2 H1 _ _ Hn)) as [Hm1 Hm2].
      split; [by eapply kept_trans; [apply H1|]|]. split; [done|].
      exists d, s1, q. split_and!; try done. intros p m Hp Hne'. apply Hm2; [by apply H1|done].
    - apply (law_rename_fails _ _) in Er. split; [apply (stays_trans _ _ s s1 s2 H1 Er)|].
      by eapply stays_trans.
Qed.
End Files.

(** ** The search for an unused name *)

Section Search.
Context {S F E : Type} `{!FileSystem S F E}.

(** C35 For a path with a plain name both searches, escalate_existing_file and
    escalate_existing_path, return the same: the first of one hundred pairwise
    different paths in the same directory that is not in use, or an error exactly
    when all of them are in use. They change nothing. *)
Theorem escalation_takes_first_variant (cs : list component) (n : string) (s : S) :
  cs <> [] -> plain n ->
  let p := mk_path (cs ++ [Normal n]) false in
  (forall i, components (variant p n i) = cs ++ [Normal (candidate_name (split_name n).1 (split_name n).2 i)])
  /\ (forall i j, variant p n i = variant p n j -> i = j)
  /\ exists r, escalate_existing_path p s = Ret (r, s)
     /\ escalate_existing_file p s
        = Ret (match r with Ok q => Ok q | Err _ => Err (UniqueFileNameVariantNotFound p) end, s)
     /\ match r with
        | Ok q => first_variant p n s q
        | Err k => k = NUMBER_OF_VARIATIONS_TO_TRY
                   /\ forall i, (i < NUMBER_OF_VARIATIONS_TO_TRY)%nat -> exists_at (variant p n i) s = true
        end.
Proof.
  intros Hcs Hn p.
  assert (forall i, variant p n i = mk_path (cs ++ [Normal (candidate_name (split_name n).1 (split_name n).2 i)]) false) as Hv.
  { intros i. apply with_file_name_app; [done|by apply candidate_name_plain]. }
  split_and!.
  - intros i. by rewrite Hv.
  - intros i j. rewrite !Hv. intros E'. injection E' as E'. apply app_inj_2 in E' as [_ E']; [|done].
    injection E' as E'. by apply candidate_name_inj in E'.
  - pose proof (find_candidate_first p n s) as Hf.
    rewrite (escalate_path_run p n s), (escalate_file_run p n s) by apply file_name_app.
    destruct (find_candidate _ _ _ s _ 0) as [q|]; eexists; split_and!; try done.
Qed.
End Search.

(** ** The output directory *)

Section New.
Context {S F E : Type} `{!FileSystem S F E}.

(** The requested directory or a variant of its name. *)
Definition out_dir_candidate (requested o : path) : Prop :=
  o = requested \/ exists base i, file_name requested = Some base /\ (i <= NUMBER_OF_VARIATIONS_TO_TRY)%nat
    /\ o = with_file_name requested (base +:+ "_" +:+ pretty (N.of_nat i)).

Lemma iwp_ask_mut {E' A} (f : S -> A * S) (Q : result A E' -> S -> Prop) s :
  Q (Ok (f s).1) (f s).2 -> iwp (ask_mut f) Q s.
Proof. unfold iwp, ask_mut. by destruct (f s). Qed.

Lemma deescalate_loop_spec p base fuel i (s : S) :
  file_name p = Some base -> (i <= NUMBER_OF_VARIATIONS_TO_TRY)%nat ->
  (NUMBER_OF_VARIATIONS_TO_TRY < fuel + i)%nat ->
  iwp (deescalate_loop p base fuel i) (fun r s' => forall o, r = Ok o -> out_dir_candidate p o) s.
Proof.
  intros Hb. revert i s. induction fuel as [|fuel IH]; intros i s Hi Hfuel; [lia|].
  assert (forall s', iwp (if Nat.leb NUMBER_OF_VARIATIONS_TO_TRY i
            then io_throw (NoAccessibleVariantFound p NUMBER_OF_VARIATIONS_TO_TRY)
            else deescalate_loop p base fuel (Datatypes.S i))
          (fun r s' => forall o, r = Ok o -> out_dir_candidate p o) s') as Hnext.
  { intros s'. destruct (Nat.leb_spec NUMBER_OF_VARIATIONS_TO_TRY i); [by io_step|]. apply IH; lia. }
  assert (out_dir_candidate p (with_file_name p (base +:+ "_" +:+ pretty (N.of_nat i)))) as Ho.
  { right. by exists base, i. }
  cbn [deescalate_loop]. io_steps. destruct (exists_at _ s); io_steps.
  - destruct (is_dir _ s); [apply iwp_ask_mut|io_steps; apply Hnext].
    destruct (test_write_permission_in_dir _ s) as [[] s1]; cbv beta iota; simpl; [|done].
    io_step. by intros o [= <-].
  - destruct (create_dir_all _ s) as [[[]|e] s1]; simpl; [|done]. by intros o [= <-].
Qed.

Lemma deescalate_spec p (s : S) :
  iwp (deescalate_existing_inaccessible_path p) (fun r s' => forall o, r = Ok o -> out_dir_candidate p o) s.
Proof.
  unfold deescalate_existing_inaccessible_path. io_steps. destruct (file_name p) eqn:Eb; [|done].
  apply deescalate_loop_spec; [done|lia|lia].
Qed.

(** DirectFsController::new returns for every state of the disk: it tries the
    requested directory and at most 101 variants of its name. A controller it
    returns has its three directories as different children of the canonical form
    of the directory found, which is what the operations of the controller need. *)
Theorem controller_new_returns (requested : path) (s : S) :
  (forall p (s : S) d, canonicalize p s = Ok d -> clean d) ->
  exists r s', controller_new requested s = Ret (r, s')
    /\ forall c, r = Ok c -> controller_ok c /\ exists o d,
         out_dir_candidate requested o /\ canonicalize o s' = Ok d /\ clean d
         /\ components (file_drop_dir c) = components d ++ [Normal "Received"]
         /\ components (backup_dir c) = components d ++ [Normal "Backup"]
         /\ components (partial_dir c) = components d ++ [Normal "Partial"].
Proof.
  intros Hcan. apply iwp_run. match goal with |- iwp _ ?P _ => set (Q := P) end.
  assert (forall o s1, out_dir_candidate requested o -> iwp (controller_at o) Q s1) as Hrest.
  { intros o s1 Ho. unfold controller_at. io_steps. destruct (canonicalize o s1) as [d|e] eqn:Ed; [|by io_step]. io_step.
    intros c [= <-]. pose proof (Hcan _ _ _ Ed) as Hd. pose proof (clean_nonempty d Hd) as Hne.
    rewrite !path_join_plain by (done || by vm_compute). pose proof Hd as (ns & Hns & En).
    split; [|by exists o, d].
    assert (forall n, plain n -> clean (mk_path (components d ++ [Normal n]) false)) as Hcl.
    { intros n Hn. exists (ns ++ [n]). rewrite Forall_app, map_app, En. auto. }
    split; [split|]; [by apply Hcl; vm_compute| |by apply Hcl; vm_compute].
    exists "Received". simpl. rewrite last_snoc. by vm_compute. }
  assert (forall s1, iwp (io_map_err Deescalate (deescalate_existing_inaccessible_path requested))
    (fun r s' => match r with Ok o => iwp (controller_at o) Q s' | Err e => Q (Err e) s' end) s1) as Hde.
  { intros s1. io_step. eapply iwp_mono; [apply deescalate_spec|]. intros [o|e] s' Ho; [|done]. by apply Hrest, Ho. }
  unfold controller_new. io_steps. destruct (exists_at requested s); io_steps.
  - destruct (is_dir requested s); [|apply Hde]. io_step. apply iwp_ask_mut.
    destruct (test_write_permission_in_dir requested s) as [[] s1]; simpl; [|apply Hde]. io_step.
    apply Hrest. by left.
  - destruct (create_dir_all requested s) as [[[]|e] s1]; simpl; [|done]. apply Hrest. by left.
Qed.
End New.

(** ** Examples on the disk in memory *)

Module DriveExample.
Import MemoryDisk.

Fixpoint without_slash (s : string) : string :=
  match s with
  | EmptyString => EmptyString
  | String a s => if decide (a = slash) then without_slash s else String a (without_slash s)
  end.

(** Slashes are dropped and a name of dots becomes empty. *)
#[local] Instance sanitizer : Sanitizer := fun s =>
  let t := without_slash s in
  if decide (t = ".") then "" else if decide (t = "..") then "" else t.

Lemma without_slash_spec s : contains_char slash (without_slash s) = false.
Proof.
  induction s as [|a s IH]; simpl; [done|]. case_decide; [done|]. simpl.
  by rewrite bool_decide_eq_false_2.
Qed.

#[local] Instance sanitizer_laws : SanitizerLaws.
Proof.
  split; intros s; unfold sanitize, sanitizer; repeat case_decide; try done. apply without_slash_spec.
Qed.

Definition controller : DirectFsController :=
  mk_controller (path_from "/out/Received") (path_from "/out/Backup") (path_from "/out/Partial").
Definition handler : FilerequestDriveHandler DirectFsController := handler_new controller "id" "Req".

Definition part_path : path := path_from "/out/Partial/p.part".
Definition old_path : path := path_from "/out/Received/Req/a.txt".

(** A part file, and an older file that has the name it is meant to get. *)
Definition disk0 : disk :=
  mk_disk (list_to_set (prefixes (components (path_from "/out/Received/Req"))
                        ++ prefixes (components (path_from "/out/Partial"))))
    (<[components part_path := 0%nat]> {[components old_path := 1%nat]})
    (<[0%nat := [1; 2; 3]]> {[1%nat := [9]]}).

Definition ops : list HandlerOp :=
  [GetFile "../a.txt"; GetFile "a.txt"; GetPartialFile "q.part"; FinalizePartialFile "p.part" "a.txt";
   RenameFile "a.txt" "b.txt"; RenameFilerequest "../Other"].

Lemma handler_sound : handler_ok handler.
Proof.
  split; [|by vm_compute]. split.
  - split; [exists ["out"; "Received"]|exists "Received"; by vm_compute]. split; [|done].
    repeat apply Forall_cons_2; [by vm_compute..|apply Forall_nil_2].
  - exists ["out"; "Partial"]. split; [|done]. repeat apply Forall_cons_2; [by vm_compute..|apply Forall_nil_2].
Qed.

Lemma handler_stays_in_its_directories_witness :
  exists h' s' log, run_ops (FileSystem0:=traced _) handler ops (disk0, []) = Ret (h', (s', log))
    /\ Forall (fun p => within (path_from "/out/Received") p \/ within (path_from "/out/Partial") p) log.
Proof.
  apply (handler_stays_in_its_directories (FileSystem0:=memory_disk) handler ops disk0 mem_canonical handler_sound).
  repeat constructor.
Defined.

Lemma handler_keeps_files_witness :
  exists h' s', run_ops handler ops disk0 = Ret (h', s') /\ handler_ok h'
    /\ forall n b, data n disk0 = Some b -> data n s' = Some b.
Proof.
  apply (handler_keeps_files file_at data handler ops disk0 handler_sound); [repeat constructor|done].
Defined.

Lemma new_file_is_fresh_witness :
  exists r s', get_file_for_writing handler "a.txt" disk0 = Ret (r, s') /\ stays file_at data disk0 s'
    /\ forall name f, r = Ok (name, f) ->
         exists p n, name = path_to_string p /\ within (file_drop_dir (dir_handler handler)) p
           /\ file_at p disk0 = None /\ file_at p s' = Some n /\ data n disk0 = None /\ data n s' = Some [].
Proof. apply (new_file_is_fresh file_at data handler "a.txt" disk0 handler_sound). Defined.

Lemma finalize_moves_part_file_witness :
  exists r s', finalize_partial_file handler "p.part" "a.txt" disk0 = Ret (r, s') /\ kept data disk0 s'
    /\ match r with
       | Ok name => name = sanitize "a.txt" /\ exists d s1 q,
           within (file_drop_dir (dir_handler handler)) d /\ stays file_at data disk0 s1
           /\ unused_name (path_join d (path_from name)) s1 q
           /\ file_at q disk0 = None /\ file_at q s' = Some 0%nat
           /\ (forall p m, file_at p disk0 = Some m -> m <> 0%nat -> file_at p s' = Some m)
       | Err _ => stays file_at data disk0 s'
       end.
Proof.
  apply (finalize_moves_part_file file_at data handler "p.part" "a.txt" disk0 0%nat handler_sound);
    by vm_compute.
Defined.

Lemma escalation_takes_first_variant_witness :
  let p := mk_path (removelast (components old_path) ++ [Normal "a.txt"]) false in
  exists r, escalate_existing_path p disk0 = Ret (r, disk0)
     /\ match r with
        | Ok q => first_variant p "a.txt" disk0 q
        | Err k => k = NUMBER_OF_VARIATIONS_TO_TRY
                   /\ forall i, (i < NUMBER_OF_VARIATIONS_TO_TRY)%nat -> exists_at (variant p "a.txt" i) disk0 = true
        end.
Proof.
  destruct (escalation_takes_first_variant (removelast (components old_path)) "a.txt" disk0)
    as (_ & _ & r & H1 & _ & H2); [by vm_compute|by vm_compute|].
  exact (ex_intro _ r (conj H1 H2)).
Defined.

Lemma controller_new_returns_witness :
  exists r s', controller_new (path_from "/out") disk0 = Ret (r, s')
    /\ forall c, r = Ok c -> controller_ok c.
Proof.
  destruct (controller_new_returns (FileSystem0:=memory_disk) (path_from "/out") disk0 mem_canonical) as (r & s' & H1 & H2).
  exists r, s'. split; [done|]. intros c Hr. by apply H2.
Defined.

(** finalize_partial_file of the drive handler returns the requested name
    also when the file was stored under a variant of it. Here a.txt exists already:
    the transfer is stored as a_0.txt, the name returned is that of the older file,
    and a caller that looks the name up finds the older file. *)
Theorem finalize_returns_name_of_other_file :
  match finalize_partial_file handler "p.part" "a.txt" disk0 with
  | Ret (Ok name, s') =>
      name = "a.txt" /\ file_at old_path s' = Some 1%nat
      /\ file_at (path_from "/out/Received/Req/a_0.txt") s' = Some 0%nat
      /\ file_at part_path disk0 = Some 0%nat
  | _ => False
  end.
Proof. vm_compute. repeat split. Qed.
End DriveExample.
