(* ===== verification/KeyExchange.v ===== *)
(** * Key exchange and sessions (p2p/src/crypto.rs, crypto/src/lib.rs)

    A session between two peers is built from one request and one response: the
    initiator sends ephemeral public keys (x25519 and Kyber), the responder
    answers with its own x25519 key and a Kyber ciphertext, and both sign what
    they send with the keys of their contact (dilithium and ed25519). Either side
    verifies the signatures if it knows the keys of the contact the other claims
    to be. The primitives are third-party code: the class [Primitives] over a
    state [W] (randomness and the clock), with their documented correctness as
    [PrimitivesLaws]. *)

From S2P Require Import Prelude Domain NonceWindow Dencryptor.

(** Signatures, key encapsulation, Diffie-Hellman, key derivation and the clock.
    Public keys, ciphertexts and shared secrets are byte arrays. *)
Class Primitives (W : Type) := {
  DilithiumSecret : Type;
  DilithiumPublic : Type;
  DilithiumSignature : Type;
  Ed25519Secret : Type;
  Ed25519Public : Type;
  Ed25519Signature : Type;
  X25519Secret : Type;
  KyberSecret : Type;
  KyberError : Type;
  CipherKey : Type;
  kyber_public_bytes : nat;
  kyber_ciphertext_bytes : nat;
  dilithium_keypair : W -> (DilithiumPublic * DilithiumSecret) * W;
  ed25519_generate : W -> Ed25519Secret * W;
  ed25519_verifying_key : Ed25519Secret -> Ed25519Public;
  dilithium_sign : DilithiumSecret -> bytes -> DilithiumSignature;
  dilithium_verify : DilithiumPublic -> bytes -> DilithiumSignature -> bool;
  ed25519_try_sign : Ed25519Secret -> bytes -> option Ed25519Signature;
  ed25519_verify_strict : Ed25519Public -> bytes -> Ed25519Signature -> bool;
  kyber_keypair : W -> result (bytes * KyberSecret) KyberError * W;
  kyber_encapsulate : bytes -> W -> result (bytes * bytes) KyberError * W;
  kyber_decapsulate : bytes -> KyberSecret -> result bytes KyberError;
  x25519_random : W -> X25519Secret * W;
  x25519_public : X25519Secret -> bytes;
  diffie_hellman : X25519Secret -> bytes -> bytes;
  hkdf_sha256 : bytes -> CipherKey;
  system_now : W -> Z * W;
}.

(** What the primitives promise: a signature verifies under the public key of the
    pair, decapsulation gives the encapsulated secret, Diffie-Hellman commutes, the
    arrays have their sizes. *)
Class PrimitivesLaws (W : Type) `{!Primitives W} := {
  dilithium_correct w pk sk w' m : dilithium_keypair w = ((pk, sk), w') -> dilithium_verify pk m (dilithium_sign sk m) = true;
  ed25519_correct sk m s : ed25519_try_sign sk m = Some s -> ed25519_verify_strict (ed25519_verifying_key sk) m s = true;
  kem_correct w pk sk w1 w2 ct ss w3 :
    kyber_keypair w = (Ok (pk, sk), w1) -> kyber_encapsulate pk w2 = (Ok (ct, ss), w3) ->
    kyber_decapsulate ct sk = Ok ss;
  dh_commutes a b : diffie_hellman a (x25519_public b) = diffie_hellman b (x25519_public a);
  x25519_public_length a : length (x25519_public a) = 32%nat;
  kyber_public_length w pk sk w' : kyber_keypair w = (Ok (pk, sk), w') -> length pk = kyber_public_bytes;
  kyber_ciphertext_length pk w ct ss w' :
    kyber_encapsulate pk w = (Ok (ct, ss), w') -> length ct = kyber_ciphertext_bytes;
  kyber_sizes : kyber_ciphertext_bytes <> S kyber_public_bytes;
}.

Section KeyExchange.
Context {W : Type} `{!Primitives W}.

(** ** Data *)

(** [struct ContactPrivateKeys], [ContactPublicKeys] and [ContactKeys] *)
Record ContactPrivateKeys := mk_contact_private { priv_dilithium : DilithiumSecret; priv_ed25519 : Ed25519Secret }.
Record ContactPublicKeys := mk_contact_public { pub_dilithium : DilithiumPublic; pub_ed25519 : Ed25519Public }.
Record ContactKeys := mk_contact_keys { keys_private : ContactPrivateKeys; keys_public : ContactPublicKeys }.

Record SessionInitiatorPrivateKeys := mk_init_private { ip_x25519 : X25519Secret; ip_kyber : KyberSecret }.
Record SessionInitiatorPublicKeys := mk_init_public { iu_x25519 : bytes; iu_kyber : bytes }.
Record SessionInitiatorSecrets := mk_init_secrets {
  is_private : SessionInitiatorPrivateKeys;
  is_public : SessionInitiatorPublicKeys;
}.

Record SessionInitiationRequest := mk_init_request {
  session_initiator_public_keys : SessionInitiatorPublicKeys;
  will_authenticate_responder : bool;
}.

(** [struct AuthWireRequest] of a [SessionInitiationRequest] *)
Record AuthWireRequest := mk_wire_request {
  wq_sender : ContactId;
  wq_message : SessionInitiationRequest;
  wq_dilithium_signature : DilithiumSignature;
  wq_ed25519_signature : Ed25519Signature;
}.

Record KeyExchangeResponseMessage := mk_response_message { kyber_ciphertext : bytes; rm_x25519_public : bytes }.

(** [type KeyExchangeResponse], an [AuthWireResponse] *)
Record KeyExchangeResponse := mk_wire_response {
  wr_sender : ContactId;
  wr_message : KeyExchangeResponseMessage;
  is_authenticated : bool;
  wr_dilithium_signature : DilithiumSignature;
  wr_ed25519_signature : Ed25519Signature;
}.

Record SessionSecrets := mk_session_secrets { ss_kyber : bytes; ss_x25519 : bytes }.

Inductive EstablishedSessionAuthentication :=
| Unauthenticated
| IKnowOther (contact_id : ContactId)
| OtherKnowsMe
| WeKnowEachOther (contact_id : ContactId).

Record Session := mk_session {
  use_expiry : Z;
  accept_expiry : Z;
  authentication_type : EstablishedSessionAuthentication;
  session_secret : bytes;
  session_dencryptor_state : Dencryptor CipherKey (list bool);
}.

Inductive AuthenticationRequirement :=
| ReqUnauthenticated
| InitiatorAuthenticated
| OptimisticInitiatorAuthenticated
| ResponderAuthenticated (contact_id : ContactId)
| BilaterallyAuthenticated (contact_id : ContactId)
| OptimisticBilaterallyAuthenticated (contact_id : ContactId).

Inductive SignatureVerificationError := DilithiumVerification | Ed25519Verification.

Inductive SessionFromRequestError :=
| SfrKyber (e : KyberError)
| SfrSignatureVerification (e : SignatureVerificationError).

Inductive SessionCreationError :=
| CreationCrypto (e : KyberError)
| CreationAuthentication.

Inductive InitiatorSessionEstablishmentError :=
| EphemeralSecretGenerationError
| SigningError
| NoResponse
| ContactNotKnown (c : ContactId)
| DroppedWithoutResponse
| InitiatorSharedSecretGenerationFailed
| InitiatorInternal (msg : string).

Inductive ResponderSessionEstablishmentError :=
| ContactVerificationFailed (c : ContactId)
| UnknownContact (c : ContactId)
| ResponderSharedSecretGenerationFailed
| AuthenticationRequirementNotMet (r : AuthenticationRequirement)
| ResponderInternal (msg : string).

Inductive SessionEstablishmentError :=
| InitiatorError (e : InitiatorSessionEstablishmentError)
| ResponderError (e : ResponderSessionEstablishmentError).

(** ** Lifetimes, in seconds *)

Definition SESSION_VALIDITY_DURATION : Z := 30 * 60.
Definition ACCEPT_SESSION_PAST_VALID_DURATION : Z := 60.
Definition SESSION_CONSTRUCTION_TIMEOUT : Z := 60.

(** ** Contact keys *)

(** [ContactKeys::new] *)
Definition contact_keys_new (w : W) : ContactKeys * W :=
  let '((dilithium_public, dilithium_secret), w) := dilithium_keypair w in
  let (ed25519_secret, w) := ed25519_generate w in
  let ed25519_public := ed25519_verifying_key ed25519_secret in
  (mk_contact_keys (mk_contact_private dilithium_secret ed25519_secret) (mk_contact_public dilithium_public ed25519_public), w).

(** ** Sessions *)

Definition get_contact_id (a : EstablishedSessionAuthentication) : option ContactId :=
  match a with
  | Unauthenticated | OtherKnowsMe => None
  | IKnowOther contact_id | WeKnowEachOther contact_id => Some contact_id
  end.

(** [SessionSecrets::to_cipher]: the key is derived from both secrets. *)
Definition to_cipher (self : SessionSecrets) (for_initiator : bool) : Dencryptor CipherKey (list bool) :=
  session_dencryptor (hkdf_sha256 (ss_kyber self ++ ss_x25519 self)) for_initiator.

(** [Session::new] *)
Definition session_new (a : EstablishedSessionAuthentication) (s : SessionSecrets) (for_initiator : bool) (w : W)
  : Session * W :=
  let (now, w) := system_now w in
  let use := now + SESSION_VALIDITY_DURATION in
  (mk_session use (use + ACCEPT_SESSION_PAST_VALID_DURATION) a (ss_kyber s ++ ss_x25519 s) (to_cipher s for_initiator), w).

(** [impl PartialEq for Session] *)
Definition session_eqb (s1 s2 : Session) : bool := bool_decide (session_secret s1 = session_secret s2).

(** ** The initiator's request *)

Definition initiator_secrets_new (w : W) : result SessionInitiatorSecrets KyberError * W :=
  match kyber_keypair w with
  | (Err e, w) => (Err e, w)
  | (Ok (public, secret), w) =>
      let (x, w) := x25519_random w in
      (Ok (mk_init_secrets (mk_init_private x secret) (mk_init_public (x25519_public x) public)), w)
  end.

Definition public_get_vec (self : SessionInitiatorPublicKeys) : bytes := iu_x25519 self ++ iu_kyber self.

Definition request_new (keys : SessionInitiatorPublicKeys) (other_contact_id : option ContactId) : SessionInitiationRequest :=
  mk_init_request keys (bool_decide (is_Some other_contact_id)).

Definition request_get_vec (self : SessionInitiationRequest) : bytes :=
  public_get_vec (session_initiator_public_keys self) ++ [if will_authenticate_responder self then 1 else 0].

Definition request_sign (self : SessionInitiationRequest) (signing_keys : ContactPrivateKeys) (self_contact_id : ContactId)
  : option AuthWireRequest :=
  let compound_key := request_get_vec self in
  let dilithium_signature := dilithium_sign (priv_dilithium signing_keys) compound_key in
  match ed25519_try_sign (priv_ed25519 signing_keys) compound_key with
  | None => None
  | Some ed25519_signature => Some (mk_wire_request self_contact_id self dilithium_signature ed25519_signature)
  end.

(** ** The responder *)

Definition verify_initiator_signature (self : AuthWireRequest) (contact_public : ContactPublicKeys)
  : result unit SignatureVerificationError :=
  let compound_key := request_get_vec (wq_message self) in
  if negb (dilithium_verify (pub_dilithium contact_public) compound_key (wq_dilithium_signature self))
  then Err DilithiumVerification
  else if negb (ed25519_verify_strict (pub_ed25519 contact_public) compound_key (wq_ed25519_signature self))
  then Err Ed25519Verification
  else Ok tt.

Definition to_shared_secrets_and_response (self : SessionInitiatorPublicKeys) (w : W)
  : result (SessionSecrets * KeyExchangeResponseMessage) KyberError * W :=
  let (secret, w) := x25519_random w in
  let shared := diffie_hellman secret (iu_x25519 self) in
  match kyber_encapsulate (iu_kyber self) w with
  | (Err e, w) => (Err e, w)
  | (Ok (ciphertext, kyber_shared), w) =>
      (Ok (mk_session_secrets kyber_shared shared, mk_response_message ciphertext (x25519_public secret)), w)
  end.

Definition to_session_and_response (self : AuthWireRequest)
  (contact_data_for_verification : option (ContactId * ContactPublicKeys)) (w : W)
  : result (Session * KeyExchangeResponseMessage) SessionFromRequestError * W :=
  match (match contact_data_for_verification with
         | Some (_, contact_public) => verify_initiator_signature self contact_public
         | None => Ok tt
         end) with
  | Err e => (Err (SfrSignatureVerification e), w)
  | Ok _ =>
      match to_shared_secrets_and_response (session_initiator_public_keys (wq_message self)) w with
      | (Err e, w) => (Err (SfrKyber e), w)
      | (Ok (shared_secret, response), w) =>
          let established :=
            match contact_data_for_verification, will_authenticate_responder (wq_message self) with
            | None, true => OtherKnowsMe
            | None, false => Unauthenticated
            | Some (contact_id, _), true => WeKnowEachOther contact_id
            | Some (contact_id, _), false => IKnowOther contact_id
            end in
          let (session, w) := session_new established shared_secret false w in
          (Ok (session, response), w)
      end
  end.

Definition response_get_vec (self : KeyExchangeResponseMessage) : bytes :=
  rm_x25519_public self ++ kyber_ciphertext self.

Definition response_sign (self : KeyExchangeResponseMessage) (contact_secrets : ContactPrivateKeys)
  (self_contact_id : ContactId) (request_authenticated : bool) : option KeyExchangeResponse :=
  let compound_key := response_get_vec self in
  let dilithium_signature := dilithium_sign (priv_dilithium contact_secrets) compound_key in
  match ed25519_try_sign (priv_ed25519 contact_secrets) compound_key with
  | None => None
  | Some ed25519_signature =>
      Some (mk_wire_response self_contact_id self request_authenticated dilithium_signature ed25519_signature)
  end.

(** ** The initiator again *)

Definition unpack_verified (self : KeyExchangeResponse) (contact_public : ContactPublicKeys)
  : result KeyExchangeResponseMessage SignatureVerificationError :=
  let compound_key := response_get_vec (wr_message self) in
  if negb (dilithium_verify (pub_dilithium contact_public) compound_key (wr_dilithium_signature self))
  then Err DilithiumVerification
  else if negb (ed25519_verify_strict (pub_ed25519 contact_public) compound_key (wr_ed25519_signature self))
  then Err Ed25519Verification
  else Ok (wr_message self).

Definition unpack_unverified (self : KeyExchangeResponse) : KeyExchangeResponseMessage := wr_message self.

Definition to_shared_secrets (self : KeyExchangeResponseMessage) (private_keys : SessionInitiatorPrivateKeys)
  : result SessionSecrets KyberError :=
  match kyber_decapsulate (kyber_ciphertext self) (ip_kyber private_keys) with
  | Err e => Err e
  | Ok kyber => Ok (mk_session_secrets kyber (diffie_hellman (ip_x25519 private_keys) (rm_x25519_public self)))
  end.

(** What the waiters of a session build are sent: the session or the cause of
    the failure. *)
Abbreviation broadcast := (result Session SessionEstablishmentError).

(** [InitiatorSessionCreation::to_session], with what it sends to the waiters.
    When the signatures do not verify, the early return drops the sender, which
    then sends [DroppedWithoutResponse] ([impl Drop for
    SessionEstablishmentSender]). *)
Definition creation_to_session (initiator_secrets : SessionInitiatorPrivateKeys) (keys : KeyExchangeResponse)
  (other_public_keys : option ContactPublicKeys) (w : W) : result Session SessionCreationError * broadcast * W :=
  match (match other_public_keys with
         | None => Some (unpack_unverified keys)
         | Some public => result_ok (unpack_verified keys public)
         end) with
  | None => (Err CreationAuthentication, Err (InitiatorError DroppedWithoutResponse), w)
  | Some key_exchange_response =>
      let authentication :=
        match other_public_keys, is_authenticated keys with
        | None, true => OtherKnowsMe
        | None, false => Unauthenticated
        | Some _, true => WeKnowEachOther (wr_sender keys)
        | Some _, false => IKnowOther (wr_sender keys)
        end in
      match to_shared_secrets key_exchange_response initiator_secrets with
      | Err e => (Err (CreationCrypto e), Err (InitiatorError InitiatorSharedSecretGenerationFailed), w)
      | Ok s =>
          let (session, w) := session_new authentication s true w in
          (Ok session, Ok session, w)
      end
  end.

End KeyExchange.

(** ** Agreement of an honest handshake *)

Section Honest.
Context {W : Type} `{!Primitives W} `{!PrimitivesLaws W}.

(** Signatures made with the private keys verify under the public keys. *)
Definition keys_match (k : ContactKeys) : Prop :=
  (forall m, dilithium_verify (pub_dilithium (keys_public k)) m (dilithium_sign (priv_dilithium (keys_private k)) m) = true) /\
  (forall m s, ed25519_try_sign (priv_ed25519 (keys_private k)) m = Some s ->
     ed25519_verify_strict (pub_ed25519 (keys_public k)) m s = true).

(** The keys a contact is created with match. *)
Lemma contact_keys_new_match w : keys_match (contact_keys_new w).1.
Proof.
  unfold contact_keys_new. destruct (dilithium_keypair w) as [[pk sk] w1] eqn:Ed. destruct (ed25519_generate w1) as [es w2]. split; simpl.
  - intros m. by eapply dilithium_correct.
  - intros m s. apply ed25519_correct.
Qed.

(** The keys a side has for the contact [c], if it knows it. *)
Definition known (knows : bool) (c : ContactId) (k : ContactKeys) : option (ContactId * ContactPublicKeys) :=
  if knows then Some (c, keys_public k) else None.

(** The two views of who knows whom. *)
Definition dual_authentication (i r : EstablishedSessionAuthentication) (a b : ContactId) : Prop :=
  (i, r) ∈ [(Unauthenticated, Unauthenticated); (IKnowOther b, OtherKnowsMe);
            (OtherKnowsMe, IKnowOther a); (WeKnowEachOther b, WeKnowEachOther a)].

Lemma signed_request_verifies r k a req :
  keys_match k -> request_sign r (keys_private k) a = Some req ->
  wq_message req = r /\ verify_initiator_signature req (keys_public k) = Ok tt.
Proof.
  intros [Hd He]. unfold request_sign, verify_initiator_signature.
  destruct (ed25519_try_sign _ _) as [sg|] eqn:Es; [|done]. intros [= <-]. simpl.
  by rewrite Hd, (He _ _ Es).
Qed.

Lemma signed_response_verifies m k b known_a resp :
  keys_match k -> response_sign m (keys_private k) b known_a = Some resp ->
  wr_message resp = m /\ wr_sender resp = b /\ is_authenticated resp = known_a /\
  unpack_verified resp (keys_public k) = Ok m.
Proof.
  intros [Hd He]. unfold response_sign, unpack_verified.
  destruct (ed25519_try_sign _ _) as [sg|] eqn:Es; [|done]. intros [= <-]. simpl.
  by rewrite Hd, (He _ _ Es).
Qed.

(** Both sides derive the same secrets. *)
Lemma shared_secrets_agree w secrets w1 w2 ss msg w3 :
  initiator_secrets_new w = (Ok secrets, w1) ->
  to_shared_secrets_and_response (is_public secrets) w2 = (Ok (ss, msg), w3) ->
  to_shared_secrets msg (is_private secrets) = Ok ss.
Proof.
  unfold initiator_secrets_new, to_shared_secrets_and_response, to_shared_secrets.
  destruct (kyber_keypair w) as [[[pk sk]|e] w0] eqn:Ek; [|done].
  destruct (x25519_random w0) as [x wx]. intros [= <- <-]. simpl.
  destruct (x25519_random w2) as [y wy]. destruct (kyber_encapsulate pk wy) as [[[ct k]|e] we] eqn:Ee; [|done].
  intros [= <- <- <-]. simpl. by rewrite (kem_correct _ _ _ _ _ _ _ _ Ek Ee), dh_commutes.
Qed.

(** The handshake of two honest peers, [knows_a] and [knows_b] saying who has the
    keys of whom: the responder accepts unless Kyber fails, and the initiator then
    ends up with the other half of the same session. *)
Lemma handshake_agrees w a b ka kb knows_a knows_b target secrets w1 req w2 :
  keys_match ka -> keys_match kb ->
  initiator_secrets_new w = (Ok secrets, w1) ->
  request_sign (request_new (is_public secrets) target) (keys_private ka) a = Some req ->
  (exists e w3, to_session_and_response req (known knows_a a ka) w2 = (Err (SfrKyber e), w3)) \/
  (exists sr msg w3, to_session_and_response req (known knows_a a ka) w2 = (Ok (sr, msg), w3) /\
    get_contact_id (authentication_type sr) = (if knows_a then Some a else None) /\
    forall resp w4, response_sign msg (keys_private kb) b knows_a = Some resp ->
    exists si w5, creation_to_session (is_private secrets) resp (snd <$> known knows_b b kb) w4 = (Ok si, Ok si, w5) /\
      get_contact_id (authentication_type si) = (if knows_b then Some b else None) /\
      session_eqb si sr = true /\
      ((is_Some target <-> knows_b = true) -> dual_authentication (authentication_type si) (authentication_type sr) a b) /\
      exists key, session_dencryptor_state si = session_dencryptor key true /\
                  session_dencryptor_state sr = session_dencryptor key false).
Proof.
  intros Ha Hb Hs Hreq. destruct (signed_request_verifies _ _ _ _ Ha Hreq) as [Em Ev].
  unfold to_session_and_response. rewrite Em.
  replace (match known knows_a a ka with Some (_, pub) => verify_initiator_signature req pub | None => Ok tt end)
    with (Ok tt : result unit SignatureVerificationError) by (by destruct knows_a).
  cbn [session_initiator_public_keys request_new will_authenticate_responder].
  destruct (to_shared_secrets_and_response (is_public secrets) w2) as [[[ss msg]|e] w3] eqn:Ess; [right|left; by eauto].
  pose proof (shared_secrets_agree _ _ _ _ _ _ _ Hs Ess) as Eag.
  unfold session_new. destruct (system_now w3) as [t w3']. do 3 eexists. split_and!; [reflexivity|..].
  { destruct knows_a; simpl; case_goal; done. }
  intros resp w4 Hresp. destruct (signed_response_verifies _ _ _ _ _ Hb Hresp) as (Emr & Esr & Eauth & Eu).
  unfold creation_to_session, session_new, unpack_unverified.
  destruct knows_b; simpl; rewrite ?Eu, ?Emr; simpl; rewrite Eag, ?Esr, Eauth;
    destruct (system_now w4) as [t' w4']; do 2 eexists; (split_and!; [reflexivity|..]).
  all: try (unfold session_eqb; simpl; by apply bool_decide_eq_true).
  all: try (eexists; split; reflexivity).
  all: try (simpl; destruct knows_a; done).
  all: intros Ht; unfold dual_authentication; simpl.
  - rewrite bool_decide_eq_true_2 by (by apply Ht). destruct knows_a; simpl; set_solver.
  - rewrite bool_decide_eq_false_2 by (intros Hc; apply Ht in Hc; done). destruct knows_a; simpl; set_solver.
Qed.


Context `{!Aead CipherKey} `{!AeadLaws CipherKey}.

(** C26 An honest handshake yields a working channel: both sides hold the same
    session in opposite roles, each knows the other by its contact id exactly if
    it has the other's keys, their views of who knows whom are dual, and what
    either side encrypts afterwards the other decrypts, in any order within the
    replay window. *)
Theorem handshake_yields_channel w a b ka kb knows_a knows_b target secrets w1 req w2 sr msg w3 resp w4 :
  keys_match ka -> keys_match kb ->
  initiator_secrets_new w = (Ok secrets, w1) ->
  request_sign (request_new (is_public secrets) target) (keys_private ka) a = Some req ->
  to_session_and_response req (known knows_a a ka) w2 = (Ok (sr, msg), w3) ->
  response_sign msg (keys_private kb) b knows_a = Some resp ->
  exists si w5, creation_to_session (is_private secrets) resp (snd <$> known knows_b b kb) w4 = (Ok si, Ok si, w5) /\
    session_eqb si sr = true /\
    get_contact_id (authentication_type sr) = (if knows_a then Some a else None) /\
    get_contact_id (authentication_type si) = (if knows_b then Some b else None) /\
    ((is_Some target <-> knows_b = true) -> dual_authentication (authentication_type si) (authentication_type sr) a b) /\
    forall (P : Type) `(HP : BincodeLaws P) (ps : list P) es ds (order : list nat) (from_initiator : bool),
      encrypt_all (session_dencryptor_state (if from_initiator then si else sr)) ps = (Ok <$> es, ds) ->
      length es = length ps -> Forall (fun i => (i < length ps)%nat) order -> reordered_within 100 (Z.of_nat <$> order) ->
      exists d', decrypt_all (session_dencryptor_state (if from_initiator then sr else si)) (omap (fun i => es !! i) order) =
        Ret (Ok <$> omap (fun i => ps !! i) order, d').
Proof.
  intros Ha Hb Hs Hreq Hr Hresp.
  destruct (handshake_agrees w a b ka kb knows_a knows_b target secrets w1 req w2 Ha Hb Hs Hreq)
    as [(e & w' & E)|(sr' & msg' & w' & E & Hcr & Hi)]; rewrite Hr in E; [done|injection E as <- <- <-].
  destruct (Hi resp w4 Hresp) as (si & w5 & E & Hci & Heq & Hd & key & Ki & Kr).
  exists si, w5. split_and!; try done.
  intros P B HP ps es ds order [] He Hl Ho Hre; rewrite ?Ki, ?Kr in *.
  - by apply (channel_roundtrip key true ps es ds order).
  - by apply (channel_roundtrip key false ps es ds order).
Qed.

End Honest.

(** ** Impersonation *)

(** The arrays of the messages have their sizes. *)
Definition wf_request {W} `{!Primitives W} (r : SessionInitiationRequest) : Prop :=
  length (iu_x25519 (session_initiator_public_keys r)) = 32%nat /\
  length (iu_kyber (session_initiator_public_keys r)) = kyber_public_bytes.

Definition wf_response {W} `{!Primitives W} (m : KeyExchangeResponseMessage) : Prop :=
  length (rm_x25519_public m) = 32%nat /\ length (kyber_ciphertext m) = kyber_ciphertext_bytes.

Section Impersonation.
Context {W : Type} `{!Primitives W} `{!PrimitivesLaws W}.

Lemma request_get_vec_inj r1 r2 :
  wf_request r1 -> wf_request r2 -> request_get_vec r1 = request_get_vec r2 -> r1 = r2.
Proof.
  destruct r1 as [[x1 k1] b1], r2 as [[x2 k2] b2]. unfold wf_request, request_get_vec, public_get_vec; simpl.
  intros [H1 H2] [H3 H4] E. apply app_inj_2 in E as [E Eb]; [|done]. apply app_inj_1 in E as [-> ->]; [|congruence].
  by destruct b1, b2.
Qed.

Lemma response_get_vec_inj m1 m2 :
  wf_response m1 -> wf_response m2 -> response_get_vec m1 = response_get_vec m2 -> m1 = m2.
Proof.
  destruct m1 as [c1 x1], m2 as [c2 x2]. unfold wf_response, response_get_vec; simpl.
  intros [H1 H2] [H3 H4] E. by apply app_inj_1 in E as [-> ->]; [|congruence].
Qed.

(** What is signed in a request is never what is signed in a response. *)
Lemma request_is_no_response r m : wf_request r -> wf_response m -> request_get_vec r <> response_get_vec m.
Proof.
  intros [H1 H2] [H3 H4] E. apply (f_equal length) in E. unfold request_get_vec, public_get_vec, response_get_vec in E.
  rewrite !length_app, H1, H2, H3, H4 in E. simpl in E. pose proof kyber_sizes. lia.
Qed.

Lemma verified_request req public :
  verify_initiator_signature req public = Ok tt ->
  dilithium_verify (pub_dilithium public) (request_get_vec (wq_message req)) (wq_dilithium_signature req) = true /\
  ed25519_verify_strict (pub_ed25519 public) (request_get_vec (wq_message req)) (wq_ed25519_signature req) = true.
Proof. unfold verify_initiator_signature. by destruct (dilithium_verify _ _ _), (ed25519_verify_strict _ _ _). Qed.

Lemma verified_response resp public m :
  unpack_verified resp public = Ok m -> m = wr_message resp /\
  dilithium_verify (pub_dilithium public) (response_get_vec (wr_message resp)) (wr_dilithium_signature resp) = true /\
  ed25519_verify_strict (pub_ed25519 public) (response_get_vec (wr_message resp)) (wr_ed25519_signature resp) = true.
Proof. unfold unpack_verified. destruct (dilithium_verify _ _ _), (ed25519_verify_strict _ _ _); try done. by intros [= <-]. Qed.

(** The signatures that others than the contact can put on the wire, and what
    unforgeability means for them: both verify on a message only if the contact
    signed that message, as initiator or as responder. *)
Definition unforgeable (public : ContactPublicKeys) (available1 : DilithiumSignature -> Prop)
    (available2 : Ed25519Signature -> Prop) (signed : list bytes) : Prop :=
  forall m s1 s2, available1 s1 -> available2 s2 ->
    dilithium_verify (pub_dilithium public) m s1 = true -> ed25519_verify_strict (pub_ed25519 public) m s2 = true -> m ∈ signed.

(** Whose id a session carries, and whose signatures were verified for it. *)
Lemma request_session req contact w s msg w' :
  to_session_and_response req contact w = (Ok (s, msg), w') ->
  get_contact_id (authentication_type s) = fst <$> contact /\
  forall c public, contact = Some (c, public) -> verify_initiator_signature req public = Ok tt.
Proof.
  unfold to_session_and_response. intros E. split.
  - revert E. destruct contact as [[c public]|]; [destruct (verify_initiator_signature _ _) as [[]|e]; [|done]|];
      (destruct (to_shared_secrets_and_response _ w) as [[[ss m]|e] w1]; [|done]);
      unfold session_new; destruct (system_now w1) as [t w2]; intros [= <- <- <-]; simpl; by case_goal.
  - intros c public ->. by destruct (verify_initiator_signature _ _) as [[]|e].
Qed.

Lemma response_session secrets resp keys w s bc w' :
  creation_to_session secrets resp keys w = (Ok s, bc, w') ->
  get_contact_id (authentication_type s) = (fun _ => wr_sender resp) <$> keys /\
  forall public, keys = Some public -> exists m, unpack_verified resp public = Ok m.
Proof.
  unfold creation_to_session. intros E. split.
  - revert E. destruct keys as [public|]; [destruct (unpack_verified _ _) as [m|e]; [|done]|]; simpl;
      (destruct (to_shared_secrets _ _) as [ss|e]; [|done]);
      unfold session_new; destruct (system_now w) as [t w2]; intros [= <- <- <-]; simpl; by case_goal.
  - intros public ->. destruct (unpack_verified _ _) as [m|e]; [eauto|done].
Qed.

Section Signed.
Context (public : ContactPublicKeys) (available1 : DilithiumSignature -> Prop) (available2 : Ed25519Signature -> Prop).
Context (requests : list SessionInitiationRequest) (responses : list KeyExchangeResponseMessage).
Context (requests_wf : Forall wf_request requests) (responses_wf : Forall wf_response responses).
Context (unforged : unforgeable public available1 available2 ((request_get_vec <$> requests) ++ (response_get_vec <$> responses))).

(** A verified request was signed as a request, a verified response as a response: a
    signature cannot be moved from one role to the other. *)
Lemma signed_request req :
  wf_request (wq_message req) -> available1 (wq_dilithium_signature req) -> available2 (wq_ed25519_signature req) ->
  verify_initiator_signature req public = Ok tt -> wq_message req ∈ requests.
Proof.
  intros Hwf Ha1 Ha2 [H1 H2]%verified_request. pose proof (unforged _ _ _ Ha1 Ha2 H1 H2) as Hin.
  pose proof requests_wf as Hq. rewrite Forall_forall in Hq. pose proof responses_wf as Hr. rewrite Forall_forall in Hr.
  apply elem_of_app in Hin as [(r & Er & Hin)%list_elem_of_fmap|(r & Er & Hin)%list_elem_of_fmap].
  - apply request_get_vec_inj in Er; [|auto..]. by subst.
  - by apply request_is_no_response in Er; auto.
Qed.

Lemma signed_response resp m :
  wf_response (wr_message resp) -> available1 (wr_dilithium_signature resp) -> available2 (wr_ed25519_signature resp) ->
  unpack_verified resp public = Ok m -> wr_message resp ∈ responses.
Proof.
  intros Hwf Ha1 Ha2 (-> & H1 & H2)%verified_response. pose proof (unforged _ _ _ Ha1 Ha2 H1 H2) as Hin.
  pose proof requests_wf as Hq. rewrite Forall_forall in Hq. pose proof responses_wf as Hr. rewrite Forall_forall in Hr.
  apply elem_of_app in Hin as [(r & Er & Hin)%list_elem_of_fmap|(r & Er & Hin)%list_elem_of_fmap].
  - symmetry in Er. by apply request_is_no_response in Er; auto.
  - apply response_get_vec_inj in Er; [|auto..]. by subst.
Qed.
End Signed.

End Impersonation.

(** ** Stored keys

    The database keeps the keys of contacts as bytes: ed25519 keys as they are
    (ed25519-dalek, the class [KeyBytes]), dilithium keys in bincode. *)

Class KeyBytes (W : Type) `{!Primitives W} := {
  ed25519_public_as_bytes : Ed25519Public -> bytes;
  ed25519_public_from_bytes : bytes -> option Ed25519Public;
  ed25519_private_as_bytes : Ed25519Secret -> bytes;
  ed25519_private_from_bytes : bytes -> Ed25519Secret;
}.

Class KeyBytesLaws (W : Type) `{!Primitives W} `{!KeyBytes W} := {
  ed25519_public_length k : length (ed25519_public_as_bytes k) = 32%nat;
  ed25519_public_bytes_roundtrip k : ed25519_public_from_bytes (ed25519_public_as_bytes k) = Some k;
  ed25519_private_length k : length (ed25519_private_as_bytes k) = 32%nat;
  ed25519_private_bytes_roundtrip k : ed25519_private_from_bytes (ed25519_private_as_bytes k) = k;
}.

Section StoredKeys.
Context {W : Type} `{!Primitives W} `{!KeyBytes W} `{!Bincode DilithiumPublic} `{!Bincode DilithiumSecret}.

Definition PUBLIC_KEY_LENGTH : nat := 32.

Inductive PublicEd25519DeserializationError :=
| PublicEd25519Length (got expected : nat)
| PublicEd25519Format.

Inductive PrivateEd25519DeserializationError := PrivateEd25519Length (got expected : nat).

Definition deserialize_ed25519_public_key (key : bytes) : result Ed25519Public PublicEd25519DeserializationError :=
  if negb (length key =? PUBLIC_KEY_LENGTH)%nat then Err (PublicEd25519Length (length key) PUBLIC_KEY_LENGTH)
  else match ed25519_public_from_bytes key with Some k => Ok k | None => Err PublicEd25519Format end.

(** The secret key has 32 bytes too. *)
Definition deserialize_ed25519_private_key (key : bytes) : result Ed25519Secret PrivateEd25519DeserializationError :=
  if negb (length key =? 32)%nat then Err (PrivateEd25519Length (length key) PUBLIC_KEY_LENGTH)
  else Ok (ed25519_private_from_bytes key).

Definition deserialize_dilithium_public_key (key : bytes) : option DilithiumPublic := fst <$> decode_from_slice key.
Definition deserialize_dilithium_private_key (key : bytes) : option DilithiumSecret := fst <$> decode_from_slice key.
Definition serialize_ed25519_public_key (key : Ed25519Public) : bytes := ed25519_public_as_bytes key.
Definition serialize_ed25519_private_key (key : Ed25519Secret) : bytes := ed25519_private_as_bytes key.
Definition serialize_dilithium_public_key (key : DilithiumPublic) : option bytes := encode_to_vec key.
Definition serialize_dilithium_private_key (key : DilithiumSecret) : option bytes := encode_to_vec key.

(** All four keys of a contact survive being stored, and a key of the wrong
    length is refused. *)
Lemma stored_keys_roundtrip `{!KeyBytesLaws W} `{!BincodeLaws DilithiumPublic} `{!BincodeLaws DilithiumSecret} (k : ContactKeys) pb sb :
  serialize_dilithium_public_key (pub_dilithium (keys_public k)) = Some pb ->
  serialize_dilithium_private_key (priv_dilithium (keys_private k)) = Some sb ->
  deserialize_dilithium_public_key pb = Some (pub_dilithium (keys_public k)) /\
  deserialize_dilithium_private_key sb = Some (priv_dilithium (keys_private k)) /\
  deserialize_ed25519_public_key (serialize_ed25519_public_key (pub_ed25519 (keys_public k))) = Ok (pub_ed25519 (keys_public k)) /\
  deserialize_ed25519_private_key (serialize_ed25519_private_key (priv_ed25519 (keys_private k))) = Ok (priv_ed25519 (keys_private k)) /\
  (forall b, length b <> PUBLIC_KEY_LENGTH ->
     is_ok (deserialize_ed25519_public_key b) = false /\ is_ok (deserialize_ed25519_private_key b) = false).
Proof.
  intros (n & Hp)%decode_encode (n' & Hs)%decode_encode.
  unfold deserialize_dilithium_public_key, deserialize_dilithium_private_key, deserialize_ed25519_public_key, deserialize_ed25519_private_key,
    serialize_ed25519_public_key, serialize_ed25519_private_key, PUBLIC_KEY_LENGTH.
  rewrite Hp, Hs, ed25519_public_length, ed25519_private_length, ed25519_public_bytes_roundtrip, ed25519_private_bytes_roundtrip.
  split_and!; try done. intros b Hb. apply Nat.eqb_neq in Hb as ->. done.
Qed.

End StoredKeys.

(** ** Primitives for the witnesses *)

Module ToyKeys.
Import Toy.

(** The state is a counter that provides randomness and the time; a signature is
    the key with the message; encapsulation adds the randomness to the key. *)
#[export] Instance toy_primitives : Primitives Z := {
  DilithiumSecret := Z; DilithiumPublic := Z; DilithiumSignature := Z * bytes;
  Ed25519Secret := Z; Ed25519Public := Z; Ed25519Signature := Z * bytes;
  X25519Secret := Z; KyberSecret := Z; KyberError := unit; CipherKey := Z;
  kyber_public_bytes := 1; kyber_ciphertext_bytes := 1;
  dilithium_keypair w := ((w, w), w + 1);
  ed25519_generate w := (w, w + 1);
  ed25519_verifying_key k := k;
  dilithium_sign k m := (k, m);
  dilithium_verify k m s := bool_decide (s = (k, m));
  ed25519_try_sign k m := Some (k, m);
  ed25519_verify_strict k m s := bool_decide (s = (k, m));
  kyber_keypair w := (Ok ([w], w), w + 1);
  kyber_encapsulate pk w := (match pk with k :: _ => Ok ([w], [k + w]) | [] => Err tt end, w + 1);
  kyber_decapsulate ct sk := match ct with c :: _ => Ok [sk + c] | [] => Err tt end;
  x25519_random w := (w, w + 1);
  x25519_public a := a :: replicate 31 0;
  diffie_hellman a p := match p with b :: _ => [a * b] | [] => [] end;
  hkdf_sha256 b := foldr Z.add 0 b;
  system_now w := (w, w);
}.

#[export] Instance toy_primitives_laws : PrimitivesLaws Z.
Proof.
  split; simpl; try done.
  - intros w pk sk w' m [= <- <- <-]. by apply bool_decide_eq_true.
  - intros sk m s [= <-]. by apply bool_decide_eq_true.
  - intros w pk sk w1 w2 ct ss w3 [= <- <- <-] [= <- <- <-]. done.
  - intros a b. f_equal. lia.
  - by intros w pk sk w' [= <- <- <-].
  - intros [|k pk] w ct ss w' E; [done|]. by injection E as <- <- <-.
Qed.

Definition toy_keys (k : Z) : ContactKeys := mk_contact_keys (mk_contact_private k k) (mk_contact_public k k).

Lemma toy_keys_match k : keys_match (toy_keys k).
Proof. split; simpl; [intros m; by apply bool_decide_eq_true|intros m s [= <-]; by apply bool_decide_eq_true]. Qed.

(** A handshake of the contacts ["alice"] and ["bob"]. *)
Definition demo_secrets : SessionInitiatorSecrets :=
  match (initiator_secrets_new 5).1 with Ok s => s | Err _ => mk_init_secrets (mk_init_private 0 0) (mk_init_public [] []) end.

Definition demo_request : SessionInitiationRequest := request_new (is_public demo_secrets) (Some "bob"%string).

Definition demo_wire : AuthWireRequest :=
  mk_wire_request "alice" demo_request (1, request_get_vec demo_request) (1, request_get_vec demo_request).

Definition demo_response : KeyExchangeResponseMessage := mk_response_message [8] (x25519_public 7).

End ToyKeys.
Import Toy ToyKeys.

Lemma handshake_yields_channel_witness :
  exists si w5, creation_to_session (is_private demo_secrets)
      (mk_wire_response "bob" demo_response true (2, response_get_vec demo_response) (2, response_get_vec demo_response))
      (Some (keys_public (toy_keys 2))) 20 = (Ok si, Ok si, w5) /\ get_contact_id (authentication_type si) = Some "bob"%string.
Proof.
  edestruct (handshake_yields_channel (Primitives0 := toy_primitives) (Aead0 := toy_aead) (AeadLaws0 := toy_aead_laws) 5 "alice" "bob" (toy_keys 1) (toy_keys 2)
    true true (Some "bob"%string) demo_secrets 7 demo_wire 7) as (si & w5 & E & _ & _ & Hc & _);
    [apply toy_keys_match|apply toy_keys_match|by vm_compute..|].
  exists si, w5. split; [exact E|exact Hc].
Defined.
