(* ===== verification/IdleExpiryMap.v ===== *)
(** * Map with idle expiry (p2p/src/data_structures/idle_expiry_map.rs)

    Entries expire after [idle_ttl] without access. Time is passed explicitly:
    every [Instant::now()] of the code is an argument. [on_expire] is a callback
    with effects only; the model records the values it is called with, in the
    order in which the hash map yields them ([map_to_list]). *)

From S2P Require Import Prelude.

(** [Instant::duration_since] saturates at zero. *)
Definition duration_since (now earlier : Z) : Z := Z.max 0 (now - earlier).

(** [struct TimedEntry] *)
Record TimedEntry (V : Type) := mk_timed { te_value : V; last_touched : Z }.
Arguments mk_timed {V}.
Arguments te_value {V}.
Arguments last_touched {V}.

Definition touch {V} (e : TimedEntry V) (now : Z) : TimedEntry V := mk_timed (te_value e) now.

Definition is_expired {V} (e : TimedEntry V) (idle_ttl now : Z) : bool :=
  idle_ttl <=? duration_since now (last_touched e).

(** [struct IdleExpiryMap]; [expired] is the log of [on_expire] calls. *)
Record IdleExpiryMap (K V : Type) `{Countable K} := mk_idle {
  entries : gmap K (TimedEntry V);
  idle_ttl : Z;
  cleanup_interval : Z;
  last_cleanup : Z;
  expired : list V;
}.
Arguments mk_idle {K V _ _}.
Arguments entries {K V _ _}.
Arguments idle_ttl {K V _ _}.
Arguments cleanup_interval {K V _ _}.
Arguments last_cleanup {K V _ _}.
Arguments expired {K V _ _}.

Section IdleMap.
Context {K V : Type} `{Countable K}.
Implicit Types (m : IdleExpiryMap K V) (k : K) (v : V) (now : Z).

Definition idle_new (ttl interval now : Z) : IdleExpiryMap K V := mk_idle ∅ ttl interval now [].

Definition with_entries m (es : gmap K (TimedEntry V)) : IdleExpiryMap K V :=
  mk_idle es (idle_ttl m) (cleanup_interval m) (last_cleanup m) (expired m).

Definition log_expired m (vs : list V) : IdleExpiryMap K V :=
  mk_idle (entries m) (idle_ttl m) (cleanup_interval m) (last_cleanup m) (expired m ++ vs).

(** The entries [extract_if] takes out, and the ones it leaves. *)
Definition extracted m now : gmap K (TimedEntry V) :=
  filter (fun ke => is_expired ke.2 (idle_ttl m) now = true) (entries m).
Definition retained m now : gmap K (TimedEntry V) :=
  filter (fun ke => is_expired ke.2 (idle_ttl m) now = false) (entries m).

Definition idle_cleanup_if_due m now : IdleExpiryMap K V :=
  if duration_since now (last_cleanup m) <? cleanup_interval m then m
  else mk_idle (retained m now) (idle_ttl m) (cleanup_interval m) now
         (expired m ++ (te_value ∘ snd <$> map_to_list (extracted m now))).

Definition idle_insert m k v now : option V * IdleExpiryMap K V :=
  let m := idle_cleanup_if_due m now in
  (te_value <$> entries m !! k, with_entries m (<[k := mk_timed v now]> (entries m))).

(** [get_mut]; the reference it returns is the new value of the map entry, which
    the caller may overwrite with [set]. *)
Definition idle_get_mut m k now : option V * IdleExpiryMap K V :=
  let m := idle_cleanup_if_due m now in
  match entries m !! k with
  | None => (None, m)
  | Some entry =>
      if is_expired entry (idle_ttl m) now then (None, m)
      else (Some (te_value entry), with_entries m (<[k := touch entry now]> (entries m)))
  end.

(** Write through a reference to the value of [k]. *)
Definition idle_set m k v : IdleExpiryMap K V :=
  with_entries m (alter (fun e => mk_timed v (last_touched e)) k (entries m)).

Definition idle_get m k now : option V * IdleExpiryMap K V := idle_get_mut m k now.

Definition idle_remove m k now : option V * IdleExpiryMap K V :=
  (match entries m !! k with
   | Some entry => if is_expired entry (idle_ttl m) now then None else Some (te_value entry)
   | None => None
   end, with_entries m (delete k (entries m))).

Definition idle_clear m now : IdleExpiryMap K V :=
  mk_idle ∅ (idle_ttl m) (cleanup_interval m) now (expired m).

(** [enum IdleEntry]: a handle to the slot of [k]; its timeout and callback are
    those of the map. *)
Inductive IdleEntry := Occupied | Vacant.

Definition idle_entry m k now : IdleEntry * IdleExpiryMap K V :=
  let m := idle_cleanup_if_due m now in
  match entries m !! k with
  | None => (Vacant, m)
  | Some e =>
      if is_expired e (idle_ttl m) now
      then (Vacant, log_expired (with_entries m (delete k (entries m))) [te_value e])
      else (Occupied, m)
  end.

(** [OccupiedIdleEntry::get], [get_mut] *)
Definition occupied_get_mut m k now : option V * IdleExpiryMap K V :=
  match entries m !! k with
  | Some e =>
      if duration_since now (last_touched e) <? idle_ttl m
      then (Some (te_value e), with_entries m (<[k := touch e now]> (entries m)))
      else (None, m)
  | None => (None, m)
  end.

(** [OccupiedIdleEntry::into_mut] *)
Definition occupied_into_mut m k now : option V * IdleExpiryMap K V :=
  match entries m !! k with
  | Some e =>
      if duration_since now (last_touched e) <? idle_ttl m
      then (Some (te_value e), with_entries m (<[k := touch e now]> (entries m)))
      else (None, log_expired (with_entries m (delete k (entries m))) [te_value e])
  | None => (None, m)
  end.

(** [OccupiedIdleEntry::into_mut_or_insert] *)
Definition occupied_into_mut_or_insert m k (default : V) now : V * IdleExpiryMap K V :=
  match entries m !! k with
  | Some e =>
      if duration_since now (last_touched e) <? idle_ttl m
      then (te_value e, with_entries m (<[k := touch e now]> (entries m)))
      else (default, log_expired (with_entries m (<[k := mk_timed default now]> (entries m))) [te_value e])
  | None => (default, with_entries m (<[k := mk_timed default now]> (entries m)))
  end.

(** [OccupiedIdleEntry::insert] and [VacantIdleEntry::insert] *)
Definition entry_put m k v now : IdleExpiryMap K V :=
  with_entries m (<[k := mk_timed v now]> (entries m)).

(** [OccupiedIdleEntry::remove] *)
Definition occupied_remove m k : option V * IdleExpiryMap K V :=
  (te_value <$> entries m !! k, with_entries m (delete k (entries m))).

(** [OccupiedIdleEntry::destruct] *)
Definition occupied_destruct m k : IdleExpiryMap K V :=
  log_expired (with_entries m (delete k (entries m)))
    (match entries m !! k with Some e => [te_value e] | None => [] end).

(** [IdleEntry::insert] *)
Definition entry_insert (h : IdleEntry) m k v now : option V * IdleExpiryMap K V :=
  match h with
  | Occupied => (te_value <$> entries m !! k, entry_put m k v now)
  | Vacant => (None, entry_put m k v now)
  end.

(** [IdleEntry::or_insert] and [or_insert_with] *)
Definition entry_or_insert (h : IdleEntry) m k (default : V) now : V * IdleExpiryMap K V :=
  match h with
  | Occupied => occupied_into_mut_or_insert m k default now
  | Vacant => (default, entry_put m k default now)
  end.

(** [IdleEntry::and_modify] *)
Definition entry_and_modify (h : IdleEntry) m k (f : V -> V) now : IdleEntry * IdleExpiryMap K V :=
  match h with
  | Occupied =>
      match occupied_get_mut m k now with
      | (Some v, m) => (Occupied, idle_set m k (f v))
      | (None, m) => (Vacant, with_entries m (delete k (entries m)))
      end
  | Vacant => (Vacant, m)
  end.

End IdleMap.

(** ** The map of live entries *)

Section IdleView.
Context {K V : Type} `{Countable K}.
Implicit Types (m : IdleExpiryMap K V) (k : K) (v : V) (now : Z).

(** What the map stands for at time [now]: the entries not yet expired. *)
Definition idle_view m now : gmap K V := te_value <$> retained m now.

Lemma idle_view_lookup m now k :
  idle_view m now !! k =
    match entries m !! k with
    | Some e => if is_expired e (idle_ttl m) now then None else Some (te_value e)
    | None => None
    end.
Proof.
  unfold idle_view, retained. rewrite lookup_fmap, map_lookup_filter.
  destruct (entries m !! k) as [e|]; [|done]. simpl.
  destruct (is_expired e (idle_ttl m) now); [by rewrite option_guard_False|by rewrite option_guard_True].
Qed.

Lemma idle_cleanup_lookup m now k :
  entries (idle_cleanup_if_due m now) !! k =
    if duration_since now (last_cleanup m) <? cleanup_interval m then entries m !! k
    else match entries m !! k with
         | Some e => if is_expired e (idle_ttl m) now then None else Some e
         | None => None
         end.
Proof.
  unfold idle_cleanup_if_due. destruct (_ <? _); [done|]. cbn [entries]. unfold retained.
  rewrite map_lookup_filter. destruct (entries m !! k) as [e|]; [|done]. simpl.
  destruct (is_expired e (idle_ttl m) now); [by rewrite option_guard_False|by rewrite option_guard_True].
Qed.

Lemma idle_cleanup_ttl m now : idle_ttl (idle_cleanup_if_due m now) = idle_ttl m.
Proof. unfold idle_cleanup_if_due. by destruct (_ <? _). Qed.

(** Cleanup removes nothing that is alive. *)
Lemma idle_cleanup_view m now : idle_view (idle_cleanup_if_due m now) now = idle_view m now.
Proof.
  apply map_eq. intros k. rewrite !idle_view_lookup, idle_cleanup_lookup, idle_cleanup_ttl.
  destruct (_ <? _); [done|]. destruct (entries m !! k) as [e|]; [|done].
  destruct (is_expired e (idle_ttl m) now) eqn:E; by rewrite ?E.
Qed.

Lemma fresh_not_expired v ttl now : 0 < ttl -> is_expired (mk_timed v now) ttl now = false.
Proof. intros. unfold is_expired, duration_since. simpl. apply Z.leb_gt. lia. Qed.

Lemma occupied_test {A} (e : TimedEntry A) ttl now :
  (duration_since now (last_touched e) <? ttl) = negb (is_expired e ttl now).
Proof. unfold is_expired. by rewrite Z.ltb_antisym. Qed.

(** Storing an entry touched at [now] puts its value into the view. *)
Lemma view_put m now k v :
  0 < idle_ttl m ->
  idle_view (with_entries m (<[k := mk_timed v now]> (entries m))) now = <[k := v]> (idle_view m now).
Proof.
  intros. apply map_eq. intros j. rewrite idle_view_lookup. cbn [entries with_entries idle_ttl].
  destruct (decide (k = j)) as [<-|].
  - rewrite !lookup_insert_eq. by rewrite fresh_not_expired.
  - rewrite !lookup_insert_ne by done. by rewrite idle_view_lookup.
Qed.

Lemma view_delete m now k :
  idle_view (with_entries m (delete k (entries m))) now = delete k (idle_view m now).
Proof.
  apply map_eq. intros j. rewrite idle_view_lookup. cbn [entries with_entries idle_ttl].
  destruct (decide (k = j)) as [<-|]; [by rewrite !lookup_delete_eq|].
  rewrite !lookup_delete_ne by done. by rewrite idle_view_lookup.
Qed.

Lemma view_log m vs now : idle_view (log_expired m vs) now = idle_view m now.
Proof. done. Qed.

(** Touching a live entry does not change the view. *)
Lemma view_touch m now k e :
  0 < idle_ttl m -> entries m !! k = Some e -> is_expired e (idle_ttl m) now = false ->
  idle_view (with_entries m (<[k := touch e now]> (entries m))) now = idle_view m now.
Proof.
  intros Httl Hk He. unfold touch. rewrite view_put by done. apply insert_id.
  by rewrite idle_view_lookup, Hk, He.
Qed.

(** All values the map holds or has handed to [on_expire]. *)
Definition idle_values m : list V := (te_value ∘ snd <$> map_to_list (entries m)) ++ expired m.

(** [get] and [entry] agree with lookup in the view and leave it unchanged. *)
Lemma get_mut_view m k now :
  0 < idle_ttl m ->
  (idle_get_mut m k now).1 = idle_view m now !! k /\
  idle_view (idle_get_mut m k now).2 now = idle_view m now.
Proof.
  intros Httl. rewrite <- (idle_cleanup_view m now). unfold idle_get_mut.
  rewrite <- (idle_cleanup_ttl m now) in Httl. set (m' := idle_cleanup_if_due m now) in *.
  rewrite idle_view_lookup. destruct (entries m' !! k) as [e|] eqn:E; [|done].
  destruct (is_expired e (idle_ttl m') now) eqn:He; [done|]. split; [done|]. cbn [snd]. by apply view_touch.
Qed.

Lemma entry_view m k now :
  (idle_entry m k now).1 = (match idle_view m now !! k with Some _ => Occupied | None => Vacant end) /\
  idle_view (idle_entry m k now).2 now = idle_view m now /\
  (idle_view m now !! k = None -> entries (idle_entry m k now).2 !! k = None).
Proof.
  rewrite <- (idle_cleanup_view m now). unfold idle_entry. set (m' := idle_cleanup_if_due m now) in *.
  rewrite idle_view_lookup. destruct (entries m' !! k) as [e|] eqn:E; [|done].
  destruct (is_expired e (idle_ttl m') now) eqn:He; [|done]. split; [done|]. cbn [snd].
  rewrite view_log, view_delete. split; [|intros _; apply lookup_delete_eq].
  apply delete_id. by rewrite idle_view_lookup, E, He.
Qed.

Lemma remove_view m k now :
  (idle_remove m k now).1 = idle_view m now !! k /\
  idle_view (idle_remove m k now).2 now = delete k (idle_view m now).
Proof. split; [by rewrite idle_view_lookup|apply view_delete]. Qed.

Lemma insert_view m k v now :
  0 < idle_ttl m -> idle_view (idle_insert m k v now).2 now = <[k := v]> (idle_view m now).
Proof.
  intros. unfold idle_insert. cbn [snd]. rewrite view_put by (by rewrite idle_cleanup_ttl).
  by rewrite idle_cleanup_view.
Qed.

(** Extracting splits the entries. *)
Lemma extract_split m now :
  map_to_list (entries m) ≡ₚ map_to_list (retained m now) ++ map_to_list (extracted m now).
Proof.
  apply NoDup_Permutation; [apply NoDup_map_to_list| |].
  - apply NoDup_app. repeat split; try apply NoDup_map_to_list. intros [k e].
    rewrite !elem_of_map_to_list. unfold retained, extracted. rewrite !map_lookup_filter_Some. simpl.
    intros [_ H1] [_ H2]. congruence.
  - intros [k e]. rewrite elem_of_app, !elem_of_map_to_list. unfold retained, extracted.
    rewrite !map_lookup_filter_Some. simpl. destruct (is_expired e (idle_ttl m) now); intuition congruence.
Qed.

Lemma cleanup_values m now : idle_values (idle_cleanup_if_due m now) ≡ₚ idle_values m.
Proof.
  unfold idle_cleanup_if_due, idle_values. destruct (_ <? _); [done|]. cbn [entries expired].
  rewrite (extract_split m now), fmap_app. solve_Permutation.
Qed.

Lemma log_values m vs : idle_values (log_expired m vs) = idle_values m ++ vs.
Proof. unfold idle_values, log_expired. simpl. by rewrite app_assoc. Qed.

Lemma delete_values m k e :
  entries m !! k = Some e ->
  te_value e :: idle_values (with_entries m (delete k (entries m))) ≡ₚ idle_values m.
Proof.
  intros Hk. unfold idle_values. cbn [entries with_entries expired].
  rewrite <- (map_to_list_delete (entries m) k e Hk). done.
Qed.

Lemma log_delete_values m k e :
  entries m !! k = Some e ->
  idle_values (log_expired (with_entries m (delete k (entries m))) [te_value e]) ≡ₚ idle_values m.
Proof. intros Hk. rewrite log_values, <- (delete_values m k e Hk). symmetry. apply Permutation_cons_append. Qed.

Lemma put_values m k v now :
  idle_values (with_entries m (<[k := mk_timed v now]> (entries m))) ≡ₚ
  v :: idle_values (with_entries m (delete k (entries m))).
Proof.
  unfold idle_values. cbn [entries with_entries expired].
  rewrite <- insert_delete_eq, map_to_list_insert by apply lookup_delete_eq. done.
Qed.

Lemma touch_values m k e now :
  entries m !! k = Some e -> idle_values (with_entries m (<[k := touch e now]> (entries m))) ≡ₚ idle_values m.
Proof. intros Hk. unfold touch. rewrite put_values. by apply delete_values. Qed.

End IdleView.

(** ** Reference semantics: expiry by timestamps alone, without cleanup *)

Section IdleSpec.
Context {K V : Type} `{Countable K}.
Implicit Types (m : IdleExpiryMap K V) (k : K) (v : V) (now t ttl : Z) (s : gmap K (TimedEntry V)).

(** The calls of the map. [OrInsert] obtains a handle with [entry] and uses it at
    the time [later]. *)
Inductive idle_op :=
| OpInsert k v
| OpGet k
| OpRemove k
| OpOrInsert k v (later : Z)
| OpClear.

(** The time at which a call that starts at [now] has read its last clock. *)
Definition op_end now (op : idle_op) : Z :=
  match op with OpOrInsert _ _ later => later | _ => now end.

Fixpoint clock_monotone t (ops : list (Z * idle_op)) : Prop :=
  match ops with
  | [] => True
  | (now, op) :: ops => t <= now /\ now <= op_end now op /\ clock_monotone (op_end now op) ops
  end.

Definition idle_step m now (op : idle_op) : option V * IdleExpiryMap K V :=
  match op with
  | OpInsert k v => idle_insert m k v now
  | OpGet k => idle_get m k now
  | OpRemove k => idle_remove m k now
  | OpOrInsert k v later =>
      let (h, m) := idle_entry m k now in
      let (r, m) := entry_or_insert h m k v later in (Some r, m)
  | OpClear => (None, idle_clear m now)
  end.

Fixpoint idle_run m (ops : list (Z * idle_op)) : list (option V) :=
  match ops with
  | [] => []
  | (now, op) :: ops => let (r, m) := idle_step m now op in r :: idle_run m ops
  end.

Definition live ttl now s : gmap K (TimedEntry V) :=
  filter (fun ke => is_expired ke.2 ttl now = false) s.

(** The reference never removes an expired entry, it only ignores it. The answer is
    what timestamps say. *)
Definition spec_step ttl s now (op : idle_op) : option V * gmap K (TimedEntry V) :=
  match op with
  | OpInsert k v => (te_value <$> live ttl now s !! k, <[k := mk_timed v now]> s)
  | OpGet k =>
      match live ttl now s !! k with
      | Some e => (Some (te_value e), <[k := touch e now]> s)
      | None => (None, s)
      end
  | OpRemove k => (te_value <$> live ttl now s !! k, delete k s)
  | OpOrInsert k v later =>
      match live ttl later s !! k with
      | Some e => (Some (te_value e), <[k := touch e later]> s)
      | None => (Some v, <[k := mk_timed v later]> s)
      end
  | OpClear => (None, ∅)
  end.

(** [insert] may also return the old value of an entry that has expired. *)
Definition may_answer ttl s now (op : idle_op) (r : option V) : Prop :=
  r = (spec_step ttl s now op).1 \/
  match op with OpInsert k _ => r = te_value <$> s !! k | _ => False end.

Fixpoint spec_run ttl s (ops : list (Z * idle_op)) (answers : list (option V)) : Prop :=
  match ops, answers with
  | [], [] => True
  | (now, op) :: ops, r :: answers => may_answer ttl s now op r /\ spec_run ttl (spec_step ttl s now op).2 ops answers
  | _, _ => False
  end.

Lemma live_lookup ttl now s k :
  live ttl now s !! k =
    match s !! k with
    | Some e => if is_expired e ttl now then None else Some e
    | None => None
    end.
Proof.
  unfold live. rewrite map_lookup_filter. destruct (s !! k) as [e|]; [|done]. simpl.
  destruct (is_expired e ttl now); [by rewrite option_guard_False|by rewrite option_guard_True].
Qed.

Lemma is_expired_mono {A} (e : TimedEntry A) ttl t now :
  t <= now -> is_expired e ttl t = true -> is_expired e ttl now = true.
Proof. unfold is_expired, duration_since. intros ? E. bools. apply Z.leb_le. lia. Qed.

Lemma live_live ttl t now s : t <= now -> live ttl now (live ttl t s) = live ttl now s.
Proof.
  intros Hle. apply map_eq. intros k. rewrite !live_lookup. destruct (s !! k) as [e|]; [|done].
  destruct (is_expired e ttl t) eqn:E; [|done]. by rewrite (is_expired_mono e ttl t now).
Qed.

Lemma live_later ttl t now s1 s2 :
  t <= now -> live ttl t s1 = live ttl t s2 -> live ttl now s1 = live ttl now s2.
Proof. intros Hle E. rewrite <- (live_live ttl t now s1), <- (live_live ttl t now s2), E; done. Qed.

Lemma live_insert_congr ttl now s1 s2 k e :
  live ttl now s1 = live ttl now s2 -> live ttl now (<[k := e]> s1) = live ttl now (<[k := e]> s2).
Proof.
  intros E. apply map_eq. intros j. rewrite !live_lookup. destruct (decide (k = j)) as [<-|].
  - by rewrite !lookup_insert_eq.
  - rewrite !lookup_insert_ne by done. by rewrite <- !live_lookup, E.
Qed.

Lemma live_delete_congr ttl now s1 s2 k :
  live ttl now s1 = live ttl now s2 -> live ttl now (delete k s1) = live ttl now (delete k s2).
Proof.
  intros E. apply map_eq. intros j. rewrite !live_lookup. destruct (decide (k = j)) as [<-|].
  - by rewrite !lookup_delete_eq.
  - rewrite !lookup_delete_ne by done. by rewrite <- !live_lookup, E.
Qed.

Lemma live_delete_expired ttl now s k :
  live ttl now s !! k = None -> live ttl now (delete k s) = live ttl now s.
Proof.
  intros E. apply map_eq. intros j. rewrite !live_lookup. destruct (decide (k = j)) as [<-|].
  - by rewrite lookup_delete_eq, <- live_lookup, E.
  - by rewrite lookup_delete_ne.
Qed.

Lemma live_cleanup m now : live (idle_ttl m) now (entries (idle_cleanup_if_due m now)) = live (idle_ttl m) now (entries m).
Proof. unfold idle_cleanup_if_due. destruct (_ <? _); [done|]. by apply live_live. Qed.

(** The map and the reference agree on what is alive at [t], and the map holds
    nothing else than the reference. *)
Definition idle_sim t m s : Prop := live (idle_ttl m) t (entries m) = live (idle_ttl m) t s /\ entries m ⊆ s.

Lemma retained_subseteq m now : retained m now ⊆ entries m.
Proof. apply map_filter_subseteq. Qed.

Lemma idle_sim_later t now m s : t <= now -> idle_sim t m s -> idle_sim now m s.
Proof. intros Hle [HS Hsub]. split; [by apply (live_later _ t)|done]. Qed.

Lemma idle_sim_cleanup t now m s :
  t <= now -> idle_sim t m s -> idle_sim now (idle_cleanup_if_due m now) s.
Proof.
  intros Hle [HS Hsub]. split.
  - rewrite idle_cleanup_ttl, live_cleanup. by apply (live_later _ t).
  - unfold idle_cleanup_if_due. destruct (_ <? _); [done|]. cbn. etrans; [apply retained_subseteq|done].
Qed.

Lemma idle_sim_insert now m s k e : idle_sim now m s -> idle_sim now (with_entries m (<[k := e]> (entries m))) (<[k := e]> s).
Proof. intros [HS Hsub]. split; cbn; [by apply live_insert_congr|by apply insert_mono]. Qed.

Lemma idle_sim_delete now m s k : idle_sim now m s -> idle_sim now (with_entries m (delete k (entries m))) (delete k s).
Proof. intros [HS Hsub]. split; cbn; [by apply live_delete_congr|by apply delete_mono]. Qed.

Lemma idle_sim_get m s k now :
  idle_sim now m s ->
  match entries m !! k with
  | Some e => if is_expired e (idle_ttl m) now then None else Some e
  | None => None
  end = live (idle_ttl m) now s !! k.
Proof. intros [<- _]. by rewrite live_lookup. Qed.

Lemma get_step_sim t now m s k :
  t <= now -> idle_sim t m s ->
  (idle_get_mut m k now).1 = (spec_step (idle_ttl m) s now (OpGet k)).1 /\
  idle_sim now (idle_get_mut m k now).2 (spec_step (idle_ttl m) s now (OpGet k)).2.
Proof.
  intros Hle HS. apply (idle_sim_cleanup t now) in HS; [|done]. unfold idle_get_mut, spec_step.
  rewrite <- (idle_cleanup_ttl m now). set (m' := idle_cleanup_if_due m now) in *.
  rewrite <- (idle_sim_get m' s k now) by done. destruct (entries m' !! k) as [e|]; [|done].
  destruct (is_expired _ _ _); [done|]. split; [done|]. by apply idle_sim_insert.
Qed.

Lemma entry_step_sim t now m s k :
  t <= now -> idle_sim t m s ->
  idle_sim now (idle_entry m k now).2 s /\ idle_ttl (idle_entry m k now).2 = idle_ttl m /\
  ((idle_entry m k now).1 = Vacant -> live (idle_ttl m) now s !! k = None) /\
  ((idle_entry m k now).1 = Occupied -> is_Some (entries (idle_entry m k now).2 !! k)).
Proof.
  intros Hle HS. apply (idle_sim_cleanup t now) in HS; [|done]. unfold idle_entry.
  rewrite <- (idle_cleanup_ttl m now). set (m' := idle_cleanup_if_due m now) in *.
  rewrite <- (idle_sim_get m' s k now) by done. destruct (entries m' !! k) as [e|] eqn:E; [|done].
  destruct (is_expired _ _ _) eqn:Ee; simpl; [|by rewrite E].
  destruct HS as [HS Hsub]. split_and!; try done. split; cbn.
  - rewrite live_delete_expired; [done|]. by rewrite live_lookup, E, Ee.
  - etrans; [apply delete_subseteq|done].
Qed.

Lemma or_insert_step_sim t now m s k v later :
  t <= now -> now <= later -> idle_sim t m s ->
  let r := idle_step m now (OpOrInsert k v later) in
  let r' := spec_step (idle_ttl m) s now (OpOrInsert k v later) in
  r.1 = r'.1 /\ idle_sim later r.2 r'.2 /\ idle_ttl r.2 = idle_ttl m.
Proof.
  intros H1 H2 HS. destruct (entry_step_sim t now m s k H1 HS) as (HS' & Httl & Hv & Ho).
  unfold idle_step. destruct (idle_entry m k now) as [h m']. cbn [fst snd] in *.
  apply (idle_sim_later now later) in HS'; [|done]. rewrite <- Httl in *.
  cbn zeta. destruct h; simpl.
  - destruct Ho as [e He]; [done|]. unfold occupied_into_mut_or_insert.
    rewrite <- (idle_sim_get m' s k later), He, occupied_test by done.
    destruct (is_expired e (idle_ttl m') later); simpl; (split; [done|split; [|done]]); by apply idle_sim_insert.
  - rewrite <- (live_live _ now later), live_lookup, Hv by done. simpl.
    split; [done|split; [|done]]. by apply idle_sim_insert.
Qed.

Lemma insert_step_sim t now m s k v :
  t <= now -> idle_sim t m s ->
  may_answer (idle_ttl m) s now (OpInsert k v) (idle_insert m k v now).1 /\
  idle_sim now (idle_insert m k v now).2 (<[k := mk_timed v now]> s).
Proof.
  intros Hle HS. apply (idle_sim_cleanup t now) in HS; [|done]. unfold idle_insert, may_answer. cbn [fst snd spec_step].
  rewrite <- (idle_cleanup_ttl m now). set (m' := idle_cleanup_if_due m now) in *. split; [|by apply idle_sim_insert].
  rewrite <- (idle_sim_get m' s k now) by done. destruct HS as [_ Hsub].
  destruct (entries m' !! k) as [e|] eqn:E; [|by left]. right. by rewrite (lookup_weaken _ _ _ _ E Hsub).
Qed.

Lemma idle_step_sim t now m s op :
  t <= now -> now <= op_end now op -> idle_sim t m s ->
  let r := idle_step m now op in
  may_answer (idle_ttl m) s now op r.1 /\ idle_sim (op_end now op) r.2 (spec_step (idle_ttl m) s now op).2 /\ idle_ttl r.2 = idle_ttl m.
Proof.
  intros H1 H2 HS. destruct op as [k v|k|k|k v later|]; cbn zeta.
  - destruct (insert_step_sim t now m s k v H1 HS) as [Ha HS']. split_and!; [done..|]. apply idle_cleanup_ttl.
  - destruct (get_step_sim t now m s k H1 HS) as [? ?]. split_and!; [by left|done|]. simpl. unfold idle_get, idle_get_mut.
    repeat case_goal; cbn [snd with_entries idle_ttl]; apply idle_cleanup_ttl.
  - apply (idle_sim_later t now) in HS; [|done]. split_and!; [|by apply idle_sim_delete|done]. left. simpl.
    rewrite <- (proj1 HS), live_lookup. repeat case_goal; done.
  - destruct (or_insert_step_sim t now m s k v later H1 H2 HS) as (Ha & HS' & Httl). split_and!; [by left|done..].
  - split_and!; [by left|done..].
Qed.

Lemma idle_run_sim ops : forall t m s,
  clock_monotone t ops -> idle_sim t m s -> spec_run (idle_ttl m) s ops (idle_run m ops).
Proof.
  induction ops as [|[now op] ops IH]; [done|]. intros t m s (H1 & H2 & Hm) HS.
  destruct (idle_step_sim t now m s op H1 H2 HS) as (Ha & HS' & Httl). cbn [idle_run].
  destruct (idle_step m now op) as [r m']. cbn [fst snd] in *. split; [done|]. rewrite <- Httl in HS' |- *. by apply (IH _ m' _ Hm).
Qed.

End IdleSpec.

(** ** Properties *)

Section IdleProperties.
Context {K V : Type} `{Countable K}.
Implicit Types (m : IdleExpiryMap K V) (k : K) (v : V) (now t ttl : Z).

(** [op] neither reads nor writes the entry of [k]. *)
Definition op_avoids k (op : @idle_op K V) : Prop :=
  match op with
  | OpInsert k' _ | OpGet k' | OpRemove k' | OpOrInsert k' _ _ => k' <> k
  | OpClear => False
  end.

(** The calls in [ops] on key [k] are reads, less than [ttl] apart; the last
    access was at [t]. *)
Fixpoint kept_alive ttl k t (ops : list (Z * @idle_op K V)) : Prop :=
  match ops with
  | [] => True
  | (now, op) :: ops =>
      (op_avoids k op /\ kept_alive ttl k t ops) \/
      (op = OpGet k /\ duration_since now t < ttl /\ kept_alive ttl k now ops)
  end.

Lemma spec_avoids ttl s now k (op : @idle_op K V) :
  op_avoids k op -> (spec_step ttl s now op).2 !! k = s !! k.
Proof.
  destruct op; simpl; intros; repeat case_goal; simpl; try done;
    rewrite ?lookup_insert_ne, ?lookup_delete_ne by done; done.
Qed.

Lemma spec_kept_alive ttl k v ops : forall t s rs i now,
  kept_alive ttl k t ops -> s !! k = Some (mk_timed v t) -> spec_run ttl s ops rs ->
  ops !! i = Some (now, OpGet k) -> rs !! i = Some (Some v).
Proof.
  induction ops as [|[now' op] ops IH]; [done|]. intros t s [|r rs] i now HK Hs Hrun Hi; [done|]. destruct Hrun as [Ha Hrun].
  destruct HK as [[Hav HK]|(-> & Hgap & HK)].
  - pose proof (spec_avoids ttl s now' k op Hav) as Hk.
    destruct i as [|i]; simpl in *.
    + injection Hi as -> ->. by simpl in Hav.
    + eapply (IH t); [done| |done|done]. by rewrite Hk.
  - destruct Ha as [Ha|[]]. simpl in Ha, Hrun. rewrite live_lookup, Hs in Ha, Hrun. unfold is_expired in Ha, Hrun. simpl in Ha, Hrun.
    replace (ttl <=? duration_since now' t) with false in * by (symmetry; apply Z.leb_gt; done).
    destruct i as [|i]; [by rewrite Ha|]. simpl in *. eapply (IH now'); [done| |done|done]. apply lookup_insert_eq.
Qed.

(** C22 Over any sequence of calls, whose clocks are read in their order, the map
    answers what timestamps alone determine: an entry is seen exactly while less than
    [idle_ttl] has passed since its last access. When cleanup runs can be observed
    only in one answer: [insert] on a key whose entry has expired returns the old
    value or none. *)
Theorem idle_map_refines_timestamps ttl interval t0 (ops : list (Z * @idle_op K V)) :
  clock_monotone t0 ops ->
  spec_run ttl ∅ ops (idle_run (idle_new ttl interval t0 : IdleExpiryMap K V) ops).
Proof. intros Hm. by apply (idle_run_sim ops t0 (idle_new ttl interval t0)). Qed.

(** A value that is inserted and then read at intervals shorter than
    [idle_ttl] stays in the map, whatever happens to other keys, however long it
    goes on and however often cleanup runs. *)
Theorem reads_keep_entry_alive m k v t (ops : list (Z * @idle_op K V)) i now :
  clock_monotone t ops -> kept_alive (idle_ttl m) k t ops ->
  ops !! i = Some (now, OpGet k) ->
  idle_run (idle_insert m k v t).2 ops !! i = Some (Some v).
Proof.
  intros Hm HK Hi. pose proof (idle_run_sim ops t (idle_insert m k v t).2 (entries (idle_insert m k v t).2) Hm ltac:(by split)) as Hrun.
  eapply (spec_kept_alive _ k v ops t); [|apply lookup_insert_eq|exact Hrun|exact Hi].
  unfold idle_insert. cbn [snd idle_ttl with_entries]. by rewrite idle_cleanup_ttl.
Qed.

(** No value is lost: reading, [entry], [into_mut], [or_insert] and
    [destruct] leave every value either in the map or handed to [on_expire]
    exactly once, and [remove] of a live entry hands it to the caller. *)
Theorem idle_values_conserved m k v now :
  idle_values (idle_get m k now).2 ≡ₚ idle_values m /\
  idle_values (idle_entry m k now).2 ≡ₚ idle_values m /\
  idle_values (occupied_into_mut m k now).2 ≡ₚ idle_values m /\
  idle_values (occupied_destruct m k) ≡ₚ idle_values m /\
  (let r := occupied_into_mut_or_insert m k v now in
   idle_values r.2 ≡ₚ idle_values m \/ r.1 = v /\ idle_values r.2 ≡ₚ v :: idle_values m) /\
  (forall x, (idle_remove m k now).1 = Some x -> x :: idle_values (idle_remove m k now).2 ≡ₚ idle_values m).
Proof.
  split_and!.
  - rewrite <- (cleanup_values m now). unfold idle_get, idle_get_mut. repeat case_goal; [done| |done]. by apply touch_values.
  - rewrite <- (cleanup_values m now). unfold idle_entry. repeat case_goal; [|done|done]. by apply log_delete_values.
  - unfold occupied_into_mut. repeat case_goal; [by apply touch_values|by apply log_delete_values|done].
  - unfold occupied_destruct. destruct (entries m !! k) as [e|] eqn:E; [by apply log_delete_values|].
    by rewrite log_values, delete_id, app_nil_r by done.
  - unfold occupied_into_mut_or_insert. destruct (entries m !! k) as [e|] eqn:E; [case_goal|]; cbn [fst snd].
    + left. by apply touch_values.
    + right. split; [done|]. rewrite log_values, put_values, <- (delete_values m k e E). solve_Permutation.
    + right. split; [done|]. rewrite put_values, delete_id by done. done.
  - intros x. unfold idle_remove. cbn [fst snd]. destruct (entries m !! k) as [e|] eqn:E; [|done].
    case_goal; [done|]. intros [= <-]. by apply delete_values.
Qed.

End IdleProperties.

Definition sample_ops : list (Z * @idle_op Z Z) :=
  [(3, OpGet 1); (7, OpOrInsert 2 20 9); (12, OpGet 1); (20, OpGet 2); (21, OpGet 1)].

Lemma idle_map_refines_timestamps_witness :
  spec_run 10 ∅ sample_ops (idle_run (idle_new 10 4 0 : IdleExpiryMap Z Z) sample_ops).
Proof. apply idle_map_refines_timestamps. simpl. lia. Defined.

(** The answer in which cleanup shows: the same calls, with a long and a short
    interval. *)
Example insert_shows_cleanup :
  let ops : list (Z * @idle_op Z Z) := [(0, OpInsert 1 7); (20, OpInsert 1 8)] in
  idle_run (idle_new 10 100 0) ops = [None; Some 7] /\ idle_run (idle_new 10 15 0) ops = [None; None].
Proof. by vm_compute. Qed.

Lemma reads_keep_entry_alive_witness :
  idle_run (idle_insert (idle_new 10 4 0) 1 7 0).2 sample_ops !! 4%nat = Some (Some 7).
Proof.
  apply (reads_keep_entry_alive (idle_new 10 4 0) 1 7 0 sample_ops 4 21).
  - simpl. lia.
  - simpl. unfold duration_since. repeat (split || (left; split; [done|]) || (right; split; [done|]; split; [done|])).
  - reflexivity.
Defined.

(** The handle of an entry that expired between [entry] and [and_modify] drops
    the value without calling [on_expire]. *)
Lemma and_modify_drops_expired :
  let m := (idle_insert (idle_new 10 100 0) 1 7 0).2 in
  let (h, m1) := idle_entry m 1 9 in
  let (h', m2) := entry_and_modify h m1 1 (fun x : Z => x) 10 in
  (h, h') = (Occupied, Vacant) /\ idle_values m1 = [7] /\ idle_values m2 = [].
Proof. vm_compute. done. Qed.
