(* ===== verification/ScopedExpiryMap.v ===== *)
(** * Scoped map of expiring values (p2p/src/data_structures/scoped_expiry_map.rs)

    A queue of values per scope; a value expires [value_ttl] after it was pushed
    and a scope is dropped when it was not touched for [scope_idle_ttl]. The node
    keeps the sessions it has replaced in such a map (get_session.rs). Every
    [Instant::now()] is an argument: [push] and [get] read the clock before they wait
    for the lock, so that calls can take effect in another order than that of their
    readings; cleanup reads the clock once more for each scope it keeps
    ([ScopeQueue::is_empty]), under the lock, these readings are the function [late]. *)

From S2P Require Import Prelude IdleExpiryMap.

(** [struct TimedValue] *)
Record TimedValue (V : Type) := mk_tv { tv_value : V; expires_at : Z }.
Arguments mk_tv {V}.
Arguments tv_value {V}.
Arguments expires_at {V}.

(** [struct ScopeQueue] *)
Record ScopeQueue (V : Type) := mk_queue { q_entries : list (TimedValue V); q_last_touched : Z }.
Arguments mk_queue {V}.
Arguments q_entries {V}.
Arguments q_last_touched {V}.

Section Queue.
Context {V : Type}.
Implicit Types (q : ScopeQueue V) (now : Z).

Definition queue_new now : ScopeQueue V := mk_queue [] now.

Definition queue_touch q now : ScopeQueue V := mk_queue (q_entries q) now.

Definition queue_push q (value : V) (value_ttl now : Z) : ScopeQueue V :=
  let q := queue_touch q now in
  mk_queue (q_entries q ++ [mk_tv value (now + value_ttl)]) (q_last_touched q).

(** The test of [expires_at > now] as a filter. *)
Definition unexpired now (l : list (TimedValue V)) : list (TimedValue V) :=
  List.filter (fun e => now <? expires_at e) l.

Definition valid_values_newest_first q now : list V * ScopeQueue V :=
  let q := queue_touch q now in
  (tv_value <$> unexpired now (rev (q_entries q)), q).

Definition prune_expired q now : ScopeQueue V :=
  mk_queue (unexpired now (q_entries q)) (q_last_touched q).

Definition is_idle q (scope_idle_ttl now : Z) : bool :=
  scope_idle_ttl <=? duration_since now (q_last_touched q).

Definition queue_is_empty q (late : Z) : bool :=
  (length (unexpired late (q_entries q)) =? 0)%nat.

End Queue.

(** [struct ScopedExpiryMap] with its [Inner]. *)
Record ScopedExpiryMap (K V : Type) `{Countable K} := mk_scoped {
  scopes : gmap K (ScopeQueue V);
  sc_last_cleanup : Z;
  scope_idle_ttl : Z;
  value_ttl : Z;
  sc_cleanup_interval : Z;
}.
Arguments mk_scoped {K V _ _}.
Arguments scopes {K V _ _}.
Arguments sc_last_cleanup {K V _ _}.
Arguments scope_idle_ttl {K V _ _}.
Arguments value_ttl {K V _ _}.
Arguments sc_cleanup_interval {K V _ _}.

Section Scoped.
Context {K V : Type} `{Countable K}.
Implicit Types (m : ScopedExpiryMap K V) (scope k : K) (now : Z) (late : K -> Z).

Definition scoped_new (idle ttl interval now : Z) : ScopedExpiryMap K V := mk_scoped ∅ now idle ttl interval.

Definition with_scopes m (s : gmap K (ScopeQueue V)) : ScopedExpiryMap K V :=
  mk_scoped s (sc_last_cleanup m) (scope_idle_ttl m) (value_ttl m) (sc_cleanup_interval m).

(** The closure of [scopes.retain]: the queue if it stays, pruned. *)
Definition retain_scope (idle now late : Z) (q : ScopeQueue V) : option (ScopeQueue V) :=
  if is_idle q idle now then None
  else
    let q := prune_expired q now in
    if negb (queue_is_empty q late) then Some q else None.

Definition scoped_cleanup_if_due m now late : ScopedExpiryMap K V :=
  if duration_since now (sc_last_cleanup m) <? sc_cleanup_interval m then m
  else mk_scoped (map_imap (fun k q => retain_scope (scope_idle_ttl m) now (late k) q) (scopes m))
         now (scope_idle_ttl m) (value_ttl m) (sc_cleanup_interval m).

Definition scoped_push m scope (value : V) now late : ScopedExpiryMap K V :=
  let m := scoped_cleanup_if_due m now late in
  let q := default (queue_new now) (scopes m !! scope) in
  with_scopes m (<[scope := queue_push q value (value_ttl m) now]> (scopes m)).

Definition scoped_get m scope now late : list V * ScopedExpiryMap K V :=
  let m := scoped_cleanup_if_due m now late in
  match scopes m !! scope with
  | None => ([], m)
  | Some queue =>
      let (vs, queue) := valid_values_newest_first (queue_touch queue now) now in
      (vs, with_scopes m (<[scope := queue]> (scopes m)))
  end.

Definition remove_scope m scope : ScopedExpiryMap K V := with_scopes m (delete scope (scopes m)).

Definition scoped_clear m now : ScopedExpiryMap K V :=
  mk_scoped ∅ now (scope_idle_ttl m) (value_ttl m) (sc_cleanup_interval m).

(** ** Reference: the log of pushed values per scope *)

(** A call, with the time [now] it reads first, and the readings of cleanup. *)
Inductive scoped_op :=
| SPush (scope : K) (value : V)
| SGet (scope : K)
| SRemove (scope : K)
| SClear.

Definition scoped_step m (op : scoped_op) now late : list V * ScopedExpiryMap K V :=
  match op with
  | SPush scope value => ([], scoped_push m scope value now late)
  | SGet scope => scoped_get m scope now late
  | SRemove scope => ([], remove_scope m scope)
  | SClear => ([], scoped_clear m now)
  end.

(** The log of a scope: the values pushed since it was last removed. *)
Definition log_step (ttl : Z) (log : K -> list (TimedValue V)) (op : scoped_op) now : K -> list (TimedValue V) :=
  match op with
  | SPush scope value => fun k => if decide (k = scope) then log k ++ [mk_tv value (now + ttl)] else log k
  | SGet _ => log
  | SRemove scope => fun k => if decide (k = scope) then [] else log k
  | SClear => fun _ => []
  end.

(** The values of a log that are alive at a time, newest first. *)
Definition live_values (log : list (TimedValue V)) now : list V := tv_value <$> unexpired now (rev log).

Lemma unexpired_rev now (l : list (TimedValue V)) : unexpired now (rev l) = rev (unexpired now l).
Proof.
  unfold unexpired. induction l as [|e l IH]; [done|]. simpl. rewrite List.filter_app, IH. simpl.
  destruct (now <? expires_at e); simpl; [done|by rewrite app_nil_r].
Qed.

Lemma unexpired_unexpired t now (l : list (TimedValue V)) :
  t <= now -> unexpired now (unexpired t l) = unexpired now l.
Proof.
  intros Hle. unfold unexpired. induction l as [|e l IH]; [done|]. simpl.
  destruct (Z.ltb_spec t (expires_at e)); simpl; [by rewrite IH|].
  rewrite IH. destruct (Z.ltb_spec now (expires_at e)); [lia|done].
Qed.

Lemma unexpired_later t now (l1 l2 : list (TimedValue V)) :
  t <= now -> unexpired t l1 = unexpired t l2 -> unexpired now l1 = unexpired now l2.
Proof.
  intros Hle E. rewrite <- (unexpired_unexpired t now l1), <- (unexpired_unexpired t now l2), E; done.
Qed.

Lemma unexpired_app now (l1 l2 : list (TimedValue V)) :
  unexpired now (l1 ++ l2) = unexpired now l1 ++ unexpired now l2.
Proof. apply List.filter_app. Qed.

Lemma unexpired_none now (l : list (TimedValue V)) :
  Forall (fun e => expires_at e <= now) l -> unexpired now l = [].
Proof.
  induction 1 as [|e l He _ IH]; [done|]. unfold unexpired. simpl.
  destruct (Z.ltb_spec now (expires_at e)); [lia|done].
Qed.

Lemma unexpired_forall now (P : TimedValue V -> Prop) l : Forall P l -> Forall P (unexpired now l).
Proof. induction 1; unfold unexpired; simpl; [done|]. destruct (_ <? _); auto. Qed.

(** The queue of a scope, empty if there is none. *)
Definition scope_entries m k : list (TimedValue V) :=
  match scopes m !! k with Some q => q_entries q | None => [] end.

(** How long a call can have waited for the lock since it read the clock. *)
Context (wait : Z) (wait_pos : 0 <= wait).

(** At the time [t], up to which calls have held the lock: a value of a queue was
    pushed before, and the queue was touched later, up to the time a call can wait. *)
Definition queue_ok (ttl t : Z) q : Prop :=
  Forall (fun e => expires_at e <= q_last_touched q + ttl + wait /\ expires_at e <= t + ttl) (q_entries (V := V) q).

Definition scoped_ok t m : Prop := map_Forall (fun _ q => queue_ok (value_ttl m) t q) (scopes m).

(** The map holds only what the log does, in its order, and all of it that is alive
    at [t], with the time a call can wait added. *)
Definition scoped_sim t m (log : K -> list (TimedValue V)) : Prop :=
  scoped_ok t m /\ forall k, scope_entries m k `sublist_of` log k /\ unexpired (t + wait) (scope_entries m k) = unexpired (t + wait) (log k).

Lemma queue_ok_later ttl t now q : t <= now -> queue_ok ttl t q -> queue_ok ttl now q.
Proof. intros ? HF. eapply Forall_impl; [exact HF|]. simpl. lia. Qed.

Lemma scoped_sim_later t now m log : t <= now -> scoped_sim t m log -> scoped_sim now m log.
Proof.
  intros Hle [HO HL]. split.
  - intros k q Hk. by apply (queue_ok_later _ t), (HO k).
  - intros k. destruct (HL k) as [? E]. split; [done|]. apply (unexpired_later (t + wait)); [lia|done].
Qed.

Lemma unexpired_sublist now (l : list (TimedValue V)) : unexpired now l `sublist_of` l.
Proof. unfold unexpired. induction l as [|e l IH]; simpl; [constructor|]. destruct (_ <? _); by constructor. Qed.

Lemma unexpired_mono now (l l' : list (TimedValue V)) : l `sublist_of` l' -> unexpired now l `sublist_of` unexpired now l'.
Proof. unfold unexpired. induction 1 as [|e l l' _ IH|e l l' _ IH]; simpl; [constructor|..]; destruct (_ <? _); by try constructor. Qed.

Lemma rev_sublist {A} (l l' : list A) : l `sublist_of` l' -> rev l `sublist_of` rev l'.
Proof. induction 1; simpl; [done|by apply sublist_app|by apply sublist_inserts_r]. Qed.

Lemma idle_queue_expired ttl idle t now q :
  ttl <= idle -> 0 < idle -> queue_ok ttl t q -> is_idle q idle now = true -> unexpired (now + wait) (q_entries q) = [].
Proof.
  intros Hle Hp HF Hi. apply unexpired_none. eapply Forall_impl; [exact HF|]. intros e He.
  unfold is_idle, duration_since in Hi. bools. simpl in He. lia.
Qed.

Lemma queue_is_empty_true (late : Z) q : queue_is_empty (V := V) q late = true -> unexpired late (q_entries q) = [].
Proof. unfold queue_is_empty. destruct (unexpired late (q_entries q)); [done|discriminate]. Qed.

(** What cleanup does to one scope, seen when it has finished. *)
Lemma retain_scope_values ttl idle t now (late fin : Z) q :
  ttl <= idle -> 0 < idle -> now <= fin -> late <= fin -> queue_ok ttl t q ->
  match retain_scope idle now late q with
  | Some q' => q_entries q' `sublist_of` q_entries q /\
      unexpired (fin + wait) (q_entries q') = unexpired (fin + wait) (q_entries q) /\ queue_ok ttl t q'
  | None => unexpired (fin + wait) (q_entries q) = []
  end.
Proof.
  intros H1 H2 Hn Hf HO. unfold retain_scope. destruct (is_idle q idle now) eqn:Hi.
  { apply (unexpired_later (now + wait) _ _ []); [lia|]. by apply (idle_queue_expired ttl idle t). }
  destruct (queue_is_empty (prune_expired q now) late) eqn:He; simpl.
  - apply queue_is_empty_true in He. simpl in He.
    rewrite <- (unexpired_unexpired now) by lia. apply (unexpired_later late _ _ []); [lia|done].
  - split_and!; [apply unexpired_sublist|apply unexpired_unexpired; lia|by apply unexpired_forall].
Qed.

Lemma scoped_cleanup_fields m now late :
  scope_idle_ttl (scoped_cleanup_if_due m now late) = scope_idle_ttl m /\
  value_ttl (scoped_cleanup_if_due m now late) = value_ttl m.
Proof. unfold scoped_cleanup_if_due. by destruct (_ <? _). Qed.

(** Cleanup of the whole map. *)
Lemma scoped_sim_cleanup t now fin late m log :
  t <= fin -> now <= fin -> (forall k, late k <= fin) -> value_ttl m <= scope_idle_ttl m -> 0 < scope_idle_ttl m ->
  scoped_sim t m log -> scoped_sim fin (scoped_cleanup_if_due m now late) log /\ scoped_ok t (scoped_cleanup_if_due m now late).
Proof.
  intros Ht Hn Hlate H1 H2 HS. pose proof (scoped_sim_later t fin m log Ht HS) as HS'. unfold scoped_cleanup_if_due.
  destruct (_ <? _); [by split; [|apply HS]|]. destruct HS as [HO _]. destruct HS' as [_ HL].
  assert (forall k q q', scopes m !! k = Some q -> retain_scope (scope_idle_ttl m) now (late k) q = Some q' -> queue_ok (value_ttl m) t q') as Hq.
  { intros k q q' E Hq'. pose proof (retain_scope_values _ _ t now (late k) fin q H1 H2 Hn (Hlate k) (HO k q E)) as HR.
    rewrite Hq' in HR. apply HR. }
  split; [split|].
  - intros k q'. cbn [scopes value_ttl]. rewrite map_lookup_imap. intros (q & E & Hq')%bind_Some.
    apply (queue_ok_later _ t); [done|]. by eapply Hq.
  - intros k. specialize (HL k). unfold scope_entries in HL |- *. cbn [scopes]. rewrite map_lookup_imap.
    destruct (scopes m !! k) as [q|] eqn:E; [|done]. simpl.
    pose proof (retain_scope_values _ _ t now (late k) fin q H1 H2 Hn (Hlate k) (HO k q E)) as HR.
    destruct HL as [Hs HL]. destruct (retain_scope _ _ _ q) as [q'|].
    + destruct HR as (Hs' & HR & _). split; [by etrans|congruence].
    + split; [apply sublist_nil_l|]. rewrite <- HL, HR. done.
  - intros k q'. cbn [scopes value_ttl]. rewrite map_lookup_imap. intros (q & E & Hq')%bind_Some. by eapply Hq.
Qed.

Lemma scope_entries_insert m scope q k :
  scope_entries (with_scopes m (<[scope := q]> (scopes m))) k =
    if decide (k = scope) then q_entries q else scope_entries m k.
Proof.
  unfold scope_entries. cbn [scopes with_scopes]. destruct (decide (k = scope)) as [->|].
  - by rewrite lookup_insert_eq.
  - by rewrite lookup_insert_ne by congruence.
Qed.

(** Replacing a queue by one with a later time of access. *)
Lemma scoped_ok_insert t m scope q :
  scoped_ok t m -> queue_ok (value_ttl m) t q -> scoped_ok t (with_scopes m (<[scope := q]> (scopes m))).
Proof. intros HO Hq k q'. cbn [scopes with_scopes value_ttl]. rewrite lookup_insert_Some. intros [[_ <-]|[_ E]]; [done|by apply (HO k)]. Qed.

Lemma touched_ok ttl t now fin q :
  t - wait <= now -> t <= fin -> queue_ok ttl t q -> queue_ok ttl fin (queue_touch q now).
Proof. intros Hn Hle HF. eapply Forall_impl; [exact HF|]. simpl. lia. Qed.

Lemma scoped_step_sim t now fin late m log op :
  t - wait <= now -> t <= fin -> now <= fin -> (forall k, late k <= fin) ->
  value_ttl m <= scope_idle_ttl m -> 0 < scope_idle_ttl m -> scoped_sim t m log ->
  scoped_sim fin (scoped_step m op now late).2 (log_step (value_ttl m) log op now).
Proof.
  intros Hn Ht Hfin Hlate H1 H2 HS.
  destruct (scoped_sim_cleanup t now fin late m log Ht Hfin Hlate H1 H2 HS) as [[HO HL] Hq].
  destruct (scoped_cleanup_fields m now late) as [Ei Ev]. unfold scoped_ok in Hq. rewrite Ev in Hq.
  destruct op as [scope value|scope|scope|]; simpl.
  - unfold scoped_push. split.
    + apply scoped_ok_insert; [done|]. rewrite Ev.
      destruct (scopes _ !! scope) as [q|] eqn:E; simpl.
      * apply Forall_app. split; [by apply (touched_ok _ t now fin q), (Hq scope)|]. apply Forall_singleton. simpl. lia.
      * apply Forall_singleton. simpl. lia.
    + intros k. rewrite scope_entries_insert, Ev. specialize (HL k) as [Hs HL]. destruct (decide (k = scope)) as [->|]; [|done].
      rewrite unexpired_app, <- HL, <- unexpired_app. unfold scope_entries in Hs |- *.
      destruct (scopes _ !! scope); (split; [|done]); simpl; [by apply sublist_app|by apply sublist_inserts_l].
  - unfold scoped_get. destruct (scopes _ !! scope) as [q|] eqn:E; [|done]. cbn [snd valid_values_newest_first]. split.
    + apply scoped_ok_insert; [done|]. rewrite Ev. by apply (touched_ok _ t now fin q), (Hq scope).
    + intros k. rewrite scope_entries_insert. destruct (decide (k = scope)) as [->|]; [|done].
      specialize (HL scope). unfold scope_entries in HL. by rewrite E in HL.
  - apply (scoped_sim_later t fin) in HS as [HO' HL']; [|lia]. split.
    + intros k q. cbn [scopes with_scopes remove_scope]. rewrite lookup_delete_Some. intros [_ Hk]. by apply (HO' k).
    + intros k. unfold scope_entries. cbn [scopes with_scopes remove_scope]. destruct (decide (k = scope)) as [->|].
      * by rewrite lookup_delete_eq.
      * rewrite lookup_delete_ne by congruence. apply HL'.
  - split; [apply map_Forall_empty|]. intros k. unfold scope_entries. cbn [scopes scoped_clear]. by rewrite lookup_empty.
Qed.

Lemma scoped_get_value t now fin late m log scope :
  t <= fin -> now <= fin -> (forall k, late k <= fin) -> value_ttl m <= scope_idle_ttl m -> 0 < scope_idle_ttl m -> scoped_sim t m log ->
  live_values (log scope) (fin + wait) `sublist_of` (scoped_get m scope now late).1 /\
  (scoped_get m scope now late).1 `sublist_of` live_values (log scope) now.
Proof.
  intros Ht Hfin Hlate H1 H2 HS.
  destruct (scoped_sim_cleanup t now fin late m log Ht Hfin Hlate H1 H2 HS) as [[_ HL] _]. destruct (HL scope) as [Hs E].
  replace (scoped_get m scope now late).1 with (live_values (scope_entries (scoped_cleanup_if_due m now late) scope) now)
    by (unfold scoped_get, scope_entries; by destruct (scopes _ !! scope)).
  unfold live_values. rewrite !unexpired_rev. split; apply fmap_sublist, rev_sublist; [|by apply unexpired_mono].
  rewrite <- E, <- (unexpired_unexpired now (fin + wait)) by lia. apply unexpired_sublist.
Qed.

(** A run: calls in the order in which they get the lock, with the first reading of
    the clock, the readings of cleanup, and the times at which the call gets the lock
    and has finished. *)
Record scoped_call := mk_call { c_op : scoped_op; c_now : Z; c_late : K -> Z; c_locked : Z; c_fin : Z }.

(** Only the times of the lock are ordered; the first reading can be older by the
    time a call can wait. *)
Fixpoint calls_ordered t (cs : list scoped_call) : Prop :=
  match cs with
  | [] => True
  | c :: cs =>
      t <= c_locked c <= c_fin c /\ c_locked c - wait <= c_now c <= c_fin c /\
      (forall k, c_late c k <= c_fin c) /\ calls_ordered (c_fin c) cs
  end.

Definition scoped_run m (cs : list scoped_call) : ScopedExpiryMap K V :=
  fold_left (fun m c => (scoped_step m (c_op c) (c_now c) (c_late c)).2) cs m.

Definition log_run (ttl : Z) (log : K -> list (TimedValue V)) (cs : list scoped_call) : K -> list (TimedValue V) :=
  fold_left (fun l c => log_step ttl l (c_op c) (c_now c)) cs log.

Definition last_fin t (cs : list scoped_call) : Z := fold_left (fun _ c => c_fin c) cs t.

Lemma scoped_step_ttls m op now late :
  scope_idle_ttl (scoped_step m op now late).2 = scope_idle_ttl m /\
  value_ttl (scoped_step m op now late).2 = value_ttl m.
Proof.
  destruct op; simpl; try done; [apply scoped_cleanup_fields|].
  unfold scoped_get. case_goal; [simpl|]; apply scoped_cleanup_fields.
Qed.

Lemma scoped_run_sim cs : forall t m log,
  calls_ordered t cs -> value_ttl m <= scope_idle_ttl m -> 0 < scope_idle_ttl m -> scoped_sim t m log ->
  scoped_sim (last_fin t cs) (scoped_run m cs) (log_run (value_ttl m) log cs) /\
  scope_idle_ttl (scoped_run m cs) = scope_idle_ttl m /\ value_ttl (scoped_run m cs) = value_ttl m.
Proof.
  induction cs as [|c cs IH]; [done|]. intros t m log (Ht & Hn & Hl & Hm) H1 H2 HS. simpl.
  destruct (scoped_step_ttls m (c_op c) (c_now c) (c_late c)) as [E1 E2]. rewrite <- E1, <- E2 in *.
  apply IH; [done..|]. rewrite E2. apply (scoped_step_sim t); rewrite <- ?E1, <- ?E2; try done; lia.
Qed.

Lemma scoped_sim_new idle ttl interval t0 : scoped_sim t0 (scoped_new idle ttl interval t0) (fun _ => []).
Proof. split; [apply map_Forall_empty|]. intros k. unfold scope_entries. cbn [scopes scoped_new]. by rewrite lookup_empty. Qed.

Lemma scoped_run_get idle ttl interval t0 cs scope now late locked fin :
  ttl <= idle -> 0 < idle -> calls_ordered t0 (cs ++ [mk_call (SGet scope) now late locked fin]) ->
  let r := (scoped_get (scoped_run (scoped_new idle ttl interval t0) cs) scope now late).1 in
  let pushed := log_run ttl (fun _ => []) cs scope in
  live_values pushed (fin + wait) `sublist_of` r /\ r `sublist_of` live_values pushed now.
Proof.
  intros H1 H2 Hm. cbn zeta.
  assert (calls_ordered t0 cs /\ last_fin t0 cs <= fin /\ now <= fin /\ forall k, late k <= fin) as (Hcs & Hlast & Hnow & Hlate).
  { clear H1. revert t0 Hm. induction cs as [|c cs IH]; intros t0; simpl; [intros (? & ? & ? & _); split_and!; [done|lia|lia|done]|].
    intros (? & ? & ? & Hm). destruct (IH _ Hm) as (? & ? & ? & ?). tauto. }
  destruct (scoped_run_sim cs t0 (scoped_new idle ttl interval t0) (fun _ => []) Hcs H1 H2) as (HS & E1 & E2); [apply scoped_sim_new|].
  apply (scoped_get_value (last_fin t0 cs)); rewrite ?E1, ?E2; done.
Qed.

(** C23 If scopes stay at least as long as values do, [get], after any sequence of
    calls, returns in the order newest first only values that were pushed to the scope
    since it was last removed and had not expired when the call started; and it
    returns all of them that are still alive when the call has finished, plus the time
    that a call can wait for the lock after it has read the clock. *)
Theorem scoped_get_returns_live_values idle ttl interval t0 cs scope now late locked fin :
  ttl <= idle -> 0 < idle -> calls_ordered t0 (cs ++ [mk_call (SGet scope) now late locked fin]) ->
  let r := (scoped_get (scoped_run (scoped_new idle ttl interval t0) cs) scope now late).1 in
  let pushed := log_run ttl (fun _ => []) cs scope in
  live_values pushed (fin + wait) `sublist_of` r /\ r `sublist_of` live_values pushed now.
Proof. by apply scoped_run_get. Qed.

End Scoped.

(** The lifetimes of the cache of replaced sessions, in seconds. The second push read
    its clock before the first one, and waited for the lock. *)
Lemma scoped_get_returns_live_values_witness :
  let late := fun _ : Z => 70 in
  let cs := [mk_call (SPush 1 10) 58 (fun _ => 59) 58 59; mk_call (SPush 1 11) 57 (fun _ => 59) 59 59] in
  let r := (scoped_get (scoped_run (scoped_new 15 15 60 0) cs) 1 70 late).1 in
  let pushed := log_run 15 (fun _ => []) cs 1 in
  live_values pushed (70 + 2) = [10] /\ live_values pushed 70 = [11; 10] /\
  live_values pushed (70 + 2) `sublist_of` r /\ r `sublist_of` live_values pushed 70.
Proof.
  split; [by vm_compute|]. split; [by vm_compute|].
  apply (scoped_get_returns_live_values 2 ltac:(lia) 15 15 60 0 _ 1 70 (fun _ => 70) 70 70); [lia|lia|].
  simpl. split_and!; (done || lia || (intros; simpl; lia)).
Defined.

(** With a shorter idle timeout, cleanup drops a scope with live values. *)
Lemma short_idle_timeout_loses_values :
  let cs := [mk_call (SPush 1 10) 1 (fun _ => 1) 1 1] in
  (scoped_get (scoped_run (scoped_new 5 100 6 0) cs) 1 8 (fun _ => 8)).1 = [] /\
  live_values (log_run 100 (fun _ : Z => []) cs 1) 8 = [10].
Proof. vm_compute. done. Qed.

(** A call that waited for the lock sets the time of the last access back, so that
    cleanup drops a value before it has expired. *)
Lemma waiting_call_loses_value :
  let cs := [mk_call (SPush 1 10) 58 (fun _ => 58) 58 58; mk_call (SGet 1) 50 (fun _ => 59) 59 59] in
  (scoped_get (scoped_run (scoped_new 15 15 60 0) cs) 1 66 (fun _ => 66)).1 = [] /\
  live_values (log_run 15 (fun _ : Z => []) cs 1) 66 = [10].
Proof. vm_compute. done. Qed.
