(* ===== verification/TtlMap.v ===== *)
(** * Map with a time to live (core/src/library/ttlmap.rs)

    [TtlMap] fixes one lifetime for all entries of an [ExpiringMap], a crate. The
    crate is the class [ExpiringMap]; [em_content] is what the map owns, expired
    entries included, with the time at which each expires. The laws say what the
    crate documents; whether [remove_entry] returns an entry that has expired is
    left open. *)

From S2P Require Import Prelude.

Class ExpiringMap (K : Type) (M : Type -> Type) := {
  em_new {V} : M V;
  em_vacuum_if_needed {V} : Z -> M V -> M V;
  em_insert {V} : K -> V -> Z -> Z -> M V -> option (V * bool) * M V;
  em_get {V} : K -> Z -> M V -> option V;
  em_remove_entry {V} : K -> Z -> M V -> option (K * V) * M V;
}.

Class ExpiringMapLaws (K : Type) (M : Type -> Type) `{!EqDecision K, !Countable K} `{!ExpiringMap K M} := {
  em_content {V} : M V -> gmap K (V * Z);
  em_new_content {V} : em_content (em_new (V := V)) = ∅;
  em_vacuum_content {V} now (m : M V) :
    em_content (em_vacuum_if_needed now m) ⊆ em_content m /\
    forall k v d, em_content m !! k = Some (v, d) -> now < d -> em_content (em_vacuum_if_needed now m) !! k = Some (v, d);
  em_insert_content {V} k v ttl now (m : M V) :
    em_insert k v ttl now m = (
      match em_content m !! k with Some (v', d) => Some (v', d <=? now) | None => None end,
      (em_insert k v ttl now m).2) /\
    em_content (em_insert k v ttl now m).2 = <[k := (v, now + ttl)]> (em_content m);
  em_get_content {V} k now (m : M V) :
    em_get k now m = match em_content m !! k with Some (v, d) => if now <? d then Some v else None | None => None end;
  em_remove_content {V} k now (m : M V) :
    em_content (em_remove_entry k now m).2 = delete k (em_content m) /\
    match (em_remove_entry k now m).1 with
    | Some (k', v) => k' = k /\ exists d, em_content m !! k = Some (v, d)
    | None => forall v d, em_content m !! k = Some (v, d) -> d <= now
    end;
}.

(** ** Operations *)

Record TtlMap (M : Type -> Type) (V : Type) := mk_ttl { tm_map : M V; tm_ttl : Z }.
Arguments mk_ttl {M V}.
Arguments tm_map {M V}.
Arguments tm_ttl {M V}.

Section TtlMap.
Context {K : Type} {M : Type -> Type} `{!ExpiringMap K M} {V : Type}.
Implicit Types (m : TtlMap M V) (k : K) (now : Z).

Definition ttl_new (ttl : Z) : TtlMap M V := mk_ttl em_new ttl.

Definition ttl_insert k (value : V) now m : option V * TtlMap M V :=
  let map := em_vacuum_if_needed now (tm_map m) in
  let (old, map) := em_insert k value (tm_ttl m) now map in
  (match old with Some (it, expired) => if expired then None else Some it | None => None end, mk_ttl map (tm_ttl m)).

Definition ttl_get k now m : option V := em_get k now (tm_map m).

Definition ttl_remove k now m : option V * TtlMap M V :=
  let (e, map) := em_remove_entry k now (tm_map m) in (snd <$> e, mk_ttl map (tm_ttl m)).

Definition ttl_clear m : TtlMap M V := mk_ttl (tm_map (ttl_new (tm_ttl m))) (tm_ttl m).

End TtlMap.

(** ** What the operations do to the live entries *)

Section Laws.
Context {K : Type} {M : Type -> Type} `{!EqDecision K, !Countable K} `{!ExpiringMap K M} `{!ExpiringMapLaws K M} {V : Type}.
Implicit Types (m : TtlMap M V) (k : K) (now : Z).

Definition ttl_content m : gmap K (V * Z) := em_content (tm_map m).

Lemma ttl_get_content k now m v :
  ttl_get k now m = Some v <-> exists d, ttl_content m !! k = Some (v, d) /\ now < d.
Proof.
  unfold ttl_get, ttl_content. rewrite em_get_content. destruct (em_content _ !! k) as [[v' d]|] eqn:E.
  - destruct (now <? d) eqn:Ed; bools; split; intros H; [| |done|]; try by destruct H as (? & [= <- <-] & ?); eauto with lia.
    by injection H as <-; eauto.
  - split; [done|]. by intros (d & ? & _).
Qed.

(** Insertion returns the live value it replaces, and owns no more than before. *)
Lemma ttl_insert_content k v now m :
  (ttl_insert k v now m).1 = ttl_get k now m /\
  tm_ttl (ttl_insert k v now m).2 = tm_ttl m /\
  ttl_content (ttl_insert k v now m).2 !! k = Some (v, now + tm_ttl m) /\
  (forall j, j <> k -> forall x, ttl_content (ttl_insert k v now m).2 !! j = Some x -> ttl_content m !! j = Some x) /\
  (forall j x d, j <> k -> ttl_content m !! j = Some (x, d) -> now < d -> ttl_content (ttl_insert k v now m).2 !! j = Some (x, d)).
Proof.
  unfold ttl_insert, ttl_content. set (m1 := em_vacuum_if_needed now (tm_map m)).
  destruct (em_vacuum_content now (tm_map m)) as [Hsub Hlive]. fold m1 in Hsub, Hlive.
  destruct (em_insert_content k v (tm_ttl m) now m1) as [E Ec].
  destruct (em_insert k v (tm_ttl m) now m1) as [old map]. injection E as ->. simpl in *. rewrite Ec. split_and!.
  - unfold ttl_get. rewrite em_get_content. destruct (em_content m1 !! k) as [[v' d]|] eqn:E1.
    + rewrite (lookup_weaken _ _ _ _ E1 Hsub). rewrite Z.leb_antisym. by destruct (now <? d).
    + destruct (em_content (tm_map m) !! k) as [[v' d]|] eqn:E2; [|done]. destruct (now <? d) eqn:Ed; [|done].
      bools. by rewrite (Hlive _ _ _ E2 Ed) in E1.
  - done.
  - apply lookup_insert_eq.
  - intros j Hj x. rewrite lookup_insert_ne by congruence. intros Hl. by eapply lookup_weaken.
  - intros j x d Hj Hl Hd. rewrite lookup_insert_ne by congruence. eauto.
Qed.

Lemma ttl_remove_content k now m :
  ttl_content (ttl_remove k now m).2 = delete k (ttl_content m) /\ tm_ttl (ttl_remove k now m).2 = tm_ttl m /\
  match (ttl_remove k now m).1 with
  | Some v => exists d, ttl_content m !! k = Some (v, d)
  | None => ttl_get k now m = None
  end.
Proof.
  unfold ttl_remove, ttl_content, ttl_get. rewrite em_get_content. destruct (em_remove_content k now (tm_map m)) as [Ec H].
  destruct (em_remove_entry k now (tm_map m)) as [[[k' v]|] map]; simpl in *; split_and!; try done; [by destruct H|].
  destruct (em_content _ !! k) as [[v d]|] eqn:E; [|done]. specialize (H _ _ eq_refl).
  by replace (now <? d) with false by (symmetry; apply Z.ltb_ge; lia).
Qed.

Lemma ttl_clear_content m : ttl_content (ttl_clear m) = ∅.
Proof. unfold ttl_content. simpl. apply em_new_content. Qed.

Lemma ttl_new_content ttl : ttl_content (ttl_new ttl) = ∅.
Proof. apply em_new_content. Qed.

End Laws.

(** ** An expiring map in memory *)

Module MemoryMap.
Section Mem.
Context {K : Type} `{!EqDecision K, !Countable K}.

Definition mem_map (V : Type) : Type := gmap K (V * Z).

#[export] Instance mem_expiring : ExpiringMap K mem_map := {
  em_new V := ∅;
  em_vacuum_if_needed V now m := filter (fun x => now < x.2.2) m;
  em_insert V k v ttl now m :=
    (match m !! k with Some (v', d) => Some (v', d <=? now) | None => None end, <[k := (v, now + ttl)]> m);
  em_get V k now m := match m !! k with Some (v, d) => if now <? d then Some v else None | None => None end;
  em_remove_entry V k now m := (match m !! k with Some (v, d) => if now <? d then Some (k, v) else None | None => None end, delete k m);
}.

Lemma mem_remove_spec {V} (o : option (V * Z)) (k : K) now :
  match (match o with Some (v, d) => if now <? d then Some (k, v) else None | None => None end) with
  | Some (k', v) => k' = k /\ exists d, o = Some (v, d)
  | None => forall v d, o = Some (v, d) -> d <= now
  end.
Proof. destruct o as [[v d]|]; [|done]. destruct (now <? d) eqn:E; [by eauto|]. bools. by intros v' d' [= <- <-]. Qed.

#[export] Instance mem_expiring_laws : ExpiringMapLaws K mem_map.
Proof.
  refine {| em_content V (m : mem_map V) := m |}; intros; simpl.
  - done.
  - split; [by apply (map_filter_subseteq (M := gmap K))|]. intros k v d Hl Hd. by apply (map_lookup_filter_Some (M := gmap K)).
  - by split.
  - done.
  - split; [done|]. apply (mem_remove_spec _ k now).
Defined.

End Mem.
End MemoryMap.

(** ** Set with a time to live

    [TtlSet] over the crate's ExpiringSet; the laws are those of the map. *)
Class ExpiringSet (V S : Type) := {
  es_new : S;
  es_vacuum_if_needed : Z -> S -> S;
  es_insert : V -> Z -> Z -> S -> S;
  es_contains : V -> Z -> S -> bool;
  es_remove : V -> Z -> S -> bool * S;
}.

Class ExpiringSetLaws (V S : Type) `{!EqDecision V, !Countable V} `{!ExpiringSet V S} := {
  es_content : S -> gmap V Z;
  es_new_content : es_content es_new = ∅;
  es_vacuum_content now s :
    es_content (es_vacuum_if_needed now s) ⊆ es_content s /\
    forall v d, es_content s !! v = Some d -> now < d -> es_content (es_vacuum_if_needed now s) !! v = Some d;
  es_insert_content v ttl now s : es_content (es_insert v ttl now s) = <[v := now + ttl]> (es_content s);
  es_contains_content v now s :
    es_contains v now s = match es_content s !! v with Some d => now <? d | None => false end;
  es_remove_content v now s :
    es_content (es_remove v now s).2 = delete v (es_content s) /\
    ((es_remove v now s).1 = true -> is_Some (es_content s !! v)) /\
    forall d, es_content s !! v = Some d -> now < d -> (es_remove v now s).1 = true;
}.

Record TtlSet (S : Type) := mk_ttl_set { ts_set : S; ts_ttl : Z }.
Arguments mk_ttl_set {S}.
Arguments ts_set {S}.
Arguments ts_ttl {S}.

Section TtlSet.
Context {V S : Type} `{!ExpiringSet V S}.

Definition ttl_set_new (ttl : Z) : TtlSet S := mk_ttl_set es_new ttl.

Definition ttl_set_insert (value : V) (now : Z) (s : TtlSet S) : TtlSet S :=
  mk_ttl_set (es_insert value (ts_ttl s) now (es_vacuum_if_needed now (ts_set s))) (ts_ttl s).

Definition ttl_set_contains (value : V) (now : Z) (s : TtlSet S) : bool := es_contains value now (ts_set s).

Definition ttl_set_remove (value : V) (now : Z) (s : TtlSet S) : bool * TtlSet S :=
  let (removed, set) := es_remove value now (ts_set s) in (removed, mk_ttl_set set (ts_ttl s)).
End TtlSet.

Section SetLaws.
Context {V S : Type} `{!EqDecision V, !Countable V} `{!ExpiringSet V S} `{!ExpiringSetLaws V S}.

Definition ttl_set_content (s : TtlSet S) : gmap V Z := es_content (ts_set s).

(** An inserted value is there with its deadline; no other value appears. *)
Lemma ttl_set_insert_content v now (s : TtlSet S) :
  ts_ttl (ttl_set_insert v now s) = ts_ttl s /\
  ttl_set_content (ttl_set_insert v now s) !! v = Some (now + ts_ttl s) /\
  forall w d, w <> v -> ttl_set_content (ttl_set_insert v now s) !! w = Some d -> ttl_set_content s !! w = Some d.
Proof.
  unfold ttl_set_insert, ttl_set_content. simpl. rewrite es_insert_content. split_and!; [done|apply lookup_insert_eq|].
  intros w d Hw. rewrite lookup_insert_ne by congruence. intros Hl. eapply lookup_weaken; [done|].
  apply es_vacuum_content.
Qed.

Lemma ttl_set_remove_content v now (s : TtlSet S) :
  ts_ttl (ttl_set_remove v now s).2 = ts_ttl s /\
  ttl_set_content (ttl_set_remove v now s).2 = delete v (ttl_set_content s) /\
  ((ttl_set_remove v now s).1 = true -> is_Some (ttl_set_content s !! v)).
Proof.
  unfold ttl_set_remove, ttl_set_content. destruct (es_remove_content v now (ts_set s)) as (H1 & H2 & _).
  by destruct (es_remove v now (ts_set s)).
Qed.
End SetLaws.

Module MemorySet.
Section Mem.
Context {V : Type} `{!EqDecision V, !Countable V}.

#[export] Instance mem_expiring_set : ExpiringSet V (gmap V Z) := {
  es_new := ∅;
  es_vacuum_if_needed now s := filter (fun x => now < x.2) s;
  es_insert v ttl now s := <[v := now + ttl]> s;
  es_contains v now s := match s !! v with Some d => now <? d | None => false end;
  es_remove v now s := (match s !! v with Some d => now <? d | None => false end, delete v s);
}.

#[export] Instance mem_expiring_set_laws : ExpiringSetLaws V (gmap V Z).
Proof.
  refine {| es_content (s : gmap V Z) := s |}; intros; simpl.
  - done.
  - split; [by apply (map_filter_subseteq (M := gmap V))|]. intros v d Hl Hd. by apply (map_lookup_filter_Some (M := gmap V)).
  - done.
  - done.
  - split_and!; [done|by destruct (s !! v)|]. intros d -> ?. by apply Z.ltb_lt.
Defined.
End Mem.
End MemorySet.
