(* ===== verification/SessionManager.v ===== *)
(** * Session manager (p2p/src/send_receive_traits/get_session.rs)

    The manager keeps one session per peer (31 minutes), the session builds under
    way (60 seconds) and, for 15 seconds, the sessions it has replaced. Sessions
    are shared ([Arc]): the stores hold locations of [heap]. A build owns the
    sending half of a broadcast channel with room for one value; who asks for a
    session while a build is under way waits for that value. [channels] records
    what was sent; the sender sends at most once and, when it is dropped, sends
    [DroppedWithoutResponse] ([impl Drop for SessionEstablishmentSender]).

    Each critical section is one step: the handlers, and the sections between the
    awaits of [get_or_establish_session], which is the state machine [caller].
    The session maps run on the monotonic clock ([now], and [late] for the
    cleanup of the cache), the expiry of a session on the system clock of the
    primitives' state. *)

From S2P Require Import Prelude Domain NonceWindow Dencryptor KeyExchange IdleExpiryMap ScopedExpiryMap TtlMap.

(** The brain's answer to GetContactPublicKeys, and the swarm's session
    establishment behaviour *)
Class ManagerEnv (W : Type) `{!Primitives W} := {
  Node : Type;
  Node_eq_dec :: EqDecision Node;
  Node_countable :: Countable Node;
  get_contact_public_keys : ContactId -> W -> option ContactPublicKeys * W;
  send_session_request : Node -> AuthWireRequest -> W -> W;
}.

Section Manager.
Context {W : Type} `{!Primitives W} `{!ManagerEnv W} {M : Type -> Type} `{!ExpiringMap Node M} `{!ExpiringMapLaws Node M}.
Local Abbreviation loc := Z.
Local Abbreviation channel := Z.

Record Build := mk_build { initiator_secrets : SessionInitiatorPrivateKeys; b_channel : channel }.

Record SessionManager := mk_manager {
  session_store : TtlMap M loc;
  session_build_store : TtlMap M Build;
  expired_session_cache : ScopedExpiryMap Node loc;
  self_contact_id : ContactId;
  mgr_keys : ContactKeys;
  heap : gmap loc Session;
  channels : gmap channel (option (result loc SessionEstablishmentError));
  world : W;
}.

Definition set_session_store x (m : SessionManager) : SessionManager :=
  mk_manager x (session_build_store m) (expired_session_cache m) (self_contact_id m) (mgr_keys m) (heap m) (channels m) (world m).
Definition set_build_store x (m : SessionManager) : SessionManager :=
  mk_manager (session_store m) x (expired_session_cache m) (self_contact_id m) (mgr_keys m) (heap m) (channels m) (world m).
Definition set_cache x (m : SessionManager) : SessionManager :=
  mk_manager (session_store m) (session_build_store m) x (self_contact_id m) (mgr_keys m) (heap m) (channels m) (world m).
Definition set_identity c k (m : SessionManager) : SessionManager :=
  mk_manager (session_store m) (session_build_store m) (expired_session_cache m) c k (heap m) (channels m) (world m).
Definition set_heap x (m : SessionManager) : SessionManager :=
  mk_manager (session_store m) (session_build_store m) (expired_session_cache m) (self_contact_id m) (mgr_keys m) x (channels m) (world m).
Definition set_channels x (m : SessionManager) : SessionManager :=
  mk_manager (session_store m) (session_build_store m) (expired_session_cache m) (self_contact_id m) (mgr_keys m) (heap m) x (world m).
Definition set_mworld x (m : SessionManager) : SessionManager :=
  mk_manager (session_store m) (session_build_store m) (expired_session_cache m) (self_contact_id m) (mgr_keys m) (heap m) (channels m) x.

Definition manager_new (contact_id : ContactId) (keys : ContactKeys) (now : Z) (w : W) : SessionManager :=
  mk_manager (ttl_new (SESSION_VALIDITY_DURATION + ACCEPT_SESSION_PAST_VALID_DURATION)) (ttl_new SESSION_CONSTRUCTION_TIMEOUT)
    (scoped_new 15 15 60 now) contact_id keys ∅ ∅ w.

(** ** Channels and builds *)

(** A send on a oneshot broadcast channel: the first one counts. *)
Definition send_channel (c : channel) (r : result loc SessionEstablishmentError) (m : SessionManager) : SessionManager :=
  match channels m !! c with
  | Some None => set_channels (<[c := Some r]> (channels m)) m
  | _ => m
  end.

Definition dropped_without_response : result loc SessionEstablishmentError := Err (InitiatorError DroppedWithoutResponse).

(** Replace the build store by [x]: the builds that are gone are dropped, save
    the one that was taken out. *)
Definition replace_build_store (x : TtlMap M Build) (taken : option Build) (m : SessionManager) : SessionManager :=
  let kept := (fun e => b_channel e.2.1) <$> map_to_list (ttl_content x) in
  let gone := filter (fun c => (c ∉ kept) /\ Some c <> b_channel <$> taken) ((fun e => b_channel e.2.1) <$> map_to_list (ttl_content (session_build_store m))) in
  foldr (fun c m => send_channel c dropped_without_response m) (set_build_store x m) gone.

(** [session_build_store.lock().store.remove(&peer)] *)
Definition take_build (peer : Node) (now : Z) (m : SessionManager) : option Build * SessionManager :=
  let (b, x) := ttl_remove peer now (session_build_store m) in (b, replace_build_store x b m).

Definition cancel (b : Build) (cause : SessionEstablishmentError) (m : SessionManager) : SessionManager :=
  send_channel (b_channel b) (Err cause) m.

(** [Arc::new] *)
Definition alloc (s : Session) (m : SessionManager) : loc * SessionManager :=
  let l := fresh (dom (heap m)) in (l, set_heap (<[l := s]> (heap m)) m).

(** Insertion of a new session; the one it replaces is retained in the cache. *)
Definition store_session (peer : Node) (l : loc) (now : Z) (late : Node -> Z) (m : SessionManager) : SessionManager :=
  let (old_session, x) := ttl_insert peer l now (session_store m) in
  let m := set_session_store x m in
  match old_session with
  | Some session => set_cache (scoped_push (expired_session_cache m) peer session now late) m
  | None => m
  end.

(** ** Handlers *)

(** The four statements of [update_identity], each under a lock of its own *)
Definition set_contact_id (contact_id : ContactId) (m : SessionManager) : SessionManager := set_identity contact_id (mgr_keys m) m.
Definition set_keys (keys : ContactKeys) (m : SessionManager) : SessionManager := set_identity (self_contact_id m) keys m.
Definition clear_builds (m : SessionManager) : SessionManager := replace_build_store (ttl_clear (session_build_store m)) None m.
Definition clear_sessions (m : SessionManager) : SessionManager := set_session_store (ttl_clear (session_store m)) m.

Definition update_identity (contact_id : ContactId) (keys : ContactKeys) (m : SessionManager) : SessionManager :=
  clear_sessions (clear_builds (set_keys keys (set_contact_id contact_id m))).

Definition handle_session_establishment_request (peer : Node) (request : AuthWireRequest) (now : Z) (late : Node -> Z)
  (m : SessionManager) : result KeyExchangeResponse ResponderSessionEstablishmentError * SessionManager :=
  let (maybe_keys, w) := get_contact_public_keys (wq_sender request) (world m) in
  match to_session_and_response request ((fun keys => (wq_sender request, keys)) <$> maybe_keys) w with
  | (Err (SfrSignatureVerification _), w) => (Err (ContactVerificationFailed (wq_sender request)), set_mworld w m)
  | (Err (SfrKyber _), w) => (Err ResponderSharedSecretGenerationFailed, set_mworld w m)
  | (Ok (session, response), w) =>
      let m := set_mworld w m in
      match response_sign response (keys_private (mgr_keys m)) (self_contact_id m) (bool_decide (is_Some maybe_keys)) with
      | Some signed =>
          let (l, m) := alloc session m in
          (Ok signed, store_session peer l now late m)
      | None => (Err ResponderSharedSecretGenerationFailed, m)
      end
  end.

(** The end of a successful response, after the build was taken out of the store
    and the brain has answered *)
Definition finish_build (peer : Node) (response : KeyExchangeResponse) (session_builder : Build) (now : Z) (late : Node -> Z)
  (m : SessionManager) : SessionManager :=
  let (maybe_contact_public_keys, w) := get_contact_public_keys (wr_sender response) (world m) in
  match creation_to_session (initiator_secrets session_builder) response maybe_contact_public_keys w with
  | (Err _, Err cause, w) => send_channel (b_channel session_builder) (Err cause) (set_mworld w m)
  | (Err _, Ok _, w) => set_mworld w m
  | (Ok session, _, w) =>
      let (l, m) := alloc session (set_mworld w m) in
      let m := send_channel (b_channel session_builder) (Ok l) m in
      store_session peer l now late m
  end.

Definition handle_session_establishment_response (peer : Node)
  (response : result KeyExchangeResponse ResponderSessionEstablishmentError) (now : Z) (late : Node -> Z)
  (m : SessionManager) : SessionManager :=
  match response with
  | Err e =>
      match take_build peer now m with
      | (Some session_builder, m) => cancel session_builder (ResponderError e) m
      | (None, m) => m
      end
  | Ok response =>
      match take_build peer now m with
      | (None, m) => m
      | (Some session_builder, m) => finish_build peer response session_builder now late m
      end
  end.

Definition handle_session_establishment_failure (peer : Node) (now : Z) (m : SessionManager) : SessionManager :=
  match take_build peer now m with
  | (Some session_builder, m) => cancel session_builder (InitiatorError NoResponse) m
  | (None, m) => m
  end.

(** [handle_session_establishment_event] (handle_session_establishment_event.rs),
    with what is answered *)
Inductive session_event :=
| SessionRequest (peer : Node) (request : AuthWireRequest)
| SessionResponse (peer : Node) (response : result KeyExchangeResponse ResponderSessionEstablishmentError)
| SessionOutboundFailure (peer : Node)
| SessionInboundFailure (peer : Node)
| SessionResponseSent (peer : Node).

Definition handle_session_establishment_event (event : session_event) (now : Z) (late : Node -> Z) (m : SessionManager)
  : option (result KeyExchangeResponse ResponderSessionEstablishmentError) * SessionManager :=
  match event with
  | SessionRequest peer request =>
      let (res, m) := handle_session_establishment_request peer request now late m in (Some res, m)
  | SessionResponse peer response => (None, handle_session_establishment_response peer response now late m)
  | SessionOutboundFailure peer | SessionInboundFailure peer => (None, handle_session_establishment_failure peer now m)
  | SessionResponseSent _ => (None, m)
  end.

(** ** Looking sessions up *)

Definition get_established_session (node_id : Node) (use_for_send : bool) (now : Z) (m : SessionManager)
  : option loc * SessionManager :=
  match ttl_get node_id now (session_store m) with
  | Some l =>
      match heap m !! l with
      | Some session =>
          let (system, w) := system_now (world m) in
          (if use_for_send && (system <? use_expiry session) then Some l
           else if system <? accept_expiry session then Some l
           else None, set_mworld w m)
      | None => (None, m)
      end
  | None => (None, m)
  end.

Definition get_recent_receive_sessions (node_id : Node) (now : Z) (late : Node -> Z) (m : SessionManager)
  : list loc * SessionManager :=
  let current_session := ttl_get node_id now (session_store m) in
  let (cached, cache) := scoped_get (expired_session_cache m) node_id now late in
  (option_list current_session ++ cached, set_cache cache m).

Definition clear_session (node_id : Node) (now : Z) (late : Node -> Z) (m : SessionManager) : SessionManager :=
  let (old, x) := ttl_remove node_id now (session_store m) in
  let m := set_session_store x m in
  match old with
  | Some session => set_cache (scoped_push (expired_session_cache m) node_id session now late) m
  | None => m
  end.

(** ** [get_or_establish_session] *)

Definition SESSION_ESTABLISHMENT_TIMEOUT : Z := 10.

(** Where a call stands: before an attempt, between the look at the session store
    and the lock on the build store, waiting for the build of another call, or for
    its own. *)
Inductive caller :=
| Attempt (attempt : nat)
| LockBuilds (attempt : nat)
| AwaitBuild (attempt : nat) (c : channel)
| AwaitOwn (c : channel) (deadline : Z)
| Returned (r : result loc SessionEstablishmentError).

Definition next_attempt (attempt : nat) : caller :=
  if (attempt =? 0)%nat then Attempt 1
  else Returned (Err (InitiatorError (InitiatorInternal "Did not obtain a session in two loops which should be impossible"))).

(** The part that starts a build, under the lock of the build store *)
Definition start_build (node_id : Node) (for_contact_id : option ContactId) (now : Z) (m : SessionManager) : caller * SessionManager :=
  match initiator_secrets_new (world m) with
  | (Err _, w) => (Returned (Err (InitiatorError EphemeralSecretGenerationError)), set_mworld w m)
  | (Ok secrets, w) =>
      let m := set_mworld w m in
      match request_sign (request_new (is_public secrets) for_contact_id) (keys_private (mgr_keys m)) (self_contact_id m) with
      | None => (Returned (Err (InitiatorError SigningError)), m)
      | Some request =>
          let c := fresh (dom (channels m)) in
          let m := set_channels (<[c := None]> (channels m)) m in
          let x := (ttl_insert node_id (mk_build (is_private secrets) c) now (session_build_store m)).2 in
          let m := replace_build_store x None m in
          (AwaitOwn c (now + SESSION_ESTABLISHMENT_TIMEOUT), set_mworld (send_session_request node_id request (world m)) m)
      end
  end.

(** One step of a call; [None] while it waits. A receiver of a channel that does
    not exist would find it closed. *)
Definition caller_step (node_id : Node) (for_contact_id : option ContactId) (now : Z) (c : caller) (m : SessionManager)
  : outcome (option (caller * SessionManager)) :=
  match c with
  | Attempt attempt =>
      match get_established_session node_id true now m with
      | (Some l, m) => Ret (Some (Returned (Ok l), m))
      | (None, m) => Ret (Some (LockBuilds attempt, m))
      end
  | LockBuilds attempt =>
      match ttl_get node_id now (session_build_store m) with
      | Some b => Ret (Some (AwaitBuild attempt (b_channel b), m))
      | None => Ret (Some (start_build node_id for_contact_id now m))
      end
  | AwaitBuild attempt ch =>
      match channels m !! ch with
      | Some None => Ret None
      | Some (Some (Ok l)) => Ret (Some (Returned (Ok l), m))
      | Some (Some (Err _)) | None => Ret (Some (next_attempt attempt, m))
      end
  | AwaitOwn ch deadline =>
      match channels m !! ch with
      | Some (Some r) => Ret (Some (Returned r, m))
      | Some None => if deadline <=? now then Ret (Some (Returned (Err (InitiatorError NoResponse)), m)) else Ret None
      | None => Panic
      end
  | Returned _ => Ret None
  end.

(** ** All calls together *)

(** The callers, and the builds that were taken out of the store but not resolved
    yet: with a response that still waits for the brain, or (within a step) with
    a failure *)
Record system := mk_system {
  mgr : SessionManager;
  callers : gmap Z (Node * option ContactId * caller);
  hands : list (Node * option KeyExchangeResponse * Build);
}.

Definition with_mgr (m : SessionManager) (s : system) : system := mk_system m (callers s) (hands s).

(** The steps of the system. [StepCall] starts a call. *)
Inductive step_label :=
| StepCall (id : Z) (node : Node) (contact : option ContactId)
| StepCaller (id : Z)
| StepRequest (peer : Node) (request : AuthWireRequest)
| StepTake (peer : Node) (response : KeyExchangeResponse)
| StepFinish (i : nat)
| StepRefused (peer : Node) (e : ResponderSessionEstablishmentError)
| StepFailure (peer : Node)
| StepClear (peer : Node)
| StepReceive (peer : Node)
| StepContactId (c : ContactId)
| StepKeys (k : ContactKeys)
| StepClearBuilds
| StepClearSessions
| StepWorld (w : W).

Definition system_step (l : step_label) (now : Z) (late : Node -> Z) (s : system) : outcome system :=
  match l with
  | StepCall id node contact =>
      Ret (match callers s !! id with
           | Some _ => s
           | None => mk_system (mgr s) (<[id := (node, contact, Attempt 0)]> (callers s)) (hands s)
           end)
  | StepCaller id =>
      match callers s !! id with
      | Some (node, contact, c) =>
          let? r := caller_step node contact now c (mgr s) in
          Ret (match r with
               | Some (c, m) => mk_system m (<[id := (node, contact, c)]> (callers s)) (hands s)
               | None => s
               end)
      | None => Ret s
      end
  | StepRequest peer request => Ret (with_mgr (handle_session_establishment_request peer request now late (mgr s)).2 s)
  | StepTake peer response =>
      Ret (match take_build peer now (mgr s) with
           | (Some b, m) => mk_system m (callers s) ((peer, Some response, b) :: hands s)
           | (None, m) => with_mgr m s
           end)
  | StepFinish i =>
      Ret (match hands s !! i with
           | Some (peer, Some response, b) =>
               mk_system (finish_build peer response b now late (mgr s)) (callers s) (delete i (hands s))
           | _ => s
           end)
  | StepRefused peer e => Ret (with_mgr (handle_session_establishment_response peer (Err e) now late (mgr s)) s)
  | StepFailure peer => Ret (with_mgr (handle_session_establishment_failure peer now (mgr s)) s)
  | StepClear peer => Ret (with_mgr (clear_session peer now late (mgr s)) s)
  | StepReceive peer => Ret (with_mgr (get_recent_receive_sessions peer now late (mgr s)).2 s)
  | StepContactId c => Ret (with_mgr (set_contact_id c (mgr s)) s)
  | StepKeys k => Ret (with_mgr (set_keys k (mgr s)) s)
  | StepClearBuilds => Ret (with_mgr (clear_builds (mgr s)) s)
  | StepClearSessions => Ret (with_mgr (clear_sessions (mgr s)) s)
  | StepWorld w => Ret (with_mgr (set_mworld w (mgr s)) s)
  end.

Inductive reachable (c : ContactId) (k : ContactKeys) (now0 : Z) (w : W) : system -> Prop :=
| reachable_new : reachable c k now0 w (mk_system (manager_new c k now0 w) ∅ [])
| reachable_step s l now late s' :
    reachable c k now0 w s -> system_step l now late s = Ret s' -> reachable c k now0 w s'.

(** ** Who waits is answered *)

Local Abbreviation builds m := (ttl_content (session_build_store m)).

Definition hand_channel (h : Node * option KeyExchangeResponse * Build) : channel := b_channel h.2.

(** [c] is the channel of the build of [n], in the store or taken out. *)
Definition pending_for (n : Node) (c : channel) (s : system) : Prop :=
  (exists b d, builds (mgr s) !! n = Some (b, d) /\ b_channel b = c) \/
  (exists r b, (n, r, b) ∈ hands s /\ b_channel b = c).

Definition awaits (c : caller) : option channel :=
  match c with AwaitBuild _ ch | AwaitOwn ch _ => Some ch | _ => None end.

Record system_inv (s : system) : Prop := {
  si_owned n b d : builds (mgr s) !! n = Some (b, d) -> channels (mgr s) !! b_channel b = Some None;
  si_inj n1 n2 b1 b2 d1 d2 : builds (mgr s) !! n1 = Some (b1, d1) -> builds (mgr s) !! n2 = Some (b2, d2) ->
    b_channel b1 = b_channel b2 -> n1 = n2;
  si_hand h : h ∈ hands s -> channels (mgr s) !! hand_channel h = Some None /\
    forall n b d, builds (mgr s) !! n = Some (b, d) -> b_channel b <> hand_channel h;
  si_hand_nodup : NoDup (hand_channel <$> hands s);
  si_live c : channels (mgr s) !! c = Some None -> exists n, pending_for n c s;
  si_caller id n ct c ch : callers s !! id = Some (n, ct, c) -> awaits c = Some ch ->
    exists o, channels (mgr s) !! ch = Some o /\ (o = None -> pending_for n ch s);
}.

Lemma send_channel_builds c r m : session_build_store (send_channel c r m) = session_build_store m.
Proof. unfold send_channel. by repeat case_goal. Qed.

Lemma send_channel_eq c r m : channels m !! c = Some None -> channels (send_channel c r m) !! c = Some (Some r).
Proof. intros E. unfold send_channel. rewrite E. apply lookup_insert_eq. Qed.

Lemma send_channel_ne c r m c' : c' <> c -> channels (send_channel c r m) !! c' = channels m !! c'.
Proof. intros Hne. unfold send_channel. repeat case_goal; try done. by apply lookup_insert_ne. Qed.

Lemma send_channel_some c r m c' : channels m !! c' <> Some None -> channels (send_channel c r m) !! c' = channels m !! c'.
Proof. intros Hs. destruct (decide (c' = c)) as [->|]; [|by apply send_channel_ne]. unfold send_channel. by repeat case_goal. Qed.

Local Abbreviation drop_all cs m := (foldr (fun c m => send_channel c dropped_without_response m) m cs).

Lemma drop_all_spec cs m :
  session_build_store (drop_all cs m) = session_build_store m /\
  (forall c, c ∉ cs -> channels (drop_all cs m) !! c = channels m !! c) /\
  (forall c, c ∈ cs -> channels m !! c = Some None -> channels (drop_all cs m) !! c = Some (Some dropped_without_response)).
Proof.
  induction cs as [|c0 cs (E & H1 & H2)]; simpl; [split_and!; set_solver|]. rewrite send_channel_builds. split_and!; [done|..].
  - intros c Hc. rewrite send_channel_ne by set_solver. apply H1. set_solver.
  - intros c Hc Hn. destruct (decide (c ∈ cs)) as [Hin|Hin].
    + rewrite send_channel_some; [by apply H2|]. by rewrite (H2 _ Hin Hn).
    + assert (c = c0) as -> by set_solver. apply send_channel_eq. by rewrite H1.
Qed.

(** Which channels a change of the build store resolves *)
Definition gone (x : TtlMap M Build) (taken : option Build) (m : SessionManager) (c : channel) : Prop :=
  (exists n b d, builds m !! n = Some (b, d) /\ b_channel b = c) /\
  (forall n b d, ttl_content x !! n = Some (b, d) -> b_channel b <> c) /\ Some c <> b_channel <$> taken.

Lemma elem_of_channels (x : TtlMap M Build) c :
  c ∈ (fun e : Node * (Build * Z) => b_channel e.2.1) <$> map_to_list (ttl_content x) <->
  exists n b d, ttl_content x !! n = Some (b, d) /\ b_channel b = c.
Proof.
  rewrite list_elem_of_fmap. split.
  - intros ([n [b d]] & -> & Hin%elem_of_map_to_list). eauto.
  - intros (n & b & d & Hl & <-). exists (n, (b, d)). split; [done|]. by apply elem_of_map_to_list.
Qed.

(** Given that the builds in the store are unresolved, a channel keeps its value
    or belongs to a build that is gone and resolves. *)
Lemma replace_build_store_spec x taken m :
  (forall n b d, builds m !! n = Some (b, d) -> channels m !! b_channel b = Some None) ->
  session_build_store (replace_build_store x taken m) = x /\
  forall c, (~ gone x taken m c /\ channels (replace_build_store x taken m) !! c = channels m !! c) \/
    (gone x taken m c /\ channels m !! c = Some None /\
     channels (replace_build_store x taken m) !! c = Some (Some dropped_without_response)).
Proof.
  intros Ho. unfold replace_build_store. set (cs := filter _ _).
  assert (Hcs : forall c, c ∈ cs <-> gone x taken m c).
  { intros c. subst cs. rewrite list_elem_of_filter, !elem_of_channels. unfold gone. naive_solver. }
  destruct (drop_all_spec cs (set_build_store x m)) as (E & H1 & H2). split; [done|]. intros c.
  destruct (decide (c ∈ cs)) as [Hin|Hin]; [right|left].
  - assert (channels m !! c = Some None) by (apply Hcs in Hin as [(n & b & d & Hl & <-) _]; eauto).
    split_and!; [by apply Hcs|done|by apply H2].
  - rewrite <- Hcs. auto.
Qed.

(** Steps that touch neither builds nor channels *)
Lemma inv_same s m : system_inv s -> session_build_store m = session_build_store (mgr s) -> channels m = channels (mgr s) ->
  system_inv (with_mgr m s).
Proof. intros [] Eb Ec. split; unfold pending_for in *; simpl; rewrite ?Eb, ?Ec; done. Qed.

(** The build store loses builds *)
Lemma inv_lose s x :
  system_inv s -> (forall n e, ttl_content x !! n = Some e -> builds (mgr s) !! n = Some e) ->
  system_inv (with_mgr (replace_build_store x None (mgr s)) s).
Proof.
  intros [] Hx. destruct (replace_build_store_spec x None (mgr s) si_owned0) as (Eb & Hc).
  set (m' := replace_build_store x None (mgr s)) in *.
  assert (Hun : forall c, channels m' !! c = Some None -> channels (mgr s) !! c = Some None /\ ~ gone x None (mgr s) c).
  { intros c H. destruct (Hc c) as [[? E]|(_ & _ & E)]; rewrite E in H; done. }
  assert (Hpend : forall n c, pending_for n c s -> channels m' !! c = Some None -> pending_for n c (with_mgr m' s)).
  { intros n c [(b & d & Hl & <-)|Hh] [_ Hng]%Hun; [|by right]. left. exists b, d. simpl. rewrite Eb. split; [|done].
    destruct (ttl_content x !! n) as [e|] eqn:Hxn; [by rewrite (Hx _ _ Hxn) in Hl|]. destruct Hng.
    split_and!; [by eauto| |done]. intros n' b' d' Hl' Eq. pose proof (Hx _ _ Hl') as Hl''.
    assert (n' = n) by (by eapply si_inj0). congruence. }
  split; simpl; rewrite ?Eb.
  - intros n b d Hl. destruct (Hc (b_channel b)) as [[_ ->]|((_ & Hng & _) & _)]; [by eapply si_owned0, Hx|by destruct (Hng _ _ _ Hl)].
  - intros n1 n2 b1 b2 d1 d2 H1%Hx H2%Hx. by eapply si_inj0.
  - intros h Hin. destruct (si_hand0 _ Hin) as [Hh Hn]. split; [|intros n b d Hl%Hx; by eapply Hn].
    destruct (Hc (hand_channel h)) as [[_ ->]|(((n & b & d & Hl & E) & _) & _)]; [done|by destruct (Hn _ _ _ Hl)].
  - done.
  - intros c Hn. destruct (Hun _ Hn) as [Hn0 _]. destruct (si_live0 _ Hn0) as [n Hp]. exists n. by apply Hpend.
  - intros id n ct c ch Hcl Haw. destruct (si_caller0 _ _ _ _ _ Hcl Haw) as (o & Ho & Hp).
    destruct (Hc ch) as [[_ E]|(_ & _ & E)]; rewrite E; [|by eexists]. exists o. split; [done|]. intros ->.
    apply Hpend; [by apply Hp|congruence].
Qed.

(** A build is taken out of the store *)
Lemma inv_take s peer r x b d :
  system_inv s -> ttl_content x = delete peer (builds (mgr s)) -> builds (mgr s) !! peer = Some (b, d) ->
  system_inv (mk_system (replace_build_store x (Some b) (mgr s)) (callers s) ((peer, r, b) :: hands s)).
Proof.
  intros [] Hx Hb. destruct (replace_build_store_spec x (Some b) (mgr s) si_owned0) as (Eb & Hc).
  set (m' := replace_build_store x (Some b) (mgr s)) in *.
  assert (Hsame : forall c, channels m' !! c = channels (mgr s) !! c).
  { intros c. destruct (Hc c) as [[_ E]|(((n & b' & d' & Hl & <-) & Hng & Hne) & _ & _)]; [done|]. exfalso.
    destruct (decide (n = peer)) as [->|Hn]; [rewrite Hb in Hl; by injection Hl as <- <-|].
    apply (Hng n b' d'); [|done]. by rewrite Hx, lookup_delete_ne. }
  assert (Hpend : forall n c, pending_for n c s -> pending_for n c (mk_system m' (callers s) ((peer, r, b) :: hands s))).
  { intros n c [(b' & d' & Hl & <-)|(r' & b' & Hin & <-)]; [|right; exists r', b'; set_solver].
    destruct (decide (n = peer)) as [->|Hn]; [right|left].
    - rewrite Hb in Hl. injection Hl as <- <-. exists r, b. set_solver.
    - exists b', d'. simpl. rewrite Eb, Hx. by rewrite lookup_delete_ne. }
  split; simpl; rewrite ?Eb, ?Hx.
  - intros n b' d' [_ Hl]%lookup_delete_Some. rewrite Hsame. by eauto.
  - intros n1 n2 b1 b2 d1 d2 [_ H1]%lookup_delete_Some [_ H2]%lookup_delete_Some. by eapply si_inj0.
  - intros h [->|Hin]%elem_of_cons; rewrite Hsame; unfold hand_channel; simpl.
    + split; [by eauto|]. intros n b' d' [Hne Hl]%lookup_delete_Some E. destruct Hne. by eapply si_inj0.
    + destruct (si_hand0 _ Hin) as [Hh Hn]. split; [done|]. intros n b' d' [_ Hl]%lookup_delete_Some. by eapply Hn.
  - apply NoDup_cons. split; [|done]. intros (h & E & Hin)%list_elem_of_fmap. destruct (si_hand0 _ Hin) as [_ Hn]. by eapply (Hn peer b).
  - intros c. rewrite Hsame. intros [n Hp]%si_live0. exists n. by apply Hpend.
  - intros id n ct c ch Hcl Haw. rewrite Hsame. destruct (si_caller0 _ _ _ _ _ Hcl Haw) as (o & Ho & Hp). exists o. split; [done|].
    intros H. by apply Hpend, Hp.
Qed.

(** The build in hand is resolved *)
Lemma inv_resolve s i h r :
  system_inv s -> hands s !! i = Some h ->
  system_inv (mk_system (send_channel (hand_channel h) r (mgr s)) (callers s) (delete i (hands s))).
Proof.
  intros [] Hi. pose proof (list_elem_of_lookup_2 _ _ _ Hi) as Hin. destruct (si_hand0 _ Hin) as [Hh Hnb].
  assert (Hother : forall h', h' ∈ delete i (hands s) -> h' ∈ hands s /\ hand_channel h' <> hand_channel h).
  { intros h' Hin'. pose proof (delete_Permutation _ _ _ Hi) as HP. split; [by rewrite HP; right|]. intros E.
    rewrite HP in si_hand_nodup0. simpl in si_hand_nodup0. apply NoDup_cons in si_hand_nodup0 as [Hn _]. destruct Hn.
    apply list_elem_of_fmap. eauto. }
  assert (Hun : forall c, channels (send_channel (hand_channel h) r (mgr s)) !! c = Some None ->
    c <> hand_channel h /\ channels (mgr s) !! c = Some None).
  { intros c Hc. destruct (decide (c = hand_channel h)) as [->|Hne]; [by rewrite send_channel_eq in Hc|]. by rewrite send_channel_ne in Hc. }
  assert (Hpend : forall n c, pending_for n c s -> c <> hand_channel h ->
    pending_for n c (mk_system (send_channel (hand_channel h) r (mgr s)) (callers s) (delete i (hands s)))).
  { intros n c [Hb|(r' & b' & Hin' & <-)] Hne; [left; simpl; by rewrite send_channel_builds|right]. exists r', b'. split; [|done]. simpl.
    rewrite (delete_Permutation _ _ _ Hi) in Hin'. apply elem_of_cons in Hin' as [<-|?]; done. }
  split; simpl; rewrite ?send_channel_builds.
  - intros n b d Hl. rewrite send_channel_ne; [by eauto|by eapply Hnb].
  - done.
  - intros h' [Hin' Hne]%Hother. destruct (si_hand0 _ Hin') as [Hh' Hn']. by rewrite send_channel_ne.
  - rewrite (delete_Permutation _ _ _ Hi) in si_hand_nodup0. by apply NoDup_cons in si_hand_nodup0 as [_ ?].
  - intros c [Hne Hc]%Hun. destruct (si_live0 _ Hc) as [n Hp]. exists n. by apply Hpend.
  - intros id n ct c ch Hcl Haw. destruct (si_caller0 _ _ _ _ _ Hcl Haw) as (o & Ho & Hp).
    destruct (decide (ch = hand_channel h)) as [->|Hne]; [rewrite send_channel_eq by done; by eexists|].
    rewrite send_channel_ne by done. exists o. split; [done|]. intros ->. apply Hpend; [by apply Hp|done].
Qed.

(** A new build, on a fresh channel, replaces the one of its node. *)
Lemma inv_start s id n ct c b now m :
  system_inv s -> c ∉ dom (channels (mgr s)) -> callers s !! id = Some (n, ct, b) ->
  session_build_store m = session_build_store (mgr s) -> channels m = <[c := None]> (channels (mgr s)) ->
  forall secrets deadline, let x := (ttl_insert n (mk_build secrets c) now (session_build_store m)).2 in
  system_inv (mk_system (replace_build_store x None m) (<[id := (n, ct, AwaitOwn c deadline)]> (callers s)) (hands s)).
Proof.
  intros [] Hf Hid Emb Emc secrets deadline x. apply not_elem_of_dom in Hf.
  destruct (ttl_insert_content n (mk_build secrets c) now (session_build_store m)) as (_ & _ & Hxn & Hxo & _). fold x in Hxn, Hxo.
  assert (Hne : forall n' b' d', builds (mgr s) !! n' = Some (b', d') -> b_channel b' <> c) by (intros n' b' d' Hl%si_owned0; congruence).
  destruct (replace_build_store_spec x None m) as (Eb & Hc).
  { rewrite Emb, Emc. intros n' b' d' Hl. rewrite lookup_insert_ne; [by eauto|]. intros E. by eapply Hne. }
  set (m' := replace_build_store x None m) in *. unfold gone in Hc. rewrite Emb, Emc in Hc.
  assert (Hnew : channels m' !! c = Some None).
  { destruct (Hc c) as [[_ ->]|(((n' & b' & d' & Hl & E) & _) & _)]; [apply lookup_insert_eq|by destruct (Hne _ _ _ Hl)]. }
  assert (Hold : forall c', c' <> c -> (channels m' !! c' = channels (mgr s) !! c' /\
      ~ ((exists n b d, builds (mgr s) !! n = Some (b, d) /\ b_channel b = c') /\
         (forall n b d, ttl_content x !! n = Some (b, d) -> b_channel b <> c') /\ Some c' <> (b_channel <$> None))) \/
    channels m' !! c' = Some (Some dropped_without_response)).
  { intros c' Hn'. destruct (Hc c') as [[Hg E]|(_ & _ & E)]; [left; rewrite lookup_insert_ne in E by done; by split|by right]. }
  assert (Hx : forall n' b' d', ttl_content x !! n' = Some (b', d') ->
    (n' = n /\ b' = mk_build secrets c) \/ (n' <> n /\ builds (mgr s) !! n' = Some (b', d'))).
  { intros n' b' d' Hl. destruct (decide (n' = n)) as [->|Hn']; [left; rewrite Hxn in Hl; by injection Hl as <- <-|right].
    split; [done|]. apply Hxo in Hl; [|done]. by rewrite <- Emb. }
  assert (Hpend : forall n' c', pending_for n' c' s -> channels m' !! c' = Some None -> c' <> c ->
    pending_for n' c' (mk_system m' (<[id := (n, ct, AwaitOwn c deadline)]> (callers s)) (hands s))).
  { intros n' c' [(b' & d' & Hl & <-)|Hh] Hn' Hcc; [|by right]. left. exists b', d'. split; [|done]. simpl. rewrite Eb.
    destruct (Hold _ Hcc) as [[_ Hng]|E]; [|congruence]. destruct (ttl_content x !! n') as [[b2 d2]|] eqn:Hx2.
    - destruct (Hx _ _ _ Hx2) as [[-> ->]|[_ Hl2]]; [|congruence]. exfalso. apply Hng. split_and!; [by eauto| |done].
      intros n3 b3 d3 [[_ ->]|[Hn3 Hl3]]%Hx E; [done|]. assert (n3 = n) by (by eapply si_inj0). done.
    - exfalso. apply Hng. split_and!; [by eauto| |done]. intros n3 b3 d3 Hl3 E. destruct (Hx _ _ _ Hl3) as [[_ ->]|[Hn3 Hl3']]; [done|].
      assert (n3 = n') as -> by (by eapply si_inj0). congruence. }
  split; simpl; rewrite ?Eb.
  - intros n' b' d' Hl. destruct (Hx _ _ _ Hl) as [[_ ->]|[_ Hl']]; [done|]. destruct (Hold (b_channel b')) as [[-> _]|E]; [by eapply Hne|by eauto|].
    destruct (Hc (b_channel b')) as [[_ E']|((_ & Hng & _) & _)]; [|by destruct (Hng _ _ _ Hl)].
    rewrite lookup_insert_ne in E' by (intros ->; by eapply Hne). rewrite E'. by eauto.
  - intros n1 n2 b1 b2 d1 d2 [[-> ->]|[_ H1]]%Hx [[-> ->]|[_ H2]]%Hx E; [done| | |by eapply si_inj0].
    + by destruct (Hne _ _ _ H2).
    + by destruct (Hne _ _ _ H1).
  - intros h Hin. destruct (si_hand0 _ Hin) as [Hh Hn]. assert (hand_channel h <> c) by congruence. split.
    + destruct (Hc (hand_channel h)) as [[_ E]|(((n' & b' & d' & Hl & E) & _) & _)]; [by rewrite E, lookup_insert_ne by congruence|by destruct (Hn _ _ _ Hl)].
    + intros n' b' d' [[_ ->]|[_ Hl]]%Hx; [done|by eapply Hn].
  - done.
  - intros c' Hn'. destruct (decide (c' = c)) as [->|Hcc]; [exists n; left; exists (mk_build secrets c); simpl; rewrite Eb; eauto|].
    destruct (Hold _ Hcc) as [[E _]|E]; [|congruence]. rewrite E in Hn'. destruct (si_live0 _ Hn') as [n' Hp]. exists n'.
    apply Hpend; [done|congruence|done].
  - intros id' n' ct' c' ch [[<- [= <- <- <-]]|[_ Hcl]]%lookup_insert_Some Haw.
    + injection Haw as <-. exists None. split; [done|]. intros _. left. exists (mk_build secrets c). simpl. rewrite Eb. eauto.
    + destruct (si_caller0 _ _ _ _ _ Hcl Haw) as (o & Ho & Hp). assert (ch <> c) as Hcc by congruence.
      destruct (Hold _ Hcc) as [[E _]|E]; rewrite E; [|by eexists]. exists o. split; [done|]. intros ->.
      apply Hpend; [by apply Hp|congruence|done].
Qed.

Lemma inv_new c k now0 w : system_inv (mk_system (manager_new c k now0 w) ∅ []).
Proof. split; unfold pending_for; simpl; rewrite ?ttl_new_content; try done; try set_solver. apply NoDup_nil_2. Qed.

(** A caller moves on without touching builds or channels. *)
Lemma inv_caller s id n ct c c' m :
  system_inv s -> callers s !! id = Some (n, ct, c) ->
  session_build_store m = session_build_store (mgr s) -> channels m = channels (mgr s) ->
  (forall ch, awaits c' = Some ch -> channels (mgr s) !! ch = Some None /\ pending_for n ch s) ->
  system_inv (mk_system m (<[id := (n, ct, c')]> (callers s)) (hands s)).
Proof.
  intros [] Hid Eb Ec Haw. split; unfold pending_for in *; simpl; rewrite ?Eb, ?Ec; try done.
  intros id' n' ct' c'' ch [[<- [= <- <- <-]]|[_ Hcl]]%lookup_insert_Some Ha; [|by eauto].
  destruct (Haw _ Ha) as [Hn Hp]. exists None. eauto.
Qed.

Lemma established_same n b now m :
  session_build_store (get_established_session n b now m).2 = session_build_store m /\
  channels (get_established_session n b now m).2 = channels m.
Proof. unfold get_established_session. repeat case_goal; simplify_eq; done. Qed.

Lemma store_session_same p l now late m :
  session_build_store (store_session p l now late m) = session_build_store m /\ channels (store_session p l now late m) = channels m.
Proof. unfold store_session. repeat case_goal; simplify_eq; done. Qed.

Lemma inv_store s p l now late : system_inv s -> system_inv (with_mgr (store_session p l now late (mgr s)) s).
Proof. intros. by apply inv_same; [|apply store_session_same..]. Qed.

Lemma request_same p r now late m :
  session_build_store (handle_session_establishment_request p r now late m).2 = session_build_store m /\
  channels (handle_session_establishment_request p r now late m).2 = channels m.
Proof.
  unfold handle_session_establishment_request. destruct (get_contact_public_keys _ _) as [keys w].
  destruct (to_session_and_response _ _ _) as [[[s resp]|[e|e]] w1]; [|done..].
  destruct (response_sign _ _ _ _) as [signed|]; [|done]. simpl. by rewrite !(proj1 (store_session_same _ _ _ _ _)), !(proj2 (store_session_same _ _ _ _ _)).
Qed.

(** No step panics, and every step keeps the invariant. *)
Lemma inv_caller_step s id now late :
  system_inv s -> exists s', system_step (StepCaller id) now late s = Ret s' /\ system_inv s'.
Proof.
  intros Hi. simpl. destruct (callers s !! id) as [[[n ct] c]|] eqn:Hid; [|by eauto].
  destruct c as [a|a|a ch|ch dl|r]; simpl; [| | | |by eauto].
  - pose proof (established_same n true now (mgr s)) as [E1 E2].
    destruct (get_established_session n true now (mgr s)) as [[l|] m]; simpl in *; (eexists; split; [done|]); by eapply inv_caller.
  - destruct (ttl_get n now (session_build_store (mgr s))) as [b|] eqn:Eg; simpl.
    + eexists. split; [done|]. eapply inv_caller; try done. intros ch [= <-].
      apply ttl_get_content in Eg as (d & Hl & _). split; [by eapply (si_owned _ Hi)|]. left. eauto.
    + unfold start_build. destruct (initiator_secrets_new (world (mgr s))) as [[secrets|e] w]; simpl; [|eexists; split; [done|]; by eapply inv_caller].
      destruct (request_sign _ _ _) as [request|]; simpl; [|eexists; split; [done|]; by eapply inv_caller].
      eexists. split; [done|].
      match goal with |- system_inv (mk_system (set_mworld ?w' ?m) ?cs ?hs) =>
        change (system_inv (with_mgr (set_mworld w' (mgr (mk_system m cs hs))) (mk_system m cs hs))) end.
      apply inv_same; [|done|done].
      apply (inv_start s id n ct _ (LockBuilds a) now (set_channels (<[fresh (dom (channels (mgr s))) := None]> (channels (mgr s))) (set_mworld w (mgr s))));
        [done|apply is_fresh|done..].
  - destruct (channels (mgr s) !! ch) as [[[l|e]|]|] eqn:Ec; simpl; [| |by eauto|]; (eexists; split; [done|]); eapply inv_caller; try done; by destruct a.
  - destruct (si_caller _ Hi _ _ _ _ _ Hid eq_refl) as (o & -> & _). destruct o as [r|]; simpl; [|case_goal; [|by eauto]];
      (eexists; split; [done|]); by eapply inv_caller.
Qed.

Lemma inv_take_build s peer r now :
  system_inv s ->
  match take_build peer now (mgr s) with
  | (Some b, m) => system_inv (mk_system m (callers s) ((peer, r, b) :: hands s))
  | (None, m) => system_inv (with_mgr m s)
  end.
Proof.
  intros Hi. unfold take_build. destruct (ttl_remove_content peer now (session_build_store (mgr s))) as (Ec & _ & Hr).
  destruct (ttl_remove peer now (session_build_store (mgr s))) as [[b|] x]; simpl in *.
  - destruct Hr as [d Hl]. by eapply inv_take.
  - apply inv_lose; [done|]. rewrite Ec. intros n e [_ ?]%lookup_delete_Some. done.
Qed.

(** Taking a build and answering its waiters at once *)
Lemma inv_cancel s peer now e :
  system_inv s ->
  system_inv (with_mgr (match take_build peer now (mgr s) with (Some b, m) => cancel b e m | (None, m) => m end) s).
Proof.
  intros Hi. pose proof (inv_take_build s peer None now Hi) as H. destruct (take_build peer now (mgr s)) as [[b|] m]; [|done].
  by apply (inv_resolve _ 0 (peer, None, b) (Err e)) in H.
Qed.

Lemma inv_finish s i peer r b now late :
  system_inv s -> hands s !! i = Some (peer, Some r, b) ->
  system_inv (mk_system (finish_build peer r b now late (mgr s)) (callers s) (delete i (hands s))).
Proof.
  intros Hi Hl. unfold finish_build. destruct (get_contact_public_keys _ _) as [keys w].
  assert (Hres : forall m res, session_build_store m = session_build_store (mgr s) -> channels m = channels (mgr s) ->
    system_inv (mk_system (send_channel (b_channel b) res m) (callers s) (delete i (hands s)))).
  { intros m res Eb Ec. by apply (inv_resolve (with_mgr m s) i (peer, Some r, b) res); [apply inv_same|]. }
  destruct (creation_to_session _ _ _ _) as [[res bc] w1] eqn:Ecr. destruct res as [sess|e].
  - pose proof (Hres (alloc sess (set_mworld w1 (mgr s))).2 (Ok (alloc sess (set_mworld w1 (mgr s))).1) eq_refl eq_refl) as H. simpl in *.
    by apply (inv_store _ peer (fresh (dom (heap (mgr s)))) now late) in H.
  - destruct bc as [sess|cause]; [|by apply Hres]. exfalso. revert Ecr. unfold creation_to_session. repeat case_goal; try done; by intros [=].
Qed.

Lemma inv_system_step l s now late :
  system_inv s -> exists s', system_step l now late s = Ret s' /\ system_inv s'.
Proof.
  intros Hi. destruct l as [id n ct|id|p q|p r|i|p e|p|p|p|c|k| | |w].
  - simpl. eexists. split; [done|]. destruct (callers s !! id) eqn:E; [done|]. destruct Hi. split; try done. simpl.
    intros id' n' ct' c ch [[<- [= <- <- <-]]|[_ Hcl]]%lookup_insert_Some Ha; [done|by eauto].
  - by apply inv_caller_step.
  - simpl. eexists. split; [done|]. by apply inv_same; [|apply request_same..].
  - simpl. eexists. split; [done|]. pose proof (inv_take_build s p (Some r) now Hi) as H. by destruct (take_build p now (mgr s)) as [[b|] m].
  - simpl. eexists. split; [done|]. destruct (hands s !! i) as [[[p [r|]] b]|] eqn:E; [by apply inv_finish|done..].
  - simpl. eexists. split; [done|]. by apply inv_cancel.
  - simpl. eexists. split; [done|]. by apply inv_cancel.
  - simpl. eexists. split; [done|]. apply inv_same; [done|unfold clear_session; repeat case_goal; by simplify_eq..].
  - simpl. eexists. split; [done|]. apply inv_same; [done|unfold get_recent_receive_sessions; repeat case_goal; by simplify_eq..].
  - simpl. eexists. split; [done|]. by apply inv_same.
  - simpl. eexists. split; [done|]. by apply inv_same.
  - simpl. eexists. split; [done|]. apply inv_lose; [done|]. rewrite ttl_clear_content. by intros n e ?%lookup_empty_Some.
  - simpl. eexists. split; [done|]. by apply inv_same.
  - simpl. eexists. split; [done|]. by apply inv_same.
Qed.

Lemma manager_reachable_inv c k now0 w s : reachable c k now0 w s -> system_inv s.
Proof.
  induction 1 as [|s l now late s' _ IH E]; [apply inv_new|].
  destruct (inv_system_step l s now late IH) as (s1 & E1 & Hi). by rewrite E in E1; injection E1 as <-.
Qed.

(** Whatever happens to the build of [n] afterwards, [c] has a value. *)
Definition resolved (c : channel) (m : SessionManager) : Prop := exists r, channels m !! c = Some (Some r).

Lemma resolved_send c c' r m : resolved c m -> resolved c (send_channel c' r m).
Proof. intros [r' E]. exists r'. by rewrite send_channel_some; rewrite E. Qed.

Lemma resolved_self c r m : channels m !! c = Some None -> resolved c (send_channel c r m).
Proof. intros E. exists r. by apply send_channel_eq. Qed.

(** Taking the build of a node out of the store returns it, or it has expired and
    is dropped. *)
Lemma take_build_spec s n now b d :
  system_inv s -> builds (mgr s) !! n = Some (b, d) ->
  match take_build n now (mgr s) with
  | (Some b', m) => b' = b /\ channels m !! b_channel b = Some None
  | (None, m) => resolved (b_channel b) m
  end.
Proof.
  intros Hi Hl. unfold take_build. destruct (ttl_remove_content n now (session_build_store (mgr s))) as (Ec & _ & Hr).
  destruct (ttl_remove n now (session_build_store (mgr s))) as [ob x]. simpl in *.
  destruct (replace_build_store_spec x ob (mgr s) (si_owned _ Hi)) as [_ Hc]. destruct (Hc (b_channel b)) as [[Hg E]|(Hg & _ & E)].
  - destruct ob as [b'|].
    + destruct Hr as [d' Hl']. rewrite Hl in Hl'. injection Hl' as -> ->. split; [done|]. rewrite E. by eapply (si_owned _ Hi).
    + destruct Hg. split_and!; [by eauto| |done]. rewrite Ec. intros n' b' d' [Hne Hl']%lookup_delete_Some Eb. destruct Hne.
      by eapply (si_inj _ Hi).
  - destruct ob as [b'|]; [|by eexists]. destruct Hr as [d' Hl']. rewrite Hl in Hl'. injection Hl' as -> ->. by destruct Hg as (_ & _ & ?).
Qed.

Lemma finish_resolves peer r b now late m :
  channels m !! b_channel b = Some None -> resolved (b_channel b) (finish_build peer r b now late m).
Proof.
  intros E. unfold finish_build. destruct (get_contact_public_keys _ _) as [keys w].
  destruct (creation_to_session _ _ _ _) as [[res bc] w1] eqn:Ecr. destruct res as [sess|e].
  - simpl. unfold resolved. rewrite (proj2 (store_session_same _ _ _ _ _)). by apply resolved_self.
  - destruct bc as [sess|cause]; [|by apply resolved_self]. exfalso. revert Ecr. unfold creation_to_session. repeat case_goal; try done; by intros [=].
Qed.

(** C30 Nobody who asks for a session is forgotten. In every reachable state no
    step panics; a call that waits for the session of a node waits on a channel
    that exists (it never subscribes too late), and as long as that channel is
    silent the node's build is in the store or being finished. The response to the
    build, be it a success, an error or forged, its failure and a change of
    identity each answer all who wait for it. *)
Theorem session_waiters_are_served c0 k0 now0 w0 s now late :
  reachable c0 k0 now0 w0 s ->
  (forall l, exists s', system_step l now late s = Ret s') /\
  (forall id n ct c ch, callers s !! id = Some (n, ct, c) -> awaits c = Some ch ->
     resolved ch (mgr s) \/ (channels (mgr s) !! ch = Some None /\ pending_for n ch s)) /\
  (forall n b d, builds (mgr s) !! n = Some (b, d) ->
     (forall r, resolved (b_channel b) (handle_session_establishment_response n r now late (mgr s))) /\
     resolved (b_channel b) (handle_session_establishment_failure n now (mgr s)) /\
     resolved (b_channel b) (clear_builds (mgr s))) /\
  (forall n r b, (n, Some r, b) ∈ hands s -> resolved (b_channel b) (finish_build n r b now late (mgr s))).
Proof.
  intros Hr%manager_reachable_inv. split_and!.
  - intros l. destruct (inv_system_step l s now late Hr) as (s' & E & _). eauto.
  - intros id n ct c ch Hcl Haw. destruct (si_caller _ Hr _ _ _ _ _ Hcl Haw) as (o & Ho & Hp).
    destruct o as [r|]; [left; by exists r|right; auto].
  - intros n b d Hl. pose proof (take_build_spec s n now b d Hr Hl) as Ht. split_and!.
    + intros [r|e]; simpl; destruct (take_build n now (mgr s)) as [[b'|] m]; try done; destruct Ht as [-> Ht];
        [by apply finish_resolves|by apply resolved_self].
    + unfold handle_session_establishment_failure. destruct (take_build n now (mgr s)) as [[b'|] m]; [|done].
      destruct Ht as [-> Ht]. by apply resolved_self.
    + unfold clear_builds. destruct (replace_build_store_spec (ttl_clear (session_build_store (mgr s))) None (mgr s) (si_owned _ Hr)) as [_ Hc].
      destruct (Hc (b_channel b)) as [[Hg _]|(_ & _ & E)]; [|by eexists]. destruct Hg. split_and!; [by eauto| |done].
      rewrite ttl_clear_content. by intros n' b' d' ?%lookup_empty_Some.
  - intros n r b Hin. apply finish_resolves. by apply (si_hand _ Hr) in Hin as [? _].
Qed.

(** ** A call ends *)

Definition attempts_left (c : caller) : nat :=
  match c with
  | Attempt a => 6 - 3 * a
  | LockBuilds a => 5 - 3 * a
  | AwaitBuild a _ => 4 - 3 * a
  | AwaitOwn _ _ => 1
  | Returned _ => 0
  end.

Definition at_most_second (c : caller) : Prop :=
  match c with Attempt a | LockBuilds a | AwaitBuild a _ => (a <= 1)%nat | _ => True end.

(** C31 A call of get_or_establish_session ends: every move of it brings it closer
    to a result, at most six moves are possible, it makes at most two attempts,
    and it is only ever held up by a silent channel; on its own build it waits at
    most ten seconds. *)
Theorem call_ends n ct now c m :
  at_most_second c ->
  match caller_step n ct now c m with
  | Ret (Some (c', _)) => at_most_second c' /\ (attempts_left c' < attempts_left c)%nat
  | Ret None =>
      (exists r, c = Returned r) \/
      (exists ch, awaits c = Some ch /\ channels m !! ch = Some None /\ forall dl, c = AwaitOwn ch dl -> now < dl)
  | _ => exists ch dl, c = AwaitOwn ch dl /\ channels m !! ch = None
  end.
Proof.
  destruct c as [a|a|a ch|ch dl|r]; simpl; intros Ha.
  - destruct (get_established_session n true now m) as [[l|] m']; simpl; split; try done; lia.
  - destruct (ttl_get n now (session_build_store m)) as [b|]; [simpl; split; [done|lia]|].
    unfold start_build. destruct (initiator_secrets_new (world m)) as [[secrets|e] w]; simpl; [|split; [done|lia]].
    destruct (request_sign _ _ _); simpl; split; try done; lia.
  - destruct (channels m !! ch) as [[[l|e]|]|] eqn:E; simpl; [split; [done|lia]| |right; exists ch; split_and!; [done|done|by intros]|];
      (destruct a as [|[|]]; simpl; [split; lia|split; [done|lia]|lia]).
  - destruct (channels m !! ch) as [[r|]|] eqn:E; simpl; [split; [done|lia]| |by eauto].
    destruct (dl <=? now) eqn:Ed; simpl; [split; [done|lia]|]. bools. right. exists ch. split_and!; [done|done|]. by intros ? [= <-].
  - left. eauto.
Qed.

(** ** Impersonation *)

Section Impersonation.
Context `{!PrimitivesLaws W}.

(** The sessions that a step adds to the heap satisfy [P]. *)
Definition new_sessions (m m' : SessionManager) (P : Session -> Prop) : Prop :=
  forall l s, heap m !! l = None -> heap m' !! l = Some s -> P s.

Lemma new_sessions_none m m' P : heap m' = heap m -> new_sessions m m' P.
Proof. intros E l s Hn. rewrite E, Hn. done. Qed.

Lemma new_sessions_one m m' s l P : heap m' = <[l := s]> (heap m) -> P s -> new_sessions m m' P.
Proof. intros E HP l' s' Hn. rewrite E. intros [[_ <-]|[_ H']]%lookup_insert_Some; [done|congruence]. Qed.

Lemma store_session_heap peer l now late m : heap (store_session peer l now late m) = heap m.
Proof. unfold store_session. by destruct (ttl_insert _ _ _ _) as [[] ?]. Qed.

Lemma send_channel_heap c r m : heap (send_channel c r m) = heap m.
Proof. unfold send_channel. by destruct (channels m !! c) as [[]|]. Qed.

Lemma take_build_heap peer now m : heap (take_build peer now m).2 = heap m.
Proof.
  unfold take_build. destruct (ttl_remove _ _ _) as [b x]. cbn [snd]. unfold replace_build_store.
  induction (filter _ _) as [|c l IH]; [done|]. cbn [foldr]. by rewrite send_channel_heap.
Qed.

(** C27 Nobody can impersonate a contact [c] whose public keys the brain knows: if
    signatures cannot be forged, then a session that carries the id of [c] is built
    only from a message that [c] signed, in this very role ([requests] as initiator,
    [responses] as responder), whatever the message claims about its sender. The keys
    are those that the brain has for the claimed sender, and a session carries the id
    whose keys verified it; so the keys of another contact do not help, and without
    keys a session carries no id. *)
Theorem no_impersonation c (public : ContactPublicKeys) available1 available2 (requests : list SessionInitiationRequest)
    (responses : list KeyExchangeResponseMessage) :
  Forall wf_request requests -> Forall wf_response responses ->
  unforgeable public available1 available2 ((request_get_vec <$> requests) ++ (response_get_vec <$> responses)) ->
  (forall w keys, (get_contact_public_keys c w).1 = Some keys -> keys = public) ->
  (forall peer req now late m, wf_request (wq_message req) ->
     available1 (wq_dilithium_signature req) -> available2 (wq_ed25519_signature req) ->
     new_sessions m (handle_session_establishment_request peer req now late m).2 (fun s =>
       get_contact_id (authentication_type s) = Some c -> wq_sender req = c /\ wq_message req ∈ requests)) /\
  (forall peer resp now late m, wf_response (wr_message resp) ->
     available1 (wr_dilithium_signature resp) -> available2 (wr_ed25519_signature resp) ->
     new_sessions m (handle_session_establishment_response peer (Ok resp) now late m) (fun s =>
       get_contact_id (authentication_type s) = Some c -> wr_sender resp = c /\ wr_message resp ∈ responses)).
Proof.
  intros Hwq Hwr Hunf Hkeys. split.
  - intros peer req now late m Hwf Ha1 Ha2. unfold handle_session_establishment_request.
    pose proof (Hkeys (world m)) as Hk. destruct (get_contact_public_keys (wq_sender req) (world m)) as [keys w] eqn:Eg.
    destruct (to_session_and_response _ _ _) as [[[s msg]|[]] w1] eqn:Et; [|by apply new_sessions_none..].
    destruct (response_sign _ _ _ _); [|by apply new_sessions_none]. unfold alloc. cbn [snd].
    eapply new_sessions_one; [by rewrite store_session_heap|]. apply request_session in Et as [-> Hv].
    destruct keys as [keys|]; [|done]. intros [= <-]. split; [done|]. rewrite Eg in Hk. assert (keys = public) as -> by (by apply Hk).
    eapply (signed_request public available1 available2 requests responses); eauto.
  - intros peer resp now late m Hwf Ha1 Ha2. unfold handle_session_establishment_response.
    pose proof (take_build_heap peer now m) as Eh. destruct (take_build peer now m) as [[b|] m1]; [|by apply new_sessions_none].
    cbn [snd] in Eh. unfold finish_build. pose proof (Hkeys (world m1)) as Hk.
    destruct (get_contact_public_keys (wr_sender resp) (world m1)) as [keys w] eqn:Eg.
    destruct (creation_to_session _ _ _ _) as [[[s|e] bc] w1] eqn:Et.
    2: { destruct bc; apply new_sessions_none; [done|]. by rewrite send_channel_heap. }
    unfold alloc. eapply new_sessions_one; [rewrite store_session_heap, send_channel_heap; cbn [heap set_heap set_mworld]; by rewrite Eh|].
    apply response_session in Et as [-> Hv]. destruct keys as [keys|]; [|done]. intros [= <-]. split; [done|].
    rewrite Eg in Hk. assert (keys = public) as -> by (by apply Hk). destruct (Hv _ eq_refl) as [msg Hm].
    eapply (signed_response public available1 available2 requests responses); eauto.
Qed.
End Impersonation.

(** ** Replaced sessions *)

Definition push_or_get (c : scoped_call (K := Node) (V := loc)) : Prop :=
  match c_op c with SPush _ _ | SGet _ => True | _ => False end.

Lemma log_run_keeps ttl cs (log : Node -> list (TimedValue loc)) k x :
  Forall push_or_get cs -> x ∈ log k -> x ∈ log_run ttl log cs k.
Proof.
  intros Hcs. revert log. induction Hcs as [|c cs Hc _ IH]; [done|]. intros log Hx. simpl. apply IH.
  destruct (c_op c) eqn:E; simpl; unfold push_or_get in Hc; rewrite E in Hc; try done. case_decide; set_solver.
Qed.

(** A session that was replaced or cleared still decrypts what was sent under
    it: for 15 seconds, less the time that a call can wait for the lock of the cache,
    get_recent_receive_sessions returns it, behind the current session, whatever else
    is cached or read in between. *)
Theorem replaced_session_is_receivable wait m m1 m2 t0 before after peer old now late locked fin now' late' locked' fin' :
  0 <= wait -> expired_session_cache m = scoped_run (scoped_new 15 15 60 t0) before ->
  ttl_get peer now (session_store m) = Some old ->
  (exists l, m1 = store_session peer l now late m) \/ m1 = clear_session peer now late m ->
  expired_session_cache m2 = scoped_run (expired_session_cache m1) after -> Forall push_or_get after ->
  calls_ordered wait t0 ((before ++ mk_call (SPush peer old) now late locked fin :: after) ++ [mk_call (SGet peer) now' late' locked' fin']) ->
  fin' + wait < now + 15 ->
  let r := (get_recent_receive_sessions peer now' late' m2).1 in
  old ∈ r /\ forall l, ttl_get peer now' (session_store m2) = Some l -> head r = Some l.
Proof.
  intros Hwait Hcache Hget Hm1 Hm2 Hafter Hmono Hfin' r.
  assert (Epush : expired_session_cache m1 = scoped_push (expired_session_cache m) peer old now late).
  { destruct Hm1 as [[l E]|E]; rewrite E; clear E.
    - unfold store_session. destruct (ttl_insert_content peer l now (session_store m)) as [E _]. rewrite Hget in E.
      destruct (ttl_insert peer l now (session_store m)) as [o x]. simpl in E. by subst o.
    - unfold clear_session. destruct (ttl_remove_content peer now (session_store m)) as (_ & _ & E).
      apply ttl_get_content in Hget as Hg. destruct Hg as (d & Hl & _).
      destruct (ttl_remove peer now (session_store m)) as [[o|] x]; simpl in E; [|congruence]. destruct E as [d' Hl']. rewrite Hl in Hl'. by injection Hl' as <- <-. }
  set (cs := before ++ mk_call (SPush peer old) now late locked fin :: after).
  assert (Ecache : expired_session_cache m2 = scoped_run (scoped_new 15 15 60 t0) cs).
  { rewrite Hm2, Epush, Hcache. unfold cs, scoped_run. by rewrite fold_left_app. }
  assert (Hin : mk_tv old (now + 15) ∈ log_run 15 (fun _ => []) cs peer).
  { unfold cs, log_run. rewrite fold_left_app. apply (log_run_keeps 15 after); [done|]. simpl. rewrite decide_True by done. set_solver. }
  assert (Hlive : old ∈ live_values (log_run 15 (fun _ => []) cs peer) (fin' + wait)).
  { unfold live_values. apply list_elem_of_fmap. exists (mk_tv old (now + 15)). split; [done|]. unfold unexpired.
    apply list_elem_of_In, filter_In. split; [apply in_rev; rewrite rev_involutive; by apply list_elem_of_In|apply Z.ltb_lt; simpl; lia]. }
  subst r. unfold get_recent_receive_sessions. rewrite Ecache.
  destruct (scoped_run_get wait Hwait 15 15 60 t0 cs peer now' late' locked' fin') as [Hv _]; [done|done|exact Hmono|].
  destruct (scoped_get _ peer now' late') as [cached cache]. simpl in *. split.
  - apply elem_of_app. right. by apply (sublist_subseteq _ _ Hv).
  - by intros l ->.
Qed.

End Manager.

(** ** A manager in memory *)

Module ToyManager.
Import ToyKeys MemoryMap.

#[export] Instance toy_env : ManagerEnv Z := {
  Node := Z;
  get_contact_public_keys _ w := (None, w);
  send_session_request _ _ w := w;
}.

Abbreviation toy_map := (mem_map (K := Z)).

Definition toy_manager : SessionManager (M := toy_map) := manager_new "alice" (toy_keys 1) 0 5.

(** Two calls for the same node: the first starts a build, the second waits for
    it. *)
Definition two_calls : list step_label :=
  [StepCall 1 7 None; StepCaller 1; StepCaller 1; StepCall 2 7 None; StepCaller 2; StepCaller 2].

Definition toy_run (ls : list step_label) : outcome (system (M := toy_map)) :=
  foldl (fun s l => let? s := s in system_step l 1 (fun _ => 1) s) (Ret (mk_system toy_manager ∅ [])) ls.

Lemma toy_run_reachable ls s : toy_run ls = Ret s -> reachable "alice" (toy_keys 1) 0 5 s.
Proof.
  unfold toy_run. revert s. induction ls as [|l ls IH] using rev_ind; intros s; [intros [= <-]; constructor|].
  rewrite foldl_app. simpl. intros (s1 & E1 & E)%outcome_bind_ret. by econstructor; [apply IH|].
Qed.

Definition after_two_calls : system (M := toy_map) :=
  match toy_run two_calls with Ret s => s | _ => mk_system toy_manager ∅ [] end.

End ToyManager.
Import ToyKeys MemoryMap ToyManager.

Lemma session_waiters_are_served_witness :
  let s := after_two_calls in
  callers s !! 1 = Some (7, None, AwaitOwn 0 11) /\ callers s !! 2 = Some (7, None, AwaitBuild 0 0) /\
  resolved 0 (handle_session_establishment_failure 7 2 (mgr s)).
Proof.
  destruct (session_waiters_are_served "alice" (toy_keys 1) 0 5 after_two_calls 2 (fun _ => 2)) as (_ & _ & Hb & _).
  - apply (toy_run_reachable two_calls). vm_compute. reflexivity.
  - split; [vm_compute; reflexivity|]. split; [vm_compute; reflexivity|].
    destruct (Hb 7 (mk_build (@mk_init_private Z toy_primitives 6 5) 0) 61) as (_ & H & _); [vm_compute; reflexivity|exact H].
Defined.

Lemma call_ends_witness :
  match caller_step 7 None 1 (Attempt 0) toy_manager with
  | Ret (Some (c', _)) => (attempts_left c' < 6)%nat
  | _ => False
  end.
Proof.
  pose proof (call_ends 7 None 1 (Attempt 0) toy_manager ltac:(simpl; lia)) as H. vm_compute in H. vm_compute. apply H.
Defined.

(** The session 3 of node 7 is replaced by the session 4. *)
Lemma replaced_session_is_receivable_witness :
  let m := store_session 7 3 1 (fun _ => 1) toy_manager in
  let m1 := store_session 7 4 2 (fun _ => 2) m in
  (get_recent_receive_sessions 7 16 (fun _ => 16) m1).1 = [4; 3] /\ 3 ∈ (get_recent_receive_sessions 7 16 (fun _ => 16) m1).1.
Proof.
  split; [vm_compute; reflexivity|].
  refine (proj1 (replaced_session_is_receivable 0 (store_session 7 3 1 (fun _ => 1) toy_manager)
    (store_session 7 4 2 (fun _ => 2) (store_session 7 3 1 (fun _ => 1) toy_manager)) _ 0 [] [] 7 3 2 (fun _ => 2) 2 2 16 (fun _ => 16) 16 16
    _ eq_refl eq_refl (or_introl (ex_intro _ 4 eq_refl)) eq_refl (Forall_nil_2 _) _ _)); simpl; [lia| |lia].
  split_and!; intros; simpl; done || lia.
Defined.

(** ** Who alice is *)

Module ToyContacts.

(** The brain knows the keys of alice and of mallory. *)
Definition known_env : ManagerEnv Z := {|
  Node := Z;
  get_contact_public_keys c w :=
    (if decide (c = "alice"%string) then Some (keys_public (toy_keys 1))
     else if decide (c = "mallory"%string) then Some (keys_public (toy_keys 3)) else None, w);
  send_session_request _ _ w := w;
|}.
#[local] Existing Instance known_env.

(** Alice signed one request and one response; others sign with other keys. *)
Definition not_alice (s : Z * bytes) : Prop :=
  s = (1, request_get_vec demo_request) \/ s = (1, response_get_vec demo_response) \/ s.1 <> 1.

(** The manager of bob, with a build for node 7. *)
Definition bob : SessionManager (M := mem_map (K := Z)) :=
  let m := manager_new "bob" (toy_keys 2) 0 5 in
  set_channels {[0 := None]} (set_build_store (ttl_insert 7 (mk_build (is_private demo_secrets) 0) 1 (session_build_store m)).2 m).

(** What [signer] signs and sends as [sender]. *)
Definition request_of (sender : ContactId) (signer : Z) : AuthWireRequest :=
  mk_wire_request sender demo_request (signer, request_get_vec demo_request) (signer, request_get_vec demo_request).
Definition response_of (sender : ContactId) (signer : Z) : KeyExchangeResponse :=
  mk_wire_response sender demo_response true (signer, response_get_vec demo_response) (signer, response_get_vec demo_response).

Definition ids (m : SessionManager (M := mem_map (K := Z))) : list (option ContactId) :=
  (fun s => get_contact_id (authentication_type s.2)) <$> map_to_list (heap m).

Lemma no_impersonation_witness :
  ids (handle_session_establishment_request 7 (request_of "alice" 1) 2 (fun _ => 2) bob).2 = [Some "alice"%string] /\
  ids (handle_session_establishment_response 7 (Ok (response_of "alice" 1)) 2 (fun _ => 2) bob) = [Some "alice"%string] /\
  ids (handle_session_establishment_request 7 (request_of "alice" 3) 2 (fun _ => 2) bob).2 = [] /\
  ids (handle_session_establishment_response 7 (Ok (response_of "mallory" 3)) 2 (fun _ => 2) bob) = [Some "mallory"%string] /\
  new_sessions bob (handle_session_establishment_request 7 (request_of "alice" 1) 2 (fun _ => 2) bob).2 (fun s =>
    get_contact_id (authentication_type s) = Some "alice"%string -> "alice" = "alice"%string /\ demo_request ∈ [demo_request]) /\
  new_sessions bob (handle_session_establishment_response 7 (Ok (response_of "alice" 1)) 2 (fun _ => 2) bob) (fun s =>
    get_contact_id (authentication_type s) = Some "alice"%string -> "alice" = "alice"%string /\ demo_response ∈ [demo_response]).
Proof.
  do 4 (split; [vm_compute; reflexivity|]).
  destruct (no_impersonation (M := mem_map (K := Z)) "alice"%string (keys_public (toy_keys 1)) not_alice not_alice [demo_request] [demo_response])
    as [Hq Hr].
  - repeat constructor.
  - repeat constructor.
  - intros m s1 s2 H1 H2 H3 H4. simpl in *. apply bool_decide_eq_true in H3. subst s1.
    destruct H1 as [H1|[H1|H1]]; [injection H1 as ->; set_solver|injection H1 as ->; set_solver|done].
  - intros w keys [= <-]. done.
  - split.
    + apply (Hq 7 (request_of "alice" 1)); [repeat constructor|by left|by left].
    + apply (Hr 7 (response_of "alice" 1)); [repeat constructor|by right; left|by right; left].
Defined.
End ToyContacts.
