(* ===== verification/RequestRegistry.v ===== *)
(** * Request registry with timeouts (p2p/src/send_receive_traits/request_registry.rs)

    Every request a node sends is registered under the id libp2p gave it, with an
    external id that stays the same when the request is sent again under another
    libp2p id. A worker, polled by the event loop, receives a command for each
    registration, answer and retry over an unbounded channel and yields the
    external ids of the requests that were not answered in time. The worker's
    DelayQueue is third-party code (tokio-util): the class [DelayQueue] with its
    documented behaviour as [DelayQueueLaws]. *)

From S2P Require Import Prelude Domain.

(** [std::task::Poll] *)
Inductive poll (A : Type) := Ready (a : A) | Pending.
Arguments Ready {A} a.
Arguments Pending {A}.

(** A queue of values that become ready after a delay; times are in
    milliseconds, the queue's resolution. [dq_remove] and [dq_reset] panic if the
    queue does not contain the key. *)
Class DelayQueue (Q Key A : Type) := {
  dq_new : Q;
  dq_insert : A -> Z -> Z -> Q -> Key * Q;
  dq_remove : Key -> Q -> outcome Q;
  dq_reset : Key -> Z -> Z -> Q -> outcome Q;
  dq_poll_expired : Z -> Q -> poll (option A) * Q;
}.

(** The queue as a map from keys to values and deadlines: only elapsed values are
    yielded, none that elapsed is held back, and the end of the stream means that
    the queue is empty. *)
Class DelayQueueLaws (Q Key A : Type) `{!EqDecision Key, !Countable Key} `{!DelayQueue Q Key A} := {
  dq_content : Q -> gmap Key (A * Z);
  dq_new_content : dq_content dq_new = ∅;
  dq_insert_content a now delay q k q' :
    dq_insert a now delay q = (k, q') ->
    dq_content q !! k = None /\ dq_content q' = <[k := (a, now + delay)]> (dq_content q);
  dq_remove_content k q x :
    dq_content q !! k = Some x -> exists q', dq_remove k q = Ret q' /\ dq_content q' = delete k (dq_content q);
  dq_reset_content k now delay q a d :
    dq_content q !! k = Some (a, d) ->
    exists q', dq_reset k now delay q = Ret q' /\ dq_content q' = <[k := (a, now + delay)]> (dq_content q);
  dq_poll_content now q r q' :
    dq_poll_expired now q = (r, q') ->
    match r with
    | Ready (Some a) => exists k d, d <= now /\ dq_content q !! k = Some (a, d) /\ dq_content q' = delete k (dq_content q)
    | Ready None => dq_content q = ∅ /\ dq_content q' = ∅
    | Pending => dq_content q' = dq_content q /\ forall k a d, dq_content q !! k = Some (a, d) -> now < d
    end;
}.

(** Equality of sessions ([type Session: Eq]) *)
Class SessionEq (S : Type) := session_eq : S -> S -> bool.

Section Registry.
Context {NodeId RequestId Request Session Q Key : Type} `{!EqDecision RequestId, !Countable RequestId}
  `{!SessionEq Session} `{!DelayQueue Q Key Z}.

(** ** Data *)

Record RequestForResend := mk_resend {
  rr_request : Request;
  rr_contact_id : option ContactId;
  rr_idempotent : bool;
}.

Record RequestForResendAfterSessionError := mk_resend_after {
  ra_request : Request;
  ra_contact_id : option ContactId;
  requires_new_session : bool;
}.

Record RemovedRequest := mk_removed { rem_external_request_id : Z; rem_request : option Request }.

Inductive Command :=
| CmdRegister (request_id : Z) (node_id : NodeId)
| CmdUnRegister (request_id : Z)
| CmdResetTimeout (request_id : Z).

Record RegisteredRequestData := mk_registered_data {
  rd_contact_id : option ContactId;
  rd_request : Request;
  rd_idempotent : bool;
  rd_session : Session;
}.

Record RegisteredRequest := mk_registered {
  external_id : Z;
  retry_count : Z;
  rq_data : option RegisteredRequestData;
}.

Definition only_id (external_id : Z) : RegisteredRequest := mk_registered external_id 0 None.

Definition with_data (external_id : Z) (contact_id : option ContactId) (request : Request) (idempotent : bool)
  (session : Session) : RegisteredRequest :=
  mk_registered external_id 0 (Some (mk_registered_data contact_id request idempotent session)).

(** [struct TimeoutRequestRegistryData] and, with it, the sending half of the
    channel: the commands that wait for the worker. *)
Record Registry := mk_registry {
  reg_register : gmap RequestId RegisteredRequest;
  next_external_request_id : Z;
  reg_commands : list Command;
}.

Record Worker := mk_worker {
  w_register : gmap Z (Key * NodeId);
  w_timeouts : Q;
  w_timeout : Z;
  w_receiver : bool;
}.

Definition registry_new (timeout : Z) : Registry * Worker :=
  (mk_registry ∅ 0 [], mk_worker ∅ dq_new timeout true).

(** [TimeoutRequestRegistryHandle]: the three senders *)
Definition handle_send (c : Command) (self : Registry) : Registry :=
  mk_registry (reg_register self) (next_external_request_id self) (reg_commands self ++ [c]).

Definition set_register (r : gmap RequestId RegisteredRequest) (self : Registry) : Registry :=
  mk_registry r (next_external_request_id self) (reg_commands self).

Definition bump_next (self : Registry) : Registry :=
  mk_registry (reg_register self) (wrap64 (next_external_request_id self + 1)) (reg_commands self).

(** ** The registry *)

Definition register_request_id (request_id : RequestId) (node_id : NodeId) (self : Registry) : Z * Registry :=
  let id := next_external_request_id self in
  let self := bump_next self in
  let self := set_register (<[request_id := only_id id]> (reg_register self)) self in
  (id, handle_send (CmdRegister id node_id) self).

Definition register_request (session : Session) (request_id : RequestId) (node_id : NodeId)
  (contact_id : option ContactId) (request : Request) (idempotent : bool) (self : Registry) : Z * Registry :=
  let id := next_external_request_id self in
  let self := bump_next self in
  let self := set_register (<[request_id := with_data id contact_id request idempotent session]> (reg_register self)) self in
  (id, handle_send (CmdRegister id node_id) self).

Definition remove_request (id : RequestId) (self : Registry) : option RemovedRequest * Registry :=
  let request_data := reg_register self !! id in
  let self := set_register (delete id (reg_register self)) self in
  let self := match request_data with
              | Some d => handle_send (CmdUnRegister (external_id d)) self
              | None => self
              end in
  ((fun d => mk_removed (external_id d) (rd_request <$> rq_data d)) <$> request_data, self).

(** What both getters do once there is something to send again: count the retry
    and restart the timeout. *)
Definition count_retry (id : RequestId) (d : RegisteredRequest) (self : Registry) : Registry :=
  let d := mk_registered (external_id d) (wrap64 (retry_count d + 1)) (rq_data d) in
  handle_send (CmdResetTimeout (external_id d)) (set_register (<[id := d]> (reg_register self)) self).

Definition get_request_for_resend (id : RequestId) (self : Registry) : option RequestForResend * Registry :=
  match reg_register self !! id with
  | None => (None, self)
  | Some request_data =>
      let for_resend : option RequestForResend :=
        it ← rq_data request_data;
        if rd_idempotent it then Some (mk_resend (rd_request it) (rd_contact_id it) (rd_idempotent it)) else None in
      (for_resend, match for_resend with Some _ => count_retry id request_data self | None => self end)
  end.

Definition get_request_for_resend_after_session_error (current_session : option Session) (id : RequestId) (self : Registry)
  : option RequestForResendAfterSessionError * Registry :=
  match reg_register self !! id with
  | None => (None, self)
  | Some request_data =>
      let for_resend : option RequestForResendAfterSessionError :=
        it ← rq_data request_data;
        Some (mk_resend_after (rd_request it) (rd_contact_id it)
                (match current_session with Some c => session_eq c (rd_session it) | None => false end)) in
      (for_resend, match for_resend with Some _ => count_retry id request_data self | None => self end)
  end.

Definition check_request_metadata (request_id : RequestId) (self : Registry) : option (Z * Z) :=
  it ← reg_register self !! request_id; Some (retry_count it, external_id it).

Definition update_request_id (old_request_id new_request_id : RequestId) (self : Registry) : result Z unit * Registry :=
  match reg_register self !! old_request_id with
  | Some request =>
      (Ok (external_id request),
       set_register (<[new_request_id := request]> (delete old_request_id (reg_register self))) self)
  | None => (Err tt, self)
  end.

Definition get_external_request_id (request_id : RequestId) (self : Registry) : option Z :=
  external_id <$> reg_register self !! request_id.

(** ** The worker *)

Definition handle_worker_command (now : Z) (c : Command) (w : Worker) : outcome Worker :=
  match c with
  | CmdRegister request_id node_id =>
      let (timeout_key, q) := dq_insert request_id now (w_timeout w) (w_timeouts w) in
      Ret (mk_worker (<[request_id := (timeout_key, node_id)]> (w_register w)) q (w_timeout w) (w_receiver w))
  | CmdUnRegister request_id =>
      match w_register w !! request_id with
      | Some (timeout_key, _) =>
          let? q := dq_remove timeout_key (w_timeouts w) in
          Ret (mk_worker (delete request_id (w_register w)) q (w_timeout w) (w_receiver w))
      | None => Ret w
      end
  | CmdResetTimeout request_id =>
      match w_register w !! request_id with
      | Some (timeout_key, _) =>
          let? q := dq_reset timeout_key now (w_timeout w) (w_timeouts w) in
          Ret (mk_worker (w_register w) q (w_timeout w) (w_receiver w))
      | None => Ret w
      end
  end.

(** [poll_recv]: a command, the end of the channel if [senders] are gone, or
    nothing. *)
Definition poll_recv (senders : bool) (commands : list Command) : poll (option Command) * list Command :=
  match commands with
  | c :: commands => (Ready (Some c), commands)
  | [] => (if senders then Pending else Ready None, [])
  end.

(** The first half of [Stream::poll_next]: at most one command is handled. *)
Definition poll_commands (now : Z) (senders : bool) (commands : list Command) (w : Worker) : outcome (Worker * list Command) :=
  if w_receiver w then
    match poll_recv senders commands with
    | (Ready None, commands) => Ret (mk_worker (w_register w) (w_timeouts w) (w_timeout w) false, commands)
    | (Ready (Some command), commands) =>
        let? w := handle_worker_command now command w in Ret (w, commands)
    | (Pending, commands) => Ret (w, commands)
    end
  else Ret (w, commands).

(** The second half: at most one timeout is reported. *)
Definition poll_timeouts (now : Z) (w : Worker) : poll (option (Z * NodeId)) * Worker :=
  let (expired, q) := dq_poll_expired now (w_timeouts w) in
  match expired with
  | Ready None => (if w_receiver w then Pending else Ready None, mk_worker (w_register w) q (w_timeout w) (w_receiver w))
  | Ready (Some request_id) =>
      match w_register w !! request_id with
      | None => (Pending, mk_worker (w_register w) q (w_timeout w) (w_receiver w))
      | Some (_, node_id) =>
          (Ready (Some (request_id, node_id)),
           mk_worker (delete request_id (w_register w)) q (w_timeout w) (w_receiver w))
      end
  | Pending => (Pending, mk_worker (w_register w) q (w_timeout w) (w_receiver w))
  end.

Definition poll_next (now : Z) (senders : bool) (commands : list Command) (w : Worker)
  : outcome (poll (option (Z * NodeId)) * list Command * Worker) :=
  let? (w, commands) := poll_commands now senders commands w in
  let (out, w) := poll_timeouts now w in
  Ret (out, commands, w).

End Registry.
Arguments RequestForResend : clear implicits.
Arguments RequestForResendAfterSessionError : clear implicits.
Arguments RemovedRequest : clear implicits.
Arguments Command : clear implicits.
Arguments RegisteredRequestData : clear implicits.
Arguments RegisteredRequest : clear implicits.
Arguments Registry NodeId RequestId Request Session {_ _}.
Arguments Worker : clear implicits.

(** ** Registry and worker together *)

Section Timeouts.
Context {NodeId RequestId Request Session Q Key : Type} `{!EqDecision RequestId, !Countable RequestId}
  `{!SessionEq Session} `{!EqDecision Key, !Countable Key} `{!DelayQueue Q Key Z} `{!DelayQueueLaws Q Key Z}.
Local Abbreviation Registry := (Registry NodeId RequestId Request Session).
Local Abbreviation Worker := (Worker NodeId Q Key).
Local Abbreviation Command := (Command NodeId).

(** The calls of the transport, in the order in which they take the lock, and the
    polls of the event loop. *)
Inductive registry_op :=
| OpRegisterId (request_id : RequestId) (node_id : NodeId)
| OpRegister (session : Session) (request_id : RequestId) (node_id : NodeId) (contact_id : option ContactId)
    (request : Request) (idempotent : bool)
| OpRemove (request_id : RequestId)
| OpResend (request_id : RequestId)
| OpResendAfter (current_session : option Session) (request_id : RequestId)
| OpUpdate (old_request_id new_request_id : RequestId)
| OpPoll (now : Z).

Definition registry_step (op : registry_op) (r : Registry) (w : Worker) : outcome (list (Z * NodeId) * Registry * Worker) :=
  match op with
  | OpRegisterId i n => Ret ([], (register_request_id i n r).2, w)
  | OpRegister s i n c q b => Ret ([], (register_request s i n c q b r).2, w)
  | OpRemove i => Ret ([], (remove_request i r).2, w)
  | OpResend i => Ret ([], (get_request_for_resend i r).2, w)
  | OpResendAfter s i => Ret ([], (get_request_for_resend_after_session_error s i r).2, w)
  | OpUpdate o i => Ret ([], (update_request_id o i r).2, w)
  | OpPoll now =>
      let? (out, commands, w) := poll_next now true (reg_commands r) w in
      Ret (match out with Ready (Some x) => [x] | _ => [] end,
           mk_registry (reg_register r) (next_external_request_id r) commands, w)
  end.

(** The requests reported as timed out by a sequence of calls. *)
Fixpoint registry_run (ops : list registry_op) (r : Registry) (w : Worker) : outcome (list (Z * NodeId) * Registry * Worker) :=
  match ops with
  | [] => Ret ([], r, w)
  | op :: ops =>
      let? (out, r, w) := registry_step op r w in
      let? (outs, r, w) := registry_run ops r w in
      Ret (out ++ outs, r, w)
  end.

(** The node of each registration: the [i]-th registration gets the external id
    [i]. *)
Definition registration (op : registry_op) : option NodeId :=
  match op with OpRegisterId _ n | OpRegister _ _ n _ _ _ => Some n | _ => None end.

Definition command_registers (c : Command) : option Z :=
  match c with CmdRegister id _ => Some id | _ => None end.

Definition names (nodes : list NodeId) (id : Z) (n : NodeId) : Prop := 0 <= id /\ nodes !! Z.to_nat id = Some n.

(** The worker's register and its queue hold the same requests. *)
Definition worker_rep (w : Worker) : Prop :=
  (forall id k n, w_register w !! id = Some (k, n) -> exists d, dq_content (w_timeouts w) !! k = Some (id, d)) /\
  (forall k id d, dq_content (w_timeouts w) !! k = Some (id, d) -> exists n, w_register w !! id = Some (k, n)).

Record registry_inv (nodes : list NodeId) (done : list (Z * NodeId)) (r : Registry) (w : Worker) : Prop := {
  ri_next : next_external_request_id r = Z.of_nat (length nodes);
  ri_external i d : reg_register r !! i = Some d -> 0 <= external_id d < next_external_request_id r;
  ri_inj i j d e : reg_register r !! i = Some d -> reg_register r !! j = Some e -> external_id d = external_id e -> i = j;
  ri_commands id n : CmdRegister id n ∈ reg_commands r -> names nodes id n;
  ri_commands_nodup : NoDup (omap command_registers (reg_commands r));
  ri_worker id k n : w_register w !! id = Some (k, n) ->
    names nodes id n /\ id ∉ omap command_registers (reg_commands r);
  ri_done id n : (id, n) ∈ done ->
    names nodes id n /\ (id ∉ omap command_registers (reg_commands r)) /\ w_register w !! id = None;
  ri_done_nodup : NoDup done.*1;
  ri_rep : worker_rep w;
  ri_open : w_receiver w = true;
}.

Lemma names_lt nodes id n : names nodes id n -> 0 <= id < Z.of_nat (length nodes).
Proof. intros [? ?%lookup_lt_Some]. lia. Qed.

Lemma names_app nodes id n m : names nodes id n -> names (nodes ++ [m]) id n.
Proof. intros [? ?]. split; [done|]. by apply lookup_app_l_Some. Qed.

Lemma names_next nodes n : names (nodes ++ [n]) (Z.of_nat (length nodes)) n.
Proof. split; [lia|]. rewrite Nat2Z.id. by apply list_lookup_middle. Qed.

Lemma elem_of_registers id (cs : list Command) : id ∈ omap command_registers cs <-> exists n, CmdRegister id n ∈ cs.
Proof.
  rewrite list_elem_of_omap. split.
  - intros ([id' n| |] & ? & ?); simplify_eq/=; eauto.
  - intros (n & ?). by exists (CmdRegister id n).
Qed.

(** A command that registers nothing leaves the invariant alone. *)
Lemma inv_send_other nodes done r w c :
  registry_inv nodes done r w -> command_registers c = None -> registry_inv nodes done (handle_send c r) w.
Proof.
  intros [] Hc. split; simpl; rewrite ?omap_app; simpl; rewrite ?Hc, ?app_nil_r; try done.
  intros id n Hin. apply elem_of_app in Hin as [?|?%list_elem_of_singleton]; [eauto|by subst].
Qed.

(** So does a change of the register that keeps the external ids. *)
Lemma inv_set_register nodes done r w m :
  registry_inv nodes done r w ->
  (forall i d, m !! i = Some d -> exists j e, reg_register r !! j = Some e /\ external_id e = external_id d) ->
  (forall i j d e, m !! i = Some d -> m !! j = Some e -> external_id d = external_id e -> i = j) ->
  registry_inv nodes done (set_register m r) w.
Proof. intros [] He Hj. split; simpl; try done. intros i d (j & e & Hl & <-)%He. eauto. Qed.

(** Registering under a new external id *)
Lemma inv_register nodes done r w i d n :
  registry_inv nodes done r w -> Z.of_nat (length nodes) < u64_max -> external_id d = next_external_request_id r ->
  registry_inv (nodes ++ [n]) done
    (handle_send (CmdRegister (next_external_request_id r) n) (set_register (<[i := d]> (reg_register (bump_next r))) (bump_next r))) w.
Proof.
  intros [] Hlt Hd. rewrite ri_next0 in *.
  assert (Hw : wrap64 (Z.of_nat (length nodes) + 1) = Z.of_nat (length nodes) + 1).
  { apply wrap64_id. unfold u64_max, is_u64 in *. lia. }
  assert (Hfresh : Z.of_nat (length nodes) ∉ omap command_registers (reg_commands r)).
  { intros (n' & Hn)%elem_of_registers. apply ri_commands0, names_lt in Hn. lia. }
  split; simpl; rewrite ?ri_next0, ?Hw, ?omap_app, ?length_app; simpl; try done.
  - lia.
  - intros j e [[<- <-]|[_ He]]%lookup_insert_Some; [lia|]. apply ri_external0 in He. lia.
  - intros j1 j2 d1 d2 [[<- <-]|[? H1]]%lookup_insert_Some [[<- <-]|[? H2]]%lookup_insert_Some E; [done| | |by eauto].
    + apply ri_external0 in H2. lia.
    + apply ri_external0 in H1. lia.
  - intros id m [?|E%list_elem_of_singleton]%elem_of_app; [by eapply names_app, ri_commands0|].
    injection E as -> ->. apply names_next.
  - apply NoDup_app. split_and!; [done| |apply NoDup_singleton].
    by intros x Hx ->%list_elem_of_singleton.
  - intros id k m Hl. apply ri_worker0 in Hl as [Hn Hc]. split; [by apply names_app|].
    rewrite elem_of_app, list_elem_of_singleton. intros [?|E]; [done|]. apply names_lt in Hn. lia.
  - intros id m Hl. apply ri_done0 in Hl as (Hn & Hc & Hw'). split_and!; [by apply names_app| |done].
    rewrite elem_of_app, list_elem_of_singleton. intros [?|E]; [done|]. apply names_lt in Hn. lia.
Qed.

(** ** The worker never panics *)

(** Handling a command keeps register and queue in agreement; only a
    registration adds a request. *)
Lemma worker_command_rep now c w :
  worker_rep w -> (forall id n, c = CmdRegister id n -> w_register w !! id = None) ->
  exists w', handle_worker_command now c w = Ret w' /\ worker_rep w' /\ w_receiver w' = w_receiver w /\ w_timeout w' = w_timeout w /\
    (forall id k n, w_register w' !! id = Some (k, n) -> c = CmdRegister id n \/ w_register w !! id = Some (k, n)).
Proof.
  intros [Hr Hq] Hfresh. destruct c as [id n|id|id]; simpl.
  - destruct (dq_insert id now (w_timeout w) (w_timeouts w)) as [k q] eqn:E. apply dq_insert_content in E as [Hk Ec].
    specialize (Hfresh _ _ eq_refl). eexists. split_and!; [done| |done|done|].
    + split; simpl; rewrite Ec.
      * intros id' k' n' [[<- [= <- <-]]|[Hne Hl]]%lookup_insert_Some; [rewrite lookup_insert_eq; eauto|].
        destruct (Hr _ _ _ Hl) as [d Hd]. exists d. by rewrite lookup_insert_ne by congruence.
      * intros k' id' d [[<- [= <- <-]]|[Hne Hl]]%lookup_insert_Some; [rewrite lookup_insert_eq; eauto|].
        destruct (Hq _ _ _ Hl) as [m Hm]. exists m. by rewrite lookup_insert_ne by congruence.
    + simpl. intros id' k' n' [[<- [= <- <-]]|[Hne Hl]]%lookup_insert_Some; auto.
  - destruct (w_register w !! id) as [[k n]|] eqn:Hl; [|by eexists; split_and!; auto].
    destruct (Hr _ _ _ Hl) as [d Hd]. destruct (dq_remove_content _ _ _ Hd) as (q & -> & Ec). simpl.
    eexists. split_and!; [done| |done|done|].
    + split; simpl; rewrite Ec.
      * intros id' k' n' [Hne Hl']%lookup_delete_Some. destruct (Hr _ _ _ Hl') as [d' Hd']. exists d'.
        rewrite lookup_delete_ne; [done|]. intros ->. congruence.
      * intros k' id' d' [Hne Hl']%lookup_delete_Some. destruct (Hq _ _ _ Hl') as [m Hm]. exists m.
        rewrite lookup_delete_ne; [done|]. intros ->. congruence.
    + simpl. intros id' k' n' [_ ?]%lookup_delete_Some. auto.
  - destruct (w_register w !! id) as [[k n]|] eqn:Hl; [|by eexists; split_and!; auto].
    destruct (Hr _ _ _ Hl) as [d Hd]. destruct (dq_reset_content k now (w_timeout w) _ _ _ Hd) as (q & -> & Ec). simpl.
    eexists. split_and!; [done| |done|done|auto]. split; simpl; rewrite Ec.
    + intros id' k' n' Hl'. destruct (decide (k' = k)) as [->|Hne]; [|rewrite lookup_insert_ne by done; eauto].
      rewrite lookup_insert_eq. destruct (Hr _ _ _ Hl') as [d' Hd']. simplify_eq. eauto.
    + intros k' id' d' [[<- [= <- <-]]|[Hne Hl']]%lookup_insert_Some; eauto.
Qed.

(** The command part of a poll, as a step of the invariant *)
Lemma inv_command nodes done r w now c cs :
  registry_inv nodes done r w -> reg_commands r = c :: cs ->
  exists w', handle_worker_command now c w = Ret w' /\
    registry_inv nodes done (mk_registry (reg_register r) (next_external_request_id r) cs) w'.
Proof.
  intros [] Hc. rewrite Hc in *.
  assert (Hnew : forall id n, c = CmdRegister id n -> w_register w !! id = None /\ (id ∉ omap command_registers cs) /\ (id ∉ done.*1)).
  { intros id n ->. simpl in *. apply NoDup_cons in ri_commands_nodup0 as [Hn _]. split_and!; [|done|].
    - destruct (w_register w !! id) as [[k m]|] eqn:Hl; [|done]. apply ri_worker0 in Hl as [_ Hl]. set_solver.
    - intros ([i m] & -> & Hin)%list_elem_of_fmap. apply ri_done0 in Hin as (_ & Hl & _). set_solver. }
  assert (Hsub : forall id, id ∈ omap command_registers cs -> id ∈ omap command_registers (c :: cs)).
  { intros id. simpl. case_match; set_solver. }
  destruct (worker_command_rep now c w ri_rep0) as (w' & E & Hrep & Hrec & _ & Hold); [intros id n Hcmd; by destruct (Hnew id n Hcmd)|].
  exists w'. split; [done|]. split; simpl; try done; [| | | |congruence].
  - intros id n Hin. apply ri_commands0. set_solver.
  - simpl in ri_commands_nodup0. destruct (command_registers c); [by apply NoDup_cons in ri_commands_nodup0 as [_ ?]|done].
  - intros id k n [->|Hl]%Hold.
    + split; [apply ri_commands0; set_solver|]. by destruct (Hnew id n eq_refl) as (_ & ? & _).
    + apply ri_worker0 in Hl as [Hn Hl]. split; [done|]. auto.
  - intros id n Hin. destruct (ri_done0 id n Hin) as (Hn & Hd & Hl). split_and!; [done|by auto|].
    destruct (w_register w' !! id) as [[k m]|] eqn:Hl'; [|done]. apply Hold in Hl' as [->|?]; [|congruence].
    destruct (Hnew id m eq_refl) as (_ & _ & Hnd). destruct Hnd. apply list_elem_of_fmap. by exists (id, n).
Qed.

Definition with_commands (cs : list Command) (r : Registry) : Registry :=
  mk_registry (reg_register r) (next_external_request_id r) cs.

Lemma inv_poll_commands nodes done r w now :
  registry_inv nodes done r w ->
  exists w1, poll_commands now true (reg_commands r) w = Ret (w1, tail (reg_commands r)) /\
    registry_inv nodes done (with_commands (tail (reg_commands r)) r) w1.
Proof.
  intros Hi. unfold poll_commands. rewrite (ri_open _ _ _ _ Hi).
  destruct (reg_commands r) as [|c cs] eqn:Ec; simpl.
  - exists w. split; [done|]. destruct r; simpl in *. by subst.
  - destruct (inv_command _ _ _ _ now _ _ Hi Ec) as (w1 & -> & H1). by exists w1.
Qed.

(** The report of the queue is registered, and an elapsed request makes the poll
    report something. *)
Lemma inv_poll_timeouts nodes done r w now out w' :
  registry_inv nodes done r w -> poll_timeouts now w = (out, w') ->
  match out with
  | Ready (Some (id, n)) => exists k, w_register w !! id = Some (k, n) /\ w_register w' = delete id (w_register w) /\
      dq_content (w_timeouts w') = delete k (dq_content (w_timeouts w)) /\ registry_inv nodes (done ++ [(id, n)]) r w'
  | Ready None => False
  | Pending => registry_inv nodes done r w' /\ forall k id d, dq_content (w_timeouts w) !! k = Some (id, d) -> now < d
  end.
Proof.
  intros [] E. unfold poll_timeouts in E. destruct (dq_poll_expired now (w_timeouts w)) as [expired q] eqn:Eq.
  apply dq_poll_content in Eq. destruct ri_rep0 as [Hr Hq]. destruct expired as [[id|]|].
  - destruct Eq as (k & d & Hd & Hl & Ec). destruct (Hq _ _ _ Hl) as [n Hn]. rewrite Hn in E. injection E as <- <-.
    exists k. split_and!; try done. destruct (ri_worker0 _ _ _ Hn) as [Hna Hc]. split; simpl; try done.
    + intros id' k' n' [_ ?]%lookup_delete_Some. eauto.
    + intros id' n' [Hin|Hin%list_elem_of_singleton]%elem_of_app.
      * apply ri_done0 in Hin as (? & ? & ?). split_and!; try done. by apply lookup_delete_None; right.
      * injection Hin as -> ->. split_and!; try done. apply lookup_delete_eq.
    + rewrite fmap_app. apply NoDup_app. split_and!; [done| |apply NoDup_singleton].
      intros x ([i m] & -> & Hin)%list_elem_of_fmap Hx%list_elem_of_singleton. simpl in Hx. subst.
      apply ri_done0 in Hin as (_ & _ & ?). congruence.
    + split; simpl; rewrite Ec.
      * intros id' k' n' [Hne Hl']%lookup_delete_Some. destruct (Hr _ _ _ Hl') as [d' Hd']. exists d'.
        rewrite lookup_delete_ne; [done|]. intros ->. congruence.
      * intros k' id' d' [Hne Hl']%lookup_delete_Some. destruct (Hq _ _ _ Hl') as [m Hm]. exists m.
        rewrite lookup_delete_ne; [done|]. intros ->. congruence.
  - rewrite ri_open0 in E. injection E as <- <-. destruct Eq as [E1 E2]. split; [|rewrite E1; set_solver].
    split; try done. unfold worker_rep. simpl. by rewrite E2, <- E1.
  - injection E as <- <-. destruct Eq as [E1 E2]. split; [|by eauto].
    split; try done. unfold worker_rep. simpl. by rewrite E1.
Qed.

(** A poll never panics and keeps the invariant; it takes one command. *)
Lemma inv_poll nodes done r w now :
  registry_inv nodes done r w ->
  exists out w', poll_next now true (reg_commands r) w = Ret (out, tail (reg_commands r), w') /\
    registry_inv nodes (done ++ match out with Ready (Some x) => [x] | _ => [] end) (with_commands (tail (reg_commands r)) r) w'.
Proof.
  intros Hi. unfold poll_next. destruct (inv_poll_commands _ _ _ _ now Hi) as (w1 & -> & Hi1). simpl.
  destruct (poll_timeouts now w1) as [out w2] eqn:E. exists out, w2. split; [done|].
  pose proof (inv_poll_timeouts _ _ _ _ _ _ _ Hi1 E) as H. destruct out as [[[id n]|]|]; [by destruct H as (k & _ & _ & _ & ?)|done|].
  rewrite app_nil_r. apply H.
Qed.

Lemma registry_inv_new timeout : let (r, w) := registry_new timeout in registry_inv [] [] r w.
Proof.
  split; simpl; try done; try set_solver; [apply NoDup_nil_2..|].
  split; simpl; [set_solver|]. by rewrite dq_new_content.
Qed.

Lemma inv_count_retry nodes done r w i d :
  registry_inv nodes done r w -> reg_register r !! i = Some d -> registry_inv nodes done (count_retry i d r) w.
Proof.
  intros Hi Hl. pose proof (ri_inj _ _ _ _ Hi) as Hinj. apply inv_send_other; [|done]. apply inv_set_register; [done| |].
  - intros j e [[<- <-]|[_ He]]%lookup_insert_Some; eauto.
  - intros j1 j2 d1 d2 [[<- <-]|[? H1]]%lookup_insert_Some [[<- <-]|[? H2]]%lookup_insert_Some E;
      by eauto.
Qed.

Lemma inv_step nodes done r w op :
  registry_inv nodes done r w -> (registration op <> None -> Z.of_nat (length nodes) < u64_max) ->
  exists out r' w', registry_step op r w = Ret (out, r', w') /\
    registry_inv (nodes ++ option_list (registration op)) (done ++ out) r' w'.
Proof.
  intros Hi Hlt. destruct op as [i n|s i n c q b|i|i|s i|o i|now]; cbn [registry_step registration option_list].
  - do 3 eexists. split; [done|]. rewrite app_nil_r. by apply inv_register; [|apply Hlt|].
  - do 3 eexists. split; [done|]. rewrite app_nil_r. by apply inv_register; [|apply Hlt|].
  - do 3 eexists. split; [done|]. rewrite !app_nil_r. unfold remove_request. simpl.
    assert (registry_inv nodes done (set_register (delete i (reg_register r)) r) w).
    { apply inv_set_register; [done| |].
      - intros j d [_ ?]%lookup_delete_Some. eauto.
      - intros j1 j2 d e [_ ?]%lookup_delete_Some [_ ?]%lookup_delete_Some ?. by eapply (ri_inj _ _ _ _ Hi). }
    case_goal; [by apply inv_send_other|done].
  - do 3 eexists. split; [done|]. rewrite !app_nil_r. unfold get_request_for_resend.
    destruct (reg_register r !! i) eqn:Hl; [|done]. simpl. case_goal; [by apply inv_count_retry|done].
  - do 3 eexists. split; [done|]. rewrite !app_nil_r. unfold get_request_for_resend_after_session_error.
    destruct (reg_register r !! i) eqn:Hl; [|done]. simpl. case_goal; [by apply inv_count_retry|done].
  - do 3 eexists. split; [done|]. rewrite !app_nil_r. unfold update_request_id.
    destruct (reg_register r !! o) as [d|] eqn:Hl; [|done]. simpl. apply inv_set_register; [done| |].
    + intros j e [[<- <-]|[_ [_ He]%lookup_delete_Some]]%lookup_insert_Some; eauto.
    + intros j1 j2 d1 d2 [[<- <-]|[? [? H1]%lookup_delete_Some]]%lookup_insert_Some
        [[<- <-]|[? [? H2]%lookup_delete_Some]]%lookup_insert_Some E; [done| | |by eapply (ri_inj _ _ _ _ Hi)].
      * by destruct (ri_inj _ _ _ _ Hi _ _ _ _ Hl H2 E).
      * by destruct (ri_inj _ _ _ _ Hi _ _ _ _ H1 Hl E).
  - destruct (inv_poll _ _ _ _ now Hi) as (out & w' & -> & Hi'). simpl. rewrite app_nil_r. eauto.
Qed.

Lemma inv_run ops nodes done r w :
  registry_inv nodes done r w -> Z.of_nat (length nodes + length (omap registration ops)) <= u64_max ->
  exists outs r' w', registry_run ops r w = Ret (outs, r', w') /\
    registry_inv (nodes ++ omap registration ops) (done ++ outs) r' w'.
Proof.
  revert nodes done r w. induction ops as [|op ops IH]; intros nodes done r w Hi Hlt; simpl in *.
  { do 3 eexists. split; [done|]. by rewrite !app_nil_r. }
  destruct (inv_step _ _ _ _ op Hi) as (out & r1 & w1 & -> & Hi1); [destruct (registration op) in *; simpl in *; [lia|done]|]. simpl.
  destruct (IH _ _ _ _ Hi1) as (outs & r2 & w2 & -> & Hi2).
  { rewrite length_app. destruct (registration op) in *; simpl in *; unfold omap in *; lia. }
  do 3 eexists. split; [done|]. rewrite app_assoc. destruct (registration op); simpl in *; rewrite <- ?app_assoc in *; done.
Qed.

(** C28 Registry and worker stay in agreement whatever the order of calls and
    polls: no poll panics on a key that its delay queue does not hold, the
    requests in flight have distinct external ids, every request is reported as
    timed out at most once, and the report names the node the request was sent
    to. *)
Theorem registry_reports_once timeout ops :
  Z.of_nat (length (omap registration ops)) <= u64_max ->
  exists outs r w, uncurry (registry_run ops) (registry_new timeout) = Ret (outs, r, w) /\
    NoDup outs.*1 /\
    (forall id n, (id, n) ∈ outs -> 0 <= id /\ omap registration ops !! Z.to_nat id = Some n) /\
    (forall i j d e, reg_register r !! i = Some d -> reg_register r !! j = Some e -> external_id d = external_id e -> i = j).
Proof.
  intros Hlt. pose proof (registry_inv_new timeout) as H0. destruct (registry_new timeout) as [r0 w0].
  destruct (inv_run ops [] [] r0 w0 H0) as (outs & r & w & E & Hi); [done|]. exists outs, r, w.
  split_and!; [done|apply Hi| |apply Hi]. intros id n Hin. by apply (ri_done _ _ _ _ Hi) in Hin as [? _].
Qed.

(** ** Every unanswered request is reported *)

(** The request [id] waits for its deadline [d], and no command is about to
    change that. *)
Definition waits (id : Z) (n : NodeId) (d : Z) (cs : list Command) (w : Worker) : Prop :=
  (exists k, w_register w !! id = Some (k, n) /\ dq_content (w_timeouts w) !! k = Some (id, d)) /\
  (CmdUnRegister id ∉ cs) /\ (CmdResetTimeout id ∉ cs).

Lemma waits_command now id n d c cs w w' :
  waits id n d (c :: cs) w -> worker_rep w -> (forall id n, c = CmdRegister id n -> w_register w !! id = None) ->
  handle_worker_command now c w = Ret w' ->
  waits id n d cs w' /\ (size (w_register w') <= S (size (w_register w)))%nat.
Proof.
  intros ((k & Hl & Hd) & Hu & Hs) [Hr Hq] Hfresh. destruct c as [id' n'|id'|id']; simpl.
  - destruct (dq_insert _ _ _ _) as [k' q] eqn:E. apply dq_insert_content in E as [Hk Ec]. intros [= <-]. simpl.
    specialize (Hfresh _ _ eq_refl). split; [|rewrite map_size_insert_None by done; lia]. split; [|set_solver].
    exists k. simpl. rewrite Ec. rewrite !lookup_insert_ne by congruence. done.
  - assert (id' <> id) by set_solver. destruct (w_register w !! id') as [[k' m]|] eqn:Hl'; [|intros [= <-]; split; [|lia]; split; [eauto|set_solver]].
    destruct (Hr _ _ _ Hl') as [d' Hd']. destruct (dq_remove_content _ _ _ Hd') as (q & -> & Ec). intros [= <-]. simpl.
    split; [|rewrite map_size_delete, Hl'; lia]. split; [|set_solver]. exists k. simpl. rewrite Ec. rewrite !lookup_delete_ne by congruence. done.
  - assert (id' <> id) by set_solver. destruct (w_register w !! id') as [[k' m]|] eqn:Hl'; [|intros [= <-]; split; [|lia]; split; [eauto|set_solver]].
    destruct (Hr _ _ _ Hl') as [d' Hd']. destruct (dq_reset_content k' now (w_timeout w) _ _ _ Hd') as (q & -> & Ec). intros [= <-]. simpl.
    split; [|lia]. split; [|set_solver]. exists k. simpl. rewrite Ec, lookup_insert_ne by congruence. done.
Qed.

Lemma waits_poll nodes done r w now id n d :
  registry_inv nodes done r w -> waits id n d (reg_commands r) w -> d <= now ->
  exists id' n' r' w', registry_step (OpPoll now) r w = Ret ([(id', n')], r', w') /\
    registry_inv nodes (done ++ [(id', n')]) r' w' /\
    ((id', n') = (id, n) \/
     waits id n d (reg_commands r') w' /\
     (length (reg_commands r') + size (w_register w') < length (reg_commands r) + size (w_register w))%nat).
Proof.
  intros Hi Hw Hnow. destruct (inv_poll_commands _ _ _ _ now Hi) as (w1 & Ec & Hi1). cbn [registry_step].
  assert (waits id n d (tail (reg_commands r)) w1 /\
    (length (tail (reg_commands r)) + size (w_register w1) <= length (reg_commands r) + size (w_register w))%nat) as [Hw1 Hs1].
  { unfold poll_commands in Ec. rewrite (ri_open _ _ _ _ Hi) in Ec. destruct (reg_commands r) as [|c cs] eqn:Ecs; simpl in *.
    - injection Ec as <-. done.
    - apply outcome_bind_ret in Ec as (w2 & Ec & [= ->]).
      destruct (waits_command now id n d c cs w w1) as [? ?]; [done|apply Hi| |done|split; [done|lia]].
      intros id' n' ->. destruct (w_register w !! id') as [[k m]|] eqn:Hl; [|done].
      apply (ri_worker _ _ _ _ Hi) in Hl as [_ Hl]. rewrite Ecs in Hl. simpl in Hl. set_solver. }
  unfold poll_next. rewrite Ec. simpl. destruct (poll_timeouts now w1) as [out w2] eqn:E. simpl.
  pose proof (inv_poll_timeouts _ _ _ _ _ _ _ Hi1 E) as H. destruct Hw1 as ((k & Hl & Hd) & Hu & Hs).
  destruct out as [[[id' n']|]|]; [|done|destruct H as [_ H]; specialize (H _ _ _ Hd); lia].
  destruct H as (k' & Hl' & Er & Eq & Hi2). do 4 eexists. split_and!; [done|done|].
  destruct (decide (id' = id)) as [->|Hne]; [left; congruence|right]. simpl. split.
  - split; [|done]. exists k. rewrite Er, Eq, !lookup_delete_ne; try done. intros ->.
    destruct (ri_rep _ _ _ _ Hi1) as [Hr _]. destruct (Hr _ _ _ Hl'). congruence.
  - rewrite Er, map_size_delete, Hl'. assert (size (w_register w1) <> 0%nat); [|lia].
    apply (map_size_ne_0_lookup_2 _ id). by rewrite Hl.
Qed.

Lemma omap_polls nows : omap registration (OpPoll <$> nows) = [].
Proof. by induction nows. Qed.

(** C29 A request that is neither answered nor sent again is reported as timed
    out: once its deadline has passed, as many polls as there are requests and
    commands suffice, whatever else waits. *)
Theorem timeout_is_reported timeout ops outs r w id n d nows :
  Z.of_nat (length (omap registration ops)) <= u64_max -> uncurry (registry_run ops) (registry_new timeout) = Ret (outs, r, w) ->
  waits id n d (reg_commands r) w -> Forall (Z.le d) nows ->
  (length (reg_commands r) + size (w_register w) <= length nows)%nat ->
  exists outs' r' w', registry_run (OpPoll <$> nows) r w = Ret (outs', r', w') /\ (id, n) ∈ outs'.
Proof.
  intros Hlt Er Hw Hnow Hlen. pose proof (registry_inv_new timeout) as H0. destruct (registry_new timeout) as [r0 w0].
  destruct (inv_run ops [] [] r0 w0 H0) as (outs0 & r1 & w1 & E & Hi); [done|]. simpl in Er. rewrite E in Er. injection Er as -> -> ->.
  clear E H0 r0 w0. revert Hlt Hi Hw Hlen. generalize (omap registration ops) as nodes, ([] ++ outs) as done. revert r w.
  induction Hnow as [|now nows Hnow Hnows IH]; intros r w nodes done Hlt Hi Hw Hlen.
  - destruct Hw as ((k & Hl & _) & _). simpl in Hlen. assert (size (w_register w) <> 0%nat); [|lia].
    apply (map_size_ne_0_lookup_2 _ id). by rewrite Hl.
  - destruct (waits_poll _ _ _ _ now _ _ _ Hi Hw Hnow) as (id' & n' & r' & w' & E & Hi' & Hc). cbn [fmap list_fmap registry_run].
    rewrite E. cbn [outcome_bind]. destruct (inv_run (OpPoll <$> nows) _ _ _ _ Hi') as (outs1 & r1 & w1 & E1 & _); [|].
    { by rewrite (omap_polls nows), Nat.add_0_r. }
    rewrite E1. simpl. do 3 eexists. split; [done|]. destruct Hc as [[= -> ->]|[Hw' Hs]]; [set_solver|].
    destruct (IH _ _ _ _ Hlt Hi' Hw') as (o & r2 & w2 & E2 & Hin); [simpl in Hlen; lia|]. rewrite E1 in E2. injection E2 as -> -> ->. set_solver.
Qed.

End Timeouts.
Arguments registry_op : clear implicits.

(** ** A delay queue in memory *)

Module MemoryQueue.

Record MemQueue := mk_mem { mq_map : gmap Z (Z * Z) }.

Definition elapsed (now : Z) (q : MemQueue) : option (Z * (Z * Z)) :=
  head (filter (fun x => x.2.2 <= now) (map_to_list (mq_map q))).

#[export] Instance mem_queue : DelayQueue MemQueue Z Z := {
  dq_new := mk_mem ∅;
  dq_insert a now delay q :=
    let k := fresh (dom (mq_map q)) in (k, mk_mem (<[k := (a, now + delay)]> (mq_map q)));
  dq_remove k q :=
    match mq_map q !! k with Some _ => Ret (mk_mem (delete k (mq_map q))) | None => Panic end;
  dq_reset k now delay q :=
    match mq_map q !! k with Some (a, _) => Ret (mk_mem (<[k := (a, now + delay)]> (mq_map q))) | None => Panic end;
  dq_poll_expired now q :=
    if bool_decide (mq_map q = ∅) then (Ready None, q)
    else match elapsed now q with
         | Some (k, (a, _)) => (Ready (Some a), mk_mem (delete k (mq_map q)))
         | None => (Pending, q)
         end;
}.

#[export] Instance mem_queue_laws : DelayQueueLaws MemQueue Z Z.
Proof.
  refine {| dq_content := mq_map |}; simpl.
  - done.
  - intros a now delay q k q' [= <- <-]. split; [|done]. apply not_elem_of_dom, is_fresh.
  - intros k q x ->. eauto.
  - intros k now delay q a d ->. eauto.
  - intros now q r q'. case_bool_decide as He; [by intros [= <- <-]|].
    unfold elapsed. destruct (filter _ (map_to_list (mq_map q))) as [|[k [a d]] l] eqn:Ef; simpl.
    + intros [= <- <-]. split; [done|]. intros k a d Hl. destruct (decide (d <= now)); [|lia].
      assert ((k, (a, d)) ∈ filter (fun x : Z * (Z * Z) => x.2.2 <= now) (map_to_list (mq_map q))) as Hin; [|by rewrite Ef in Hin; set_solver].
      apply list_elem_of_filter. split; [done|]. by apply elem_of_map_to_list.
    + intros [= <- <-]. exists k, d.
      assert ((k, (a, d)) ∈ filter (fun x : Z * (Z * Z) => x.2.2 <= now) (map_to_list (mq_map q))) as Hin by (rewrite Ef; left).
      apply list_elem_of_filter in Hin as [Hd Hin]. split_and!; [done| |done]. by apply elem_of_map_to_list.
Defined.

End MemoryQueue.

Import MemoryQueue.

#[local] Instance Z_session_eq : SessionEq Z := Z.eqb.

Definition demo_ops : list (registry_op Z Z Z Z) :=
  [OpRegister 1 100 7 None 42 true; OpRegisterId 101 8; OpPoll 0; OpRemove 101; OpPoll 0; OpPoll 0; OpPoll 20000].

Example registry_demo_run :
  (let? (outs, _, _) := uncurry (registry_run demo_ops) (registry_new 15000) in Ret outs) = Ret [(0, 7)].
Proof. vm_compute. reflexivity. Qed.

Lemma registry_reports_once_witness :
  exists outs r w, uncurry (registry_run demo_ops) (registry_new 15000) = Ret (outs, r, w) /\ NoDup outs.*1.
Proof.
  destruct (registry_reports_once 15000 demo_ops) as (outs & r & w & E & Hn & _); [vm_compute; discriminate|].
  exists outs, r, w. split; [exact E|exact Hn].
Defined.

Lemma timeout_is_reported_witness :
  exists outs, (let? (outs, _, _) := uncurry (registry_run (take 5 demo_ops ++ (OpPoll <$> [15000; 15000; 15000]))) (registry_new 15000) in Ret outs) = Ret outs /\
    (0, 7) ∈ outs.
Proof.
  destruct (uncurry (registry_run (take 5 demo_ops)) (registry_new 15000)) as [[[outs r] w]| | |] eqn:E;
    [|vm_compute in E; discriminate..].
  destruct (timeout_is_reported 15000 (take 5 demo_ops) outs r w 0 7 15000 [15000; 15000; 15000]) as (outs' & r' & w' & E' & Hin).
  - vm_compute. discriminate.
  - exact E.
  - vm_compute in E. injection E as <- <- <-. split; [eexists; split; vm_compute; reflexivity|].
    split; intros H; repeat (apply elem_of_cons in H as [H|H]; [discriminate|]); by apply elem_of_nil in H.
  - repeat constructor; lia.
  - vm_compute in E. injection E as <- <- <-. vm_compute. lia.
  - vm_compute in E. injection E as <- <- <-. vm_compute in E'. injection E' as <- <- <-.
    eexists. split; [vm_compute; reflexivity|exact Hin].
Defined.
