(* ===== verification/Registries.v ===== *)
(** * The registries of a node

    p2p/src/event_loop/trait_impls/request_registry.rs: the node has a registry for
    each of the three kinds of requests it sends, and is itself a registry for each
    kind, which passes every call on. The trait of registries is a class with a
    contract. The registry of RequestRegistry.v keeps it, and so does the node for
    file requests and for invites to an own device, but not for shared contacts. *)

From S2P Require Import Prelude Domain RequestRegistry.

(** ** The trait *)

Section Trait.
Context (NodeId RequestId Session : Type) `{!EqDecision RequestId, !Countable RequestId}.

(** [trait RequestRegistry<Request>], for a state [D] *)
Class RequestRegistryOf (D Request : Type) := {
  of_register_request_id : RequestId -> NodeId -> D -> Z * D;
  of_register_request : Session -> RequestId -> NodeId -> option ContactId -> Request -> bool -> D -> Z * D;
  of_remove_request : RequestId -> D -> option (RemovedRequest Request) * D;
  of_get_request_for_resend : RequestId -> D -> option (RequestForResend Request) * D;
  of_get_request_for_resend_after_session_error :
    option Session -> RequestId -> D -> option (RequestForResendAfterSessionError Request) * D;
  of_check_request_metadata : RequestId -> D -> option (Z * Z);
  of_update_request_id : RequestId -> RequestId -> D -> result Z unit * D;
  of_get_external_request_id : RequestId -> D -> option Z;
}.

(** What the transport relies on: a request is found under the id it was registered
    with, under its new id once that was changed, and not after its removal; other
    requests are not affected; only a request that was registered with its content is
    sent again, and that is counted. *)
Class RequestRegistryLaws {D Request} (R : RequestRegistryOf D Request) : Prop := {
  register_found s i n c q b d e d' : of_register_request s i n c q b d = (e, d') ->
    of_check_request_metadata i d' = Some (0, e) /\ (of_remove_request i d').1 = Some (mk_removed e (Some q));
  register_id_found i n d e d' : of_register_request_id i n d = (e, d') ->
    of_check_request_metadata i d' = Some (0, e) /\ (of_remove_request i d').1 = Some (mk_removed e None) /\
    (of_get_request_for_resend i d').1 = None /\ forall s, (of_get_request_for_resend_after_session_error s i d').1 = None;
  register_other s i n c q b d j : j <> i ->
    of_check_request_metadata j (of_register_request s i n c q b d).2 = of_check_request_metadata j d;
  register_id_other i n d j : j <> i ->
    of_check_request_metadata j (of_register_request_id i n d).2 = of_check_request_metadata j d;
  removed_gone i d j :
    of_check_request_metadata j (of_remove_request i d).2 = if decide (j = i) then None else of_check_request_metadata j d;
  resend_counted s i d q d' k e : of_get_request_for_resend_after_session_error s i d = (Some q, d') ->
    of_check_request_metadata i d = Some (k, e) -> of_check_request_metadata i d' = Some (wrap64 (k + 1), e);
  updated_moves old new d k e : of_check_request_metadata old d = Some (k, e) ->
    (of_update_request_id old new d).1 = Ok e /\
    of_check_request_metadata new (of_update_request_id old new d).2 = Some (k, e) /\
    (old <> new -> of_check_request_metadata old (of_update_request_id old new d).2 = None);
  update_unknown old new d : of_check_request_metadata old d = None -> of_update_request_id old new d = (Err tt, d);
  external_is_metadata i d : of_get_external_request_id i d = snd <$> of_check_request_metadata i d;
}.
End Trait.
Arguments RequestRegistryLaws {_ _ _ _} D Request R.
Arguments of_register_request_id {_ _ _ D Request} _.
Arguments of_register_request {_ _ _ D Request} _.
Arguments register_found {_ _ _ _ D Request R _}.
Arguments register_id_found {_ _ _ _ D Request R _}.

Section Registries.
Context {NodeId RequestId Session : Type} `{!EqDecision RequestId, !Countable RequestId} `{!SessionEq Session}.
Abbreviation registry_of := (RequestRegistryOf NodeId RequestId Session).
Abbreviation registry := (Registry NodeId RequestId).

(** [impl RequestRegistry for TimeoutRequestRegistry] *)
Definition timeout_registry (Request : Type) : registry_of (registry Request Session) Request := {|
  of_register_request_id := register_request_id;
  of_register_request := register_request;
  of_remove_request := remove_request;
  of_get_request_for_resend := get_request_for_resend;
  of_get_request_for_resend_after_session_error := get_request_for_resend_after_session_error;
  of_check_request_metadata := check_request_metadata;
  of_update_request_id := update_request_id;
  of_get_external_request_id := get_external_request_id;
|}.

(** ** The registries of [EventLoopData] *)

Context {FileRequest ContactShareChallenge SelfContactInviteChallenge : Type}.

Record registries := mk_registries {
  filerequest_request_registry : registry FileRequest Session;
  contact_invite_challenge_request_registry : registry ContactShareChallenge Session;
  self_contact_invite_challenge_request_registry : registry SelfContactInviteChallenge Session;
}.

Definition with_filerequests {A} (f : registry FileRequest Session -> A * registry FileRequest Session) (d : registries) : A * registries :=
  let (a, r) := f (filerequest_request_registry d) in
  (a, mk_registries r (contact_invite_challenge_request_registry d) (self_contact_invite_challenge_request_registry d)).
Definition with_contact_shares {A} (f : registry ContactShareChallenge Session -> A * registry ContactShareChallenge Session)
    (d : registries) : A * registries :=
  let (a, r) := f (contact_invite_challenge_request_registry d) in
  (a, mk_registries (filerequest_request_registry d) r (self_contact_invite_challenge_request_registry d)).
Definition with_self_contact_invites {A}
    (f : registry SelfContactInviteChallenge Session -> A * registry SelfContactInviteChallenge Session) (d : registries) : A * registries :=
  let (a, r) := f (self_contact_invite_challenge_request_registry d) in
  (a, mk_registries (filerequest_request_registry d) (contact_invite_challenge_request_registry d) r).

(** [impl RequestRegistry<FileRequest>] *)
Definition filerequest_registry : registry_of registries FileRequest := {|
  of_register_request_id i n := with_filerequests (register_request_id i n);
  of_register_request s i n c q b := with_filerequests (register_request s i n c q b);
  of_remove_request i := with_filerequests (remove_request i);
  of_get_request_for_resend i := with_filerequests (get_request_for_resend i);
  of_get_request_for_resend_after_session_error s i := with_filerequests (get_request_for_resend_after_session_error s i);
  of_check_request_metadata i d := check_request_metadata i (filerequest_request_registry d);
  of_update_request_id i j := with_filerequests (update_request_id i j);
  of_get_external_request_id i d := get_external_request_id i (filerequest_request_registry d);
|}.

(** [impl RequestRegistry<ContactShareChallenge>]; [register_request_id] is passed on
    to the registry of file requests. *)
Definition contact_share_registry : registry_of registries ContactShareChallenge := {|
  of_register_request_id i n := with_filerequests (register_request_id i n);
  of_register_request s i n c q b := with_contact_shares (register_request s i n c q b);
  of_remove_request i := with_contact_shares (remove_request i);
  of_get_request_for_resend i := with_contact_shares (get_request_for_resend i);
  of_get_request_for_resend_after_session_error s i := with_contact_shares (get_request_for_resend_after_session_error s i);
  of_check_request_metadata i d := check_request_metadata i (contact_invite_challenge_request_registry d);
  of_update_request_id i j := with_contact_shares (update_request_id i j);
  of_get_external_request_id i d := get_external_request_id i (contact_invite_challenge_request_registry d);
|}.

(** [impl RequestRegistry<SelfContactInviteChallenge>] *)
Definition self_contact_invite_registry : registry_of registries SelfContactInviteChallenge := {|
  of_register_request_id i n := with_self_contact_invites (register_request_id i n);
  of_register_request s i n c q b := with_self_contact_invites (register_request s i n c q b);
  of_remove_request i := with_self_contact_invites (remove_request i);
  of_get_request_for_resend i := with_self_contact_invites (get_request_for_resend i);
  of_get_request_for_resend_after_session_error s i := with_self_contact_invites (get_request_for_resend_after_session_error s i);
  of_check_request_metadata i d := check_request_metadata i (self_contact_invite_challenge_request_registry d);
  of_update_request_id i j := with_self_contact_invites (update_request_id i j);
  of_get_external_request_id i d := get_external_request_id i (self_contact_invite_challenge_request_registry d);
|}.

(** ** The contract *)

#[global] Instance timeout_registry_laws Request : RequestRegistryLaws (registry Request Session) Request (timeout_registry Request).
Proof.
  split; cbn; unfold check_request_metadata.
  - intros ???????? ? [= <- <-]. unfold remove_request. cbn. by simplify_map_eq.
  - intros ???? ? [= <- <-]. unfold remove_request, get_request_for_resend, get_request_for_resend_after_session_error.
    cbn. by simplify_map_eq.
  - intros. cbn. by simplify_map_eq.
  - intros. cbn. by simplify_map_eq.
  - intros i d j. unfold remove_request. destruct (reg_register d !! i); cbn; case_decide; by simplify_map_eq.
  - intros s i d q d' k e. unfold get_request_for_resend_after_session_error.
    destruct (reg_register d !! i) as [r|]; [|done]. destruct (rq_data r); cbn; [|done]. intros [= <- <-] [= <- <-].
    cbn. by simplify_map_eq.
  - intros old new d k e. unfold update_request_id. destruct (reg_register d !! old) as [r|] eqn:Er; [|done]. cbn.
    intros [= <- <-]. rewrite lookup_insert_eq. split_and!; [done..|]. intros Hne. by simplify_map_eq.
  - intros old new d. unfold update_request_id. by destruct (reg_register d !! old).
  - intros i d. unfold get_external_request_id. by destruct (reg_register d !! i).
Qed.

(** A registry that is a part of a state keeps the contract in it. *)
Section Part.
Context {D Request : Type} (get : D -> registry Request Session) (put : registry Request Session -> D -> D).
Hypothesis get_put : forall r d, get (put r d) = r.
Hypothesis put_get : forall d, put (get d) d = d.

Definition zoom {A} (f : registry Request Session -> A * registry Request Session) (d : D) : A * D :=
  let (a, r) := f (get d) in (a, put r d).

Definition part_registry : registry_of D Request := {|
  of_register_request_id i n := zoom (register_request_id i n);
  of_register_request s i n c q b := zoom (register_request s i n c q b);
  of_remove_request i := zoom (remove_request i);
  of_get_request_for_resend i := zoom (get_request_for_resend i);
  of_get_request_for_resend_after_session_error s i := zoom (get_request_for_resend_after_session_error s i);
  of_check_request_metadata i d := check_request_metadata i (get d);
  of_update_request_id i j := zoom (update_request_id i j);
  of_get_external_request_id i d := get_external_request_id i (get d);
|}.

Lemma zoom_1 {A} (f : registry Request Session -> A * registry Request Session) d : (zoom f d).1 = (f (get d)).1.
Proof. unfold zoom. by destruct (f (get d)). Qed.

Lemma zoom_2 {A} (f : registry Request Session -> A * registry Request Session) d : get (zoom f d).2 = (f (get d)).2.
Proof. unfold zoom. destruct (f (get d)). apply get_put. Qed.

Lemma zoom_run {A} (f : registry Request Session -> A * registry Request Session) d a d' :
  zoom f d = (a, d') -> f (get d) = (a, get d').
Proof. intros Hz. generalize (zoom_1 f d), (zoom_2 f d). rewrite Hz. cbn. destruct (f (get d)). by cbn; intros -> ->. Qed.

Lemma part_registry_laws : RequestRegistryLaws D Request part_registry.
Proof.
  pose proof (timeout_registry_laws Request) as [H1 H2 H3 H4 H5 H6 H7 H8 H9]. split; cbn -[zoom]; intros.
  - rewrite zoom_1. eapply H1, zoom_run; done.
  - setoid_rewrite zoom_1. eapply H2, zoom_run; done.
  - rewrite zoom_2. by apply H3.
  - rewrite zoom_2. by apply H4.
  - rewrite zoom_2. by apply H5.
  - eapply H6; [by eapply zoom_run|done].
  - rewrite zoom_1, zoom_2. by apply H7.
  - unfold zoom. specialize (H8 old new (get d)). cbn in H8. by rewrite H8, put_get.
  - apply H9.
Qed.
End Part.

(** The registry of file requests is the registry of the node for them, and the
    registry of invites that for invites. *)
Lemma filerequest_registry_laws : RequestRegistryLaws registries FileRequest filerequest_registry.
Proof.
  apply (part_registry_laws filerequest_request_registry
    (fun r d => mk_registries r (contact_invite_challenge_request_registry d) (self_contact_invite_challenge_request_registry d)));
    by intros; destruct d.
Qed.

Lemma self_contact_invite_registry_laws : RequestRegistryLaws registries SelfContactInviteChallenge self_contact_invite_registry.
Proof.
  apply (part_registry_laws self_contact_invite_challenge_request_registry
    (fun r d => mk_registries (filerequest_request_registry d) (contact_invite_challenge_request_registry d) r));
    by intros; destruct d.
Qed.

(** What the transport uses of the node as a registry: it registers requests that it
    sends; the handlers of answers are given the registry of their kind itself. A
    request that was sent is found there by its answer, with its content, its timeout
    is watched by the worker of its kind, and the registries of the other kinds are
    not touched. *)
Theorem sent_requests_are_found (d : registries) s i n c b :
  (forall q e d', of_register_request filerequest_registry s i n c q b d = (e, d') ->
     (remove_request i (filerequest_request_registry d')).1 = Some (mk_removed e (Some q)) /\
     last (reg_commands (filerequest_request_registry d')) = Some (CmdRegister e n) /\
     contact_invite_challenge_request_registry d' = contact_invite_challenge_request_registry d /\
     self_contact_invite_challenge_request_registry d' = self_contact_invite_challenge_request_registry d) /\
  (forall q e d', of_register_request contact_share_registry s i n c q b d = (e, d') ->
     (remove_request i (contact_invite_challenge_request_registry d')).1 = Some (mk_removed e (Some q)) /\
     last (reg_commands (contact_invite_challenge_request_registry d')) = Some (CmdRegister e n) /\
     filerequest_request_registry d' = filerequest_request_registry d /\
     self_contact_invite_challenge_request_registry d' = self_contact_invite_challenge_request_registry d) /\
  (forall q e d', of_register_request self_contact_invite_registry s i n c q b d = (e, d') ->
     (remove_request i (self_contact_invite_challenge_request_registry d')).1 = Some (mk_removed e (Some q)) /\
     last (reg_commands (self_contact_invite_challenge_request_registry d')) = Some (CmdRegister e n) /\
     filerequest_request_registry d' = filerequest_request_registry d /\
     contact_invite_challenge_request_registry d' = contact_invite_challenge_request_registry d).
Proof.
  assert (forall Request q (r : registry Request Session),
    (remove_request i (register_request s i n c q b r).2).1 = Some (mk_removed (register_request s i n c q b r).1 (Some q)) /\
    last (reg_commands (register_request s i n c q b r).2) = Some (CmdRegister (register_request s i n c q b r).1 n)) as Hr.
  { intros Request q r. split; [|apply last_snoc]. apply (register_found (R := timeout_registry Request) s i n c q b r _ _ (surjective_pairing _)). }
  split_and!; intros q e d' [= <- <-]; (split; [apply Hr|split; [apply (Hr _ q)|done]]).
Qed.

(** The node does not keep the contract for shared contacts: an id that is registered
    for one is not found, whatever the state; it is registered as that of a file
    request, and a file request that had it can no longer be sent again. *)
Theorem contact_share_id_is_misfiled (d : registries) i n e d' :
  of_register_request_id contact_share_registry i n d = (e, d') ->
  contact_invite_challenge_request_registry d' = contact_invite_challenge_request_registry d /\
  check_request_metadata i (filerequest_request_registry d') = Some (0, e) /\
  last (reg_commands (filerequest_request_registry d')) = Some (CmdRegister e n) /\
  (get_request_for_resend i (filerequest_request_registry d')).1 = None /\
  (check_request_metadata i (contact_invite_challenge_request_registry d) = None ->
     ~ RequestRegistryLaws registries ContactShareChallenge contact_share_registry).
Proof.
  destruct (register_id_found (R := timeout_registry FileRequest) i n (filerequest_request_registry d) _ _ eq_refl) as (Hm & _ & Hr & _).
  intros E. assert (E' := E). injection E as <- <-. split_and!; [done|exact Hm|apply last_snoc|exact Hr|].
  intros Hnone Hl. destruct (register_id_found _ _ _ _ _ E') as [Hf _]. cbn in Hf, Hnone. congruence.
Qed.
End Registries.
