(* ===== verification/SessionTransport.v ===== *)
(** * Requests over sessions (p2p/src/send_receive_traits/)

    session_send_receive.rs sends encrypted requests, registers them and decides
    what happens when a response or an error comes back: deliver it, report it or
    send the request once more. session_responder.rs decrypts the requests of
    others and encrypts the answers. The traits both are generic over (GetSession,
    Session, RequestSender) are the class [Peer]; the registry is the one of
    RequestRegistry.v.

    A call of the definitions below is one that nothing interrupts. For the theorem on
    retries the calls are cut where they wait: a request is transmitted and then
    registered, and its answer can come between the two; timeouts come at any time.
    The log is not in the code: it records what the other components see. *)

From S2P Require Import Prelude Domain RequestRegistry.

(** [enum SessionErrorResponse] (behaviour.rs), the error a responder sends *)
Inductive SessionErrorResponse := RespMissingSession | RespCryptError.

(** The sessions and the network of a node with state [W]. [respond_to] is the
    business logic (trait RequestReceiver). *)
Class Peer (W : Type) := {
  NodeId : Type;
  RequestId : Type;
  InboundRequestId : Type;
  Req : Type;
  Res : Type;
  PSession : Type;
  EncReq : Type;
  EncRes : Type;
  EncryptError : Type;
  DecryptError : Type;
  GetSessionError : Type;
  TransportError : Type;
  RequestId_eq_dec :: EqDecision RequestId;
  RequestId_countable :: Countable RequestId;
  PSession_eq :: SessionEq PSession;
  get_or_establish_session : NodeId -> option ContactId -> W -> result PSession GetSessionError * W;
  get_established_session : NodeId -> bool -> W -> option PSession;
  get_recent_receive_sessions : NodeId -> W -> list PSession;
  clear_session : NodeId -> W -> W;
  encrypt_request : PSession -> Req -> W -> result EncReq EncryptError * W;
  decrypt_request : PSession -> EncReq -> W -> result Req DecryptError * W;
  encrypt_response : PSession -> Res -> W -> result EncRes EncryptError * W;
  decrypt_response : PSession -> EncRes -> W -> result Res DecryptError * W;
  session_contact_id : PSession -> option ContactId;
  send_encrypted_request : NodeId -> EncReq -> W -> RequestId * W;
  respond_to : NodeId -> option ContactId -> Req -> InboundRequestId -> W -> option Res * W;
}.

Section Transport.
Context {W : Type} `{!Peer W}.
Local Abbreviation Registry := (Registry NodeId RequestId Req PSession).

(** ** Errors and payloads *)

Inductive SessionSendError :=
| SendEncryptError (e : EncryptError)
| SendGetSessionError (e : GetSessionError).

Inductive RemoteReceiveError := RemoteMissingSession | CannotDecrypt.

Definition remote_receive_error (value : SessionErrorResponse) : RemoteReceiveError :=
  match value with
  | RespMissingSession => RemoteMissingSession
  | RespCryptError => CannotDecrypt
  end.

Inductive LocalReceiveError :=
| LocalTimeout
| LocalTransportError (e : TransportError)
| LocalMissingSession
| LocalDecryptError (es : list DecryptError)
| ResendError (e : SessionSendError).

Inductive ReceiveError :=
| RemoteError (e : RemoteReceiveError)
| LocalError (e : LocalReceiveError).

Inductive ReceivePayload :=
| PayloadResponse (r : EncRes)
| PayloadError (e : ReceiveError).

Inductive SendInternalConfig :=
| ConfigRegister (idempotent : bool)
| ConfigUpdate (old_request_id : RequestId)
| ConfigRegisterOnlyId.

(** What leaves the transport: a request on the wire; its registration under an
    external id; a response for the business logic, an error for it; and the error
    [Timeout], which the event loop reports. *)
Inductive event :=
| Transmitted (request_id : RequestId) (node_id : NodeId) (request : Req)
| Sent (external_id : Z) (request_id : RequestId) (node_id : NodeId) (request : Req)
| Delivered (node_id : NodeId) (contact_id : option ContactId) (request_id : result Z unit) (response : Res)
| Reported (node_id : NodeId) (request_id : result Z unit) (e : ReceiveError)
| TimedOut (node_id : NodeId) (external_id : Z).

Record Transport := mk_transport { tr_world : W; tr_registry : Registry; tr_log : list event }.

Definition set_peer_world (w : W) (t : Transport) : Transport := mk_transport w (tr_registry t) (tr_log t).
Definition set_registry (r : Registry) (t : Transport) : Transport := mk_transport (tr_world t) r (tr_log t).
Definition log (e : event) (t : Transport) : Transport := mk_transport (tr_world t) (tr_registry t) (tr_log t ++ [e]).

Definition deliver_response (node_id : NodeId) (contact_id : option ContactId) (request_id : result Z unit) (response : Res)
  : Transport -> Transport := log (Delivered node_id contact_id request_id response).

Definition deliver_error (node_id : NodeId) (request_id : result Z unit) (e : ReceiveError) : Transport -> Transport :=
  log (Reported node_id request_id e).

(** ** Sending *)

(** How [send_internal] registers what was sent *)
Definition register_sent (session : PSession) (request_id : RequestId) (node_id : NodeId) (contact_id : option ContactId)
  (request : Req) (config : SendInternalConfig) (r : Registry) : Z * Registry :=
  match config with
  | ConfigRegister idempotent => register_request session request_id node_id contact_id request idempotent r
  | ConfigRegisterOnlyId => register_request_id request_id node_id r
  | ConfigUpdate old_request_id =>
      match update_request_id old_request_id request_id r with
      | (Ok external_request_id, r) => (external_request_id, r)
      | (Err _, r) => register_request_id request_id node_id r
      end
  end.

(** A request on the wire that is not registered yet. *)
Record unregistered := mk_unregistered {
  un_request_id : RequestId;
  un_session : PSession;
  un_node_id : NodeId;
  un_contact_id : option ContactId;
  un_request : Req;
  un_config : SendInternalConfig;
}.

(** [send_internal] up to the transmission, *)
Definition transmit (node_id : NodeId) (contact_id : option ContactId) (request : Req) (config : SendInternalConfig)
  (t : Transport) : result unregistered SessionSendError * Transport :=
  match get_or_establish_session node_id contact_id (tr_world t) with
  | (Err e, w) => (Err (SendGetSessionError e), set_peer_world w t)
  | (Ok session, w) =>
      match encrypt_request session request w with
      | (Err e, w) => (Err (SendEncryptError e), set_peer_world w t)
      | (Ok encrypted, w) =>
          let (request_id, w) := send_encrypted_request node_id encrypted w in
          (Ok (mk_unregistered request_id session node_id contact_id request config),
           log (Transmitted request_id node_id request) (set_peer_world w t))
      end
  end.

(** and from there on. *)
Definition register (u : unregistered) (t : Transport) : Z * Transport :=
  let (external_request_id, r) :=
    register_sent (un_session u) (un_request_id u) (un_node_id u) (un_contact_id u) (un_request u) (un_config u) (tr_registry t) in
  (external_request_id, log (Sent external_request_id (un_request_id u) (un_node_id u) (un_request u)) (set_registry r t)).

Definition send_internal (node_id : NodeId) (contact_id : option ContactId) (request : Req) (config : SendInternalConfig)
  (t : Transport) : result Z SessionSendError * Transport :=
  match transmit node_id contact_id request config t with
  | (Err e, t) => (Err e, t)
  | (Ok u, t) => let (external_request_id, t) := register u t in (Ok external_request_id, t)
  end.

Definition send_request (node_id : NodeId) (contact_id : option ContactId) (request : Req) (t : Transport)
  : result Z SessionSendError * Transport :=
  send_internal node_id contact_id request (ConfigRegister false) t.

Definition send_request_idempotent (node_id : NodeId) (contact_id : option ContactId) (request : Req) (t : Transport)
  : result Z SessionSendError * Transport :=
  send_internal node_id contact_id request (ConfigRegister true) t.

(** ** Receiving *)

(** The end of both branches that send a request again. *)
Definition resend (node_id : NodeId) (contact_id : option ContactId) (request : Req) (request_id : RequestId) (external_id : Z)
  (t : Transport) : Transport :=
  match send_internal node_id contact_id request (ConfigUpdate request_id) t with
  | (Ok _, t) => t
  | (Err e, t) => deliver_error node_id (Ok external_id) (LocalError (ResendError e)) t
  end.

(** [receive_encrypted_response] for an error, up to where it sends again: what is to
    be sent, and the external id; or nothing, and the error was reported. *)
Definition prepare_resend (node_id : NodeId) (request_id : RequestId) (e : ReceiveError) (t : Transport)
  : option (option ContactId * Req * Z) * Transport :=
  match check_request_metadata request_id (tr_registry t) with
  | None => (None, deliver_error node_id (Err tt) e t)
  | Some (retry_count, external_id) =>
      if 0 <? retry_count then (None, deliver_error node_id (Ok external_id) e t)
      else
        match e with
        | RemoteError _ =>
            let current_session := get_established_session node_id false (tr_world t) in
            match get_request_for_resend_after_session_error current_session request_id (tr_registry t) with
            | (None, r) => (None, deliver_error node_id (Ok external_id) e (set_registry r t))
            | (Some again, r) =>
                let t := set_registry r t in
                let t := if requires_new_session again then set_peer_world (clear_session node_id (tr_world t)) t else t in
                (Some (ra_contact_id again, ra_request again, external_id), t)
            end
        | LocalError _ =>
            match get_request_for_resend request_id (tr_registry t) with
            | (None, r) => (None, deliver_error node_id (Ok external_id) e (set_registry r t))
            | (Some again, r) =>
                let t := set_registry r t in
                if negb (rr_idempotent again) then (None, deliver_error node_id (Ok external_id) e t)
                else (Some (rr_contact_id again, rr_request again, external_id), t)
            end
        end
  end.

Definition receive_error (node_id : NodeId) (request_id : RequestId) (e : ReceiveError) (t : Transport) : Transport :=
  match prepare_resend node_id request_id e t with
  | (None, t) => t
  | (Some (contact_id, request, external_id), t) => resend node_id contact_id request request_id external_id t
  end.

(** The loop over the recent sessions: the first that decrypts, or all errors. *)
Fixpoint decrypt_first {A B} (decrypt : PSession -> A -> W -> result B DecryptError * W) (sessions : list PSession) (x : A)
  (errors : list DecryptError) (w : W) : result (PSession * B) (list DecryptError) * W :=
  match sessions with
  | [] => (Err errors, w)
  | session :: sessions =>
      match decrypt session x w with
      | (Err e, w) => decrypt_first decrypt sessions x (errors ++ [e]) w
      | (Ok b, w) => (Ok (session, b), w)
      end
  end.

Definition receive_encrypted_response (node_id : NodeId) (request_id : RequestId) (request : ReceivePayload) (t : Transport)
  : Transport :=
  match request with
  | PayloadError e => receive_error node_id request_id e t
  | PayloadResponse response =>
      let (removed_request, r) := remove_request request_id (tr_registry t) in
      let t := set_registry r t in
      let external_id := match removed_request with Some it => Ok (rem_external_request_id it) | None => Err tt end in
      match decrypt_first decrypt_response (get_recent_receive_sessions node_id (tr_world t)) response [] (tr_world t) with
      | (Ok (session, decrypted), w) =>
          deliver_response node_id (session_contact_id session) external_id decrypted (set_peer_world w t)
      | (Err [], w) => deliver_error node_id external_id (LocalError LocalMissingSession) (set_peer_world w t)
      | (Err decrypt_errors, w) =>
          deliver_error node_id external_id (LocalError (LocalDecryptError decrypt_errors)) (set_peer_world w t)
      end
  end.

(** ** Responding (session_responder.rs) *)

Inductive SessionResponderError :=
| ResponderMissingSession
| CouldNotDecrypt
| ResponderEncryptError (e : EncryptError).

(** [impl From<SessionResponderError> for SessionErrorResponse] *)
Definition session_error_response (value : SessionResponderError) : SessionErrorResponse :=
  match value with
  | ResponderMissingSession => RespMissingSession
  | CouldNotDecrypt => RespCryptError
  | ResponderEncryptError _ => RespCryptError
  end.

(** The log holds the requests that reached the business logic. *)
Definition decrypt_respond (node_id : NodeId) (request : EncReq) (request_id : InboundRequestId) (w : W)
  : option (result EncRes SessionResponderError) * list (option ContactId * Req) * W :=
  match decrypt_first decrypt_request (get_recent_receive_sessions node_id w) request [] w with
  | (Ok (session, decrypted), w) =>
      let contact_id := session_contact_id session in
      match respond_to node_id contact_id decrypted request_id w with
      | (None, w) => (None, [(contact_id, decrypted)], w)
      | (Some response, w) =>
          match encrypt_response session response w with
          | (Ok encrypted, w) => (Some (Ok encrypted), [(contact_id, decrypted)], w)
          | (Err e, w) => (Some (Err (ResponderEncryptError e)), [(contact_id, decrypted)], w)
          end
      end
  | (Err [], w) => (Some (Err ResponderMissingSession), [], w)
  | (Err _, w) => (Some (Err CouldNotDecrypt), [], w)
  end.

(** [handle_filerequest_event]: what an incoming request is answered on the wire
    and what an incoming answer becomes (handle_file_request_event.rs) *)
Definition filerequest_answer (response : option (result EncRes SessionResponderError))
  : option (result EncRes SessionErrorResponse) :=
  response ← response;
  Some (match response with Ok r => Ok r | Err _ => Err RespCryptError end).

Definition filerequest_payload (response : result EncRes SessionErrorResponse) : ReceivePayload :=
  match response with
  | Ok response => PayloadResponse response
  | Err RespMissingSession => PayloadError (RemoteError RemoteMissingSession)
  | Err RespCryptError => PayloadError (RemoteError CannotDecrypt)
  end.

Definition filerequest_outbound_failure (e : TransportError) : ReceivePayload :=
  PayloadError (LocalError (LocalTransportError e)).

(** *** The events of libp2p's request_response behaviour *)

Inductive Event :=
| EventRequest (peer : NodeId) (request : EncReq) (request_id : InboundRequestId)
| EventResponse (peer : NodeId) (request_id : RequestId) (response : result EncRes SessionErrorResponse)
| EventOutboundFailure (peer : NodeId) (request_id : RequestId) (error : TransportError)
| EventInboundFailure (peer : NodeId) (request_id : InboundRequestId)
| EventResponseSent (peer : NodeId).

(** What the handlers of invites tell the brain. *)
Inductive BrainNotice := NoticeRejectedContactShare | NoticeContactShareGotRejected | NoticeSelfContactInviteGotRejected.

(** What a handler does: the answer on the wire, messages for the brain, and the new
    state. *)
Definition handled : Type := option (result EncRes SessionErrorResponse) * list BrainNotice * Transport.

(** The request arms: [declined] is what happens when the business logic does not
    want to answer. *)
Definition on_request (peer : NodeId) (request : EncReq) (request_id : InboundRequestId) (declined : list BrainNotice)
    (t : Transport) : handled :=
  let '(response, _, w) := decrypt_respond peer request request_id (tr_world t) in
  (filerequest_answer response, match response with None => declined | Some _ => [] end, set_peer_world w t).

Definition on_response (peer : NodeId) (request_id : RequestId) (response : result EncRes SessionErrorResponse) (t : Transport)
  : handled := (None, [], receive_encrypted_response peer request_id (filerequest_payload response) t).

Definition handle_filerequest_event (event : Event) (t : Transport) : handled :=
  match event with
  | EventOutboundFailure peer request_id error =>
      (None, [], receive_encrypted_response peer request_id (filerequest_outbound_failure error) t)
  | EventInboundFailure _ _ | EventResponseSent _ => (None, [], t)
  | EventRequest peer request request_id => on_request peer request request_id [] t
  | EventResponse peer request_id response => on_response peer request_id response t
  end.

Definition handle_self_contact_invite_event (event : Event) (t : Transport) : handled :=
  match event with
  | EventRequest peer request request_id => on_request peer request request_id [] t
  | EventResponse peer request_id response => on_response peer request_id response t
  | EventOutboundFailure _ _ _ | EventInboundFailure _ _ => (None, [NoticeSelfContactInviteGotRejected], t)
  | EventResponseSent _ => (None, [], t)
  end.

Definition handle_contact_share_event (event : Event) (t : Transport) : handled :=
  match event with
  | EventRequest peer request request_id => on_request peer request request_id [NoticeRejectedContactShare] t
  | EventResponse peer request_id response => on_response peer request_id response t
  | EventOutboundFailure _ _ _ | EventInboundFailure _ _ => (None, [NoticeContactShareGotRejected], t)
  | EventResponseSent _ => (None, [], t)
  end.

End Transport.

(** ** Properties *)

Section Retries.
Context {W : Type} `{!Peer W} {Q Key : Type} `{!EqDecision Key, !Countable Key} `{!DelayQueue Q Key Z} `{!DelayQueueLaws Q Key Z}.
Implicit Types (t : Transport) (L : list event).
Local Abbreviation Registered := (RegisteredRequest Req PSession).

Definition sends_of (e : Z) (ev : event) : bool := match ev with Sent e' _ _ _ => e =? e' | _ => false end.

(** A response was delivered or an error reported, other than a timeout. *)
Definition ends_request (e : Z) (ev : event) : bool :=
  match ev with
  | Delivered _ _ (Ok e') _ | Reported _ (Ok e') _ => e =? e'
  | _ => false
  end.

Definition times_out (e : Z) (ev : event) : bool := match ev with TimedOut _ e' => e =? e' | _ => false end.

Definition count (f : event -> bool) L : nat := length (filter f L).

Definition sent_id (ev : event) : option RequestId := match ev with Sent _ i _ _ => Some i | _ => None end.
Definition transmitted_id (ev : event) : option RequestId := match ev with Transmitted i _ _ => Some i | _ => None end.
Definition timed_out (ev : event) : option (Z * NodeId) := match ev with TimedOut n e => Some (e, n) | _ => None end.

(** The external id that an event is counted for *)
Definition counted_id (ev : event) : option Z :=
  match ev with
  | Sent e _ _ _ | Delivered _ _ (Ok e) _ | Reported _ (Ok e) _ => Some e
  | _ => None
  end.

Definition again (d : Registered) : Registered := mk_registered (external_id d) (wrap64 (retry_count d + 1)) (rq_data d).

(** ** Interleaved calls *)

(** Where a call that sends a request waits: before the transmission, with the
    external id to which an error is reported if it is sent again, and before the
    registration. *)
Inductive task :=
| ToTransmit (node_id : NodeId) (contact_id : option ContactId) (request : Req) (config : SendInternalConfig) (external_id : option Z)
| ToRegister (u : unregistered).

Definition task_step (x : task) t : list task * Transport :=
  match x with
  | ToTransmit n c q config ext =>
      match transmit n c q config t with
      | (Ok u, t) => ([ToRegister u], t)
      | (Err e, t) =>
          ([], match ext with Some ext => deliver_error n (Ok ext) (LocalError (ResendError e)) t | None => t end)
      end
  | ToRegister u => ([], (register u t).2)
  end.

Definition receive_step (n : NodeId) (i : RequestId) (p : ReceivePayload) t : list task * Transport :=
  match p with
  | PayloadResponse _ => ([], receive_encrypted_response n i p t)
  | PayloadError e =>
      match prepare_resend n i e t with
      | (None, t) => ([], t)
      | (Some (c, q, ext), t) => ([ToTransmit n c q (ConfigUpdate i) (Some ext)], t)
      end
  end.

(** The transport, the calls that wait, and the worker of the registry. *)
Record Network := mk_network { nw_transport : Transport; nw_tasks : list task; nw_worker : Worker NodeId Q Key }.

Inductive transport_op :=
| OpSend (idempotent : bool) (node_id : NodeId) (contact_id : option ContactId) (request : Req)
| OpTask (k : nat)
| OpReceive (node_id : NodeId) (request_id : RequestId) (payload : ReceivePayload)
| OpPoll (now : Z)
| OpWorld (w : W).

(** A request is to be sent; one of the calls that wait goes on; something comes back
    for a request; the event loop polls the worker and reports a timeout; sessions and
    network change in between. *)
Definition transport_step (op : transport_op) (s : Network) : outcome Network :=
  let t := nw_transport s in
  match op with
  | OpSend idempotent n c q => Ret (mk_network t (nw_tasks s ++ [ToTransmit n c q (ConfigRegister idempotent) None]) (nw_worker s))
  | OpTask k =>
      match nw_tasks s !! k with
      | Some x => let (next, t) := task_step x t in Ret (mk_network t (delete k (nw_tasks s) ++ next) (nw_worker s))
      | None => Ret s
      end
  | OpReceive n i p => let (next, t) := receive_step n i p t in Ret (mk_network t (nw_tasks s ++ next) (nw_worker s))
  | OpPoll now =>
      let? (out, commands, w) := poll_next now true (reg_commands (tr_registry t)) (nw_worker s) in
      let t := set_registry (with_commands commands (tr_registry t)) t in
      Ret (mk_network (match out with Ready (Some (id, n)) => log (TimedOut n id) t | _ => t end) (nw_tasks s) w)
  | OpWorld w => Ret (mk_network (set_peer_world w t) (nw_tasks s) (nw_worker s))
  end.

Definition received_id (op : transport_op) : option RequestId :=
  match op with OpReceive _ i _ => Some i | _ => None end.

Definition transport_new (w : W) : Transport := mk_transport w (mk_registry ∅ 0 []) [].

Definition network_new (timeout : Z) (w : W) : Network := mk_network (transport_new w) [] (registry_new (Request := Req) (Session := PSession) (RequestId := RequestId) timeout).2.

Definition network_run (ops : list transport_op) (s : Network) : outcome Network :=
  foldl (fun s op => let? s := s in transport_step op s) (Ret s) ops.

Lemma network_run_snoc ops op s : network_run (ops ++ [op]) s = (let? s := network_run ops s in transport_step op s).
Proof. unfold network_run. by rewrite foldl_app. Qed.

(** ** What the calls do *)

Local Abbreviation externals t := (reg_register (tr_registry t)).
Local Abbreviation next_id t := (next_external_request_id (tr_registry t)).

Lemma transmit_cases n c q config t :
  (exists e w, transmit n c q config t = (Err e, set_peer_world w t)) \/
  (exists s i w, transmit n c q config t = (Ok (mk_unregistered i s n c q config), log (Transmitted i n q) (set_peer_world w t))).
Proof.
  unfold transmit. destruct (get_or_establish_session _ _ _) as [[s|e] w]; [|eauto].
  destruct (encrypt_request _ _ _) as [[x|e] w1]; [|eauto]. destruct (send_encrypted_request _ _ _) as [i w2]. right. eauto.
Qed.

(** An error for a request is reported, and the register stays as it is, or the
    request is counted and to be sent again. *)
Lemma prepare_cases n i e t :
  match prepare_resend n i e t with
  | (None, t') => externals t' = externals t /\ next_id t' = next_id t /\
      tr_log t' = tr_log t ++ [Reported n (match externals t !! i with Some d => Ok (external_id d) | None => Err tt end) e]
  | (Some (_, q, ext), t') => exists d x, externals t !! i = Some d /\ rq_data d = Some x /\ q = rd_request x /\ ext = external_id d /\
      retry_count d <= 0 /\ externals t' = <[i := again d]> (externals t) /\ next_id t' = next_id t /\ tr_log t' = tr_log t
  end.
Proof.
  unfold prepare_resend, check_request_metadata. destruct (externals t !! i) as [d|] eqn:Hl; [simpl|done].
  destruct (0 <? retry_count d) eqn:Er; [done|]. apply Z.ltb_ge in Er.
  unfold get_request_for_resend, get_request_for_resend_after_session_error. rewrite Hl. destruct e as [re|le]; destruct (rq_data d) as [x|] eqn:Hx; simpl.
  - case_goal; exists d, x; by split_and!.
  - done.
  - destruct (rd_idempotent x) eqn:Hi; simpl; [|done]. rewrite ?Hi. simpl. exists d, x. by split_and!.
  - done.
Qed.

(** A response removes its request and is delivered or reported. *)
Lemma receive_response_outcome n i r t :
  let t' := receive_encrypted_response n i (PayloadResponse r) t in
  externals t' = delete i (externals t) /\ next_id t' = next_id t /\
  exists ev, tr_log t' = tr_log t ++ [ev] /\ sent_id ev = None /\ transmitted_id ev = None /\ timed_out ev = None /\
    counted_id ev = external_id <$> externals t !! i.
Proof.
  simpl. destruct (decrypt_first _ _ _ _ _) as [[[s x]|[|e es]] w]; simpl; destruct (reg_register _ !! i); simpl;
    (split_and!; [done|done|]); eexists; by split_and!.
Qed.

Lemma receive_response_registry n i r t :
  tr_registry (receive_encrypted_response n i (PayloadResponse r) t) = (remove_request i (tr_registry t)).2.
Proof. simpl. by destruct (decrypt_first _ _ _ _ _) as [[[s x]|[|e es]] w]. Qed.

(** ** Counting *)

Lemma count_snoc f L ev : count f (L ++ [ev]) = (count f L + if f ev then 1 else 0)%nat.
Proof.
  unfold count. rewrite filter_app, length_app. simpl. unfold filter at 2, list_filter. by destruct (decide (f ev)) as [H|H], (f ev).
Qed.

Lemma count_zero f L : (forall ev, ev ∈ L -> f ev = false) -> count f L = 0%nat.
Proof.
  unfold count. induction L as [|ev L IH]; intros H; [done|]. rewrite filter_cons_False; [apply IH; set_solver|].
  rewrite (H ev) by set_solver. auto.
Qed.

Lemma sends_of_true e ev : sends_of e ev = true -> counted_id ev = Some e.
Proof. destruct ev; simpl; try done. by intros ->%Z.eqb_eq. Qed.

Lemma ends_request_true e ev : ends_request e ev = true -> counted_id ev = Some e.
Proof. by destruct ev as [| |n c [|] r|n [|] r|]; simpl; try done; intros ->%Z.eqb_eq. Qed.

Lemma sends_other e L ev : counted_id ev <> Some e \/ sent_id ev = None -> count (sends_of e) (L ++ [ev]) = count (sends_of e) L.
Proof.
  intros H. rewrite count_snoc. destruct (sends_of e ev) eqn:E; [|lia]. destruct H as [H|H]; [by apply sends_of_true in E|by destruct ev].
Qed.

Lemma ends_other e L ev : counted_id ev <> Some e \/ is_Some (sent_id ev) -> count (ends_request e) (L ++ [ev]) = count (ends_request e) L.
Proof.
  intros H. rewrite count_snoc. destruct (ends_request e ev) eqn:E; [|lia].
  destruct H as [H|[i H]]; [by apply ends_request_true in E|by destruct ev].
Qed.

Lemma counts_le e L ev :
  (count (sends_of e) (L ++ [ev]) <= S (count (sends_of e) L))%nat /\ (count (ends_request e) (L ++ [ev]) <= S (count (ends_request e) L))%nat.
Proof. rewrite !count_snoc. destruct (sends_of e ev), (ends_request e ev); lia. Qed.

Lemma times_out_once e L : NoDup (omap timed_out L).*1 -> (count (times_out e) L <= 1)%nat.
Proof.
  induction L as [|ev L IH]; [unfold count; simpl; lia|]. intros Hnd.
  assert (count (times_out e) (ev :: L) = ((if times_out e ev then 1 else 0) + count (times_out e) L)%nat) as ->.
  { unfold count. unfold filter at 1, list_filter at 1. simpl. fold (list_filter (A := event)). by destruct (decide (times_out e ev)) as [H|H], (times_out e ev). }
  destruct ev as [| | | |n e']; simpl in *; try (by apply IH). apply NoDup_cons in Hnd as [Hni Hnd].
  destruct (Z.eqb_spec e e') as [->|]; [|by apply IH]. rewrite count_zero; [lia|]. intros ev Hin.
  destruct (times_out e' ev) eqn:E; [|done]. exfalso. apply Hni. destruct ev as [| | | |n1 e1]; try done. simpl in E. apply Z.eqb_eq in E as <-.
  apply list_elem_of_fmap. exists (e', n1). split; [done|]. apply list_elem_of_omap. by exists (TimedOut n1 e').
Qed.

(** ** The invariant of transmissions and outcomes *)

(** A request that was counted and is not sent again yet. *)
Definition resending (received : list RequestId) (R : gmap RequestId Registered) L (i : RequestId) (q : Req) (d : Registered) : Prop :=
  R !! i = Some d /\ i ∈ received /\ (exists x, rq_data d = Some x /\ rd_request x = q) /\ retry_count d = 1 /\
  count (sends_of (external_id d)) L = 1%nat /\ count (ends_request (external_id d)) L = 0%nat.

Definition config_ok received R L (q : Req) (config : SendInternalConfig) (ext : option Z) : Prop :=
  match config with
  | ConfigRegister _ => ext = None
  | ConfigUpdate i => exists d, resending received R L i q d /\ ext = Some (external_id d)
  | ConfigRegisterOnlyId => False
  end.

Definition task_ok received R L (x : task) : Prop :=
  match x with
  | ToTransmit _ _ q config ext => config_ok received R L q config ext
  | ToRegister u =>
      un_request_id u ∈ omap transmitted_id L /\ (un_request_id u ∉ omap sent_id L) /\
      exists ext, config_ok received R L (un_request u) (un_config u) ext
  end.

Definition config_of (x : task) : SendInternalConfig := match x with ToTransmit _ _ _ config _ => config | ToRegister u => un_config u end.
Definition updates (x : task) : option RequestId := match config_of x with ConfigUpdate i => Some i | _ => None end.
Definition registers (x : task) : option RequestId := match x with ToRegister u => Some (un_request_id u) | _ => None end.

Record transport_inv (received : list RequestId) (T : list task) (R : gmap RequestId Registered) (next : Z) L : Prop := {
  ti_next : 0 <= next;
  ti_ext i d : R !! i = Some d -> 0 <= external_id d < next /\ i ∈ omap sent_id L;
  ti_inj i j d e : R !! i = Some d -> R !! j = Some e -> external_id d = external_id e -> i = j;
  ti_live i d : R !! i = Some d -> i ∉ received ->
    count (ends_request (external_id d)) L = 0%nat /\
    (retry_count d = 0 /\ count (sends_of (external_id d)) L = 1%nat \/ retry_count d = 1 /\ count (sends_of (external_id d)) L = 2%nat);
  ti_bounds e : (count (sends_of e) L <= 2)%nat /\ (count (ends_request e) L <= 1)%nat;
  ti_request i d x e j n q : R !! i = Some d -> rq_data d = Some x -> Sent e j n q ∈ L -> e = external_id d -> q = rd_request x;
  ti_same e j n q j' n' q' : Sent e j n q ∈ L -> Sent e j' n' q' ∈ L -> q = q';
  ti_new e ev : ev ∈ L -> counted_id ev = Some e -> e < next;
  ti_sent i : i ∈ omap sent_id L -> i ∈ omap transmitted_id L;
  ti_tasks : Forall (task_ok received R L) T;
  ti_updates : NoDup (omap updates T);
  ti_registers : NoDup (omap registers T);
}.

Lemma config_ok_frame received received' R R' L ev q config ext :
  config_ok received R L q config ext ->
  (forall i d, config = ConfigUpdate i -> R !! i = Some d -> i ∈ received -> R' !! i = Some d /\ i ∈ received' /\ counted_id ev <> Some (external_id d)) ->
  config_ok received' R' (L ++ [ev]) q config ext.
Proof.
  intros Hc Hf. destruct config as [b|i|]; try done. destruct Hc as (d & (Hl & Hr & Hx & H1 & H2 & H3) & He).
  destruct (Hf i d eq_refl Hl Hr) as (Hl' & Hr' & Hev). exists d. split; [|done]. split_and!; try done.
  - rewrite sends_other; auto.
  - rewrite ends_other; auto.
Qed.

(** An event that no task and none of the other requests is about. *)
Lemma tasks_frame received received' R R' L ev T :
  Forall (task_ok received R L) T -> sent_id ev = None \/ (forall x, x ∈ T -> registers x = None \/ registers x <> sent_id ev) ->
  (forall i d, Some i ∈ updates <$> T -> R !! i = Some d -> i ∈ received -> R' !! i = Some d /\ i ∈ received' /\ counted_id ev <> Some (external_id d)) ->
  Forall (task_ok received' R' (L ++ [ev])) T.
Proof.
  intros HT Hs Hf. apply Forall_forall. intros x Hx. rewrite Forall_forall in HT. specialize (HT x Hx).
  assert (forall i d, config_of x = ConfigUpdate i -> R !! i = Some d -> i ∈ received -> R' !! i = Some d /\ i ∈ received' /\ counted_id ev <> Some (external_id d)) as Hf'.
  { intros i d Hc. apply Hf. apply list_elem_of_fmap. exists x. split; [|done]. unfold updates. by rewrite Hc. }
  destruct x as [n c q config ext|u]; simpl in *; [by eapply config_ok_frame|].
  destruct HT as (H1 & H2 & ext & H3). rewrite !omap_app. split_and!; [set_solver| |eexists; by eapply config_ok_frame].
  rewrite elem_of_app. intros [?|Hin]; [done|]. destruct ev; simpl in Hin; try by apply not_elem_of_nil in Hin.
  apply list_elem_of_singleton in Hin. destruct Hs as [?|Hs]; [done|]. destruct (Hs _ Hx) as [?|Hn]; [done|]. destruct Hn. simpl. by rewrite Hin.
Qed.
Lemma elem_of_updates (T : list task) i : Some i ∈ updates <$> T -> i ∈ omap updates T.
Proof. intros (x & E & Hx)%list_elem_of_fmap. apply list_elem_of_omap. eauto. Qed.

Lemma transport_inv_perm received T T' R next L : T ≡ₚ T' -> transport_inv received T R next L -> transport_inv received T' R next L.
Proof. intros E []. by split; try done; rewrite <- E. Qed.

Lemma transport_inv_task received x T R next L : transport_inv received (x :: T) R next L -> task_ok received R L x /\ transport_inv received T R next L.
Proof.
  intros []. apply Forall_cons in ti_tasks0 as [Hx HT]. split; [done|]. split; try done.
  - simpl in *. destruct (updates x); [by apply NoDup_cons in ti_updates0 as [_ ?]|done].
  - simpl in *. destruct (registers x); [by apply NoDup_cons in ti_registers0 as [_ ?]|done].
Qed.

(** An event other than a registration: if it is an outcome, then the first of its
    request, and nothing will come for this request any more. *)
Lemma inv_event received received' T R R' next L ev :
  transport_inv received T R next L -> sent_id ev = None -> (forall j d, R' !! j = Some d -> R !! j = Some d) -> received ⊆ received' ->
  (forall e, counted_id ev = Some e -> e < next /\ count (ends_request e) L = 0%nat /\ (forall j d, R' !! j = Some d -> external_id d = e -> j ∈ received')) ->
  (forall j d, j ∈ omap updates T -> R !! j = Some d -> j ∈ received -> R' !! j = Some d /\ counted_id ev <> Some (external_id d)) ->
  transport_inv received' T R' next (L ++ [ev]).
Proof.
  intros [] Hs HR Hsub Hev HT. assert (forall e j n q, Sent e j n q ∈ L ++ [ev] -> Sent e j n q ∈ L) as Hsent.
  { intros e j n q [?|E%list_elem_of_singleton]%elem_of_app; [done|]. by subst ev. }
  assert (omap sent_id (L ++ [ev]) = omap sent_id L) as Es by (rewrite omap_app; simpl; by rewrite Hs, app_nil_r).
  split; rewrite ?Es; eauto.
  - intros j d Hl Hj. rewrite sends_other by auto. rewrite ends_other; [eapply ti_live0; [eauto|set_solver]|].
    left. intros E. destruct (Hev _ E) as (_ & _ & Hd). by apply Hj, (Hd _ _ Hl).
  - intros e. destruct (ti_bounds0 e) as [H1 H2]. rewrite sends_other by auto. split; [done|].
    destruct (decide (counted_id ev = Some e)) as [E|E]; [|by rewrite ends_other; auto].
    destruct (Hev _ E) as (_ & H0 & _). pose proof (counts_le e L ev). lia.
  - intros e ev' [?| ->%list_elem_of_singleton]%elem_of_app E; [eauto|by apply Hev].
  - intros i Hi%ti_sent0. rewrite omap_app. set_solver.
  - eapply tasks_frame; [done|by left|]. intros i d Hi%elem_of_updates Hl Hr. destruct (HT _ _ Hi Hl Hr). split_and!; [done|set_solver|done].
Qed.

(** A request comes to an end: an answer or an error for it, with its external id or
    without. *)
Lemma inv_outcome received T R R' next L ev i :
  transport_inv received T R next L -> i ∉ received -> R' = R \/ R' = delete i R -> sent_id ev = None ->
  counted_id ev = external_id <$> R !! i -> transport_inv (i :: received) T R' next (L ++ [ev]).
Proof.
  intros Hi Hr HR Hs Hc. pose proof Hi as [].
  assert (forall j d, R' !! j = Some d -> R !! j = Some d) as Hsub.
  { destruct HR as [->| ->]; [done|]. by intros j d [_ ?]%lookup_delete_Some. }
  eapply inv_event; try done; [set_solver| |].
  - intros e E. rewrite Hc in E. apply fmap_Some in E as (d & Hl & ->). destruct (ti_ext0 _ _ Hl) as [? _]. destruct (ti_live0 _ _ Hl Hr) as [? _].
    split_and!; [lia|done|]. intros j d' Hl'%Hsub Hd. rewrite (ti_inj0 _ _ _ _ Hl' Hl Hd). set_solver.
  - intros j d _ Hl Hj. assert (j <> i) by set_solver. split; [destruct HR as [->| ->]; [done|by rewrite lookup_delete_ne]|].
    rewrite Hc. intros (d' & Hl' & Hd)%fmap_Some. by pose proof (ti_inj0 _ _ _ _ Hl Hl' Hd).
Qed.

(** A transmission, or a timeout *)
Lemma inv_neutral received T R next L ev :
  transport_inv received T R next L -> counted_id ev = None -> transport_inv received T R next (L ++ [ev]).
Proof. intros Hi Hc. eapply inv_event; try done; [by destruct ev| |]; intros; by rewrite Hc in *. Qed.

(** The request cannot be sent again. *)
Lemma inv_resend_failed received T R next L n c q i ext e :
  transport_inv received (ToTransmit n c q (ConfigUpdate i) (Some ext) :: T) R next L ->
  transport_inv received T R next (L ++ [Reported n (Ok ext) e]).
Proof.
  intros Hi. assert (i ∉ omap updates T) as Hni by (pose proof (ti_updates _ _ _ _ _ Hi) as [? _]%NoDup_cons; done).
  apply transport_inv_task in Hi as [(d & (Hl & Hr & _ & _ & _ & H0) & [= ->]) Hi]. pose proof Hi as [].
  eapply inv_event; try done; simpl.
  - intros e' [= <-]. destruct (ti_ext0 _ _ Hl). split_and!; [lia|done|]. intros j d' Hl' Hd. by rewrite (ti_inj0 _ _ _ _ Hl' Hl Hd).
  - intros j d' Hj Hl' _. split; [done|]. intros [= E]. by rewrite (ti_inj0 _ _ _ _ Hl Hl' E) in Hni.
Qed.

(** An error comes for a request that was not sent again yet. *)
Lemma inv_prepare received T R next L i d x n c :
  transport_inv received T R next L -> i ∉ received -> R !! i = Some d -> rq_data d = Some x -> retry_count d <= 0 ->
  transport_inv (i :: received) (ToTransmit n c (rd_request x) (ConfigUpdate i) (Some (external_id d)) :: T) (<[i := again d]> R) next L.
Proof.
  intros Hi Hr Hl Hx Hc. pose proof Hi as [].
  destruct (ti_live0 _ _ Hl Hr) as [H0 [[Hz H1]|[Hz _]]]; [|lia].
  assert (forall j e, <[i := again d]> R !! j = Some e -> exists e', R !! j = Some e' /\ external_id e = external_id e' /\ rq_data e = rq_data e') as HR.
  { intros j e [[<- <-]|[_ ?]]%lookup_insert_Some; eauto. }
  assert (Forall (fun y => updates y <> Some i) T) as Hu.
  { eapply Forall_impl; [done|]. intros y Hy E. destruct y as [? ? ? config ?|u]; unfold updates in E; simpl in *.
    - destruct config; simplify_eq/=. by destruct Hy as (d' & (_ & ? & _) & _).
    - destruct (un_config u); simplify_eq/=. by destruct Hy as (_ & _ & ext & d' & (_ & ? & _) & _). }
  split; eauto.
  - intros j e (e' & Hl' & -> & _)%HR. eauto.
  - intros j1 j2 d1 d2 (e1 & Hl1 & E1 & _)%HR (e2 & Hl2 & E2 & _)%HR E. eapply ti_inj0; [done..|congruence].
  - intros j e [[<- <-]|[Hne Hl']]%lookup_insert_Some Hj; [set_solver|]. eapply ti_live0; [done|set_solver].
  - intros j e y e0 j0 n0 q (e' & Hl' & E1 & E2)%HR. rewrite E1, E2. eauto.
  - constructor.
    + exists (again d). split; [|done]. unfold resending. rewrite lookup_insert_eq. split_and!; try done; [set_solver|eauto|]. simpl. by rewrite Hz.
    + rewrite Forall_forall in *. intros y Hy. specialize (ti_tasks0 y Hy). specialize (Hu y Hy).
      assert (forall q config ext, config_of y = config -> config_ok received R L q config ext -> config_ok (i :: received) (<[i := again d]> R) L q config ext) as Hok.
      { intros q config ext Ey. destruct config; [done| |done]. intros (d' & (?&?&?&?&?&?) & ?). exists d'. split; [|done].
        assert (i <> old_request_id) by (intros ->; apply Hu; unfold updates; by rewrite Ey). split_and!; try done; [by rewrite lookup_insert_ne|set_solver]. }
      destruct y as [? ? ? config ?|u]; simpl in *; [by apply Hok|]. destruct ti_tasks0 as (? & ? & ext & ?). split_and!; eauto.
  - simpl. apply NoDup_cons. split; [|done]. intros (y & Hy & E)%list_elem_of_omap. rewrite Forall_forall in Hu. by destruct (Hu y Hy).
Qed.

Lemma inv_transmitted received T R next L n c q config ext i s :
  transport_inv received (ToTransmit n c q config ext :: T) R next L -> i ∉ omap transmitted_id L ->
  transport_inv received (ToRegister (mk_unregistered i s n c q config) :: T) R next (L ++ [Transmitted i n q]).
Proof.
  intros Hi Hn. pose proof (ti_sent _ _ _ _ _ Hi i) as Hs. pose proof (ti_tasks _ _ _ _ _ Hi) as [_ HT0]%Forall_cons.
  apply (inv_neutral _ _ _ _ _ (Transmitted i n q)) in Hi; [|done]. destruct Hi. apply Forall_cons in ti_tasks0 as [Hx HT]. split; try done.
  - constructor; [|done]. simpl. rewrite !omap_app. simpl. rewrite app_nil_r. split_and!; [set_solver|auto|by exists ext].
  - simpl. apply NoDup_cons. split; [|done]. intros (y & Hy & E)%list_elem_of_omap. rewrite Forall_forall in HT0. specialize (HT0 y Hy).
    destruct y as [|u]; simplify_eq/=. by destruct HT0 as (? & _).
Qed.

(** The first transmission is registered under a new external id; *)
Lemma inv_registered received T R next L u b :
  transport_inv received (ToRegister u :: T) R next L -> un_config u = ConfigRegister b ->
  transport_inv received T (<[un_request_id u := with_data next (un_contact_id u) (un_request u) b (un_session u)]> R) (next + 1)
    (L ++ [Sent next (un_request_id u) (un_node_id u) (un_request u)]).
Proof.
  intros Hi Hb. set (i := un_request_id u). assert (i ∉ omap registers T) as Hni by (pose proof (ti_registers _ _ _ _ _ Hi) as [? _]%NoDup_cons; done).
  apply transport_inv_task in Hi as [(Ht & Hs & _) Hi]. pose proof Hi as []. fold i in Ht, Hs.
  set (ev := Sent next i _ _). assert (forall e, e < next -> counted_id ev <> Some e) as Hev by (intros e ? [= ?]; lia).
  assert (forall e, next <= e -> count (sends_of e) L = 0%nat /\ count (ends_request e) L = 0%nat) as Hz.
  { intros e He. split; apply count_zero; intros ev' Hin; apply not_true_is_false; intros E; [apply sends_of_true in E|apply ends_request_true in E];
      apply (ti_new0 _ _ Hin) in E; lia. }
  assert (R !! i = None) as Hl. { destruct (R !! i) eqn:E; [|done]. by apply ti_ext0 in E as [_ ?]. }
  assert (omap sent_id (L ++ [ev]) = omap sent_id L ++ [i]) as Es by by rewrite omap_app.
  split; rewrite ?Es; try done.
  - lia.
  - intros j d [[<- <-]|[_ Hj]]%lookup_insert_Some; [simpl; split; [lia|set_solver]|]. apply ti_ext0 in Hj as [? ?]. split; [lia|set_solver].
  - intros j1 j2 d1 d2 [[<- <-]|[_ H1]]%lookup_insert_Some [[<- <-]|[_ H2]]%lookup_insert_Some; simpl; [done| | |by apply ti_inj0].
    + intros E. apply ti_ext0 in H2 as [? _]. lia.
    + intros E. apply ti_ext0 in H1 as [? _]. lia.
  - intros j d [[<- <-]|[_ Hj]]%lookup_insert_Some Hr.
    + destruct (Hz next) as [H1 H2]; [lia|]. cbn [external_id with_data retry_count]. rewrite ends_other by (right; by eexists). rewrite count_snoc, H1. simpl. rewrite Z.eqb_refl. auto.
    + destruct (ti_ext0 _ _ Hj) as [? _]. rewrite ends_other, sends_other by (left; apply Hev; lia). by eapply ti_live0.
  - intros e. destruct (decide (e = next)) as [->|He].
    + destruct (Hz next) as [H1 H2]; [lia|]. pose proof (counts_le next L ev). lia.
    + assert (counted_id ev <> Some e) by (by intros [= ?]). rewrite sends_other, ends_other; auto.
  - intros j d x e j' n' q [[<- <-]|[_ Hj]]%lookup_insert_Some Hx [Hin|Hin%list_elem_of_singleton]%elem_of_app ->; simplify_eq/=.
    + apply (ti_new0 next) in Hin; [lia|done].
    + done.
    + by eapply ti_request0.
    + apply ti_ext0 in Hj as [? _]. lia.
  - intros e j n q j' n' q' [Hin|Hin%list_elem_of_singleton]%elem_of_app [Hin'|Hin'%list_elem_of_singleton]%elem_of_app; [by eapply ti_same0|..].
    + subst ev. simplify_eq. apply (ti_new0 next) in Hin; [lia|done].
    + subst ev. simplify_eq. apply (ti_new0 next) in Hin'; [lia|done].
    + subst ev. by simplify_eq.
  - intros e ev' [Hin| ->%list_elem_of_singleton]%elem_of_app E; [apply (ti_new0 _ _ Hin) in E; lia|]. simplify_eq/=. lia.
  - intros j. rewrite omap_app. simpl. rewrite app_nil_r. intros [?| ->%list_elem_of_singleton]%elem_of_app; auto.
  - eapply tasks_frame; [done| |].
    + right. intros y Hy. destruct (registers y) as [j|] eqn:E; [right|by left]. intros [= ->]. apply Hni, list_elem_of_omap. eauto.
    + intros j d _ Hj ?. destruct (ti_ext0 _ _ Hj) as [? _]. split_and!; [|done|apply Hev; lia]. rewrite lookup_insert_ne; [done|]. congruence.
Qed.

(** the second one under the external id of the first. *)
Lemma inv_resent received T R next L u j :
  transport_inv received (ToRegister u :: T) R next L -> un_config u = ConfigUpdate j ->
  exists d, R !! j = Some d /\
    transport_inv received T (<[un_request_id u := d]> (delete j R)) next (L ++ [Sent (external_id d) (un_request_id u) (un_node_id u) (un_request u)]).
Proof.
  intros Hi Hb. set (i := un_request_id u). assert (i ∉ omap registers T) as Hni by (pose proof (ti_registers _ _ _ _ _ Hi) as [? _]%NoDup_cons; done).
  assert (j ∉ omap updates T) as Hnj.
  { pose proof (ti_updates _ _ _ _ _ Hi) as H. simpl in H. replace (updates (ToRegister u)) with (Some j) in H; [by apply NoDup_cons in H as [? _]|].
    unfold updates. simpl. by rewrite Hb. }
  apply transport_inv_task in Hi as [(Ht & Hs & ext & Hok) Hi]. rewrite Hb in Hok. destruct Hok as (d & (Hj & Hr & (x & Hx & Hq) & Hone & H1 & H0) & _).
  exists d. split; [done|]. pose proof Hi as []. fold i in Ht, Hs. set (ev := Sent _ i _ _).
  assert (forall k d', <[i := d]> (delete j R) !! k = Some d' -> k = i /\ d' = d \/ k <> i /\ R !! k = Some d' /\ counted_id ev <> Some (external_id d')) as HR.
  { intros k d' [[<- <-]|[? [? Hk]%lookup_delete_Some]]%lookup_insert_Some; [by left|right]. split_and!; [done..|]. intros [= E].
    by pose proof (ti_inj0 _ _ _ _ Hj Hk E). }
  assert (omap sent_id (L ++ [ev]) = omap sent_id L ++ [i]) as Es by by rewrite omap_app.
  assert (count (sends_of (external_id d)) (L ++ [ev]) = 2%nat) as Hs2 by (rewrite count_snoc, H1; simpl; by rewrite Z.eqb_refl).
  assert (count (ends_request (external_id d)) (L ++ [ev]) = 0%nat) as He0 by (rewrite ends_other; [done|right; by eexists]).
  split; rewrite ?Es; try done.
  - intros k d' [[-> ->]|(_ & Hk & _)]%HR; [destruct (ti_ext0 _ _ Hj)|destruct (ti_ext0 _ _ Hk)]; (split; [lia|set_solver]).
  - intros k1 k2 d1 d2 [[-> ->]|(_ & Hk1 & He1)]%HR [[-> ->]|(_ & Hk2 & He2)]%HR E; simpl in *; [done|congruence..|by eapply ti_inj0].
  - intros k d' [[-> ->]|(_ & Hk & He)]%HR Hkr; [rewrite Hs2, He0; auto|]. rewrite sends_other, ends_other by auto. by eapply ti_live0.
  - intros e. destruct (decide (counted_id ev = Some e)) as [[= <-]|He]; [rewrite Hs2, He0; lia|]. rewrite sends_other, ends_other by auto. apply ti_bounds0.
  - intros k d' y e k' n q [[-> ->]|(_ & Hk & He)]%HR Hy [Hin|Hin%list_elem_of_singleton]%elem_of_app ->.
    + by eapply (ti_request0 j).
    + subst ev. congruence.
    + by eapply ti_request0.
    + subst ev. simpl in He. congruence.
  - assert (forall e k n q, e = external_id d -> Sent e k n q ∈ L -> q = un_request u) as Hsame.
    { intros e k n q -> Hin. rewrite <- Hq. by eapply (ti_request0 j). }
    intros e k n q k' n' q' [Hin|Hin%list_elem_of_singleton]%elem_of_app [Hin'|Hin'%list_elem_of_singleton]%elem_of_app; [by eapply ti_same0|..];
      subst ev; simplify_eq; [by eapply Hsame|symmetry; by eapply Hsame|done].
  - intros e ev' [Hin| ->%list_elem_of_singleton]%elem_of_app E; [by apply (ti_new0 _ _ Hin)|]. simplify_eq/=. destruct (ti_ext0 _ _ Hj). lia.
  - intros k. rewrite omap_app. simpl. rewrite app_nil_r. intros [?| ->%list_elem_of_singleton]%elem_of_app; auto.
  - eapply tasks_frame; [done| |].
    + right. intros y Hy. destruct (registers y) as [k|] eqn:E; [right|by left]. intros [= ->]. apply Hni, list_elem_of_omap. eauto.
    + intros k d' Hu%elem_of_updates Hk ?. assert (k <> j) by (by intros ->). destruct (ti_ext0 _ _ Hk) as [_ Hks].
      split_and!; [|done|intros [= E]; by pose proof (ti_inj0 _ _ _ _ Hj Hk E)]. rewrite lookup_insert_ne by (by intros <-). by rewrite lookup_delete_ne.
Qed.

Lemma transport_inv_new : transport_inv [] [] ∅ 0 [].
Proof. split; simpl; try done; try set_solver; try apply NoDup_nil_2. Qed.

(** ** Every step keeps both invariants *)

Definition network_inv (received : list RequestId) (s : Network) : Prop :=
  transport_inv received (nw_tasks s) (externals (nw_transport s)) (next_id (nw_transport s)) (tr_log (nw_transport s)).

(** Registry and worker agree, the log holds the reported timeouts, and [k] requests
    at most were registered. *)
Definition timeouts_inv (k : nat) (s : Network) : Prop :=
  exists nodes, (length nodes <= k)%nat /\ registry_inv nodes (omap timed_out (tr_log (nw_transport s))) (tr_registry (nw_transport s)) (nw_worker s).

Lemma prepare_registry n i e t :
  let t' := (prepare_resend n i e t).2 in
  (tr_registry t' = tr_registry t \/ exists d, externals t !! i = Some d /\ tr_registry t' = count_retry i d (tr_registry t)) /\
  omap timed_out (tr_log t') = omap timed_out (tr_log t).
Proof.
  unfold prepare_resend, check_request_metadata. destruct (externals t !! i) as [d|] eqn:Hl; simpl; [|rewrite omap_app; simpl; rewrite app_nil_r; auto].
  destruct (0 <? retry_count d); [simpl; rewrite omap_app; simpl; rewrite app_nil_r; auto|].
  unfold get_request_for_resend, get_request_for_resend_after_session_error. rewrite Hl. destruct e as [re|le]; destruct (rq_data d) as [x|] eqn:Hx; simpl;
    repeat (case_goal; simpl); rewrite ?omap_app; simpl; rewrite ?app_nil_r; eauto.
Qed.

Lemma registered_inv k nodes done u t (wk : Worker NodeId Q Key) :
  registry_inv nodes done (tr_registry t) wk -> (length nodes <= k)%nat -> Z.of_nat k < u64_max ->
  exists nodes', (length nodes' <= S k)%nat /\ registry_inv nodes' done (tr_registry (register u t).2) wk.
Proof.
  intros Hi Hk Hlt. assert (forall op, (forall now, op <> RequestRegistry.OpPoll now) -> exists r' nodes', registry_step op (tr_registry t) wk = Ret ([], r', wk) /\
    (length nodes' <= S k)%nat /\ registry_inv nodes' done r' wk) as Hop.
  { intros op Hop. destruct (inv_step _ _ _ _ op Hi) as (out & r' & w' & E & Hi'); [lia|]. destruct op; try (by destruct (Hop now)); simpl in E; injection E as <- <- <-;
      rewrite (app_nil_r done) in Hi'; (do 2 eexists; split_and!; [done| |exact Hi']); rewrite length_app; simpl; lia. }
  unfold register, register_sent. destruct (un_config u) as [b|j|].
  - destruct (Hop (OpRegister (un_session u) (un_request_id u) (un_node_id u) (un_contact_id u) (un_request u) b)) as (r' & nodes' & E & ? & ?); [done|].
    injection E as <-. eauto.
  - destruct (update_request_id _ _ _) as [[e|] r] eqn:E.
    + destruct (Hop (OpUpdate j (un_request_id u))) as (r' & nodes' & E' & ? & ?); [done|]. simpl in E'. rewrite E in E'. injection E' as <-. eauto.
    + assert (r = tr_registry t) as -> by (unfold update_request_id in E; case_hyp E; by simplify_eq).
      destruct (Hop (OpRegisterId (un_request_id u) (un_node_id u))) as (r' & nodes' & E' & ? & ?); [done|]. injection E' as <-. eauto.
  - destruct (Hop (OpRegisterId (un_request_id u) (un_node_id u))) as (r' & nodes' & E' & ? & ?); [done|]. injection E' as <-. eauto.
Qed.

Lemma timed_out_snoc L ev : timed_out ev = None -> omap timed_out (L ++ [ev]) = omap timed_out L.
Proof. intros E. rewrite omap_app. simpl. by rewrite E, app_nil_r. Qed.

(** No step panics; the log grows. *)
Lemma timeouts_step k op s :
  timeouts_inv k s -> Z.of_nat k < u64_max ->
  exists s', transport_step op s = Ret s' /\ timeouts_inv (S k) s' /\ tr_log (nw_transport s) `prefix_of` tr_log (nw_transport s').
Proof.
  intros (nodes & Hk & Hi) Hlt. destruct s as [t T wk]. simpl in *.
  destruct op as [b n c q|j|n i p|now|w].
  - eexists. split_and!; [done| |done]. exists nodes. auto.
  - simpl. destruct (T !! j) as [[n c q config ext|u]|]; simpl; [| |eexists; split_and!; [done|exists nodes; auto|done]].
    + destruct (transmit_cases n c q config t) as [(e & w & ->)|(s & i & w & ->)].
      * destruct ext as [ext|]; (eexists; split_and!; [done| |]); [|by apply prefix_app_r|exists nodes; auto|done].
        exists nodes. split; [auto|]. simpl. by rewrite timed_out_snoc.
      * eexists. split_and!; [done| |by apply prefix_app_r]. exists nodes. split; [auto|]. simpl. by rewrite timed_out_snoc.
    + destruct (registered_inv k nodes _ u t wk Hi Hk Hlt) as (nodes' & Hk' & Hi'). eexists. split_and!; [done| |]; simpl.
      * exists nodes'. split; [done|]. simpl. unfold register in *. destruct (register_sent _ _ _ _ _ _ _) as [e r]. simpl in *. by rewrite omap_app, app_nil_r.
      * unfold register. destruct (register_sent _ _ _ _ _ _ _) as [e r]. by apply prefix_app_r.
  - unfold transport_step, receive_step. cbn [nw_transport nw_tasks nw_worker]. destruct p as [r|e].
    + pose proof (receive_response_outcome n i r t) as (_ & _ & ev & El & _ & _ & Et & _). pose proof (receive_response_registry n i r t) as Er.
      set (t' := receive_encrypted_response _ _ _ _) in *. clearbody t'.
      eexists. split_and!; [done| |simpl; rewrite El; by apply prefix_app_r].
      destruct (inv_step _ _ _ _ (OpRemove i) Hi) as (out & r' & w' & E & Hi'); [done|]. injection E as <- <- <-. rewrite !app_nil_r in Hi'.
      exists nodes. split; [auto|]. cbn [nw_transport nw_worker]. by rewrite El, timed_out_snoc, Er.
    + pose proof (prepare_registry n i e t) as [Hr Ht]. pose proof (prepare_cases n i e t) as Hp. simpl.
      destruct (prepare_resend n i e t) as [out t'] eqn:E. simpl in *.
      assert (exists next, (let (next, t') := match out with None => ([], t') | Some (c, q, ext) => ([ToTransmit n c q (ConfigUpdate i) (Some ext)], t') end in
        Ret (mk_network t' (T ++ next) wk)) = Ret (mk_network t' (T ++ next) wk)) as [next ->] by (destruct out as [[[c q] ext]|]; eauto).
      eexists. split_and!; [done| |].
      * exists nodes. split; [auto|]. simpl. rewrite Ht. destruct Hr as [-> |(d & Hl & ->)]; [done|by apply inv_count_retry].
      * simpl. destruct out as [[[c q] ext]|]; [by destruct Hp as (d & x & _ & _ & _ & _ & _ & _ & _ & ->)|]. destruct Hp as (_ & _ & ->). by apply prefix_app_r.
  - simpl. destruct (inv_poll _ _ _ _ now Hi) as (out & w' & -> & Hi'). simpl. eexists. split_and!; [done| |].
    + exists nodes. split; [auto|]. simpl. destruct out as [[[id n]|]|]; simpl in *; [by rewrite omap_app|by rewrite app_nil_r in Hi'..].
    + simpl. destruct out as [[[id n]|]|]; [by apply prefix_app_r|done..].
  - eexists. split_and!; [done| |done]. exists nodes. auto.
Qed.

Lemma inv_task received x T t :
  transport_inv received (x :: T) (externals t) (next_id t) (tr_log t) -> next_id t < u64_max ->
  let (new, t') := task_step x t in
  NoDup (omap transmitted_id (tr_log t')) -> transport_inv received (new ++ T) (externals t') (next_id t') (tr_log t').
Proof.
  intros Hi Hlt. destruct x as [n c q config ext|u]; simpl.
  - destruct (transmit_cases n c q config t) as [(e & w & ->)|(s & i & w & ->)]; simpl; intros Hnd.
    + destruct ext as [ext|]; [|by apply transport_inv_task in Hi as [_ ?]]. destruct config as [b|i|].
      * by apply transport_inv_task in Hi as [? _].
      * by eapply inv_resend_failed.
      * by apply transport_inv_task in Hi as [[] _].
    + eapply inv_transmitted; [done|]. rewrite omap_app in Hnd. simpl in Hnd. apply NoDup_app in Hnd as (_ & Hnd & _). intros Hin. apply (Hnd _ Hin). set_solver.
  - intros _. unfold register, register_sent. destruct (un_config u) as [b|j|] eqn:Hc.
    + simpl. unfold with_data. rewrite wrap64_id by (pose proof (ti_next _ _ _ _ _ Hi); unfold is_u64, u64_max in *; lia). by apply (inv_registered _ _ _ _ _ _ b).
    + destruct (inv_resent _ _ _ _ _ _ _ Hi Hc) as (d & Hj & Hi'). unfold update_request_id. by rewrite Hj.
    + apply transport_inv_task in Hi as [(_ & _ & ext & Hok) _]. by rewrite Hc in Hok.
Qed.

Lemma inv_receive received T n i p t :
  transport_inv received T (externals t) (next_id t) (tr_log t) -> i ∉ received ->
  let (new, t') := receive_step n i p t in transport_inv (i :: received) (new ++ T) (externals t') (next_id t') (tr_log t').
Proof.
  intros Hi Hr. destruct p as [r|e]; cbn [receive_step].
  - pose proof (receive_response_outcome n i r t) as (-> & -> & ev & -> & Hs & _ & _ & Hc). eapply inv_outcome; eauto.
  - pose proof (prepare_cases n i e t) as H. destruct (prepare_resend n i e t) as [[[[c q] ext]|] t'].
    + destruct H as (d & x & Hl & Hx & -> & -> & Hle & -> & -> & ->). by apply inv_prepare.
    + destruct H as (-> & -> & ->). eapply inv_outcome; eauto. by destruct (externals t !! i).
Qed.

Lemma network_inv_step received op s s' :
  network_inv received s -> next_id (nw_transport s) < u64_max -> transport_step op s = Ret s' ->
  NoDup (omap transmitted_id (tr_log (nw_transport s'))) -> Forall (fun i => i ∉ received) (option_list (received_id op)) ->
  network_inv (option_list (received_id op) ++ received) s'.
Proof.
  unfold network_inv. destruct s as [t T wk]. intros Hi Hlt. destruct op as [b n c q|j|n i p|now|w]; cbn [transport_step nw_transport nw_tasks nw_worker received_id option_list app].
  - intros [= <-] _ _. simpl in *. eapply transport_inv_perm; [apply Permutation_cons_append|]. destruct Hi. split; try done. by constructor.
  - destruct (T !! j) as [x|] eqn:Hj; [|by intros [= <-]]. simpl in Hi. apply delete_Permutation in Hj as Hp.
    pose proof (inv_task received x (delete j T) t (transport_inv_perm _ _ _ _ _ _ Hp Hi) Hlt) as H. destruct (task_step x t) as [new t'].
    intros [= <-] Hnd _. simpl in *. eapply transport_inv_perm; [apply Permutation_app_comm|]. auto.
  - simpl in Hi. intros E Hnd [Hr _]%Forall_cons. pose proof (inv_receive received T n i p t Hi Hr) as H. destruct (receive_step n i p t) as [new t'].
    injection E as <-. simpl in *. by eapply transport_inv_perm; [apply Permutation_app_comm|].
  - intros ([[out commands] w'] & _ & [= <-])%outcome_bind_ret _ _. simpl in *. destruct out as [[[id n]|]|]; [|done..]. by apply inv_neutral.
  - by intros [= <-] _ _.
Qed.

(** The requests that are sent again, or about to be *)
Definition resends (s : Network) (e : Z) (x : task) : bool :=
  match updates x with Some i => bool_decide (external_id <$> externals (nw_transport s) !! i = Some e) | None => false end.

Lemma updates_filter (f : task -> bool) (T : list task) : omap updates (filter f T) `sublist_of` omap updates T.
Proof.
  induction T as [|x T IH]; [done|]. simpl. destruct (decide (f x)).
  - rewrite filter_cons_True by done. simpl. destruct (updates x); [by apply sublist_skip|done].
  - rewrite filter_cons_False by done. destruct (updates x); [by apply sublist_cons|done].
Qed.

Lemma resends_bound received s e : network_inv received s ->
  (count (sends_of e) (tr_log (nw_transport s)) + length (filter (resends s e) (nw_tasks s)) <= 2)%nat.
Proof.
  unfold network_inv. intros Hi. assert (forall x, x ∈ filter (resends s e) (nw_tasks s) -> exists i d, updates x = Some i /\ externals (nw_transport s) !! i = Some d /\
    external_id d = e /\ count (sends_of e) (tr_log (nw_transport s)) = 1%nat) as Hx.
  { intros x [Hx Hin]%list_elem_of_filter. pose proof (ti_tasks _ _ _ _ _ Hi) as HT. rewrite Forall_forall in HT. specialize (HT x Hin).
    assert (exists q config ext, config_of x = config /\ config_ok received (externals (nw_transport s)) (tr_log (nw_transport s)) q config ext) as (q & config & ext & Ec & Hok).
    { destruct x as [? ? q config ext|u]; simpl in *; [by exists q, config, ext|]. destruct HT as (_ & _ & ext & ?). by exists (un_request u), (un_config u), ext. }
    unfold resends, updates in *. rewrite Ec in *. destruct config as [|i|]; [done| |done]. destruct Hok as (d & (Hl & _ & _ & _ & H1 & _) & _).
    rewrite Hl in Hx. apply Is_true_true, bool_decide_eq_true in Hx. injection Hx as Hd. exists i, d. by rewrite <- Hd. }
  pose proof (sublist_NoDup _ _ (ti_updates _ _ _ _ _ Hi) (updates_filter (resends s e) (nw_tasks s))) as Hnd. pose proof (ti_bounds _ _ _ _ _ Hi e) as [Hb _].
  destruct (filter (resends s e) (nw_tasks s)) as [|x [|y T]]; simpl; [lia|destruct (Hx x) as (i & d & _ & _ & _ & ->); [set_solver|lia]|exfalso].
  destruct (Hx x) as (i & d & Ei & Hi1 & Hd1 & _); [set_solver|]. destruct (Hx y) as (j & d' & Ej & Hj & Hd2 & _); [set_solver|].
  simpl in Hnd. rewrite Ei, Ej in Hnd. apply NoDup_cons in Hnd as [Hnd _]. apply Hnd. rewrite (ti_inj _ _ _ _ _ Hi _ _ _ _ Hi1 Hj); [by left|congruence].
Qed.

Lemma network_run_inv timeout w ops :
  Z.of_nat (length ops) < u64_max ->
  exists s, network_run ops (network_new timeout w) = Ret s /\ timeouts_inv (length ops) s /\
    (NoDup (omap received_id ops) -> NoDup (omap transmitted_id (tr_log (nw_transport s))) -> network_inv (reverse (omap received_id ops)) s).
Proof.
  induction ops as [|op ops IH] using rev_ind; intros Hlt.
  { eexists. split_and!; [done| |intros _ _; apply transport_inv_new]. exists []. split; [done|]. apply (registry_inv_new timeout). }
  rewrite length_app in *. simpl in Hlt. destruct IH as (s & E & Ht & Hn); [lia|]. rewrite network_run_snoc, E. cbn [outcome_bind].
  destruct (timeouts_step (length ops) op s Ht) as (s' & E' & Ht' & [evs Hp]); [lia|]. exists s'. split_and!; [done|by rewrite Nat.add_1_r|].
  rewrite omap_app. simpl. intros Hr Hnd. assert (omap received_id [op] = option_list (received_id op)) as Eo by (simpl; by destruct (received_id op)).
  simpl in Eo. rewrite Eo in *. rewrite reverse_app. replace (reverse (option_list (received_id op))) with (option_list (received_id op)) by (by destruct (received_id op)).
  apply NoDup_app in Hr as (Hr & Hfresh & _). eapply network_inv_step; [|..]; [| |exact E'|done|].
  - apply Hn; [done|]. rewrite Hp, omap_app in Hnd. by apply NoDup_app in Hnd as (? & _).
  - destruct Ht as (nodes & Hk & Hi). rewrite (ri_next _ _ _ _ Hi). lia.
  - apply Forall_forall. intros i Hi Hin. apply elem_of_reverse in Hin. rewrite reverse_involutive in Hin. by apply (Hfresh i).
Qed.

(** C32 A request is transmitted at most twice, with the same content, however calls,
    answers, errors and timeouts are interleaved, and whether or not it is idempotent:
    transmissions that were registered and those that still wait for it count. At most
    one outcome is passed on for it, a response or an error; at most one timeout is
    reported besides, also when an outcome was or will be passed on, and polling never
    panics. libp2p gives each transmission its own id and says at most once what became
    of it. An answer that comes before its transmission is registered is passed on
    without an external id. *)
Theorem at_most_two_transmissions timeout w ops :
  Z.of_nat (length ops) < u64_max ->
  exists s, network_run ops (network_new timeout w) = Ret s /\
    (forall e, (count (times_out e) (tr_log (nw_transport s)) <= 1)%nat) /\
    (NoDup (omap received_id ops) -> NoDup (omap transmitted_id (tr_log (nw_transport s))) ->
      (forall e, (count (sends_of e) (tr_log (nw_transport s)) + length (filter (resends s e) (nw_tasks s)) <= 2)%nat /\
        (count (ends_request e) (tr_log (nw_transport s)) <= 1)%nat) /\
      (forall e i n q i' n' q', Sent e i n q ∈ tr_log (nw_transport s) -> Sent e i' n' q' ∈ tr_log (nw_transport s) -> q = q')).
Proof.
  intros Hlt. destruct (network_run_inv timeout w ops Hlt) as (s & E & (nodes & _ & Ht) & Hn). exists s. split_and!; [done| |].
  - intros e. apply times_out_once, Ht.
  - intros Hr Hs. specialize (Hn Hr Hs). split; [|apply Hn]. intros e. split; [by eapply resends_bound|apply Hn].
Qed.

End Retries.

(** ** The responder *)

Section Responder.
Context {W : Type} `{!Peer W}.

(** The loop stops at the first session that decrypts; its errors are those of
    the sessions before it. *)
Lemma decrypt_first_spec {A B} (decrypt : PSession -> A -> W -> result B DecryptError * W) sessions x errors w r w' :
  decrypt_first decrypt sessions x errors w = (r, w') ->
  match r with
  | Ok (s, b) => exists before after es w1, sessions = before ++ s :: after /\
      decrypt_first decrypt before x errors w = (Err es, w1) /\ decrypt s x w1 = (Ok b, w')
  | Err es => length es = (length errors + length sessions)%nat
  end.
Proof.
  revert errors w. induction sessions as [|s sessions IH]; intros errors w; simpl.
  { intros [= <- <-]. lia. }
  destruct (decrypt s x w) as [[b|e] w1] eqn:E.
  - intros [= <- <-]. by exists [], sessions, errors, w.
  - intros H. apply IH in H. destruct r as [[s' b]|es]; [|rewrite length_app in H; simpl in H; lia].
    destruct H as (before & after & es & w2 & -> & E1 & E2). exists (s :: before), after, es, w2. simpl. by rewrite E.
Qed.

Lemma decrypt_respond_spec node request id w answer processed w' :
  decrypt_respond node request id w = (answer, processed, w') ->
  match processed with
  | [] => answer = Some (Err (match get_recent_receive_sessions node w with [] => ResponderMissingSession | _ => CouldNotDecrypt end))
  | [(c, q)] => exists before s after es w1 w2 out w3,
      get_recent_receive_sessions node w = before ++ s :: after /\
      decrypt_first decrypt_request before request [] w = (Err es, w1) /\ decrypt_request s request w1 = (Ok q, w2) /\
      c = session_contact_id s /\ respond_to node c q id w2 = (out, w3) /\
      match out with
      | None => answer = None
      | Some response =>
          answer = Some (match (encrypt_response s response w3).1 with Ok r => Ok r | Err e => Err (ResponderEncryptError e) end)
      end
  | _ => False
  end.
Proof.
  unfold decrypt_respond. destruct (decrypt_first _ _ _ _ _) as [r w1] eqn:E. pose proof (decrypt_first_spec _ _ _ _ _ _ _ E) as H.
  destruct r as [[s q]|es].
  - destruct H as (before & after & es & w0 & Es & E1 & E2).
    destruct (respond_to _ _ _ _ _) as [[response|] w2] eqn:Er; [destruct (encrypt_response _ _ _) as [[x|x] w3] eqn:Ee|]; intros [= <- <- <-];
      do 8 eexists; (split_and!; [exact Es|exact E1|exact E2|done|exact Er|]); simpl; by rewrite ?Ee.
  - simpl in H. destruct es as [|e es]; intros [= <- <- <-]; destruct (get_recent_receive_sessions node w); simpl in H; done.
Qed.

(** The business logic sees a request at most once, under the contact of the
    first session that decrypts it; the answer is encrypted under that session.
    It sees nothing exactly if no session decrypts, and the responder then says
    whether there was a session at all. *)
Theorem responder_processes_once node request id w answer processed w' :
  decrypt_respond node request id w = (answer, processed, w') ->
  match processed with
  | [] => answer = Some (Err (match get_recent_receive_sessions node w with [] => ResponderMissingSession | _ => CouldNotDecrypt end))
  | [(c, q)] => exists before s after es w1 w2 out w3,
      get_recent_receive_sessions node w = before ++ s :: after /\
      decrypt_first decrypt_request before request [] w = (Err es, w1) /\ decrypt_request s request w1 = (Ok q, w2) /\
      c = session_contact_id s /\ respond_to node c q id w2 = (out, w3) /\
      match out with
      | None => answer = None
      | Some response =>
          answer = Some (match (encrypt_response s response w3).1 with Ok r => Ok r | Err e => Err (ResponderEncryptError e) end)
      end
  | _ => False
  end.
Proof. apply decrypt_respond_spec. Qed.

(** No answer goes out to a request that the business logic declines: whoever guesses
    challenges learns nothing from the wire. An answer to any other event never goes
    out. *)
Lemma declined_request_is_not_answered event t :
  match event with
  | EventRequest peer request id =>
      forall processed w, decrypt_respond peer request id (tr_world t) = (None, processed, w) ->
        (handle_self_contact_invite_event event t).1 = (None, []) /\
        (handle_contact_share_event event t).1 = (None, [NoticeRejectedContactShare])
  | _ => (handle_self_contact_invite_event event t).1.1 = None /\ (handle_contact_share_event event t).1.1 = None
  end.
Proof. destruct event; try done. intros processed w E. simpl. unfold on_request. by rewrite E. Qed.

(** When an own invite cannot be delivered, the brain is told, but the request stays
    registered with its timer. *)
Lemma failed_invite_stays_registered peer i e t :
  (handle_self_contact_invite_event (EventOutboundFailure peer i e) t).2 = t /\
  (handle_contact_share_event (EventOutboundFailure peer i e) t).2 = t.
Proof. done. Qed.

(** A request that the remote side processed, but whose answer it could not
    encrypt, is sent again even if it is not idempotent: every responder error
    becomes [CryptError] on the wire, which the sender takes for a proof that the
    request was not read. *)
Theorem processed_request_is_resent node request id w err processed w' from i t d x :
  decrypt_respond node request id w = (Some (Err err), processed, w') -> processed <> [] ->
  reg_register (tr_registry t) !! i = Some d -> rq_data d = Some x -> retry_count d = 0 ->
  (forall w c, is_ok (get_or_establish_session from c w).1 = true) ->
  (forall s q w, is_ok (encrypt_request s q w).1 = true) ->
  (exists c q e, processed = [(c, q)] /\ err = ResponderEncryptError e) /\
  exists payload i', filerequest_payload <$> filerequest_answer (Some (Err err)) = Some payload /\
    tr_log (receive_encrypted_response from i payload t) = tr_log t ++ [Transmitted i' from (rd_request x); Sent (external_id d) i' from (rd_request x)].
Proof.
  intros Hd Hp Hl Hx Hr Hg He. split.
  { apply decrypt_respond_spec in Hd. destruct processed as [|[c q] [|]]; [done| |done].
    destruct Hd as (before & s & after & es & w1 & w2 & [response|] & w3 & _ & _ & _ & _ & _ & Ea); [|done].
    destruct (encrypt_response s response w3) as [[y|e] w4]; simplify_eq/=. eauto. }
  exists (PayloadError (RemoteError CannotDecrypt)). simpl.
  unfold receive_error, prepare_resend, check_request_metadata, get_request_for_resend_after_session_error. rewrite Hl. simpl. rewrite Hr, Hx. simpl.
  set (t1 := if _ : bool then _ else _). assert (tr_log t1 = tr_log t) as <- by (subst t1; by case_goal).
  assert (reg_register (tr_registry t1) !! i = Some (again d)) as Hl1 by (subst t1; case_goal; apply lookup_insert_eq).
  unfold resend, send_internal, transmit. pose proof (Hg (tr_world t1) (rd_contact_id x)) as Hg1.
  destruct (get_or_establish_session _ _ _) as [[s|] w1]; [|done]. pose proof (He s (rd_request x) w1) as He1.
  destruct (encrypt_request _ _ _) as [[y|] w2]; [|done]. destruct (send_encrypted_request _ _ _) as [i' w3]. exists i'.
  simpl. unfold register. simpl. unfold update_request_id. rewrite Hl1. simpl. by rewrite <- app_assoc.
Qed.

End Responder.

(** ** A peer in memory *)

Module ToyPeer.
Import MemoryQueue.

(** One session; a request id is a counter; encryption fails if told to. *)
Record ToyWorld := mk_toy { toy_next : Z; toy_encrypts : bool }.

#[export] Instance toy_session_eq : SessionEq Z := Z.eqb.

#[export] Instance toy_peer : Peer ToyWorld := {
  NodeId := Z; RequestId := Z; InboundRequestId := Z; Req := Z; Res := Z; PSession := Z; EncReq := Z; EncRes := Z;
  EncryptError := unit; DecryptError := unit; GetSessionError := unit; TransportError := unit;
  get_or_establish_session _ _ w := (Ok 1, w);
  get_established_session _ _ _ := Some 1;
  get_recent_receive_sessions _ _ := [1];
  clear_session _ w := w;
  encrypt_request _ q w := (Ok (q + 1), w);
  decrypt_request _ x w := (Ok (x - 1), w);
  encrypt_response _ r w := (if toy_encrypts w then Ok (r + 2) else Err tt, w);
  decrypt_response _ x w := (Ok (x - 2), w);
  session_contact_id _ := Some "bob"%string;
  send_encrypted_request _ _ w := (toy_next w, mk_toy (toy_next w + 1) (toy_encrypts w));
  respond_to _ _ q _ w := (Some (q * 2), w);
}.

(** A request that fails remotely, is sent again, times out, and is answered before
    the second transmission is registered. *)
Definition demo_calls : list (@transport_op ToyWorld _) :=
  [OpSend false 7 None 42; OpTask 0; OpTask 0; OpReceive 7 100 (PayloadError (RemoteError CannotDecrypt));
   OpPoll 5; OpPoll 5; OpTask 0; OpPoll 50; OpReceive 7 101 (PayloadResponse 86); OpTask 0].

Definition demo_run : outcome (@Network ToyWorld _ MemQueue Z) := network_run demo_calls (network_new 30 (mk_toy 100 true)).

Example transport_demo_log :
  (let? s := demo_run in Ret (tr_log (nw_transport s))) =
    Ret [Transmitted 100 7 42; Sent 0 100 7 42; Transmitted 101 7 42; TimedOut 7 0;
         Delivered 7 (Some "bob"%string) (Err tt) 84; Sent 0 101 7 42].
Proof. vm_compute. reflexivity. Qed.

End ToyPeer.
Import MemoryQueue ToyPeer.

Lemma at_most_two_transmissions_witness :
  exists s, demo_run = Ret s /\
    (count (sends_of 0) (tr_log (nw_transport s)) + length (filter (resends s 0) (nw_tasks s)) <= 2)%nat /\
    (count (times_out 0) (tr_log (nw_transport s)) <= 1)%nat.
Proof.
  destruct (at_most_two_transmissions (Q := MemQueue) (Key := Z) 30 (mk_toy 100 true) demo_calls) as (s & E & H & H').
  - vm_compute. reflexivity.
  - assert ((let? s := demo_run in Ret (omap transmitted_id (tr_log (nw_transport s)))) = Ret [100; 101]) as Ht by (vm_compute; reflexivity).
    exists s. split; [exact E|]. unfold demo_run in Ht. rewrite E in Ht. cbn [outcome_bind] in Ht. injection Ht as Ht.
    split; [|apply (H 0)]. apply H'.
    + apply (bool_decide_unpack _). vm_compute. exact I.
    + assert (NoDup [100; 101]) as Hn by (apply (bool_decide_unpack _); vm_compute; exact I). rewrite <- Ht in Hn. exact Hn.
Defined.

Lemma responder_processes_once_witness :
  exists before s after, @get_recent_receive_sessions _ toy_peer 7 (mk_toy 0 true) = before ++ s :: after /\ @session_contact_id _ toy_peer s = Some "bob"%string.
Proof.
  destruct (responder_processes_once (Peer0 := toy_peer) 7 43 0 (mk_toy 0 true) (Some (Ok 86)) [(Some "bob"%string, 42)] (mk_toy 0 true) eq_refl)
    as (before & s & after & es & w1 & w2 & out & w3 & E & _ & _ & Hc & _).
  exists before, s, after. split; [exact E|symmetry; exact Hc].
Defined.

(** The remote side processed the request 42 and could not encrypt the answer. *)
Lemma processed_request_is_resent_witness :
  exists payload i', filerequest_payload (Peer0 := toy_peer) <$> filerequest_answer (Some (Err (ResponderEncryptError tt))) = Some payload /\
    tr_log (receive_encrypted_response (Peer0 := toy_peer) 7 100 payload (send_request (Peer0 := toy_peer) 7 None 42 (transport_new (mk_toy 100 true))).2) =
      [Transmitted 100 7 42; Sent 0 100 7 42; Transmitted i' 7 42; Sent 0 i' 7 42].
Proof.
  refine (proj2 (processed_request_is_resent (Peer0 := toy_peer) 7 43 0 (mk_toy 0 false) (ResponderEncryptError (Peer0 := toy_peer) tt) [(Some "bob"%string, 42)]
    (mk_toy 0 false) 7 100 (send_request (Peer0 := toy_peer) 7 None 42 (transport_new (mk_toy 100 true))).2
    (with_data 0 None 42 false 1) (mk_registered_data None 42 false 1) _ _ _ _ _ _ _)).
  - reflexivity.
  - discriminate.
  - vm_compute. reflexivity.
  - reflexivity.
  - reflexivity.
  - reflexivity.
  - reflexivity.
Defined.
