(* ===== verification/FileReader.v ===== *)
(** * Reading a file in chunks (p2p/src/file_reader.rs)

    The reader keeps one read in flight: [pending_read] is the task that reads
    into the spare buffer. The task runs to its end before its result is
    awaited, so the model stores what it returns: the file, the buffer and the
    result. [tokio::fs::File] is the class [AsyncFile]. *)

From S2P Require Import Prelude.

(** A file handle: [read] of at most [n] bytes and [seek(SeekFrom::Start(_))]. *)
Class AsyncFile (F E : Type) := {
  file_read : F -> nat -> result (list Z) E * F;
  file_seek : F -> Z -> result unit E * F;
}.

(** The behaviour of a file nobody else writes to: a read returns the next bytes
    of its content, none only at its end, and a seek moves to the offset. *)
Class AsyncFileLaws (F E : Type) `{AsyncFile F E} (content : F -> list Z) (position : F -> nat) := {
  file_read_content f n : content (file_read f n).2 = content f;
  file_seek_content f o : content (file_seek f o).2 = content f;
  file_read_ok f n bs f' :
    file_read f n = (Ok bs, f') ->
    position f' = (position f + length bs)%nat /\
    (length bs <= n)%nat /\
    bs ++ drop (position f') (content f) = drop (position f) (content f);
  file_read_eof f n f' :
    file_read f n = (Ok [], f') -> n <> 0%nat -> drop (position f) (content f) = [];
  file_seek_ok f o f' :
    file_seek f o = (Ok tt, f') -> position f' = Z.to_nat o;
}.

(** [CHUNK_SIZE] (lib.rs); the reader is the same for every size. *)
Definition CHUNK_SIZE : nat := 512 * 1024.

Section Reader.
Context {F E : Type} `{AsyncFile F E} (chunk_size : nat).

(** [chunk()] *)
Definition chunk : list Z := replicate chunk_size 0.

(** [struct FileReader] *)
Record FileReader := mk_reader {
  lazy_buffer : list Z;
  pending_read : option (F * list Z * result nat E);
  read_index : Z;
}.

(** The spawned task: [file.read(buffer)] overwrites the start of the buffer. *)
Definition spawn_read (file : F) (buffer : list Z) : F * list Z * result nat E :=
  match file_read file (length buffer) with
  | (Ok bs, file) => (file, bs ++ drop (length bs) buffer, Ok (length bs))
  | (Err e, file) => (file, buffer, Err e)
  end.

Definition reader_new (file : F) : FileReader := mk_reader chunk (Some (spawn_read file chunk)) 0.

Definition reader_read (self : FileReader) : option (result (nat * list Z) E) * FileReader :=
  let index := wrap64 (read_index self + 1) in
  match pending_read self with
  | Some (file, buffer, read_res) =>
      (* [swap]: the filled buffer becomes the lazy one *)
      let '(lazy, spare) := (buffer, lazy_buffer self) in
      let pending :=
        match read_res with
        | Ok bytes_read => if (0 <? bytes_read)%nat then Some (spawn_read file spare) else None
        | Err _ => None
        end in
      (match read_res with
       | Err e => Some (Err e)
       | Ok O => None
       | Ok bytes_read => Some (Ok (bytes_read, lazy))
       end, mk_reader lazy pending index)
  | None => (None, mk_reader (lazy_buffer self) None index)
  end.

(** A seek error is logged and otherwise ignored. *)
Definition reader_set_progress (self : FileReader) (offset : Z) : FileReader :=
  match pending_read self with
  | Some (file, buffer, _) =>
      let file := (file_seek file offset).2 in
      mk_reader (lazy_buffer self) (Some (spawn_read file buffer)) (read_index self)
  | None => self
  end.

(** ** What is left to read *)

Context {content : F -> list Z} {position : F -> nat} `{!AsyncFileLaws F E content position}.

(** The reader will deliver exactly [rest], unless it fails before. *)
Definition reader_at (r : FileReader) (rest : list Z) : Prop :=
  length (lazy_buffer r) = chunk_size /\
  match pending_read r with
  | None => rest = []
  | Some (file, buffer, Ok n) =>
      length buffer = chunk_size /\ (n <= chunk_size)%nat /\
      take n buffer ++ drop (position file) (content file) = rest /\ (n = 0%nat -> rest = [])
  | Some (_, buffer, Err _) => length buffer = chunk_size
  end.

Lemma spawn_read_at file buffer lazy i :
  (0 < chunk_size)%nat -> length buffer = chunk_size -> length lazy = chunk_size ->
  reader_at (mk_reader lazy (Some (spawn_read file buffer)) i) (drop (position file) (content file)).
Proof.
  intros Hpos Hb Hl. split; [done|]. cbn [pending_read]. unfold spawn_read.
  destruct (file_read file (length buffer)) as [[bs|e] file'] eqn:Hr; [|done].
  destruct (file_read_ok file _ bs file' Hr) as (Hp & Hle & Hd).
  pose proof (file_read_content (E := E) (content := content) file (length buffer)) as Hc. rewrite Hr in Hc. cbn [snd] in Hc.
  split_and!.
  - rewrite length_app, length_drop. lia.
  - lia.
  - rewrite take_app_length, Hc. done.
  - intros Hz. destruct bs; [|done]. eapply file_read_eof; [done|lia].
Qed.

Lemma reader_new_at file :
  (0 < chunk_size)%nat -> reader_at (reader_new file) (drop (position file) (content file)).
Proof. intros. apply spawn_read_at; [done|apply length_replicate..]. Qed.

(** [read] returns the next bytes, at least one of them, until none is left. *)
Lemma reader_read_spec r rest :
  (0 < chunk_size)%nat -> reader_at r rest ->
  match reader_read r with
  | (Some (Ok (n, data)), r') =>
      (0 < n <= chunk_size)%nat /\ length (take n data) = n /\
      exists rest', rest = take n data ++ rest' /\ reader_at r' rest'
  | (Some (Err _), _) => True
  | (None, r') => rest = [] /\ reader_at r' []
  end.
Proof.
  intros Hpos [Hl Hr]. unfold reader_read. destruct (pending_read r) as [[[file buffer] [n|e]]|]; simpl.
  - destruct Hr as (Hb & Hn & Hrest & Hz). destruct n as [|n]; simpl.
    + by rewrite Hz.
    + split; [lia|]. split; [rewrite length_take; lia|]. eexists. split; [by rewrite <- Hrest|].
      by apply spawn_read_at.
  - done.
  - done.
Qed.

Lemma spawn_read_content file buffer : content (spawn_read file buffer).1.1 = content file.
Proof.
  rewrite <- (file_read_content (E := E) (content := content) file (length buffer)). unfold spawn_read.
  by destruct (file_read file (length buffer)) as [[?|?] ?].
Qed.

(** The seek of [set_progress] on a fresh reader succeeds. *)
Definition seek_succeeds (file : F) (offset : Z) : bool := is_ok (file_seek (spawn_read file chunk).1.1 offset).1.

(** After a successful seek the reader is at the offset. *)
Lemma reader_set_progress_at file offset :
  (0 < chunk_size)%nat -> seek_succeeds file offset = true ->
  reader_at (reader_set_progress (reader_new file) offset) (drop (Z.to_nat offset) (content file)).
Proof.
  unfold seek_succeeds. intros Hpos Hs. rewrite <- (spawn_read_content file chunk).
  unfold reader_set_progress, reader_new. cbn [pending_read lazy_buffer read_index].
  pose proof (reader_new_at file Hpos) as [_ Hn]. cbn [pending_read reader_new] in Hn.
  destruct (spawn_read file chunk) as [[f b] r]. cbn [fst] in *.
  pose proof (file_seek_content (E := E) (content := content) f offset) as Ec.
  destruct (file_seek f offset) as [[[]|e] f'] eqn:Es; [|done]. cbn [snd] in *.
  rewrite <- Ec, <- (file_seek_ok f offset f' Es).
  apply spawn_read_at; [done| |apply length_replicate]. destruct r; [apply Hn|done].
Qed.

End Reader.

Arguments FileReader F E : clear implicits.
Arguments mk_reader {F E}.
Arguments lazy_buffer {F E}.
Arguments pending_read {F E}.
Arguments read_index {F E}.
