(* ===== verification/SendManager.v ===== *)
(** * Sending window (p2p/src/event_loop/filerequest/send_manager.rs)

    The sender of a file keeps at most [PARALLEL_CHUNKS] chunks unacknowledged.
    The request identifiers [ID] and the [send] callback are arguments: [send]
    takes the chunk and a state [W] of the network and returns the identifier of
    the request, or none when sending failed. *)

From S2P Require Import Prelude Domain FileReader.

(** filerequest/mod.rs *)
Definition PARALLEL_CHUNKS : Z := 8.

(** [enum Slot] *)
Inductive Slot :=
| SlotEmpty
| SlotPending (bytes : Z)
| SlotAcknowledged (bytes : Z).

#[export] Instance Slot_eq_dec : EqDecision Slot.
Proof. solve_decision. Defined.

Definition slot_is_pending (s : Slot) : bool := match s with SlotPending _ => true | _ => false end.

(** [struct SendManager] *)
Record SendManager (ID F E : Type) `{Countable ID} := mk_send_manager {
  chunk_to_index : gmap ID Z;
  chunks_in_flight : list Slot;
  earliest_not_sent : Z;
  next_slot : Z;
  sm_file : FileReader F E;
  sm_progress_bytes : Z;
  sm_file_size_bytes : Z;
  sm_transfer_id : FylesId;
}.
Arguments mk_send_manager {ID F E _ _}.
Arguments chunk_to_index {ID F E _ _}.
Arguments chunks_in_flight {ID F E _ _}.
Arguments earliest_not_sent {ID F E _ _}.
Arguments next_slot {ID F E _ _}.
Arguments sm_file {ID F E _ _}.
Arguments sm_progress_bytes {ID F E _ _}.
Arguments sm_file_size_bytes {ID F E _ _}.
Arguments sm_transfer_id {ID F E _ _}.

(** [enum SendRes] *)
Inductive SendRes (ID E : Type) :=
| NotReady
| Sent (id : ID)
| SendDone
| IoError (e : E)
| Interrupt.
Arguments NotReady {ID E}.
Arguments Sent {ID E}.
Arguments SendDone {ID E}.
Arguments IoError {ID E}.
Arguments Interrupt {ID E}.

(** [struct LockedSendData] *)
Record LockedSendData (ID F E : Type) `{Countable ID} := mk_locked {
  send_manager : SendManager ID F E;
  pending_file : PendingFile;
  must_verify_contact_id : bool;
}.
Arguments mk_locked {ID F E _ _}.
Arguments send_manager {ID F E _ _}.
Arguments pending_file {ID F E _ _}.
Arguments must_verify_contact_id {ID F E _ _}.

Section Send.
Context {ID F E W : Type} `{Countable ID} `{AsyncFile F E} (chunk_size : nat).
Implicit Types (m : SendManager ID F E) (l : LockedSendData ID F E) (id : ID).

Definition sm_new (transfer_id : FylesId) (file_size_bytes : Z) (file : F) : SendManager ID F E :=
  mk_send_manager ∅ (replicate (Z.to_nat PARALLEL_CHUNKS) SlotEmpty) 0 0
    (reader_new chunk_size file) 0 file_size_bytes transfer_id.

Definition sm_set_progress m (offset : Z) : SendManager ID F E :=
  mk_send_manager (chunk_to_index m) (chunks_in_flight m) (earliest_not_sent m) (next_slot m)
    (reader_set_progress (sm_file m) offset) offset (sm_file_size_bytes m) (sm_transfer_id m).

Definition is_ready m : bool := wrap32 (next_slot m - earliest_not_sent m) <? PARALLEL_CHUNKS.

Definition with_file m (r : FileReader F E) : SendManager ID F E :=
  mk_send_manager (chunk_to_index m) (chunks_in_flight m) (earliest_not_sent m) (next_slot m)
    r (sm_progress_bytes m) (sm_file_size_bytes m) (sm_transfer_id m).

Definition send_next_chunk (send : DataChunk -> W -> option ID * W) m (w : W)
  : outcome (SendRes ID E * SendManager ID F E * W) :=
  if negb (is_ready m) then Ret (NotReady, m, w)
  else
    let (read, r) := reader_read (sm_file m) in
    let m := with_file m r in
    match read with
    | None =>
        if (earliest_not_sent m =? next_slot m) && negb (existsb slot_is_pending (chunks_in_flight m))
        then Ret (SendDone, m, w) else Ret (NotReady, m, w)
    | Some (Err e) => Ret (IoError e, m, w)
    | Some (Ok (num_bytes, data)) =>
        let chunk := mk_chunk (sm_transfer_id m) (take num_bytes data) (next_slot m) in
        match send chunk w with
        | (None, w) => Ret (Interrupt, m, w)
        | (Some id, w) =>
            let real_index := Z.to_nat (next_slot m mod PARALLEL_CHUNKS) in
            if (real_index <? length (chunks_in_flight m))%nat then
              Ret (Sent id,
                   mk_send_manager (<[id := next_slot m]> (chunk_to_index m))
                     (<[real_index := SlotPending (Z.of_nat num_bytes)]> (chunks_in_flight m))
                     (earliest_not_sent m) (wrap32 (next_slot m + 1)) (sm_file m)
                     (sm_progress_bytes m) (sm_file_size_bytes m) (sm_transfer_id m), w)
            else Panic
        end
    end.

(** The [while let] of [mark_done]. Every turn turns an acknowledged slot into an
    empty one, so one turn more than there are slots is enough fuel. *)
Fixpoint release_loop (fuel : nat) m (real_index : nat) : outcome (SendManager ID F E) :=
  match fuel with
  | O => Diverge
  | S fuel =>
      match chunks_in_flight m !! real_index with
      | None => Panic
      | Some (SlotAcknowledged bytes) =>
          if earliest_not_sent m <? next_slot m then
            let earliest := wrap32 (earliest_not_sent m + 1) in
            release_loop fuel
              (mk_send_manager (chunk_to_index m) (<[real_index := SlotEmpty]> (chunks_in_flight m))
                 earliest (next_slot m) (sm_file m) (wrap64 (sm_progress_bytes m + bytes))
                 (sm_file_size_bytes m) (sm_transfer_id m))
              (Z.to_nat (earliest mod PARALLEL_CHUNKS))
          else Ret m
      | Some _ => Ret m
      end
  end.

Definition mark_done m id : outcome (SendManager ID F E) :=
  let? idx := unwrap_panic (chunk_to_index m !! id) in
  if (earliest_not_sent m <=? idx) && (idx <=? next_slot m) then
    let real_index := Z.to_nat (idx mod PARALLEL_CHUNKS) in
    match chunks_in_flight m !! real_index with
    | Some (SlotPending bytes) =>
        let m := mk_send_manager (delete id (chunk_to_index m))
                   (<[real_index := SlotAcknowledged bytes]> (chunks_in_flight m))
                   (earliest_not_sent m) (next_slot m) (sm_file m)
                   (sm_progress_bytes m) (sm_file_size_bytes m) (sm_transfer_id m) in
        if idx =? earliest_not_sent m
        then release_loop (S (length (chunks_in_flight m))) m real_index
        else Ret m
    | _ => Panic
    end
  else Panic.

Definition receive_ack m id : outcome (SendManager ID F E) := mark_done m id.

(** ** The lock on the contact *)

Definition locked_new (f : PendingFile) (transfer_id : FylesId) (file_size_bytes : Z) (file : F)
  : LockedSendData ID F E :=
  mk_locked (sm_new transfer_id file_size_bytes file) f true.

Definition get_transfer_id l : FylesId := sm_transfer_id (send_manager l).

Definition get_file_size_bytes l : Z := sm_file_size_bytes (send_manager l).

(** The views [SendDataMut], [SendData] and [SendDataRef] give access to the same
    two fields; a caller of [unlock_mut] writes through the view by rebuilding
    the locked data. *)
Definition unlock_mut l (connected_contact_id : option ContactId)
  : option (SendManager ID F E * PendingFile) :=
  if negb (must_verify_contact_id l) then Some (send_manager l, pending_file l)
  else if match connected_contact_id with
          | Some connected_id => bool_decide (connected_id = pf_contact_id (pending_file l))
          | None => false
          end
  then Some (send_manager l, pending_file l)
  else None.

Definition unlock_into l (connected_contact_id : option ContactId)
  : option (SendManager ID F E * PendingFile) :=
  if negb (must_verify_contact_id l) then Some (send_manager l, pending_file l)
  else if match connected_contact_id with
          | Some connected_id => bool_decide (connected_id = pf_contact_id (pending_file l))
          | None => false
          end
  then Some (send_manager l, pending_file l)
  else None.

Definition unlock l (connected_contact_id : option ContactId)
  : option (SendManager ID F E * PendingFile) :=
  if negb (must_verify_contact_id l) then Some (send_manager l, pending_file l)
  else if match connected_contact_id with
          | Some connected_id => bool_decide (connected_id = pf_contact_id (pending_file l))
          | None => false
          end
  then Some (send_manager l, pending_file l)
  else None.

End Send.

(** ** Specification of a transfer

    The network is the log of the chunks sent, each with its request identifier;
    [acked] are the identifiers that were acknowledged. *)

Section Spec.
Context {ID : Type} `{Countable ID}.
Implicit Types (log : list (ID * DataChunk)) (acked : gset ID).

Definition chunk_bytes (c : DataChunk) : Z := Z.of_nat (length (ck_data c)).

Definition log_bytes log : Z := foldr (fun x n => chunk_bytes x.2 + n) 0 log.

(** The longest prefix of acknowledged chunks. *)
Fixpoint acked_prefix log acked : list (ID * DataChunk) :=
  match log with
  | x :: log => if bool_decide (x.1 ∈ acked) then x :: acked_prefix log acked else []
  | [] => []
  end.

(** The slot a chunk should have. *)
Definition abs_slot log acked (i : Z) : Slot :=
  match log !! Z.to_nat i with
  | Some (id, c) => if bool_decide (id ∈ acked) then SlotAcknowledged (chunk_bytes c) else SlotPending (chunk_bytes c)
  | None => SlotEmpty
  end.

Lemma acked_prefix_take log acked e :
  (forall i x, (i < e)%nat -> log !! i = Some x -> x.1 ∈ acked) ->
  (forall x, log !! e = Some x -> x.1 ∉ acked) ->
  acked_prefix log acked = take e log.
Proof.
  revert e. induction log as [|x log IH]; intros e Hlt He; [by rewrite take_nil|]. simpl.
  destruct e as [|e]; simpl.
  - rewrite bool_decide_eq_false_2; [done|]. by apply (He x).
  - rewrite bool_decide_eq_true_2 by (apply (Hlt 0%nat); [lia|done]). f_equal. apply IH.
    + intros i y Hi. apply (Hlt (S i)). lia.
    + intros y. apply (He y).
Qed.

Lemma log_bytes_app l1 l2 : log_bytes (l1 ++ l2) = log_bytes l1 + log_bytes l2.
Proof. unfold log_bytes. induction l1 as [|x l1 IH]; simpl; lia. Qed.

Lemma abs_slot_app log acked i x :
  0 <= i < Z.of_nat (length log) -> abs_slot (log ++ [x]) acked i = abs_slot log acked i.
Proof. intros. unfold abs_slot. rewrite lookup_app_l by lia. done. Qed.

Lemma abs_slot_beyond log acked i : Z.of_nat (length log) <= i -> abs_slot log acked i = SlotEmpty.
Proof. intros. unfold abs_slot. by rewrite lookup_ge_None_2 by lia. Qed.

Lemma abs_slot_ack_ne log acked i j id c c' id' :
  NoDup (log.*1) -> log !! Z.to_nat j = Some (id, c) -> log !! Z.to_nat i = Some (id', c') ->
  0 <= i -> 0 <= j -> i <> j -> abs_slot log ({[id]} ∪ acked) i = abs_slot log acked i.
Proof.
  intros Hnd Hj Hi H1 H2 Hne. unfold abs_slot. rewrite Hi.
  assert (id' <> id) as Hid.
  { intros ->. apply Hne. apply Z2Nat.inj; [done..|]. eapply (NoDup_lookup _ _ _ id Hnd).
    - by rewrite list_lookup_fmap, Hi.
    - by rewrite list_lookup_fmap, Hj. }
  replace (bool_decide (id' ∈ {[id]} ∪ acked)) with (bool_decide (id' ∈ acked)); [done|].
  apply bool_decide_ext. set_solver.
Qed.

End Spec.

(** ** The manager implements the specification *)

Section SendProof.
Context {ID F E : Type} `{Countable ID} `{AsyncFile F E}.
Context {content : F -> list Z} {position : F -> nat} `{!AsyncFileLaws F E content position}.
Context (chunk_size : nat) (chunk_size_pos : (0 < chunk_size)%nat).
Implicit Types (m : SendManager ID F E) (log : list (ID * DataChunk)) (acked : gset ID).

(** The slots hold what the specification says; [e] chunks are released. *)
Record window m log acked (base : Z) : Prop := {
  w_next : next_slot m = Z.of_nat (length log);
  w_fits : Z.of_nat (length log) < u32_modulus;
  w_nodup : NoDup (log.*1);
  w_e : 0 <= earliest_not_sent m <= next_slot m;
  w_width : next_slot m - earliest_not_sent m <= PARALLEL_CHUNKS;
  w_len : length (chunks_in_flight m) = Z.to_nat PARALLEL_CHUNKS;
  w_released : forall i x, (i < Z.to_nat (earliest_not_sent m))%nat -> log !! i = Some x -> x.1 ∈ acked;
  w_slots : forall i, earliest_not_sent m <= i < earliest_not_sent m + PARALLEL_CHUNKS ->
    chunks_in_flight m !! Z.to_nat (i mod PARALLEL_CHUNKS) = Some (abs_slot log acked i);
  w_index : forall id i, chunk_to_index m !! id = Some i <->
    (0 <= i) /\ (id ∉ acked) /\ (exists c, log !! Z.to_nat i = Some (id, c));
  w_progress : sm_progress_bytes m =
    wrap64 (base + log_bytes (take (Z.to_nat (earliest_not_sent m)) log));
}.

(** No chunk that could be released is held back. *)
Definition tight m log acked : Prop :=
  forall x, log !! Z.to_nat (earliest_not_sent m) = Some x -> x.1 ∉ acked.

Lemma slot_real_index i : (Z.to_nat (i mod PARALLEL_CHUNKS) < Z.to_nat PARALLEL_CHUNKS)%nat.
Proof. apply mod_to_nat_lt. done. Qed.

Lemma slot_index_ne e i j :
  e <= i < e + PARALLEL_CHUNKS -> e <= j < e + PARALLEL_CHUNKS -> i <> j ->
  Z.to_nat (i mod PARALLEL_CHUNKS) <> Z.to_nat (j mod PARALLEL_CHUNKS).
Proof. intros Hi Hj Hne E'. apply Hne. by apply (mod_to_nat_inj_window PARALLEL_CHUNKS i j e). Qed.

(** One turn of the loop releases the earliest chunk. *)
Lemma release_one m log acked base id c :
  window m log acked base -> log !! Z.to_nat (earliest_not_sent m) = Some (id, c) -> id ∈ acked ->
  window (mk_send_manager (chunk_to_index m)
            (<[Z.to_nat (earliest_not_sent m mod PARALLEL_CHUNKS) := SlotEmpty]> (chunks_in_flight m))
            (wrap32 (earliest_not_sent m + 1)) (next_slot m) (sm_file m)
            (wrap64 (sm_progress_bytes m + chunk_bytes c)) (sm_file_size_bytes m) (sm_transfer_id m))
    log acked base.
Proof.
  intros HW Hl Ha. pose proof (w_e _ _ _ _ HW) as He. pose proof (w_next _ _ _ _ HW) as Hn.
  pose proof (w_fits _ _ _ _ HW) as Hf. pose proof (lookup_lt_Some _ _ _ Hl) as Hlt.
  pose proof (w_width _ _ _ _ HW) as Hw.
  assert (wrap32 (earliest_not_sent m + 1) = earliest_not_sent m + 1) as Hwr by (apply wrap32_id; unfold is_u32; lia).
  split; cbn; rewrite ?Hwr; try (apply HW || lia).
  - by rewrite length_insert, (w_len _ _ _ _ HW).
  - intros i x Hi Hx. destruct (decide (i = Z.to_nat (earliest_not_sent m))) as [->|].
    + by simplify_eq.
    + apply (w_released _ _ _ _ HW i x); [lia|done].
  - intros i Hi. destruct (decide (i = earliest_not_sent m + PARALLEL_CHUNKS)) as [->|].
    + rewrite mod_add_window by done.
      rewrite list_lookup_insert_eq by (rewrite (w_len _ _ _ _ HW); apply slot_real_index).
      by rewrite abs_slot_beyond by lia.
    + rewrite list_lookup_insert_ne; [apply (w_slots _ _ _ _ HW); lia|].
      apply (slot_index_ne (earliest_not_sent m)); lia.
  - replace (Z.to_nat (earliest_not_sent m + 1)) with (S (Z.to_nat (earliest_not_sent m))) by lia.
    rewrite (take_S_r _ _ _ Hl), log_bytes_app, (w_progress _ _ _ _ HW).
    unfold wrap64. rewrite Zplus_mod_idemp_l. f_equal. unfold log_bytes. simpl. lia.
Qed.

(** The loop ends, without a panic, when nothing is left to release. *)
Lemma release_loop_spec fuel : forall m log acked base,
  window m log acked base -> (Z.to_nat (next_slot m - earliest_not_sent m) < fuel)%nat ->
  exists m', release_loop fuel m (Z.to_nat (earliest_not_sent m mod PARALLEL_CHUNKS)) = Ret m' /\
    window m' log acked base /\ tight m' log acked /\
    sm_file m' = sm_file m /\ sm_transfer_id m' = sm_transfer_id m /\ chunk_to_index m' = chunk_to_index m.
Proof.
  induction fuel as [|fuel IH]; intros m log acked base HW Hfuel; [lia|]. simpl.
  pose proof (w_e _ _ _ _ HW) as He. pose proof (w_next _ _ _ _ HW) as Hn.
  rewrite (w_slots _ _ _ _ HW) by (unfold PARALLEL_CHUNKS; lia). unfold abs_slot.
  destruct (log !! Z.to_nat (earliest_not_sent m)) as [[id c]|] eqn:Hl.
  - pose proof (lookup_lt_Some _ _ _ Hl) as Hlt. case_bool_decide as Ha.
    + replace (earliest_not_sent m <? next_slot m) with true by (symmetry; apply Z.ltb_lt; lia).
      pose proof (release_one m log acked base id c HW Hl Ha) as HW'.
      destruct (IH _ log acked base HW') as (m' & E' & HR).
      * cbn. rewrite wrap32_id by (pose proof (w_fits _ _ _ _ HW); unfold is_u32; lia). lia.
      * cbn in *. exists m'. by rewrite E'.
    + exists m. split_and!; try done. intros x Hx. by simplify_eq.
  - exists m. split_and!; try done. intros x Hx. by simplify_eq.
Qed.

(** Acknowledging a chunk in flight. *)
Lemma mark_done_spec m log acked base id :
  window m log acked base -> tight m log acked -> id ∈ (log.*1) -> id ∉ acked ->
  exists m', mark_done m id = Ret m' /\ window m' log ({[id]} ∪ acked) base /\
    tight m' log ({[id]} ∪ acked) /\ sm_file m' = sm_file m /\ sm_transfer_id m' = sm_transfer_id m.
Proof.
  intros HW HT Hin Ha. apply list_elem_of_fmap in Hin as [[id' c] [-> Hin]].
  apply list_elem_of_lookup in Hin as [i Hi]. cbn [fst] in *. pose proof (lookup_lt_Some _ _ _ Hi) as Hlt.
  pose proof (w_e _ _ _ _ HW) as He. pose proof (w_next _ _ _ _ HW) as Hn. pose proof (w_width _ _ _ _ HW) as Hw.
  assert (earliest_not_sent m <= Z.of_nat i) as Hie.
  { destruct (decide (earliest_not_sent m <= Z.of_nat i)); [done|]. destruct Ha.
    apply (w_released _ _ _ _ HW i (id', c)); [lia|done]. }
  unfold mark_done. replace (chunk_to_index m !! id') with (Some (Z.of_nat i)).
  2:{ symmetry. apply (w_index _ _ _ _ HW). rewrite Nat2Z.id. split; [lia|]. eauto. }
  cbn [outcome_bind unwrap_panic].
  rewrite (proj2 (Z.leb_le _ _) Hie), (proj2 (Z.leb_le (Z.of_nat i) _)) by lia. cbn [andb].
  rewrite (w_slots _ _ _ _ HW) by lia. unfold abs_slot at 1. rewrite Nat2Z.id, Hi, bool_decide_eq_false_2 by done.
  set (m1 := mk_send_manager _ _ _ _ _ _ _ _).
  assert (window m1 log ({[id']} ∪ acked) base) as HW1.
  { split; cbn; try apply HW.
    - by rewrite length_insert, (w_len _ _ _ _ HW).
    - intros j x Hj Hx. apply elem_of_union_r. by apply (w_released _ _ _ _ HW j x).
    - intros j Hj. destruct (decide (j = Z.of_nat i)) as [->|].
      + rewrite list_lookup_insert_eq by (rewrite (w_len _ _ _ _ HW); apply slot_real_index).
        unfold abs_slot. rewrite Nat2Z.id, Hi, bool_decide_eq_true_2 by set_solver. done.
      + rewrite list_lookup_insert_ne by (apply (slot_index_ne (earliest_not_sent m)); lia).
        rewrite (w_slots _ _ _ _ HW) by done. f_equal. unfold abs_slot at 1.
        destruct (log !! Z.to_nat j) as [[id2 c2]|] eqn:Hj'.
        * rewrite (abs_slot_ack_ne log acked j (Z.of_nat i) id' c c2 id2); rewrite ?Nat2Z.id; try done; try lia; [|apply HW].
          unfold abs_slot. by rewrite Hj'.
        * unfold abs_slot. by rewrite Hj'.
    - intros id2 j. rewrite lookup_delete_Some, (w_index _ _ _ _ HW). set_solver. }
  destruct (Z.eqb_spec (Z.of_nat i) (earliest_not_sent m1)) as [Hx|Hne].
  - destruct (release_loop_spec (S (length (chunks_in_flight m1))) m1 log ({[id']} ∪ acked) base HW1)
      as (m' & E' & ? & ? & ? & ? & ?); [rewrite (w_len _ _ _ _ HW1); cbn; lia|].
    exists m'. split_and!; try done. rewrite <- Hx in E'. exact E'.
  - exists m1. split_and!; try done. intros x Hx. cbn in Hx. rewrite not_elem_of_union. split; [|by apply HT].
    intros Hid%elem_of_singleton. destruct x as [idx cx]. cbn in Hid, Hx. subst idx.
    assert (i = Z.to_nat (earliest_not_sent m)); [|cbn in Hne; lia].
    apply (NoDup_lookup log.*1 _ _ id' (w_nodup _ _ _ _ HW)); rewrite list_lookup_fmap; [by rewrite Hi|by rewrite Hx].
Qed.

(** Registering a chunk that was sent. *)
Lemma window_send m log acked base r id c :
  window m log acked base -> Z.of_nat (length log) + 1 < u32_modulus -> is_ready m = true ->
  id ∉ (log.*1) -> id ∉ acked -> tight m log acked ->
  let m' := mk_send_manager (<[id := next_slot m]> (chunk_to_index m))
              (<[Z.to_nat (next_slot m mod PARALLEL_CHUNKS) := SlotPending (chunk_bytes c)]> (chunks_in_flight m))
              (earliest_not_sent m) (wrap32 (next_slot m + 1)) r
              (sm_progress_bytes m) (sm_file_size_bytes m) (sm_transfer_id m) in
  window m' (log ++ [(id, c)]) acked base /\ tight m' (log ++ [(id, c)]) acked.
Proof.
  intros HW Hfit Hr Hid Ha HT. pose proof (w_e _ _ _ _ HW) as He. pose proof (w_next _ _ _ _ HW) as Hn.
  assert (wrap32 (next_slot m + 1) = next_slot m + 1) as Hwr by (apply wrap32_id; unfold is_u32; lia).
  unfold is_ready in Hr. apply Z.ltb_lt in Hr.
  rewrite wrap32_id in Hr by (unfold is_u32; pose proof (w_fits _ _ _ _ HW); lia). cbn zeta. split.
  - split; cbn; rewrite ?Hwr, ?length_app; cbn; try (apply HW || lia).
    + rewrite fmap_app. apply NoDup_app. split_and!; [apply HW| |apply NoDup_singleton].
      intros x Hx ->%list_elem_of_singleton. done.
    + by rewrite length_insert, (w_len _ _ _ _ HW).
    + intros i x Hi Hx. rewrite lookup_app_l in Hx by lia. by apply (w_released _ _ _ _ HW i x).
    + intros i Hi. destruct (decide (i = next_slot m)) as [->|Hne].
      * rewrite list_lookup_insert_eq by (rewrite (w_len _ _ _ _ HW); apply slot_real_index).
        unfold abs_slot. rewrite Hn, Nat2Z.id, list_lookup_middle by done. by rewrite bool_decide_eq_false_2.
      * rewrite list_lookup_insert_ne by (apply (slot_index_ne (earliest_not_sent m)); lia).
        rewrite (w_slots _ _ _ _ HW) by lia. f_equal. destruct (decide (i < next_slot m)).
        -- rewrite abs_slot_app by lia. done.
        -- rewrite !abs_slot_beyond; [done| |lia]. rewrite length_app. cbn. lia.
    + intros id' i. rewrite lookup_insert_Some, (w_index _ _ _ _ HW). split.
      * intros [[<- <-]|[Hne (H1 & H2 & c' & H3)]].
        -- split_and!; [lia|done|]. exists c. rewrite Hn, Nat2Z.id, list_lookup_middle; done.
        -- split_and!; [done..|]. exists c'. rewrite lookup_app_l; [done|]. by apply lookup_lt_Some in H3.
      * intros (H1 & H2 & c' & H3). apply lookup_app_Some in H3 as [H3|[H3 H4]].
        -- right. split; [|eauto]. intros ->. apply Hid. apply list_elem_of_fmap. exists (id', c'). split; [done|].
           by apply list_elem_of_lookup_2 in H3.
        -- apply list_lookup_singleton_Some in H4 as [H4 [= -> ->]]. left. split; [done|]. lia.
    + rewrite take_app_le by lia. apply HW.
  - intros x. cbn. destruct (decide (earliest_not_sent m = next_slot m)) as [Hx|].
    + rewrite Hx, Hn, Nat2Z.id, list_lookup_middle by done. by intros [= <-].
    + rewrite lookup_app_l by lia. apply HT.
Qed.

Lemma window_with_file m log acked base r : window m log acked base -> window (with_file m r) log acked base.
Proof. intros []. by split. Qed.

(** All chunks are released exactly if all are acknowledged. *)
Lemma all_acked_iff m log acked base :
  window m log acked base -> tight m log acked ->
  earliest_not_sent m = next_slot m <-> Forall (fun x => x.1 ∈ acked) log.
Proof.
  intros HW HT. pose proof (w_e _ _ _ _ HW) as He. pose proof (w_next _ _ _ _ HW) as Hn. split.
  - intros Hx. apply Forall_lookup_2. intros i x Hi. apply (w_released _ _ _ _ HW i x); [|done].
    apply lookup_lt_Some in Hi. lia.
  - intros HF. destruct (decide (earliest_not_sent m = next_slot m)); [done|].
    destruct (lookup_lt_is_Some_2 log (Z.to_nat (earliest_not_sent m))) as [x Hx]; [lia|].
    destruct (HT x Hx). by apply (Forall_lookup_1 _ _ _ _ HF Hx).
Qed.

Lemma no_pending_slots m log acked base :
  window m log acked base -> earliest_not_sent m = next_slot m ->
  existsb slot_is_pending (chunks_in_flight m) = false.
Proof.
  intros HW Hx. apply not_true_iff_false. rewrite existsb_exists. intros (s & Hin & Hp).
  apply list_elem_of_In, list_elem_of_lookup in Hin as [j Hj].
  pose proof (lookup_lt_Some _ _ _ Hj) as Hlt. rewrite (w_len _ _ _ _ HW) in Hlt.
  set (e := earliest_not_sent m) in *.
  set (i := e + (Z.of_nat j - e) mod PARALLEL_CHUNKS).
  assert (0 <= (Z.of_nat j - e) mod PARALLEL_CHUNKS < PARALLEL_CHUNKS) by (apply Z.mod_pos_bound; done).
  assert (i mod PARALLEL_CHUNKS = Z.of_nat j) as Hi.
  { unfold i. rewrite Zplus_mod_idemp_r. replace (e + (Z.of_nat j - e)) with (Z.of_nat j) by lia. apply Z.mod_small. lia. }
  pose proof (w_slots _ _ _ _ HW i ltac:(unfold i; lia)) as Hs.
  rewrite Hi, Nat2Z.id, Hj in Hs. rewrite abs_slot_beyond in Hs by (rewrite <- (w_next _ _ _ _ HW); unfold i; lia).
  by simplify_eq.
Qed.

(** ** A transfer as a sequence of steps *)

(** Request identifiers are given by the network layer. *)
Variable pick : DataChunk -> list (ID * DataChunk) -> option ID.
Hypothesis pick_fresh : forall c log id, pick c log = Some id -> id ∉ (log.*1).

Definition log_send (c : DataChunk) (log : list (ID * DataChunk)) : option ID * list (ID * DataChunk) :=
  match pick c log with
  | Some id => (Some id, log ++ [(id, c)])
  | None => (None, log)
  end.

(** Results after which the caller goes on with the transfer. *)
Definition goes_on (r : SendRes ID E) : bool :=
  match r with NotReady | Sent _ | SendDone => true | IoError _ | Interrupt => false end.

(** The manager of a new transfer, or of one that continues at an offset. *)
Definition start_manager (tid : FylesId) (size : Z) (file : F) (offset : option Z) : SendManager ID F E :=
  match offset with
  | None => sm_new chunk_size tid size file
  | Some o => sm_set_progress (sm_new chunk_size tid size file) o
  end.

(** The states of a transfer: the manager is asked to send and acknowledgements
    of chunks in flight arrive, in any order. *)
Inductive transfer m0 : SendManager ID F E -> list (ID * DataChunk) -> gset ID -> Prop :=
| tr_start : transfer m0 m0 [] ∅
| tr_send m log acked r m' log' :
    transfer m0 m log acked ->
    send_next_chunk log_send m log = Ret (r, m', log') -> goes_on r = true ->
    Z.of_nat (length log) + 1 < u32_modulus ->
    transfer m0 m' log' acked
| tr_ack m log acked id m' :
    transfer m0 m log acked -> id ∈ (log.*1) -> id ∉ acked -> receive_ack m id = Ret m' ->
    transfer m0 m' log ({[id]} ∪ acked).

(** The numbering of the chunks of a log. *)
Definition numbered (tid : FylesId) log : Prop :=
  forall i x, log !! i = Some x ->
    ck_idx x.2 = Z.of_nat i /\ ck_transfer_uuid x.2 = tid /\ (0 < length (ck_data x.2) <= chunk_size)%nat.

Definition log_data log : list Z := concat ((ck_data ∘ snd) <$> log).

(** Invariant of a transfer that has to deliver [data]. *)
Record transfer_inv (tid : FylesId) (base : Z) (data : list Z) m log acked : Prop := {
  ti_window : window m log acked base;
  ti_tight : tight m log acked;
  ti_acked : forall id, id ∈ acked -> id ∈ (log.*1);
  ti_numbered : numbered tid log;
  ti_tid : sm_transfer_id m = tid;
  ti_rest : exists rest, reader_at chunk_size (content := content) (position := position) (sm_file m) rest /\
              log_data log ++ rest = data;
}.

Lemma numbered_app tid log id c :
  numbered tid log -> ck_idx c = Z.of_nat (length log) -> ck_transfer_uuid c = tid ->
  (0 < length (ck_data c) <= chunk_size)%nat -> numbered tid (log ++ [(id, c)]).
Proof.
  intros HN ? ? ? i x Hx. apply lookup_app_Some in Hx as [Hx|[Hle Hx]]; [by apply HN|].
  apply list_lookup_singleton_Some in Hx as [Hi <-]. cbn. split_and!; try done; lia.
Qed.

Lemma log_data_app log id c : log_data (log ++ [(id, c)]) = log_data log ++ ck_data c.
Proof. unfold log_data. rewrite fmap_app, concat_app. simpl. by rewrite app_nil_r. Qed.

(** [send_next_chunk] on a transfer: it never panics; it sends the next bytes of
    the file, and reports the end exactly when all is sent and acknowledged. *)
Lemma send_next_chunk_spec tid base data m log acked :
  transfer_inv tid base data m log acked -> Z.of_nat (length log) + 1 < u32_modulus ->
  match send_next_chunk log_send m log with
  | Ret (Sent id, m', log') =>
      (exists c, log' = log ++ [(id, c)]) /\ transfer_inv tid base data m' log' acked
  | Ret (NotReady, m', log') =>
      log' = log /\ transfer_inv tid base data m' log' acked /\ ~ Forall (fun x => x.1 ∈ acked) log
  | Ret (SendDone, m', log') =>
      log' = log /\ transfer_inv tid base data m' log' acked /\
      Forall (fun x => x.1 ∈ acked) log /\ log_data log = data
  | Ret (IoError _, _, log') | Ret (Interrupt, _, log') => log' = log
  | _ => False
  end.
Proof.
  intros [HW HT Hsub HN Htid (rest & Hrd & Hdata)] Hfit. unfold send_next_chunk.
  pose proof (w_e _ _ _ _ HW) as He. pose proof (w_next _ _ _ _ HW) as Hn. pose proof (w_fits _ _ _ _ HW) as Hf.
  destruct (is_ready m) eqn:Hr; cbn [negb].
  2:{ split; [done|]. split; [by split; eauto|]. rewrite <- (all_acked_iff m log acked base) by done. intros Hx.
      unfold is_ready in Hr. rewrite Hx, Z.sub_diag in Hr. done. }
  pose proof (reader_read_spec chunk_size (sm_file m) rest chunk_size_pos Hrd) as Hread.
  destruct (reader_read (sm_file m)) as [[[[n d]|e]|] r] eqn:Er; [| done |].
  - destruct Hread as (Hnb & Hlen & rest' & Hrest & Hrd'). set (c := mk_chunk _ _ _).
    unfold log_send. destruct (pick c log) as [id|] eqn:Hp; [|done].
    rewrite (proj2 (Nat.ltb_lt _ _)) by (cbn; rewrite (w_len _ _ _ _ HW); apply slot_real_index).
    split; [by exists c|]. pose proof (pick_fresh c log id Hp) as Hfresh.
    assert (chunk_bytes c = Z.of_nat n) as Hc by (unfold chunk_bytes, c; cbn; by rewrite Hlen).
    destruct (window_send (with_file m r) log acked base r id c (window_with_file _ _ _ _ r HW) Hfit Hr Hfresh)
      as [HW' HT']; [by intros Ha%Hsub|exact HT|]. rewrite Hc in HW', HT'. split; try done.
    + intros id' Ha. rewrite fmap_app. apply elem_of_app. left. by apply Hsub.
    + apply numbered_app; [done|cbn; by rewrite Hn|done|cbn; lia].
    + exists rest'. split; [exact Hrd'|]. rewrite log_data_app, <- Hdata, Hrest. by rewrite <- app_assoc.
  - destruct Hread as [-> Hrd']. cbn [earliest_not_sent next_slot chunks_in_flight with_file].
    assert (transfer_inv tid base data (with_file m r) log acked) as HI
      by (split; try done; [by apply window_with_file|by exists []]).
    destruct (Z.eqb_spec (earliest_not_sent m) (next_slot m)) as [Hx|Hx]; cbn [andb].
    + rewrite (no_pending_slots m log acked base) by done. cbn [negb]. split_and!; try done.
      * by apply (all_acked_iff m log acked base).
      * by rewrite app_nil_r in Hdata.
    + split_and!; [done..|]. by rewrite <- (all_acked_iff m log acked base).
Qed.

Lemma receive_ack_spec tid base data m log acked id :
  transfer_inv tid base data m log acked -> id ∈ (log.*1) -> id ∉ acked ->
  exists m', receive_ack m id = Ret m' /\ transfer_inv tid base data m' log ({[id]} ∪ acked).
Proof.
  intros [HW HT Hsub HN Htid Hrest] Hin Ha. destruct (mark_done_spec m log acked base id HW HT Hin Ha) as (m' & E' & HW' & HT' & Hf & Ht).
  exists m'. split; [done|]. split; [done..|set_solver|done|congruence|by rewrite Hf].
Qed.

(** The bytes a transfer has to deliver. *)
Definition data_from (file : F) (offset : option Z) : list Z :=
  match offset with
  | None => drop (position file) (content file)
  | Some o => drop (Z.to_nat o) (content file)
  end.

Lemma start_inv tid size file offset :
  0 <= default 0 offset < u64_modulus ->
  (forall o, offset = Some o -> seek_succeeds chunk_size (E := E) file o = true) ->
  transfer_inv tid (default 0 offset) (data_from file offset) (start_manager tid size file offset) [] ∅.
Proof.
  intros Hb Hs. split.
  - split; try (destruct offset; cbn; done || lia).
    + destruct offset; constructor.
    + destruct offset; cbn; intros i Hi; unfold abs_slot; rewrite lookup_nil;
        apply lookup_replicate_2, (slot_real_index i).
    + destruct offset; cbn; intros id i; rewrite lookup_empty, lookup_nil; split; [done|set_solver|done|set_solver].
    + destruct offset; cbn; symmetry; [|done]. rewrite Z.add_0_r. by apply wrap64_id.
  - by intros x.
  - done.
  - by intros i x.
  - by destruct offset.
  - exists (data_from file offset). split; [|done]. destruct offset as [o|]; cbn.
    + apply (reader_set_progress_at chunk_size (content := content) (position := position)); [done|]. by apply Hs.
    + by apply (reader_new_at chunk_size (content := content) (position := position)).
Qed.

Lemma transfer_keeps_inv tid base data m0 m log acked :
  transfer_inv tid base data m0 [] ∅ -> transfer m0 m log acked -> transfer_inv tid base data m log acked.
Proof.
  intros Hstart HT. induction HT as [|m log acked r m' log' _ IH E' Hg Hfit|m log acked id m' _ IH Hin Ha E']; [done| |].
  - pose proof (send_next_chunk_spec tid base data m log acked IH Hfit) as HS. rewrite E' in HS.
    destruct r; try discriminate; apply HS.
  - destruct (receive_ack_spec tid base data m log acked id IH Hin Ha) as (m1 & E1 & HI). congruence.
Qed.

Section Claims.
Context (tid : FylesId) (size : Z) (file : F) (offset : option Z).
Hypothesis offset_u64 : is_u64 (default 0 offset).
Hypothesis seek_ok : forall o, offset = Some o -> seek_succeeds chunk_size (E := E) file o = true.

(** C8 At every point of a transfer, new or continued at an offset and whatever
    the order of the acknowledgements: the chunks sent are numbered from 0 without
    gaps and are, joined, a prefix of the file from the offset on; at most
    [PARALLEL_CHUNKS] chunks lie beyond the acknowledged prefix; and the reported
    progress is the offset plus the bytes of the acknowledged prefix. *)
Theorem send_window_refinement m log acked :
  transfer (start_manager tid size file offset) m log acked ->
  numbered tid log /\
  (exists rest, log_data log ++ rest = data_from file offset) /\
  Z.of_nat (length log - length (acked_prefix log acked)) <= PARALLEL_CHUNKS /\
  sm_progress_bytes m = wrap64 (default 0 offset + log_bytes (acked_prefix log acked)).
Proof.
  intros HT. destruct (transfer_keeps_inv tid _ _ _ m log acked (start_inv tid size file offset offset_u64 seek_ok) HT)
    as [HW Htight _ HN _ (rest & _ & Hd)].
  rewrite (acked_prefix_take log acked (Z.to_nat (earliest_not_sent m))) by (apply HW || apply Htight).
  pose proof (w_e _ _ _ _ HW). pose proof (w_next _ _ _ _ HW). pose proof (w_width _ _ _ _ HW).
  split_and!; [done|by exists rest|rewrite length_take; lia|apply HW].
Qed.

(** During a transfer nothing panics and every loop ends: the manager can
    always be asked for the next chunk, and it takes the acknowledgement of any
    chunk in flight. *)
Theorem send_manager_never_panics m log acked :
  transfer (start_manager tid size file offset) m log acked -> Z.of_nat (length log) + 1 < u32_modulus ->
  (exists r, send_next_chunk log_send m log = Ret r) /\
  (forall id, id ∈ (log.*1) -> id ∉ acked -> exists m', receive_ack m id = Ret m').
Proof.
  intros HT Hfit.
  pose proof (transfer_keeps_inv tid _ _ _ m log acked (start_inv tid size file offset offset_u64 seek_ok) HT) as HI.
  split.
  - pose proof (send_next_chunk_spec tid _ _ m log acked HI Hfit) as HS.
    destruct (send_next_chunk log_send m log) as [r| | |]; [by exists r|done..].
  - intros id Hin Ha. destruct (receive_ack_spec tid _ _ m log acked id HI Hin Ha) as (m' & E' & _). by exists m'.
Qed.

(** The manager reports the end of the transfer only when the whole file from
    the offset on was sent and every chunk acknowledged; and while it has nothing
    to send otherwise, some chunk is still unacknowledged, so a transfer whose
    chunks are all acknowledged always goes on. *)
Theorem transfer_done_iff_all_acknowledged m log acked r m' log' :
  transfer (start_manager tid size file offset) m log acked -> Z.of_nat (length log) + 1 < u32_modulus ->
  send_next_chunk log_send m log = Ret (r, m', log') ->
  (r = SendDone -> log_data log = data_from file offset /\ Forall (fun x => x.1 ∈ acked) log) /\
  (r = NotReady -> ~ Forall (fun x => x.1 ∈ acked) log).
Proof.
  intros HT Hfit E'.
  pose proof (transfer_keeps_inv tid _ _ _ m log acked (start_inv tid size file offset offset_u64 seek_ok) HT) as HI.
  pose proof (send_next_chunk_spec tid _ _ m log acked HI Hfit) as HS. rewrite E' in HS.
  split; intros ->; [|apply HS]. split; apply HS.
Qed.

End Claims.
End SendProof.

(** The contact lock: while the contact must be verified, all three unlock
    functions refuse everybody but the contact the file is meant for; without
    verification they give access to everybody. *)
Theorem unlock_only_for_contact {ID F E} `{Countable ID} (l : LockedSendData ID F E) connected :
  (is_Some (unlock l connected) <->
     must_verify_contact_id l = false \/ connected = Some (pf_contact_id (pending_file l))) /\
  unlock_mut l connected = unlock l connected /\ unlock_into l connected = unlock l connected /\
  (forall x, unlock l connected = Some x -> x = (send_manager l, pending_file l)).
Proof.
  unfold unlock_mut, unlock_into, unlock. destruct (must_verify_contact_id l); cbn [negb].
  - destruct connected as [c|]; [case_bool_decide; subst|]; split_and!; try done; try naive_solver.
    all: split; [by intros [? ?]|by intros [|]].
  - split_and!; try done; [|naive_solver]. split; [by left|by eexists].
Qed.

(** ** A file in memory *)

Module MemFile.

Definition file : Type := list Z * nat.

#[export] Instance mem_file : AsyncFile file unit := {
  file_read f n := let bs := take n (drop f.2 f.1) in (Ok bs, (f.1, (f.2 + length bs)%nat));
  file_seek f o := (Ok tt, (f.1, Z.to_nat o));
}.

#[export] Instance mem_file_laws : AsyncFileLaws file unit fst snd.
Proof.
  split; try done.
  - intros [c p] n bs f' [= <- <-]. cbn. split_and!; [done|rewrite length_take; lia|].
    rewrite <- drop_drop, length_take. destruct (decide (n <= length (drop p c))%nat).
    + rewrite Nat.min_l by done. apply take_drop.
    + rewrite Nat.min_r, (take_ge (drop p c)), (drop_ge (drop p c)) by lia. apply app_nil_r.
  - intros [c p] n f'. cbn. intros [= Ht _] Hn. destruct n; [done|]. by destruct (drop p c).
  - by intros [c p] o f' [= <-].
Qed.

(** Identifiers counted up from 100. *)
Definition pick (_ : DataChunk) (log : list (Z * DataChunk)) : option Z :=
  Some (1 + foldr Z.max 100 log.*1).

Lemma pick_fresh c log id : pick c log = Some id -> id ∉ (log.*1).
Proof.
  intros [= <-] Hin. assert (forall l x, x ∈ l -> x <= foldr Z.max 100 l) as Hm.
  { intros l x. induction l as [|y l IH]; simpl; [set_solver|]. rewrite elem_of_cons. intros [->|?%IH]; lia. }
  apply Hm in Hin. lia.
Qed.

Definition demo_start : SendManager Z file unit := start_manager 2 "t" 5 ([1; 2; 3; 4; 5], 0%nat) (Some 1).

(** Run: [None] sends, [Some id] acknowledges. *)
Fixpoint demo_run (evs : list (option Z)) (st : SendManager Z file unit * list (Z * DataChunk) * gset Z)
  : outcome (SendManager Z file unit * list (Z * DataChunk) * gset Z) :=
  match evs with
  | [] => Ret st
  | None :: evs =>
      let '(m, log, acked) := st in
      let? x := send_next_chunk (log_send pick) m log in
      demo_run evs (x.1.2, x.2, acked)
  | Some id :: evs =>
      let '(m, log, acked) := st in
      let? m := receive_ack m id in
      demo_run evs (m, log, {[id]} ∪ acked)
  end.

Definition demo_end := demo_run [None; None; None; Some 102; Some 101] (demo_start, [], ∅).
Definition demo_m := match demo_end with Ret (m, _, _) => m | _ => demo_start end.
Definition demo_log := match demo_end with Ret (_, log, _) => log | _ => [] end.
Definition demo_acked : gset Z := {[101]} ∪ ({[102]} ∪ ∅).

Lemma demo_transfer : transfer pick demo_start demo_m demo_log demo_acked.
Proof.
  eapply tr_ack; [eapply tr_ack; [eapply tr_send; [eapply tr_send; [eapply tr_send; [apply tr_start|..]|..]|..]|..]|..].
  all: try (vm_compute; reflexivity); by apply (bool_decide_unpack _); vm_compute.
Qed.

End MemFile.
Import MemFile.

Lemma demo_seek (o : Z) : Some 1 = Some o -> seek_succeeds 2 (E := unit) (([1; 2; 3; 4; 5], 0%nat) : file) o = true.
Proof. done. Qed.

Lemma send_window_refinement_witness :
  numbered 2 "t" demo_log /\
  (exists rest, log_data demo_log ++ rest = [2; 3; 4; 5]) /\
  Z.of_nat (length demo_log - length (acked_prefix demo_log demo_acked)) <= PARALLEL_CHUNKS /\
  sm_progress_bytes demo_m =
    wrap64 (1 + log_bytes (acked_prefix demo_log demo_acked)).
Proof.
  apply (send_window_refinement (ID := Z) (F := file) (E := unit) (content := fst) (position := snd) 2 ltac:(lia) pick pick_fresh
           "t" 5 ([1; 2; 3; 4; 5], 0%nat) (Some 1) ltac:(unfold is_u64, u64_modulus; simpl; lia) demo_seek
           demo_m demo_log demo_acked).
  exact demo_transfer.
Defined.

Lemma send_manager_never_panics_witness :
  (exists r, send_next_chunk (log_send pick) demo_m demo_log = Ret r) /\
  (forall id, id ∈ (demo_log.*1) -> id ∉ demo_acked -> exists m', receive_ack demo_m id = Ret m').
Proof.
  apply (send_manager_never_panics (ID := Z) (F := file) (E := unit) (content := fst) (position := snd) 2 ltac:(lia) pick pick_fresh
           "t" 5 ([1; 2; 3; 4; 5], 0%nat) (Some 1) ltac:(unfold is_u64, u64_modulus; simpl; lia) demo_seek).
  - exact demo_transfer.
  - vm_compute. reflexivity.
Defined.

Lemma transfer_done_iff_all_acknowledged_witness :
  log_data demo_log = [2; 3; 4; 5] /\ Forall (fun x => x.1 ∈ demo_acked) demo_log.
Proof.
  refine (proj1 (transfer_done_iff_all_acknowledged (ID := Z) (F := file) (E := unit) (content := fst) (position := snd) 2 ltac:(lia)
           pick pick_fresh
           "t" 5 ([1; 2; 3; 4; 5], 0%nat) (Some 1) ltac:(unfold is_u64, u64_modulus; simpl; lia) demo_seek
           demo_m demo_log demo_acked SendDone _ _ demo_transfer _ _) eq_refl).
  - vm_compute. reflexivity.
  - vm_compute. reflexivity.
Defined.

(** An acknowledgement of a request that is not registered, for example a second
    one for the same chunk, makes the manager panic. *)
Lemma unregistered_ack_panics {ID F E} `{Countable ID} (m : SendManager ID F E) id :
  chunk_to_index m !! id = None -> receive_ack m id = Panic.
Proof. intros E'. unfold receive_ack, mark_done. by rewrite E'. Qed.
