(* ===== verification/ReceiveManager.v ===== *)
(** * Receiving files (p2p/src/event_loop/filerequest/receive_manager.rs)

    [ReceiveManager] puts the chunks of one transfer in order and writes them to
    the part file; [FilerequestReceiver] answers the requests of all peers and
    keeps one manager per peer in an [IdleExpiryMap]. What the receiver calls
    (the brain, the drive handler, files, clocks) is the class [ReceiverEnv] over
    a state [W]. *)

From S2P Require Import Prelude Domain IdleExpiryMap FileReader SendManager.

(** Requests to the brain (core/src/core/brain/action_p2p.rs, domain_models.rs) *)
Record FilerequestContinueRequest := mk_continue_request {
  cq_filerequest_id : FylesId;
  cq_contact_id : option ContactId;
  cq_peer_id : string;
  cq_transfer_id : FylesId;
}.

Record FilerequestContinueResponse (DH : Type) := mk_continue_response {
  cr_drive_handler : DH;
  cr_file_name : string;
  cr_file_size_bytes : Z;
  cr_started_at_ms : Z;
}.
Arguments mk_continue_response {DH}.
Arguments cr_drive_handler {DH}.
Arguments cr_file_name {DH}.
Arguments cr_file_size_bytes {DH}.
Arguments cr_started_at_ms {DH}.

Record CreateIncomingFile := mk_create_incoming {
  ci_filerequest_id : FylesId;
  ci_transfer_id : FylesId;
  ci_contact_id : option ContactId;
  ci_peer_id : string;
  ci_file_name : string;
  ci_file_size_bytes : Z;
  ci_started_at_ms : Z;
}.

Record CompleteReceivedFile := mk_complete_received {
  cf_transfer_id : FylesId;
  cf_file_path : string;
  cf_received_at_ms : Z;
}.

(** What the receiver calls. A brain request panics when the brain is gone
    ([expect]); [update_received_status] says whether the message could be sent. *)
Class ReceiverEnv (W H DH : Type) := {
  instant_now : W -> Z * W;
  unix_epoch_millis : W -> option Z * W;
  random_draw : W -> Z * Z * W;
  request_file_drop : FylesId -> option ContactId -> W -> outcome (option DH * W);
  create_incoming_file : CreateIncomingFile -> W -> outcome (bool * W);
  request_file_transfer_continuation :
    FilerequestContinueRequest -> W -> outcome (option (FilerequestContinueResponse DH) * W);
  store_received_file : CompleteReceivedFile -> W -> outcome (bool * W);
  update_received_file_status : FylesId -> ReceiveStatus -> Z -> W -> bool * W;
  get_partial_file_for_writing : DH -> string -> W -> option H * W;
  remove_partial_file : DH -> string -> W -> bool * W;
  finalize_partial_file : DH -> string -> string -> W -> option string * W;
  metadata_len : H -> W -> option Z * W;
  write_all : H -> list Z -> W -> bool * W;
}.

(** [struct ReceiveManager] *)
Record ReceiveManager (H DH : Type) := mk_receive_manager {
  r_chunks_in_flight : list (option DataChunk);
  earliest_not_received : Z;
  declared_file_size_bytes : Z;
  byte_progress : Z;
  r_file : H;
  r_file_name : string;
  r_transfer_id : FylesId;
  r_filerequest_id : FylesId;
  drive_handler : DH;
  r_contact_id : option ContactId;
  started_at_ms : Z;
}.
Arguments mk_receive_manager {H DH}.
Arguments r_chunks_in_flight {H DH}.
Arguments earliest_not_received {H DH}.
Arguments declared_file_size_bytes {H DH}.
Arguments byte_progress {H DH}.
Arguments r_file {H DH}.
Arguments r_file_name {H DH}.
Arguments r_transfer_id {H DH}.
Arguments r_filerequest_id {H DH}.
Arguments drive_handler {H DH}.
Arguments r_contact_id {H DH}.
Arguments started_at_ms {H DH}.

(** [enum ReceiverRes] *)
Inductive ReceiverRes := Received | ResProtocolViolation | ResIoError.

Section Receive.
Context {W H DH : Type} `{!ReceiverEnv W H DH}.
Implicit Types (self : ReceiveManager H DH).

Definition rm_new (dh : DH) (file : H) (target_file_size : Z) (file_name : string)
  (transfer_id filerequest_id : FylesId) (contact_id : option ContactId) (started : Z) : ReceiveManager H DH :=
  mk_receive_manager (replicate (Z.to_nat PARALLEL_CHUNKS) None) 0 target_file_size 0 file file_name
    transfer_id filerequest_id dh contact_id started.

Definition rm_with self (slots : list (option DataChunk)) (earliest progress : Z) : ReceiveManager H DH :=
  mk_receive_manager slots earliest (declared_file_size_bytes self) progress (r_file self) (r_file_name self)
    (r_transfer_id self) (r_filerequest_id self) (drive_handler self) (r_contact_id self) (started_at_ms self).

Definition rm_reset self : ReceiveManager H DH :=
  rm_with self ((fun _ => None) <$> r_chunks_in_flight self) 0 (byte_progress self).

(** The [while let] of [store]. Every turn empties a slot, so one turn more than
    there are slots is enough fuel. *)
Fixpoint store_loop (fuel : nat) self (w : W) : outcome (ReceiverRes * ReceiveManager H DH * W) :=
  match fuel with
  | O => Diverge
  | S fuel =>
      let i := Z.to_nat (earliest_not_received self mod PARALLEL_CHUNKS) in
      match r_chunks_in_flight self !! i with
      | None => Panic
      | Some None => Ret (Received, self, w)
      | Some (Some chunk) =>
          let slots := <[i := None]> (r_chunks_in_flight self) in
          let chunk_size := chunk_bytes chunk in
          if declared_file_size_bytes self <? wrap64 (chunk_size + byte_progress self)
          then Ret (ResProtocolViolation, rm_with self slots (earliest_not_received self) (byte_progress self), w)
          else
            let progress := wrap64 (byte_progress self + chunk_size) in
            match write_all (r_file self) (ck_data chunk) w with
            | (false, w) => Ret (ResIoError, rm_with self slots (earliest_not_received self) progress, w)
            | (true, w) => store_loop fuel (rm_with self slots (wrap32 (earliest_not_received self + 1)) progress) w
            end
      end
  end.

Definition store self (chunk : DataChunk) (w : W) : outcome (ReceiverRes * ReceiveManager H DH * W) :=
  if wrap32 (earliest_not_received self + PARALLEL_CHUNKS) <=? ck_idx chunk then Ret (ResProtocolViolation, self, w)
  else if ck_idx chunk <? earliest_not_received self then Ret (Received, self, w)
  else
    let real_index := Z.to_nat (ck_idx chunk mod PARALLEL_CHUNKS) in
    if (real_index <? length (r_chunks_in_flight self))%nat then
      let self := rm_with self (<[real_index := Some chunk]> (r_chunks_in_flight self))
                    (earliest_not_received self) (byte_progress self) in
      if (real_index =? Z.to_nat (earliest_not_received self mod PARALLEL_CHUNKS))%nat
      then store_loop (S (length (r_chunks_in_flight self))) self w
      else Ret (Received, self, w)
    else Panic.

(** ** The receiver *)

Definition FilerequestReceiver : Type := IdleExpiryMap PeerId (ReceiveManager H DH).

Definition seconds (n : Z) : Z := n * 1000000000.

Definition receiver_new (w : W) : FilerequestReceiver * W :=
  let (now, w) := instant_now w in (idle_new (seconds 30) (seconds 35) now, w).

Definition now_entry (files : FilerequestReceiver) (node_id : PeerId) (w : W) : IdleEntry * FilerequestReceiver * W :=
  let (now, w) := instant_now w in (idle_entry files node_id now, w).

Definition now_remove (files : FilerequestReceiver) (node_id : PeerId) (w : W)
  : option (ReceiveManager H DH) * FilerequestReceiver * W :=
  let (now, w) := instant_now w in (idle_remove files node_id now, w).

(** The arm for [NewTransfer]; [entry] is the handle obtained before. *)
Definition respond_new_transfer (files : FilerequestReceiver) (entry : IdleEntry) (node_id : PeerId)
  (contact_id : option ContactId) (filerequest_id : FylesId) (file_name : string) (file_size_bytes : Z)
  (transfer_uuid : FylesId) (w : W) : outcome (FileResponse * FilerequestReceiver * W) :=
  let? (response, w) := request_file_drop filerequest_id contact_id w in
  match response with
  | None => Ret (RejectNewTransfer, files, w)
  | Some dh =>
      match unix_epoch_millis w with
      | (None, w) => Ret (InternalError, files, w)
      | (Some started, w) =>
          let part_file_name := get_part_file_name started transfer_uuid node_id contact_id in
          match get_partial_file_for_writing dh part_file_name w with
          | (None, w) => Ret (InternalError, files, w)
          | (Some file, w) =>
              let? (created, w) :=
                create_incoming_file
                  (mk_create_incoming filerequest_id transfer_uuid contact_id node_id file_name file_size_bytes started) w in
              if negb created then Ret (InternalError, files, w)
              else
                let manager := rm_new dh file file_size_bytes file_name transfer_uuid filerequest_id contact_id started in
                let (now, w) := instant_now w in
                Ret (AcceptNewTransfer, (entry_insert entry files node_id manager now).2, w)
          end
      end
  end.

(** The part of the [ContinueTransfer] arm that asks the brain. *)
Definition respond_continue_stored (files : FilerequestReceiver) (entry : IdleEntry) (node_id : PeerId)
  (contact_id : option ContactId) (filerequest_id transfer_uuid : FylesId) (w : W)
  : outcome (FileResponse * FilerequestReceiver * W) :=
  let? (response, w) :=
    request_file_transfer_continuation (mk_continue_request filerequest_id contact_id node_id transfer_uuid) w in
  match response with
  | None => Ret (RestartContinueTransfer, files, w)
  | Some (mk_continue_response dh file_name file_size_bytes started) =>
      let part_file_name := get_part_file_name started transfer_uuid node_id contact_id in
      match get_partial_file_for_writing dh part_file_name w with
      | (None, w) =>
          let (_, w) := update_received_file_status transfer_uuid RFailed 0 w in
          Ret (RestartContinueTransfer, files, w)
      | (Some file, w) =>
          match metadata_len file w with
          | (None, w) => Ret (InternalError, files, w)
          | (Some continue_at, w) =>
              let manager := rm_new dh file file_size_bytes file_name transfer_uuid filerequest_id contact_id started in
              let manager := rm_with manager (r_chunks_in_flight manager) (earliest_not_received manager) continue_at in
              let (now, w) := instant_now w in
              Ret (AcceptContinueTransfer continue_at, (entry_insert entry files node_id manager now).2, w)
          end
      end
  end.

(** The manager in memory, if it is the one of this transfer. *)
Definition continue_in_memory (files : FilerequestReceiver) (entry : IdleEntry) (node_id : PeerId)
  (contact_id : option ContactId) (filerequest_id transfer_uuid : FylesId) (w : W)
  : option (ReceiveManager H DH) * FilerequestReceiver * W :=
  match entry with
  | Vacant => (None, files, w)
  | Occupied =>
      let (now, w) := instant_now w in
      match occupied_get_mut files node_id now with
      | (Some manager, files) =>
          if bool_decide (r_transfer_id manager = transfer_uuid)
             && bool_decide (r_filerequest_id manager = filerequest_id)
             && bool_decide (r_contact_id manager = contact_id)
          then (Some manager, files, w) else (None, files, w)
      | (None, files) => (None, files, w)
      end
  end.

Definition respond_continue_transfer (files : FilerequestReceiver) (entry : IdleEntry) (node_id : PeerId)
  (contact_id : option ContactId) (filerequest_id transfer_uuid : FylesId) (w : W)
  : outcome (FileResponse * FilerequestReceiver * W) :=
  match continue_in_memory files entry node_id contact_id filerequest_id transfer_uuid w with
  | (Some manager, files, w) =>
      let manager := rm_reset manager in
      Ret (AcceptContinueTransfer (byte_progress manager), idle_set files node_id manager, w)
  | (None, files, w) => respond_continue_stored files entry node_id contact_id filerequest_id transfer_uuid w
  end.

Definition respond_abort_transfer (files : FilerequestReceiver) (node_id : PeerId)
  (contact_id : option ContactId) (transfer_uuid : option FylesId) (w : W)
  : outcome (FileResponse * FilerequestReceiver * W) :=
  match now_remove files node_id w with
  | (None, files, w) => Ret (ProtocolViolation, files, w)
  | (Some manager, files, w) =>
      let effective_transfer_id :=
        match transfer_uuid with
        | Some transfer_id => if bool_decide (transfer_id = r_transfer_id manager) then Some transfer_id else None
        | None => Some (r_transfer_id manager)
        end in
      match effective_transfer_id with
      | None => Ret (ProtocolViolation, files, w)
      | Some verified_transfer_id =>
          let part_file_name := get_part_file_name (started_at_ms manager) verified_transfer_id node_id contact_id in
          match remove_partial_file (drive_handler manager) part_file_name w with
          | (true, w) =>
              match update_received_file_status verified_transfer_id RFailed (byte_progress manager) w with
              | (true, w) => Ret (ConfirmAbort, files, w)
              | (false, _) => Panic
              end
          | (false, w) => Ret (InternalError, files, w)
          end
      end
  end.

Definition respond_chunk (files : FilerequestReceiver) (node_id : PeerId)
  (contact_id : option ContactId) (chunk : DataChunk) (w : W)
  : outcome (FileResponse * FilerequestReceiver * W) :=
  let (now, w) := instant_now w in
  match idle_get_mut files node_id now with
  | (None, files) => Ret (ProtocolViolation, files, w)
  | (Some manager, files) =>
      if negb (bool_decide (ck_transfer_uuid chunk = r_transfer_id manager)) then
        let '(_, files, w) := now_remove files node_id w in
        Ret (ProtocolViolation, files, w)
      else if negb (bool_decide (contact_id = r_contact_id manager)) then
        let '(_, files, w) := now_remove files node_id w in
        let '(drawn, offset, w) := random_draw w in
        Ret (random_response drawn offset, files, w)
      else
        let? (res, manager, w) := store manager chunk w in
        let files := idle_set files node_id manager in
        match res with
        | Received =>
            let (_, w) := update_received_file_status (r_transfer_id manager) RReceiving (byte_progress manager) w in
            Ret (ConfirmChunk, files, w)
        | ResProtocolViolation =>
            let '(_, files, w) := now_remove files node_id w in
            Ret (ProtocolViolation, files, w)
        | ResIoError =>
            let '(_, files, w) := now_remove files node_id w in
            let (_, w) := update_received_file_status (r_transfer_id manager) RFailed (byte_progress manager) w in
            Ret (InternalError, files, w)
        end
  end.

Definition respond_done (files : FilerequestReceiver) (node_id : PeerId)
  (contact_id : option ContactId) (transfer_uuid : FylesId) (w : W)
  : outcome (FileResponse * FilerequestReceiver * W) :=
  match now_entry files node_id w with
  | (Vacant, files, w) => Ret (ProtocolViolation, files, w)
  | (Occupied, files, w) =>
      let (now, w) := instant_now w in
      match occupied_get_mut files node_id now with
      | (None, files) => Ret (InternalError, files, w)
      | (Some manager, files) =>
          if negb (bool_decide (r_transfer_id manager = transfer_uuid)) then
            Ret (ProtocolViolation, occupied_destruct files node_id, w)
          else if negb (byte_progress manager =? declared_file_size_bytes manager) then
            Ret (ProtocolViolation, files, w)
          else
            let part_file_name := get_part_file_name (started_at_ms manager) transfer_uuid node_id contact_id in
            match finalize_partial_file (drive_handler manager) part_file_name (r_file_name manager) w with
            | (None, w) => Ret (InternalError, files, w)
            | (Some path, w) =>
                match unix_epoch_millis w with
                | (None, w) => Ret (InternalError, files, w)
                | (Some received_at, w) =>
                    let? (stored, w) := store_received_file (mk_complete_received (r_transfer_id manager) path received_at) w in
                    Ret (if (stored : bool) then ConfirmDone else InternalError, files, w)
                end
            end
      end
  end.

Definition respond_to (files : FilerequestReceiver) (node_id : PeerId) (contact_id : option ContactId)
  (request : FileRequest) (w : W) : outcome (FileResponse * FilerequestReceiver * W) :=
  let '(entry, files, w) := now_entry files node_id w in
  match request with
  | NewTransfer filerequest_id file_name file_size_bytes transfer_uuid =>
      respond_new_transfer files entry node_id contact_id filerequest_id file_name file_size_bytes transfer_uuid w
  | ContinueTransfer filerequest_id transfer_uuid =>
      respond_continue_transfer files entry node_id contact_id filerequest_id transfer_uuid w
  | AbortTransfer transfer_uuid => respond_abort_transfer files node_id contact_id transfer_uuid w
  | Chunk chunk => respond_chunk files node_id contact_id chunk w
  | Done transfer_uuid => respond_done files node_id contact_id transfer_uuid w
  | ReqProtocolViolation _ =>
      let '(_, files, w) := now_remove files node_id w in
      Ret (AcknowledgeProtocolViolation, files, w)
  end.

End Receive.

(** ** Reassembly *)

(** A file of tokio that is written to. [write_all] hands the bytes to a thread that
    writes them, and can return before they are written; the next write waits for
    them, and reports their failure. So there are two views of a file: the bytes that
    its handle has accepted, and those that are on disk, which can lag behind by the
    last write. *)
Class SinkLaws (W H DH : Type) `{!ReceiverEnv W H DH} (accepted on_disk : H -> W -> list Z) := {
  write_all_appends h bs w w' : write_all h bs w = (true, w') -> accepted h w' = accepted h w ++ bs;
  write_all_waits h bs w w' : write_all h bs w = (true, w') -> bs <> [] -> accepted h w `prefix_of` on_disk h w';
  disk_is_behind h w : on_disk h w `prefix_of` accepted h w;
}.

Section Reassembly.
Context {ID W H DH : Type} `{Countable ID} `{!ReceiverEnv W H DH} {accepted on_disk : H -> W -> list Z}
  `{!SinkLaws W H DH accepted on_disk}.
Implicit Types (rm : ReceiveManager H DH) (log : list (ID * DataChunk)) (delivered : gset ID).

(** The slot of a chunk of the log. *)
Definition abs_chunk log delivered (i : Z) : option DataChunk :=
  match log !! Z.to_nat i with
  | Some (id, c) => if bool_decide (id ∈ delivered) then Some c else None
  | None => None
  end.

(** The manager of a transfer whose sender has sent [log], after the chunks
    [delivered] arrived; [pre] was in the file at the start. *)
Record rwindow (pre : list Z) rm (w : W) log delivered : Prop := {
  rw_len : length (r_chunks_in_flight rm) = Z.to_nat PARALLEL_CHUNKS;
  rw_e : 0 <= earliest_not_received rm <= Z.of_nat (length log);
  rw_fits : Z.of_nat (length log) + PARALLEL_CHUNKS < u32_modulus;
  rw_nodup : NoDup (log.*1);
  rw_idx : forall i x, log !! i = Some x -> ck_idx x.2 = Z.of_nat i;
  rw_released : forall i x, (i < Z.to_nat (earliest_not_received rm))%nat -> log !! i = Some x -> x.1 ∈ delivered;
  rw_ahead : forall i x, log !! i = Some x -> x.1 ∈ delivered -> Z.of_nat i < earliest_not_received rm + PARALLEL_CHUNKS;
  rw_slots : forall i, earliest_not_received rm <= i < earliest_not_received rm + PARALLEL_CHUNKS ->
    r_chunks_in_flight rm !! Z.to_nat (i mod PARALLEL_CHUNKS) = Some (abs_chunk log delivered i);
  rw_progress : byte_progress rm =
    Z.of_nat (length pre) + log_bytes (take (Z.to_nat (earliest_not_received rm)) log);
  rw_full : forall i x, log !! i = Some x -> ck_data x.2 <> [];
  rw_contents : accepted (r_file rm) w = pre ++ log_data (take (Z.to_nat (earliest_not_received rm)) log);
  rw_settled : pre ++ log_data (take (pred (Z.to_nat (earliest_not_received rm))) log) `prefix_of` on_disk (r_file rm) w;
  rw_size : Z.of_nat (length pre) + log_bytes log <= declared_file_size_bytes rm < u64_modulus;
}.

Definition rtight rm log delivered : Prop :=
  forall x, log !! Z.to_nat (earliest_not_received rm) = Some x -> x.1 ∉ delivered.

Lemma log_bytes_nonneg log : 0 <= log_bytes log.
Proof. unfold log_bytes. induction log; simpl; unfold chunk_bytes in *; lia. Qed.

Lemma log_bytes_take_S log i x :
  log !! i = Some x -> log_bytes (take (S i) log) = log_bytes (take i log) + chunk_bytes x.2.
Proof. intros Hx. rewrite (take_S_r _ _ _ Hx), log_bytes_app. unfold log_bytes at 2. simpl. lia. Qed.

Lemma log_bytes_take_le log i : log_bytes (take i log) <= log_bytes log.
Proof. rewrite <- (take_drop i log) at 2. rewrite log_bytes_app. pose proof (log_bytes_nonneg (drop i log)). lia. Qed.

Lemma log_data_take_S log i id c :
  log !! i = Some (id, c) -> log_data (take (S i) log) = log_data (take i log) ++ ck_data c.
Proof. intros Hx. by rewrite (take_S_r _ _ _ Hx), log_data_app. Qed.

(** One turn: the earliest chunk is written. *)
Lemma store_one pre rm w w' log delivered id c :
  rwindow pre rm w log delivered ->
  log !! Z.to_nat (earliest_not_received rm) = Some (id, c) -> id ∈ delivered ->
  write_all (r_file rm) (ck_data c) w = (true, w') ->
  rwindow pre (rm_with rm (<[Z.to_nat (earliest_not_received rm mod PARALLEL_CHUNKS) := None]> (r_chunks_in_flight rm))
                 (wrap32 (earliest_not_received rm + 1)) (wrap64 (byte_progress rm + chunk_bytes c)))
    w' log delivered.
Proof.
  intros HW Hl Hd Hwr. pose proof (rw_e _ _ _ _ _ HW) as He. pose proof (rw_fits _ _ _ _ _ HW) as Hf.
  pose proof (lookup_lt_Some _ _ _ Hl) as Hlt.
  assert (wrap32 ((earliest_not_received rm) + 1) = (earliest_not_received rm) + 1) as Ew by (apply wrap32_id; unfold is_u32, PARALLEL_CHUNKS in *; lia).
  pose proof (log_bytes_take_S _ _ _ Hl) as Hb. cbn [snd] in Hb.
  pose proof (log_bytes_take_le log (S (Z.to_nat (earliest_not_received rm)))) as Hle. pose proof (rw_size _ _ _ _ _ HW) as Hs.
  pose proof (log_bytes_nonneg (take (S (Z.to_nat (earliest_not_received rm))) log)) as Hnn.
  assert (wrap64 (byte_progress rm + chunk_bytes c) = byte_progress rm + chunk_bytes c) as Ep
    by (apply wrap64_id; rewrite (rw_progress _ _ _ _ _ HW); unfold is_u64; lia).
  rewrite Ew, Ep. assert (Z.to_nat ((earliest_not_received rm) + 1) = S (Z.to_nat (earliest_not_received rm))) as Es by lia.
  split; cbn; try (apply HW || lia).
  - rewrite length_insert. apply HW.
  - intros i x Hi Hx. destruct (decide (i = Z.to_nat (earliest_not_received rm))) as [->|]; [by simplify_eq|].
    apply (rw_released _ _ _ _ _ HW i x); [lia|done].
  - intros i x Hx Hdx. pose proof (rw_ahead _ _ _ _ _ HW i x Hx Hdx). lia.
  - intros i Hi. destruct (decide (i = (earliest_not_received rm) + PARALLEL_CHUNKS)) as [->|].
    + rewrite mod_add_window by done.
      rewrite list_lookup_insert_eq by (rewrite (rw_len _ _ _ _ _ HW); apply slot_real_index).
      f_equal. unfold abs_chunk. destruct (log !! Z.to_nat ((earliest_not_received rm) + PARALLEL_CHUNKS)) as [[id' c']|] eqn:Hx; [|done].
      case_bool_decide as Hd'; [|done]. pose proof (rw_ahead _ _ _ _ _ HW _ _ Hx Hd') as Ha. 
      unfold PARALLEL_CHUNKS in *. lia.
    + rewrite list_lookup_insert_ne by (apply (slot_index_ne (earliest_not_received rm)); lia). apply HW. lia.
  - rewrite Es, Hb, (rw_progress _ _ _ _ _ HW). lia.
  - rewrite Es, (write_all_appends _ _ _ _ Hwr), (rw_contents _ _ _ _ _ HW), (log_data_take_S _ _ _ _ Hl).
    by rewrite <- app_assoc.
  - rewrite Es. cbn [pred]. rewrite <- (rw_contents _ _ _ _ _ HW).
    by apply (write_all_waits _ _ _ _ Hwr), (rw_full _ _ _ _ _ HW _ _ Hl).
Qed.

Lemma store_loop_spec fuel : forall k pre rm w log delivered,
  rwindow pre rm w log delivered ->
  (forall i x, log !! i = Some x -> x.1 ∈ delivered -> Z.of_nat i < earliest_not_received rm + Z.of_nat k) ->
  (k < fuel)%nat ->
  match store_loop fuel rm w with
  | Ret (Received, rm', w') => rwindow pre rm' w' log delivered /\ rtight rm' log delivered
  | Ret (ResIoError, _, _) => True
  | _ => False
  end.
Proof.
  induction fuel as [|fuel IH]; intros k pre rm w log delivered HW Hk Hfuel; [lia|]. simpl.
  pose proof (rw_e _ _ _ _ _ HW) as He.
  rewrite (rw_slots _ _ _ _ _ HW) by (unfold PARALLEL_CHUNKS; lia). unfold abs_chunk.
  destruct (log !! Z.to_nat (earliest_not_received rm)) as [[id c]|] eqn:Hl.
  2:{ split; [done|]. intros x Hx. congruence. }
  case_bool_decide as Hd.
  2:{ split; [done|]. intros x Hx. by simplify_eq. }
  pose proof (log_bytes_take_S _ _ _ Hl) as Hb. cbn [snd] in Hb.
  pose proof (log_bytes_take_le log (S (Z.to_nat (earliest_not_received rm)))) as Hle.
  pose proof (rw_size _ _ _ _ _ HW) as Hs. pose proof (log_bytes_nonneg (take (S (Z.to_nat (earliest_not_received rm))) log)).
  rewrite wrap64_id by (rewrite (rw_progress _ _ _ _ _ HW); unfold is_u64; lia).
  rewrite (proj2 (Z.ltb_ge _ _)) by (rewrite (rw_progress _ _ _ _ _ HW); lia).
  destruct (write_all (r_file rm) (ck_data c) w) as [[] w'] eqn:Hwr; [|done].
  apply (IH (pred k) pre).
  - by apply (store_one pre rm w w' log delivered id c).
  - intros i x Hx Hdx. cbn. pose proof (Hk i x Hx Hdx). pose proof (rw_fits _ _ _ _ _ HW).
    pose proof (lookup_lt_Some _ _ _ Hl). unfold PARALLEL_CHUNKS in *.
    rewrite wrap32_id by (unfold is_u32; lia). lia.
  - pose proof (Hk _ _ Hl Hd). lia.
Qed.

(** A chunk of the log arrives within the window, once or again. *)
Lemma store_spec pre rm w log delivered i id c :
  rwindow pre rm w log delivered -> rtight rm log delivered ->
  log !! i = Some (id, c) -> Z.of_nat i < earliest_not_received rm + PARALLEL_CHUNKS ->
  match store rm c w with
  | Ret (Received, rm', w') => rwindow pre rm' w' log ({[id]} ∪ delivered) /\ rtight rm' log ({[id]} ∪ delivered)
  | Ret (ResIoError, _, _) => True
  | _ => False
  end.
Proof.
  intros HW HT Hi Hlt. pose proof (rw_e _ _ _ _ _ HW) as He. pose proof (rw_fits _ _ _ _ _ HW) as Hf.
  pose proof (lookup_lt_Some _ _ _ Hi) as Hil. unfold store.
  rewrite (rw_idx _ _ _ _ _ HW i (id, c) Hi : ck_idx c = Z.of_nat i).
  rewrite wrap32_id by (unfold is_u32, PARALLEL_CHUNKS in *; lia).
  rewrite (proj2 (Z.leb_gt _ _)) by lia. destruct (Z.ltb_spec (Z.of_nat i) (earliest_not_received rm)) as [Hold|Hnew].
  { pose proof (rw_released _ _ _ _ _ HW i (id, c) ltac:(lia) Hi) as Hd. cbn in Hd.
    by replace ({[id]} ∪ delivered) with delivered by set_solver. }
  rewrite (proj2 (Nat.ltb_lt _ _)) by (rewrite (rw_len _ _ _ _ _ HW); apply slot_real_index).
  set (rm1 := rm_with _ _ _ _).
  assert (rwindow pre rm1 w log ({[id]} ∪ delivered)) as HW1.
  { split; cbn; try apply HW.
    - rewrite length_insert. apply HW.
    - intros j x Hj Hx. apply elem_of_union_r. by apply (rw_released _ _ _ _ _ HW j x).
    - intros j x Hx [Hd%elem_of_singleton|Hd]%elem_of_union; [|by apply (rw_ahead _ _ _ _ _ HW j x)].
      replace j with i; [done|]. apply (NoDup_lookup (log.*1) _ _ id (rw_nodup _ _ _ _ _ HW));
        rewrite list_lookup_fmap; [by rewrite Hi|rewrite Hx; simpl; by rewrite Hd].
    - intros j Hj. destruct (decide (j = Z.of_nat i)) as [->|Hne].
      + rewrite list_lookup_insert_eq by (rewrite (rw_len _ _ _ _ _ HW); apply slot_real_index).
        unfold abs_chunk. rewrite Nat2Z.id, Hi, bool_decide_eq_true_2 by set_solver. done.
      + rewrite list_lookup_insert_ne by (apply (slot_index_ne (earliest_not_received rm)); lia).
        rewrite (rw_slots _ _ _ _ _ HW) by done. f_equal. unfold abs_chunk.
        destruct (log !! Z.to_nat j) as [[id' c']|] eqn:Hj'; [|done].
        replace (bool_decide (id' ∈ {[id]} ∪ delivered)) with (bool_decide (id' ∈ delivered)); [done|].
        apply bool_decide_ext. rewrite elem_of_union, elem_of_singleton. split; [by right|].
        intros [->|?]; [|done]. exfalso. apply Hne. assert (Z.to_nat j = i); [|lia].
        apply (NoDup_lookup (log.*1) _ _ id (rw_nodup _ _ _ _ _ HW)); rewrite list_lookup_fmap; [by rewrite Hj'|by rewrite Hi]. }
  destruct (Nat.eqb_spec (Z.to_nat (Z.of_nat i mod PARALLEL_CHUNKS))
              (Z.to_nat (earliest_not_received rm1 mod PARALLEL_CHUNKS))) as [Heq|Hneq].
  - apply (store_loop_spec _ 8 pre rm1 w log ({[id]} ∪ delivered) HW1); [apply HW1|].
    rewrite (rw_len _ _ _ _ _ HW1). vm_compute. lia.
  - split; [done|]. intros x Hx. cbn in Hx. rewrite not_elem_of_union. split; [|by apply HT].
    intros Hid%elem_of_singleton. apply Hneq. cbn. do 2 f_equal. destruct x as [idx cx]. cbn in Hid. subst idx.
    assert (i = Z.to_nat (earliest_not_received rm)); [|lia].
    apply (NoDup_lookup (log.*1) _ _ id (rw_nodup _ _ _ _ _ HW)); rewrite list_lookup_fmap; [by rewrite Hi|by rewrite Hx].
Qed.

End Reassembly.
