(* ===== verification/Transfer.v ===== *)
(** * A file transfer end to end

    The sender's window ([SendManager]) and the receiver's ([ReceiveManager])
    joined by a network that delays, reorders and repeats messages. *)

From S2P Require Import Prelude Domain IdleExpiryMap FileReader SendManager ReceiveManager.

Section EndToEnd.
Context {ID F E W H DH : Type} `{Countable ID} `{AsyncFile F E} `{!ReceiverEnv W H DH}.
Context {content : F -> list Z} {position : F -> nat} `{!AsyncFileLaws F E content position}.
Context {accepted on_disk : H -> W -> list Z} `{!SinkLaws W H DH accepted on_disk}.
Context (chunk_size : nat) (chunk_size_pos : (0 < chunk_size)%nat).
Context (pick : DataChunk -> list (ID * DataChunk) -> option ID).
Context (pick_fresh : forall c log id, pick c log = Some id -> id ∉ (log.*1)).
Implicit Types (m : SendManager ID F E) (rm : ReceiveManager H DH) (log : list (ID * DataChunk)).
Implicit Types (acked delivered : gset ID).

(** The joint states: the sender sends, a chunk that was sent arrives (any number
    of times), the acknowledgement of a chunk that arrived comes back, and the
    receiver's machine does other things that leave the part file alone, but for
    bytes accepted before that reach the disk. *)
Inductive session m0 rm0 (w0 : W) : SendManager ID F E -> list (ID * DataChunk) -> gset ID -> ReceiveManager H DH -> W -> gset ID -> Prop :=
| ss_start : session m0 rm0 w0 m0 [] ∅ rm0 w0 ∅
| ss_send m log acked rm w delivered r m' log' :
    session m0 rm0 w0 m log acked rm w delivered ->
    send_next_chunk (log_send pick) m log = Ret (r, m', log') -> goes_on r = true ->
    Z.of_nat (length log) + 1 + PARALLEL_CHUNKS < u32_modulus ->
    session m0 rm0 w0 m' log' acked rm w delivered
| ss_deliver m log acked rm w delivered id c rm' w' :
    session m0 rm0 w0 m log acked rm w delivered ->
    (id, c) ∈ log -> store rm c w = Ret (Received, rm', w') ->
    session m0 rm0 w0 m log acked rm' w' ({[id]} ∪ delivered)
| ss_ack m log acked rm w delivered id m' :
    session m0 rm0 w0 m log acked rm w delivered ->
    id ∈ delivered -> id ∉ acked -> receive_ack m id = Ret m' ->
    session m0 rm0 w0 m' log ({[id]} ∪ acked) rm w delivered
| ss_other m log acked rm w delivered w' :
    session m0 rm0 w0 m log acked rm w delivered ->
    accepted (r_file rm) w' = accepted (r_file rm) w -> on_disk (r_file rm) w `prefix_of` on_disk (r_file rm) w' ->
    session m0 rm0 w0 m log acked rm w' delivered.

Record session_inv (tid : FylesId) (base : Z) (data pre : list Z) m log acked rm w delivered : Prop := {
  si_send : transfer_inv chunk_size (content := content) (position := position) tid base data m log acked;
  si_receive : rwindow (accepted := accepted) (on_disk := on_disk) pre rm w log delivered;
  si_tight : rtight rm log delivered;
  si_acked : acked ⊆ delivered;
  si_delivered : forall id, id ∈ delivered -> id ∈ (log.*1);
}.

Lemma log_bytes_data log : log_bytes log = Z.of_nat (length (log_data log)).
Proof.
  induction log as [|[id c] log IH]; [done|].
  unfold log_data, log_bytes in *. cbn. cbn in IH. rewrite length_app, IH. unfold chunk_bytes. lia.
Qed.

Lemma last_chunk_short tid log :
  numbered chunk_size tid log -> (length (log_data log) <= length (log_data (take (pred (length log)) log)) + chunk_size)%nat.
Proof.
  intros HN. destruct log as [|[id c] log _] using rev_ind; [cbn; lia|].
  destruct (HN (length log) (id, c)) as (_ & _ & _ & Hc); [by apply list_lookup_middle|]. cbn in Hc.
  replace (pred (length (log ++ [(id, c)]))) with (length log) by (rewrite length_app; cbn; lia).
  rewrite take_app_length, log_data_app, length_app. lia.
Qed.

(** The receiver's window after the sender has sent one chunk more. *)
Lemma rwindow_sent pre rm w log delivered id c :
  rwindow (accepted := accepted) (on_disk := on_disk) pre rm w log delivered -> rtight rm log delivered ->
  id ∉ (log.*1) -> id ∉ delivered -> ck_idx c = Z.of_nat (length log) -> ck_data c <> [] ->
  Z.of_nat (length log) + 1 + PARALLEL_CHUNKS < u32_modulus ->
  Z.of_nat (length pre) + log_bytes (log ++ [(id, c)]) <= declared_file_size_bytes rm ->
  rwindow (accepted := accepted) (on_disk := on_disk) pre rm w (log ++ [(id, c)]) delivered /\ rtight rm (log ++ [(id, c)]) delivered.
Proof.
  intros HW HT Hid Hd Hc Hfull Hfit Hsize. pose proof (rw_e _ _ _ _ _ HW) as He.
  assert (take (Z.to_nat (earliest_not_received rm)) (log ++ [(id, c)]) = take (Z.to_nat (earliest_not_received rm)) log) as Et
    by (apply take_app_le; lia).
  assert (take (pred (Z.to_nat (earliest_not_received rm))) (log ++ [(id, c)]) = take (pred (Z.to_nat (earliest_not_received rm))) log) as Et'
    by (apply take_app_le; lia).
  split; [split; rewrite ?length_app, ?Et, ?Et'; cbn; try (apply HW || lia)|].
  - rewrite fmap_app. apply NoDup_app. split_and!; [apply HW| |apply NoDup_singleton].
    intros x Hx ->%list_elem_of_singleton. done.
  - intros i x [Hx|[Hle Hx]]%lookup_app_Some; [by apply HW|].
    apply list_lookup_singleton_Some in Hx as [Hi <-]. cbn. lia.
  - intros i x Hi Hx. rewrite lookup_app_l in Hx by lia. by apply (rw_released _ _ _ _ _ HW i x).
  - intros i x [Hx|[Hle Hx]]%lookup_app_Some Hdx; [by apply (rw_ahead _ _ _ _ _ HW i x)|].
    apply list_lookup_singleton_Some in Hx as [_ <-]. done.
  - intros i Hi. rewrite (rw_slots _ _ _ _ _ HW) by done. f_equal. unfold abs_chunk.
    destruct (decide (Z.to_nat i < length log)%nat); [by rewrite lookup_app_l|].
    rewrite lookup_ge_None_2, lookup_app_r by lia. destruct (_ - _)%nat as [|k]; [simpl|done].
    by rewrite bool_decide_eq_false_2.
  - intros i x [Hx|[Hle Hx]]%lookup_app_Some; [by apply (rw_full _ _ _ _ _ HW i)|].
    by apply list_lookup_singleton_Some in Hx as [_ <-].
  - split; [done|]. apply HW.
  - intros x [Hx|[Hle Hx]]%lookup_app_Some; [by apply HT|].
    by apply list_lookup_singleton_Some in Hx as [_ <-].
Qed.

(** The receiver has released at least what the sender has. *)
Lemma receiver_ahead tid base data pre m log acked rm w delivered :
  session_inv tid base data pre m log acked rm w delivered ->
  Z.of_nat (length log) <= earliest_not_received rm + PARALLEL_CHUNKS.
Proof.
  intros [[HW Ht _ _ _ _] HR HRt Hsub _]. pose proof (w_e _ _ _ _ HW). pose proof (w_next _ _ _ _ HW).
  pose proof (w_width _ _ _ _ HW). pose proof (rw_e _ _ _ _ _ HR).
  destruct (decide (earliest_not_sent m <= earliest_not_received rm)); [lia|].
  destruct (lookup_lt_is_Some_2 log (Z.to_nat (earliest_not_received rm))) as [x Hx]; [lia|].
  destruct (HRt x Hx). apply Hsub. apply (w_released _ _ _ _ HW (Z.to_nat (earliest_not_received rm)) x); [lia|done].
Qed.

(** Delivery of a chunk is always in the window. *)
Lemma deliver_spec tid base data pre m log acked rm w delivered id c :
  session_inv tid base data pre m log acked rm w delivered -> (id, c) ∈ log ->
  match store rm c w with
  | Ret (Received, rm', w') => session_inv tid base data pre m log acked rm' w' ({[id]} ∪ delivered)
  | Ret (ResIoError, _, _) => True
  | _ => False
  end.
Proof.
  intros HI Hin. pose proof (receiver_ahead _ _ _ _ _ _ _ _ _ _ HI) as Ha. destruct HI as [HS HR HRt Hsub Hd].
  pose proof Hin as Hin'. apply list_elem_of_lookup in Hin as [i Hi]. pose proof (lookup_lt_Some _ _ _ Hi).
  pose proof (store_spec pre rm w log delivered i id c HR HRt Hi ltac:(lia)) as HStore.
  destruct (store rm c w) as [[[[] rm'] w']| | |]; try done. destruct HStore. split; try done; [set_solver|].
  intros id' [->%elem_of_singleton|?]%elem_of_union; [|by apply Hd].
  apply list_elem_of_fmap. by exists (id, c).
Qed.

Lemma rwindow_other pre rm w w' log delivered :
  rwindow (accepted := accepted) (on_disk := on_disk) pre rm w log delivered ->
  accepted (r_file rm) w' = accepted (r_file rm) w -> on_disk (r_file rm) w `prefix_of` on_disk (r_file rm) w' ->
  rwindow (accepted := accepted) (on_disk := on_disk) pre rm w' log delivered.
Proof. intros [] Hc Hd. split; try done; [by rewrite Hc|]. by etrans. Qed.

Lemma store_declared rm c w r rm' w' :
  store rm c w = Ret (r, rm', w') -> declared_file_size_bytes rm' = declared_file_size_bytes rm.
Proof.
  assert (forall fuel rm w, store_loop fuel rm w = Ret (r, rm', w') ->
    declared_file_size_bytes rm' = declared_file_size_bytes rm) as HL.
  { clear. induction fuel as [|fuel IH]; [done|]. simpl. intros rm w. repeat case_goal; intros Hl; try done;
      solve [by apply IH in Hl | by injection Hl as <- <- <-]. }
  unfold store. repeat case_goal; intros Hs; try done; try (apply HL in Hs; done); by injection Hs as <- <- <-.
Qed.

Lemma session_keeps_inv tid base data pre m0 rm0 w0 m log acked rm w delivered :
  session_inv tid base data pre m0 [] ∅ rm0 w0 ∅ ->
  Z.of_nat (length pre + length data) = declared_file_size_bytes rm0 ->
  session m0 rm0 w0 m log acked rm w delivered ->
  session_inv tid base data pre m log acked rm w delivered /\
  declared_file_size_bytes rm = declared_file_size_bytes rm0.
Proof.
  intros Hstart Hdecl HS. induction HS as [|m log acked rm w delivered r m' log' _ [IH IHd] E' Hg Hfit
    |m log acked rm w delivered id c rm' w' _ [IH IHd] Hin E'|m log acked rm w delivered id m' _ [IH IHd] Hin Ha E'
    |m log acked rm w delivered w' _ [IH IHd] Hc Hdisk]; [done|..].
  - split; [|done]. destruct IH as [HS HR HRt Hsub Hd]. unfold PARALLEL_CHUNKS in Hfit.
    pose proof (send_next_chunk_spec chunk_size chunk_size_pos pick pick_fresh tid base data m log acked HS ltac:(lia)) as Hsp.
    rewrite E' in Hsp. destruct r; try discriminate.
    + destruct Hsp as (-> & HS' & _). by split.
    + destruct Hsp as [[c ->] HS'].
      assert (id ∉ (log.*1)) as Hfresh.
      { pose proof (w_nodup _ _ _ _ (ti_window _ _ _ _ _ _ _ HS')) as Hnd. rewrite fmap_app in Hnd.
        apply NoDup_app in Hnd as (_ & Hnd & _). intros Hx. apply (Hnd id Hx). set_solver. }
      assert (id ∉ delivered) as Hnd by (intros Hx%Hd; done).
      destruct (ti_numbered _ _ _ _ _ _ _ HS' (length log) (id, c)) as (Hidx & _ & Hfull & _); [by apply list_lookup_middle|].
      assert (ck_data c <> []) as Hne by (intros Hz; cbn in Hfull; rewrite Hz in Hfull; cbn in Hfull; lia).
      destruct (ti_rest _ _ _ _ _ _ _ HS') as (rest & _ & Hdata).
      destruct (rwindow_sent pre rm w log delivered id c HR HRt Hfresh Hnd Hidx Hne) as [HR' HRt'];
        [unfold PARALLEL_CHUNKS; lia| |].
      { rewrite IHd, <- Hdecl, <- Hdata, log_bytes_data, length_app. lia. }
      split; try done. intros id' Hx. rewrite fmap_app. apply elem_of_app. left. by apply Hd.
    + destruct Hsp as (-> & HS' & _). by split.
  - pose proof (deliver_spec _ _ _ _ _ _ _ _ _ _ id c IH Hin) as Hsp. rewrite E' in Hsp. split; [done|].
    by rewrite (store_declared _ _ _ _ _ _ E').
  - split; [|done]. destruct IH as [HS HR HRt Hsub Hd].
    destruct (receive_ack_spec chunk_size chunk_size_pos pick pick_fresh tid base data m log acked id HS (Hd id Hin) Ha) as (m1 & E1 & HS').
    assert (m1 = m') as -> by congruence. split; try done. set_solver.
  - split; [|done]. destruct IH as [HS HR HRt Hsub Hd]. split; try done. by apply (rwindow_other pre rm w).
Qed.

Section Claims.
Context (tid filerequest_id : FylesId) (size : Z) (file : F) (offset : option Z).
Context (dh : DH) (h : H) (name : string) (contact : option ContactId) (started : Z) (pre : list Z) (w0 : W).

(** The receiver's manager of a transfer that starts with [pre] in the part file. *)
Definition start_receiver : ReceiveManager H DH :=
  let rm := rm_new dh h size name tid filerequest_id contact started in
  rm_with rm (r_chunks_in_flight rm) (earliest_not_received rm) (Z.of_nat (length pre)).

(** What the sender has to send. *)
Abbreviation data := (data_from (content := content) (position := position) file offset).

Hypothesis offset_ok : default 0 offset = Z.of_nat (length pre).
Hypothesis seek_ok : forall o, offset = Some o -> seek_succeeds chunk_size (E := E) file o = true.
Hypothesis pre_ok : accepted h w0 = pre /\ on_disk h w0 = pre.
Hypothesis size_ok : size = Z.of_nat (length pre + length data).
Hypothesis size_u64 : size < u64_modulus.

Lemma session_start_inv :
  session_inv tid (default 0 offset) data pre (start_manager chunk_size tid size file offset) [] ∅
    start_receiver w0 ∅.
Proof.
  split; [apply (start_inv chunk_size chunk_size_pos pick pick_fresh); [lia|done]| |by intros x|done|done].
  split; cbn; try (done || lia).
  - constructor.
  - intros i Hi. unfold abs_chunk. rewrite lookup_nil. apply lookup_replicate_2, (slot_real_index i).
  - rewrite take_nil. cbn. lia.
  - rewrite take_nil, app_nil_r. apply pre_ok.
  - rewrite app_nil_r. by rewrite (proj2 pre_ok).
Qed.

(** C2 Between the two windows no chunk is out of place: whatever the network
    delays, reorders or repeats, the receiver accepts every chunk that arrives,
    unless writing fails. *)
Theorem honest_chunks_accepted m log acked rm w delivered id c :
  session (start_manager chunk_size tid size file offset) start_receiver w0 m log acked rm w delivered ->
  (id, c) ∈ log ->
  exists res rm' w', store rm c w = Ret (res, rm', w') /\ (res = Received \/ res = ResIoError).
Proof.
  intros HS Hin.
  destruct (session_keeps_inv _ _ _ _ _ _ _ _ _ _ _ _ _ session_start_inv (eq_sym size_ok) HS) as [HI _].
  pose proof (deliver_spec _ _ _ _ _ _ _ _ _ _ id c HI Hin) as Hsp.
  destruct (store rm c w) as [[[[] rm'] w']| | |]; try done; repeat eexists; eauto.
Qed.

(** C1 When the sender reports the end of the transfer, the receiver has handed the
    complete file to the part file, in order: what was there before followed by the
    sender's bytes from the offset on. Its count equals the declared size, so that it
    accepts the [Done] request. On disk is a prefix of the file which lacks at most
    the last chunk: tokio's [write_all] can return before its bytes are written, and
    nothing flushes the file before it is finalized. *)
Theorem transfer_delivers_file m log acked rm w delivered m' log' :
  session (start_manager chunk_size tid size file offset) start_receiver w0 m log acked rm w delivered ->
  Z.of_nat (length log) + 1 < u32_modulus ->
  send_next_chunk (log_send pick) m log = Ret (SendDone, m', log') ->
  accepted (r_file rm) w = pre ++ data /\
  byte_progress rm = declared_file_size_bytes rm /\
  on_disk (r_file rm) w `prefix_of` pre ++ data /\
  (length (pre ++ data) <= length (on_disk (r_file rm) w) + chunk_size)%nat.
Proof.
  intros HS Hfit E'.
  destruct (session_keeps_inv _ _ _ _ _ _ _ _ _ _ _ _ _ session_start_inv (eq_sym size_ok) HS) as [[HT HR HRt Hsub Hd] Hdecl].
  pose proof (send_next_chunk_spec chunk_size chunk_size_pos pick pick_fresh tid _ _ m log acked HT Hfit) as Hsp.
  rewrite E' in Hsp. destruct Hsp as (_ & _ & Hall & Hdata).
  pose proof (rw_e _ _ _ _ _ HR) as He.
  assert (Z.to_nat (earliest_not_received rm) = length log) as Ee.
  { destruct (decide (length log <= Z.to_nat (earliest_not_received rm))%nat); [lia|].
    destruct (lookup_lt_is_Some_2 log (Z.to_nat (earliest_not_received rm))) as [x Hx]; [lia|].
    destruct (HRt x Hx). apply Hsub. by apply (Forall_lookup_1 _ _ _ _ Hall Hx). }
  pose proof (rw_contents _ _ _ _ _ HR) as Hacc. pose proof (rw_settled _ _ _ _ _ HR) as Hdisk.
  pose proof (rw_progress _ _ _ _ _ HR) as Hprog. rewrite Ee in Hacc, Hdisk, Hprog.
  rewrite firstn_all in Hacc, Hprog. rewrite Hdata in Hacc. split_and!.
  - done.
  - rewrite Hprog, Hdecl. cbn. rewrite size_ok, log_bytes_data, Hdata. lia.
  - rewrite <- Hacc. apply disk_is_behind.
  - apply prefix_length in Hdisk. rewrite length_app in Hdisk |- *. rewrite <- Hdata.
    pose proof (last_chunk_short _ _ (ti_numbered _ _ _ _ _ _ _ HT)). lia.
Qed.

End Claims.
End EndToEnd.

(** ** A machine in memory

    The state is what is on disk of each file and its last write, by handle; every
    operation succeeds, a write waits for the one before, and the clock stands still. *)

Module MemWorld.

Record world := mk_world { files : gmap Z (list Z); in_flight : gmap Z (list Z); clock : Z }.

Definition mem_disk (h : Z) (w : world) : list Z := default [] (files w !! h).
Definition mem_accepted_bytes (h : Z) (w : world) : list Z := mem_disk h w ++ default [] (in_flight w !! h).

#[export] Instance mem_env : ReceiverEnv world Z unit := {
  instant_now w := (clock w, w);
  unix_epoch_millis w := (Some 1700, w);
  random_draw w := (3, 0, w);
  request_file_drop _ _ w := Ret (Some tt, w);
  create_incoming_file _ w := Ret (true, w);
  request_file_transfer_continuation _ w := Ret (None, w);
  store_received_file _ w := Ret (true, w);
  update_received_file_status _ _ _ w := (true, w);
  get_partial_file_for_writing _ _ w := (Some 1, w);
  remove_partial_file _ _ w := (true, w);
  finalize_partial_file _ _ name w := (Some name, w);
  metadata_len h w := (Some (Z.of_nat (length (mem_accepted_bytes h w))), w);
  write_all h bs w := (true, mk_world (<[h := mem_accepted_bytes h w]> (files w)) (<[h := bs]> (in_flight w)) (clock w));
}.

#[export] Instance mem_sink : SinkLaws world Z unit mem_accepted_bytes mem_disk.
Proof.
  split.
  - intros h bs w w' [= <-]. unfold mem_accepted_bytes at 1, mem_disk. cbn. by rewrite !lookup_insert_eq.
  - intros h bs w w' [= <-] _. unfold mem_disk. cbn. by rewrite lookup_insert_eq.
  - intros h w. by eexists.
Qed.

End MemWorld.
Import MemFile MemWorld.

(** The transfer of [MemFile.demo_start]: the first byte is already there, the
    second chunk arrives before the first, and twice. *)
Definition demo_world : world := mk_world {[1 := [1]]} ∅ 0.
Definition demo_receiver : ReceiveManager Z unit := start_receiver "t" "fr" 5 tt 1 "name" None 1700 [1].

Definition demo_chunk (i : nat) : DataChunk := match demo_log !! i with Some x => x.2 | None => mk_chunk "" [] 0 end.

Definition demo_store (i : nat) (x : ReceiveManager Z unit * world) : ReceiveManager Z unit * world :=
  match store x.1 (demo_chunk i) x.2 with Ret (_, rm, w) => (rm, w) | _ => x end.

Definition demo_received := demo_store 0 (demo_store 1 (demo_store 1 (demo_receiver, demo_world))).
Definition demo_delivered : gset Z := {[101]} ∪ ({[102]} ∪ ({[102]} ∪ ∅)).

Lemma demo_session :
  session pick (accepted := mem_accepted_bytes) (on_disk := mem_disk) demo_start demo_receiver demo_world
    demo_m demo_log demo_acked demo_received.1 demo_received.2 demo_delivered.
Proof.
  eapply ss_ack; [eapply ss_ack; [
    eapply (ss_deliver _ _ _ _ _ _ _ _ _ _ 101 (demo_chunk 0)); [
    eapply (ss_deliver _ _ _ _ _ _ _ _ _ _ 102 (demo_chunk 1)); [
    eapply (ss_deliver _ _ _ _ _ _ _ _ _ _ 102 (demo_chunk 1)); [
    eapply ss_send; [eapply ss_send; [eapply ss_send; [apply ss_start|..]|..]|..]|..]|..]|..]|..]|..].
  all: try (vm_compute; reflexivity); by apply (bool_decide_unpack _); vm_compute.
Qed.

Lemma honest_chunks_accepted_witness :
  exists res rm' w', store demo_received.1 (demo_chunk 0) demo_received.2 = Ret (res, rm', w') /\
    (res = Received \/ res = ResIoError).
Proof.
  apply (honest_chunks_accepted (ID := Z) (F := file) (E := unit) (W := world) (H := Z) (DH := unit)
    (content := fst) (position := snd) (accepted := mem_accepted_bytes) (on_disk := mem_disk) 2 ltac:(lia) pick pick_fresh
    "t" "fr" 5 ([1; 2; 3; 4; 5], 0%nat) (Some 1) tt 1 "name" None 1700 [1] demo_world
    eq_refl demo_seek (conj eq_refl eq_refl) eq_refl eq_refl demo_m demo_log demo_acked demo_received.1 demo_received.2 demo_delivered 101).
  - exact demo_session.
  - by apply (bool_decide_unpack _); vm_compute.
Defined.

Lemma transfer_delivers_file_witness :
  mem_accepted_bytes 1 demo_received.2 = [1] ++ [2; 3; 4; 5] /\
  byte_progress demo_received.1 = declared_file_size_bytes demo_received.1 /\
  mem_disk 1 demo_received.2 `prefix_of` [1] ++ [2; 3; 4; 5] /\
  (length ([1] ++ [2; 3; 4; 5]) <= length (mem_disk 1 demo_received.2) + 2)%nat.
Proof.
  refine (transfer_delivers_file (ID := Z) (F := file) (E := unit) (W := world) (H := Z) (DH := unit)
    (content := fst) (position := snd) (accepted := mem_accepted_bytes) (on_disk := mem_disk) 2 ltac:(lia) pick pick_fresh
    "t" "fr" 5 ([1; 2; 3; 4; 5], 0%nat) (Some 1) tt 1 "name" None 1700 [1] demo_world
    eq_refl demo_seek (conj eq_refl eq_refl) eq_refl eq_refl demo_m demo_log demo_acked demo_received.1 demo_received.2 demo_delivered
    _ _ demo_session _ _).
  - vm_compute. reflexivity.
  - vm_compute. reflexivity.
Defined.

(** The last chunk is not on disk yet, and the receiver confirms that it has all. *)
Example unflushed_tail :
  mem_disk 1 demo_received.2 = [1; 2; 3] /\
  exists files w, respond_to (idle_insert (receiver_new demo_world).1 "peer" demo_received.1 0).2 "peer" None (Done "t") demo_received.2
    = Ret (ConfirmDone, files, w) /\ mem_disk 1 w = [1; 2; 3].
Proof. split; [by vm_compute|]. do 2 eexists. split; vm_compute; reflexivity. Qed.
