(* ===== verification/Receiver.v ===== *)
(** * Properties of the receiver (p2p/src/event_loop/filerequest/receive_manager.rs)

    What [respond_to] guarantees for one peer and between peers. *)

From S2P Require Import Prelude Domain IdleExpiryMap FileReader SendManager ReceiveManager Transfer.

Section Receiver.
Context {W H DH : Type} `{!ReceiverEnv W H DH}.
Implicit Types (files : FilerequestReceiver (H := H) (DH := DH)) (node k : PeerId) (mgr : ReceiveManager H DH) (w : W).

(** The entry of peer [k] is untouched, or it had expired and is gone. *)
Definition keeps_peer k files files' : Prop :=
  idle_ttl files' = idle_ttl files /\
  (entries files' !! k = entries files !! k \/
   entries files' !! k = None /\
   exists e now, entries files !! k = Some e /\ is_expired e (idle_ttl files) now = true).

#[global] Instance keeps_peer_refl k : Reflexive (keeps_peer k).
Proof. intros files. split; [done|by left]. Qed.

#[global] Instance keeps_peer_trans k : Transitive (keeps_peer k).
Proof.
  intros f1 f2 f3 [T1 H1] [T2 H2]. split; [congruence|].
  destruct H2 as [E2|(E2 & e & now & Hl & Hx)].
  - rewrite E2. destruct H1 as [H1|H1]; [by left|by right].
  - destruct H1 as [E1|(E1 & _)]; [|congruence]. right. split; [done|]. exists e, now. by rewrite <- E1, <- T1.
Qed.

Lemma keeps_cleanup k files now : keeps_peer k files (idle_cleanup_if_due files now).
Proof.
  split; [apply idle_cleanup_ttl|]. rewrite idle_cleanup_lookup. destruct (_ <? _); [by left|].
  destruct (entries files !! k) as [e|] eqn:E; [|by left]. destruct (is_expired e _ now) eqn:Ee; [|by left].
  right. split; [done|]. by exists e, now.
Qed.

Lemma keeps_insert k node files e : k <> node -> keeps_peer k files (with_entries files (<[node := e]> (entries files))).
Proof. intros. split; [done|]. left. cbn. by rewrite lookup_insert_ne by congruence. Qed.

Lemma keeps_delete k node files vs :
  k <> node -> keeps_peer k files (log_expired (with_entries files (delete node (entries files))) vs).
Proof. intros. split; [done|]. left. cbn. by rewrite lookup_delete_ne by congruence. Qed.

Lemma keeps_set k node files mgr : k <> node -> keeps_peer k files (idle_set files node mgr).
Proof. intros. split; [done|]. left. cbn. by rewrite lookup_alter_ne by congruence. Qed.

Lemma keeps_entry k node files now : k <> node -> keeps_peer k files (idle_entry files node now).2.
Proof.
  intros. unfold idle_entry. etransitivity; [apply (keeps_cleanup k files now)|].
  repeat case_goal; try done. by apply keeps_delete.
Qed.

Lemma keeps_remove k node files now : k <> node -> keeps_peer k files (idle_remove files node now).2.
Proof. intros. split; [done|]. left. cbn. by rewrite lookup_delete_ne by congruence. Qed.

Lemma keeps_get_mut k node files now : k <> node -> keeps_peer k files (idle_get_mut files node now).2.
Proof.
  intros. unfold idle_get_mut. etransitivity; [apply (keeps_cleanup k files now)|].
  repeat case_goal; try done. by apply keeps_insert.
Qed.

Lemma keeps_occupied_get_mut k node files now : k <> node -> keeps_peer k files (occupied_get_mut files node now).2.
Proof. intros. unfold occupied_get_mut. repeat case_goal; try done. by apply keeps_insert. Qed.

Lemma keeps_entry_insert k node files h mgr now :
  k <> node -> keeps_peer k files (entry_insert h files node mgr now).2.
Proof. intros. destruct h; by apply keeps_insert. Qed.

Lemma keeps_now_remove k node files w o files' w' :
  k <> node -> now_remove files node w = (o, files', w') -> keeps_peer k files files'.
Proof.
  intros Hk E. unfold now_remove in E. destruct (instant_now w) as [now w1].
  injection E as E1 <- <-. by apply (keeps_remove k node files now).
Qed.

Lemma keeps_now_entry k node files w h files' w' :
  k <> node -> now_entry files node w = (h, files', w') -> keeps_peer k files files'.
Proof.
  intros Hk E. unfold now_entry in E. destruct (instant_now w) as [now w1].
  destruct (idle_entry files node now) as [h1 f1] eqn:Er. injection E as <- <- <-.
  change f1 with (h1, f1).2. rewrite <- Er. by apply keeps_entry.
Qed.

Create HintDb keeps_db.
#[local] Hint Resolve keeps_cleanup keeps_insert keeps_delete keeps_set keeps_entry keeps_remove keeps_get_mut
  keeps_occupied_get_mut keeps_entry_insert : keeps_db.

(** Names the intermediate results of a handler and splits on them. *)
Ltac run_handler E :=
  repeat match type of E with
  | outcome_bind _ _ = Ret _ =>
      let x := fresh "x" in let E1 := fresh "Ex" in
      apply outcome_bind_ret in E as [x [E1 E]]; repeat match goal with p : (_ * _)%type |- _ => destruct p end
  | context [match ?x with _ => _ end] => destruct x eqn:?; try discriminate E
  | Ret _ = Ret _ => injection E as E; subst
  end.

(** The state after a step that is known by an equation on its result. *)
Ltac keeps_steps :=
  repeat match goal with
  | Hx : now_entry ?f _ _ = (_, _, _) |- keeps_peer ?k ?f ?f'' =>
      etransitivity; [by apply (keeps_now_entry k _ _ _ _ _ _ ltac:(done) Hx)|]; clear Hx
  | Hx : now_remove ?f _ _ = (_, _, _) |- keeps_peer ?k ?f ?f'' =>
      etransitivity; [by apply (keeps_now_remove k _ _ _ _ _ _ ltac:(done) Hx)|]; clear Hx
  | Hx : idle_get_mut ?f ?n ?t = (_, ?f') |- keeps_peer ?k ?f ?f'' =>
      let HH := fresh in pose proof (keeps_get_mut k n f t ltac:(done)) as HH; rewrite Hx in HH; cbn [snd] in HH;
      etransitivity; [exact HH|]; clear HH Hx
  | Hx : occupied_get_mut ?f ?n ?t = (_, ?f') |- keeps_peer ?k ?f ?f'' =>
      let HH := fresh in pose proof (keeps_occupied_get_mut k n f t ltac:(done)) as HH; rewrite Hx in HH; cbn [snd] in HH;
      etransitivity; [exact HH|]; clear HH Hx
  end.

Lemma new_transfer_keeps k files entry node contact fr name size tid w resp files' w' :
  k <> node -> respond_new_transfer files entry node contact fr name size tid w = Ret (resp, files', w') ->
  keeps_peer k files files'.
Proof. intros Hk E. unfold respond_new_transfer in E. run_handler E; try done; auto with keeps_db. Qed.

Lemma continue_in_memory_keeps k files entry node contact fr tid w o files' w' :
  k <> node -> continue_in_memory files entry node contact fr tid w = (o, files', w') -> keeps_peer k files files'.
Proof.
  intros Hk E. unfold continue_in_memory in E. repeat case_hyp E; simplify_eq; try done; keeps_steps; done.
Qed.

Lemma continue_stored_keeps k files entry node contact fr tid w resp files' w' :
  k <> node -> respond_continue_stored files entry node contact fr tid w = Ret (resp, files', w') ->
  keeps_peer k files files'.
Proof. intros Hk E. unfold respond_continue_stored in E. run_handler E; try done; auto with keeps_db. Qed.

Lemma continue_transfer_keeps k files entry node contact fr tid w resp files' w' :
  k <> node -> respond_continue_transfer files entry node contact fr tid w = Ret (resp, files', w') ->
  keeps_peer k files files'.
Proof.
  intros Hk E. unfold respond_continue_transfer in E.
  destruct (continue_in_memory _ _ _ _ _ _ _) as [[[mgr|] files1] w1] eqn:Em;
    pose proof (continue_in_memory_keeps k _ _ _ _ _ _ _ _ _ _ Hk Em) as HK.
  - injection E as <- <- <-. etransitivity; [done|]. auto with keeps_db.
  - etransitivity; [done|]. by eapply continue_stored_keeps.
Qed.

Lemma abort_keeps k files node contact tid w resp files' w' :
  k <> node -> respond_abort_transfer files node contact tid w = Ret (resp, files', w') -> keeps_peer k files files'.
Proof.
  intros Hk E. unfold respond_abort_transfer in E. run_handler E; keeps_steps; done.
Qed.

Lemma chunk_keeps k files node contact c w resp files' w' :
  k <> node -> respond_chunk files node contact c w = Ret (resp, files', w') -> keeps_peer k files files'.
Proof.
  intros Hk E. unfold respond_chunk in E.
  run_handler E; keeps_steps; try done; [by apply keeps_set|..];
    match goal with Hx : now_remove (idle_set ?f _ ?m) _ _ = _ |- _ => transitivity (idle_set f node m) end;
    try (by apply keeps_set); keeps_steps; done.
Qed.

Lemma done_keeps k files node contact tid w resp files' w' :
  k <> node -> respond_done files node contact tid w = Ret (resp, files', w') -> keeps_peer k files files'.
Proof.
  intros Hk E. unfold respond_done in E.
  run_handler E; keeps_steps; try done; by apply keeps_delete.
Qed.

(** Peers do not interfere: a request of one peer leaves the transfer of every
    other peer exactly as it was, except that a transfer that had expired may be
    dropped. *)
Theorem peers_are_isolated k node files contact request w resp files' w' :
  k <> node -> respond_to files node contact request w = Ret (resp, files', w') -> keeps_peer k files files'.
Proof.
  intros Hk E. unfold respond_to in E.
  destruct (now_entry files node w) as [[entry files1] w1] eqn:Er. keeps_steps. destruct request.
  - by eapply new_transfer_keeps.
  - by eapply continue_transfer_keeps.
  - by eapply abort_keeps.
  - by eapply chunk_keeps.
  - by eapply done_keeps.
  - run_handler E. keeps_steps. done.
Qed.

(** A manager at the start of a transfer of [size] bytes from [offset] on. *)
Definition at_start mgr (offset : Z) : Prop :=
  earliest_not_received mgr = 0 /\ Forall (fun s => s = None) (r_chunks_in_flight mgr) /\ byte_progress mgr = offset.

Definition belongs_to mgr (contact : option ContactId) (fr tid : FylesId) : Prop :=
  r_contact_id mgr = contact /\ r_filerequest_id mgr = fr /\ r_transfer_id mgr = tid.

Lemma at_start_new dh h size name tid fr contact started :
  at_start (rm_new dh h size name tid fr contact started : ReceiveManager H DH) 0.
Proof. split_and!; [done| |done]. by apply Forall_replicate. Qed.

Lemma new_transfer_accepted files entry node contact fr name size tid w files' w' :
  respond_new_transfer files entry node contact fr name size tid w = Ret (AcceptNewTransfer, files', w') ->
  (exists mgr t, entries files' !! node = Some (mk_timed mgr t) /\ belongs_to mgr contact fr tid /\ at_start mgr 0 /\
     declared_file_size_bytes mgr = size) /\
  exists dh w1, request_file_drop fr contact w = Ret (Some dh, w1).
Proof.
  intros E. unfold respond_new_transfer in E. run_handler E. split; [|eauto].
  destruct entry; cbn; rewrite lookup_insert_eq; repeat eexists; apply at_start_new.
Qed.

Lemma entry_insert_lookup (h : IdleEntry) files node mgr now :
  entries (entry_insert h files node mgr now).2 !! node = Some (mk_timed mgr now).
Proof. destruct h; apply lookup_insert_eq. Qed.

Lemma reset_at_start mgr : at_start (rm_reset mgr) (byte_progress mgr).
Proof. split_and!; [done| |done]. cbn. apply Forall_fmap, Forall_forall. by intros. Qed.

Lemma continue_in_memory_some files entry node contact fr tid w mgr files' w' :
  continue_in_memory files entry node contact fr tid w = (Some mgr, files', w') ->
  belongs_to mgr contact fr tid /\ (exists t, entries files' !! node = Some (mk_timed mgr t)) /\
  exists t, entries files !! node = Some (mk_timed mgr t).
Proof.
  intros E. unfold continue_in_memory in E. destruct entry; [|done]. destruct (instant_now w) as [now w1].
  unfold occupied_get_mut in E. destruct (entries files !! node) as [[v t]|] eqn:El; [|done].
  destruct (_ <? _) in E; [|done]. cbn [te_value] in E. destruct (_ && _) eqn:Eb in E; [|done].
  injection E as <- <- <-. bools. split; [done|]. split; [|by exists t]. exists now. apply lookup_insert_eq.
Qed.

(** Only the clock was read between the two states of the surroundings. *)
Definition clock_reads : W -> W -> Prop := rtc (fun w w' => w' = (instant_now w).2).

Lemma now_entry_reads files node w : clock_reads w (now_entry files node w).2.
Proof.
  apply rtc_once. unfold now_entry. destruct (instant_now w) as [now w1]. by destruct (idle_entry files node now).
Qed.

Lemma continue_in_memory_reads files entry node contact fr tid w :
  clock_reads w (continue_in_memory files entry node contact fr tid w).2.
Proof.
  unfold continue_in_memory. destruct entry; [|apply rtc_refl]. apply rtc_once. destruct (instant_now w) as [now w1].
  by repeat case_goal.
Qed.

(** What acceptance presupposes. *)
Lemma acceptance_presupposes files node contact request w resp files' w' fr tid offset :
  respond_to files node contact request w = Ret (resp, files', w') ->
  (exists name size, request = NewTransfer fr name size tid /\ resp = AcceptNewTransfer /\ offset = 0) \/
  (request = ContinueTransfer fr tid /\ resp = AcceptContinueTransfer offset) ->
  (exists mgr t, entries files' !! node = Some (mk_timed mgr t) /\ belongs_to mgr contact fr tid /\ at_start mgr offset) /\
  ((exists w1 dh w2, clock_reads w w1 /\ request_file_drop fr contact w1 = Ret (Some dh, w2)) \/
   (exists w1 a w2, clock_reads w w1 /\
      request_file_transfer_continuation (mk_continue_request fr contact node tid) w1 = Ret (Some a, w2)) \/
   (exists mgr t, entries (now_entry files node w).1.2 !! node = Some (mk_timed mgr t) /\ belongs_to mgr contact fr tid)).
Proof.
  intros E Hreq. unfold respond_to in E. pose proof (now_entry_reads files node w) as Hc.
  destruct (now_entry files node w) as [[entry files1] w1].
  destruct Hreq as [(name & size & -> & -> & ->)|[-> ->]].
  - apply new_transfer_accepted in E as [(mgr & t & ? & ? & ? & _) (dh & w2 & Ed)]. split; [eauto 10|left; eauto].
  - unfold respond_continue_transfer in E. pose proof (continue_in_memory_reads files1 entry node contact fr tid w1) as Hc'.
    destruct (continue_in_memory _ _ _ _ _ _ _) as [[[mgr|] files2] w2] eqn:Em.
    + apply continue_in_memory_some in Em as (Hb & [t Ht] & [t0 Ht0]). injection E as <- <- <-. split.
      * exists (rm_reset mgr), t. split_and!; [|done|apply reset_at_start]. cbn. by rewrite lookup_alter_eq, Ht.
      * right; right. by exists mgr, t0.
    + unfold respond_continue_stored in E. run_handler E. split; [|right; left; do 3 eexists; split; [by etransitivity|done]].
      rewrite entry_insert_lookup. repeat eexists. cbn. repeat constructor.
Qed.

(** Acceptance: when the receiver accepts a transfer, new or continued, the
    peer's manager belongs to exactly this contact, filerequest and transfer, its
    window is empty, and its progress is the announced offset (zero for a new
    transfer). It accepts only if the brain, asked at this very moment, allowed it
    for this contact, or if the same contact already had this transfer in memory. *)
Theorem accepted_transfer_is_authorized files node contact request w resp files' w' fr tid offset :
  respond_to files node contact request w = Ret (resp, files', w') ->
  (exists name size, request = NewTransfer fr name size tid /\ resp = AcceptNewTransfer /\ offset = 0) \/
  (request = ContinueTransfer fr tid /\ resp = AcceptContinueTransfer offset) ->
  (exists mgr t, entries files' !! node = Some (mk_timed mgr t) /\ belongs_to mgr contact fr tid /\ at_start mgr offset) /\
  ((exists w1 dh w2, clock_reads w w1 /\ request_file_drop fr contact w1 = Ret (Some dh, w2)) \/
   (exists w1 a w2, clock_reads w w1 /\
      request_file_transfer_continuation (mk_continue_request fr contact node tid) w1 = Ret (Some a, w2)) \/
   (exists mgr t, entries (now_entry files node w).1.2 !! node = Some (mk_timed mgr t) /\ belongs_to mgr contact fr tid)).
Proof. apply acceptance_presupposes. Qed.

(** C11 A chunk sent by somebody other than the contact the transfer was accepted
    for, or for another transfer, is never stored: the transfer is dropped, and
    the receiver has done nothing to its surroundings but read the clock and draw
    a random number. *)
Theorem foreign_chunk_never_stored (P : W -> Prop) files node contact c w resp files' w' mgr :
  (forall w, P w -> P (instant_now w).2) -> (forall w, P w -> P (random_draw w).2) -> P w ->
  (let '(_, files1, w1) := now_entry files node w in
   (idle_get_mut files1 node (instant_now w1).1).1 = Some mgr) ->
  r_contact_id mgr <> contact \/ r_transfer_id mgr <> ck_transfer_uuid c ->
  respond_to files node contact (Chunk c) w = Ret (resp, files', w') ->
  entries files' !! node = None /\ P w'.
Proof.
  intros Hclock Hrand HP Hm Hne E. unfold respond_to in E.
  assert (P (now_entry files node w).2) as HP1.
  { unfold now_entry. specialize (Hclock w HP). by destruct (instant_now w). }
  destruct (now_entry files node w) as [[entry files1] w1]. cbn [snd] in HP1. unfold respond_chunk in E.
  pose proof (Hclock w1 HP1) as HP2. destruct (instant_now w1) as [now w2]. cbn [fst snd] in *.
  destruct (idle_get_mut files1 node now) as [o files2]. cbn [fst] in Hm. subst o.
  assert (forall o files3 w3, now_remove files2 node w2 = (o, files3, w3) -> entries files3 !! node = None /\ P w3) as HR.
  { intros o files3 w3 Er. unfold now_remove in Er. pose proof (Hclock w2 HP2) as HP3.
    destruct (instant_now w2) as [now' w4]. injection Er as _ <- <-. split; [apply lookup_delete_eq|done]. }
  destruct (now_remove files2 node w2) as [[o files3] w3] eqn:Er. destruct (HR o files3 w3 eq_refl) as [HN HP3].
  destruct (bool_decide (ck_transfer_uuid c = r_transfer_id mgr)) eqn:Eb; cbn [negb] in E.
  - destruct (bool_decide (contact = r_contact_id mgr)) eqn:Ec; cbn [negb] in E; [bools; naive_solver congruence|].
    pose proof (Hrand w3 HP3) as HP4. destruct (random_draw w3) as [[d o'] w4]. by injection E as <- <- <-.
  - by injection E as <- <- <-.
Qed.

(** C25 Completion: the receiver confirms the end of a transfer only if the peer's
    manager is the one of that transfer, all declared bytes were written, the part
    file was given its final name and the brain recorded the file. *)
Theorem done_confirmed_only_when_complete files node contact tid w files' w' :
  respond_to files node contact (Done tid) w = Ret (ConfirmDone, files', w') ->
  exists mgr t, entries files' !! node = Some (mk_timed mgr t) /\
    r_transfer_id mgr = tid /\ byte_progress mgr = declared_file_size_bytes mgr /\
    (exists w1 path w2, finalize_partial_file (drive_handler mgr)
       (get_part_file_name (started_at_ms mgr) tid node contact) (r_file_name mgr) w1 = (Some path, w2) /\
     exists w3 at_ms, store_received_file (mk_complete_received tid path at_ms) w3 = Ret (true, w')).
Proof.
  intros E. unfold respond_to in E. destruct (now_entry files node w) as [[entry files1] w1].
  unfold respond_done in E. destruct (now_entry files1 node w1) as [[[] files2] w2]; [|done].
  destruct (instant_now w2) as [now w3]. unfold occupied_get_mut in E.
  destruct (entries files2 !! node) as [[mgr t]|] eqn:El; [|done]. destruct (_ <? _) in E; [|done].
  cbn [te_value] in E. destruct (bool_decide _) eqn:Eb in E; [|done]. cbn [negb] in E.
  destruct (byte_progress mgr =? _) eqn:Ep in E; [|done]. cbn [negb] in E. bools.
  destruct (finalize_partial_file _ _ _ w3) as [[path|] w4] eqn:Ef in E; [|done].
  destruct (unix_epoch_millis w4) as [[at_ms|] w5] eqn:Em in E; [|done].
  apply outcome_bind_ret in E as [[stored w6] [Es E]]. destruct stored; [|done]. injection E as <- <-. subst tid.
  exists mgr, now. split_and!; [apply lookup_insert_eq|done|done|]. exists w3, path, w4. split; [done|]. by exists w5, at_ms.
Qed.

End Receiver.

(** ** Sample run *)
Import MemWorld.

Definition mem_receiver : FilerequestReceiver (H := Z) (DH := unit) := (receiver_new demo_world).1.

Definition mem_respond (files : FilerequestReceiver (H := Z) (DH := unit)) node contact request :=
  match respond_to files node contact request demo_world with Ret (_, files, _) => files | _ => files end.

Definition mem_accepted := mem_respond mem_receiver "peer" (Some "alice"%string) (NewTransfer "fr" "name" 0 "t").

Lemma peers_are_isolated_witness : keeps_peer "other" mem_accepted (mem_respond mem_accepted "peer" None (Done "x")).
Proof.
  apply (peers_are_isolated "other" "peer" mem_accepted None (Done "x") demo_world ProtocolViolation _ demo_world).
  - done.
  - vm_compute. reflexivity.
Defined.

Lemma accepted_transfer_is_authorized_witness :
  exists mgr t, entries mem_accepted !! ("peer" : PeerId) = Some (mk_timed mgr t) /\
    belongs_to mgr (Some "alice"%string) "fr" "t" /\ at_start mgr 0.
Proof.
  refine (proj1 (accepted_transfer_is_authorized mem_receiver "peer" (Some "alice"%string) (NewTransfer "fr" "name" 0 "t")
    demo_world AcceptNewTransfer mem_accepted demo_world "fr" "t" 0 _ _)).
  - vm_compute. reflexivity.
  - left. by exists "name"%string, 0.
Defined.

Lemma foreign_chunk_never_stored_witness :
  let files' := mem_respond mem_accepted "peer" (Some "mallory"%string) (Chunk (mk_chunk "t" [1] 0)) in
  entries files' !! ("peer" : PeerId) = None /\ demo_world = demo_world.
Proof.
  refine (foreign_chunk_never_stored (fun w => w = demo_world) mem_accepted "peer" (Some "mallory"%string)
    (mk_chunk "t" [1] 0) demo_world (random_response 3 0) _ demo_world
    (rm_new tt 1 0 "name" "t" "fr" (Some "alice"%string) 1700) _ _ _ _ _ _).
  - by intros w ->.
  - by intros w ->.
  - reflexivity.
  - vm_compute. reflexivity.
  - by left.
  - vm_compute. reflexivity.
Defined.

Lemma done_confirmed_only_when_complete_witness :
  exists mgr t, entries (mem_respond mem_accepted "peer" (Some "alice"%string) (Done "t")) !! ("peer" : PeerId) = Some (mk_timed mgr t) /\
    r_transfer_id mgr = "t"%string /\ byte_progress mgr = declared_file_size_bytes mgr /\
    (exists w1 path w2, finalize_partial_file (drive_handler mgr)
       (get_part_file_name (started_at_ms mgr) "t" "peer" (Some "alice"%string)) (r_file_name mgr) w1 = (Some path, w2) /\
     exists w3 at_ms, store_received_file (mk_complete_received "t" path at_ms) w3 = Ret (true, demo_world)).
Proof.
  apply (done_confirmed_only_when_complete mem_accepted "peer" (Some "alice"%string) "t" demo_world).
  vm_compute. reflexivity.
Defined.

(** The manager of a confirmed transfer stays in the map until it expires. *)
Lemma confirmed_manager_stays :
  respond_to mem_accepted "peer" (Some "alice"%string) (Done "t") demo_world = Ret (ConfirmDone, mem_accepted, demo_world) /\
  is_Some (entries mem_accepted !! ("peer" : PeerId)).
Proof. split; [by vm_compute|]. vm_compute. by eexists. Qed.
