(* ===== verification/FileTracker.v ===== *)
(** * The file tracker (p2p/src/event_loop/filerequest/file_tracker.rs)

    The tracker keeps, per peer, the queue of pending files and the file being
    sent, and moves them through their states as responses and errors arrive.

    The tracker's code runs in a state monad: [files] is the map under the
    [RwLock], [lock] says whether the running task holds its write guard, [trace]
    records, newest first, what the tracker does to its surroundings and [world]
    is the state of the network, the brain and the plugin, reached through the
    class [TrackerEnv]. A task that asks for the lock while it holds it waits for
    itself: the outcome is [Deadlock]. The plugin has a mutex of its own, which the
    tracker holds only for a call: a call is one step. Tracing spans are left out. *)

From S2P Require Import Prelude Domain FileReader SendManager.

(** [NetworkNodeAction]: the messages the tracker sends to the brain. *)
Inductive NetworkNodeAction (E : Type) :=
| FileSending (pending_file_id : FylesId) (status : SendStatus)
| FileSendReset (pending_file_id : FylesId) (status : SendStatus) (retry_count : option Z) (reason : option string)
| FileSent (pending_file_id : FylesId)
| FileRejected (pending_file_id : FylesId)
| FileFailed (pending_file_id : FylesId)
| FileMissing (pending_file_id : FylesId)
| FileIoError (file : FylesId) (error : E).
Arguments FileSending {E}.
Arguments FileSendReset {E}.
Arguments FileSent {E}.
Arguments FileRejected {E}.
Arguments FileFailed {E}.
Arguments FileMissing {E}.
Arguments FileIoError {E}.

(** [enum FileOutcome] *)
Inductive FileOutcome (E : Type) :=
| OutcomeSent
| OutcomeFailed
| OutcomeMissing
| OutcomeRejected
| OutcomeIoError (e : E).
Arguments OutcomeSent {E}.
Arguments OutcomeFailed {E}.
Arguments OutcomeMissing {E}.
Arguments OutcomeRejected {E}.
Arguments OutcomeIoError {E}.

(** [enum ContactVerificationResult] *)
Inductive ContactVerificationResult :=
| Verified
| ContactIsUnknown
| VerificationFailed
| VerificationInternalError.

#[export] Instance ContactVerificationResult_eq_dec : EqDecision ContactVerificationResult.
Proof. solve_decision. Defined.

(** [OutboundFailure] of libp2p, [LocalReceiveError] and [ReceiveError]
    (session_send_receive.rs); [debug] is the text of the error in messages. *)
Inductive OutboundFailure :=
| DialFailure
| OutTimeout
| OutIo
| ConnectionClosed
| UnsupportedProtocols.

Inductive LocalReceiveError :=
| LTimeout
| LTransportError (e : OutboundFailure) (debug : string)
| LMissingSession (debug : string)
| LDecryptError (debug : string)
| LResendError (debug : string).

Inductive ReceiveError :=
| RemoteError (debug : string)
| LocalError (e : LocalReceiveError).

(** The calls of [FileTrackerPlugin]. *)
Inductive plugin_call :=
| PendingFileAdded (peer : PeerId) (after_reset : bool)
| PendingFileRemoved (peer : PeerId) (has_pending_files has_sending_files : bool)
| OutgoingConnectionError (peer : PeerId)
| NonCorrelatableError (peer : PeerId)
| OnSendFile (peer : PeerId)
| InterruptSending (peer : PeerId)
| DoneSending (peer : PeerId).

(** What the tracker does. [EvChunk] is the sending of a chunk for a transfer to
    [target] in a response of the contact [connected]. *)
Inductive event (E : Type) :=
| EvNotify (a : NetworkNodeAction E)
| EvSend (peer : PeerId) (contact : option ContactId) (request : FileRequest) (sent : bool)
| EvChunk (peer : PeerId) (connected : option ContactId) (target : ContactId) (chunk : DataChunk) (sent : bool)
| EvContactKnown (contact : ContactId) (answer : option bool)
| EvPlugin (c : plugin_call).
Arguments EvNotify {E}.
Arguments EvSend {E}.
Arguments EvChunk {E}.
Arguments EvContactKnown {E}.
Arguments EvPlugin {E}.

(** The surroundings of the tracker. Requests to the brain panic when the brain is
    gone; [notify_brain] says whether the brain could be reached. *)
Class TrackerEnv (W F E : Type) := {
  tracker_send : PeerId -> option ContactId -> FileRequest -> W -> option Z * W;
  tracker_send_idempotent : PeerId -> option ContactId -> FileRequest -> W -> option Z * W;
  is_contact_known : ContactId -> W -> outcome (result bool string * W);
  open_file_for_reading : string -> FylesId -> Z -> W -> outcome (option (F * string) * W);
  file_metadata_len : F -> W -> option Z * W;
  new_fyles_id : W -> FylesId * W;
  notify_brain : NetworkNodeAction E -> W -> bool * W;
  call_plugin : plugin_call -> W -> W;
}.

Abbreviation Locked F E := (LockedSendData Z F E).

Section Tracker.
Context {W F E : Type} `{!AsyncFile F E} `{!TrackerEnv W F E} (chunk_size : nat).


(** [struct PeerFiles] *)
Record PeerFiles := mk_peer_files {
  pf_pending : list PendingFile;
  pf_sending : option (Locked F E);
}.

(** [struct CoreFileTracker] and its surroundings. *)
Record tracker := mk_tracker {
  files : gmap PeerId PeerFiles;
  lock : bool;
  trace : list (event E);
  world : W;
}.

(** ** The monad *)

Definition M (A : Type) : Type := tracker -> outcome (A * tracker).

Definition ret {A} (a : A) : M A := fun s => Ret (a, s).

Definition bind {A B} (m : M A) (f : A -> M B) : M B :=
  fun s => let? x := m s in f x.1 x.2.

Definition modify_files (f : gmap PeerId PeerFiles -> gmap PeerId PeerFiles) : M unit :=
  fun s => Ret (tt, mk_tracker (f (files s)) (lock s) (trace s) (world s)).

Definition log_event (e : event E) (s : tracker) : tracker :=
  mk_tracker (files s) (lock s) (e :: trace s) (world s).

Definition set_world (s : tracker) (w : W) : tracker := mk_tracker (files s) (lock s) (trace s) w.
Definition set_lock (s : tracker) (b : bool) : tracker := mk_tracker (files s) b (trace s) (world s).

(** A critical section: [self.files.write().await], the code, and the drop of the
    guard. *)
Definition locked {A} (m : M A) : M A :=
  fun s => if lock s then Deadlock
           else let? x := m (set_lock s true) in Ret (x.1, set_lock x.2 false).

Definition lookup_peer (peer : PeerId) : M (option PeerFiles) := fun s => Ret (files s !! peer, s).
Definition set_peer (peer : PeerId) (p : PeerFiles) : M unit := modify_files (fun m => <[peer := p]> m).
Definition remove_peer (peer : PeerId) : M unit := modify_files (fun m => delete peer m).

End Tracker.

Arguments PeerFiles : clear implicits.
Arguments tracker : clear implicits.
Arguments M : clear implicits.

Notation "'let!' x ':=' m 'in' k" := (bind m (fun x => k))
  (at level 10, x pattern, m at level 100, k at level 200) : fyles_scope.
Notation "'do!' m 'in' k" := (bind m (fun _ => k))
  (at level 10, m at level 100, k at level 200) : fyles_scope.

Section Operations.
Context {W F E : Type} `{!AsyncFile F E} `{!TrackerEnv W F E} (chunk_size : nat).
Abbreviation M := (M W F E).
Abbreviation PeerFiles := (PeerFiles F E).
Abbreviation Locked := (Locked F E).
Implicit Types (node peer : PeerId) (p : PeerFiles).

(** ** Calls to the surroundings *)

(** [(self.send)(..)] and [send_instrumented] *)
Definition send node (contact : option ContactId) (request : FileRequest) : M (option Z) :=
  fun s => let (r, w) := tracker_send node contact request (world s) in
           Ret (r, log_event (EvSend node contact request (bool_decide (is_Some r))) (set_world s w)).

(** [send_idempotent_instrumented] of a chunk, as the callback of [send_next_chunk]. *)
Definition send_idempotent node (connected : option ContactId) (target : ContactId) (chunk : DataChunk)
  (s : tracker W F E) : option Z * tracker W F E :=
  let (r, w) := tracker_send_idempotent node (Some target) (Chunk chunk) (world s) in
  (r, log_event (EvChunk node connected target chunk (bool_decide (is_Some r))) (set_world s w)).

(** [let _ = self.brain_action_sender.send(..)] *)
Definition notify (a : NetworkNodeAction E) : M unit :=
  fun s => let (_, w) := notify_brain a (world s) in Ret (tt, log_event (EvNotify a) (set_world s w)).

(** [self.brain_action_sender.send(..).expect("Sending to work")] *)
Definition notify_expect (a : NetworkNodeAction E) : M unit :=
  fun s => let (ok, w) := notify_brain a (world s) in
           if (ok : bool) then Ret (tt, log_event (EvNotify a) (set_world s w)) else Panic.

Definition plugin (c : plugin_call) : M unit :=
  fun s => Ret (tt, log_event (EvPlugin c) (set_world s (call_plugin c (world s)))).

Definition ask_contact_known (c : ContactId) : M (result bool string) :=
  fun s => let? x := is_contact_known c (world s) in
           Ret (x.1, log_event (EvContactKnown c (result_ok x.1)) (set_world s x.2)).

Definition open_file (f : PendingFile) (offset : Z) : M (option (F * string)) :=
  fun s => let? x := open_file_for_reading (pf_file_path f) (pf_id f) offset (world s) in
           Ret (x.1, set_world s x.2).

Definition metadata (file : F) : M (option Z) :=
  fun s => let (r, w) := file_metadata_len file (world s) in Ret (r, set_world s w).

Definition fresh_id : M FylesId :=
  fun s => let (r, w) := new_fyles_id (world s) in Ret (r, set_world s w).

(** ** [CoreFileTrackerRef]: the caller holds the lock *)

Definition outcome_action (file_id : FylesId) (o : FileOutcome E) : NetworkNodeAction E :=
  match o with
  | OutcomeSent => FileSent file_id
  | OutcomeFailed => FileFailed file_id
  | OutcomeMissing => FileMissing file_id
  | OutcomeRejected => FileRejected file_id
  | OutcomeIoError e => FileIoError file_id e
  end.

(** The end of [send_next] after a request was sent. *)
Definition announce_sending node (f : PendingFile) : M unit :=
  do! match pf_status f with
      | SInProgress (mk_in_progress Prepared _) | SInProgress (mk_in_progress PendingSent _) => ret tt
      | _ => notify_expect (FileSending (pf_id f) (pf_status f))
      end in
  plugin (OnSendFile node).

(** The match on the status of the file that was popped; [next] is the recursive
    call for the rest of the queue. *)
Definition start_transfer node (next_to_send : PendingFile) (rest : list PendingFile) (sending : option Locked)
  (file : F) (file_name : string) (file_size_bytes : Z) (next : M unit) : M unit :=
  match pf_status next_to_send with
  | SPending =>
      let! transfer_uuid := fresh_id in
      let! sent := send node (Some (pf_contact_id next_to_send))
                     (NewTransfer (pf_target_filerequest_id next_to_send) file_name file_size_bytes transfer_uuid) in
      match sent with
      | Some _ =>
          let f := pf_with_status next_to_send
                     (SInProgress (mk_in_progress Prepared (mk_transfer_data 0 file_size_bytes transfer_uuid))) in
          do! set_peer node (mk_peer_files rest (Some (locked_new chunk_size f transfer_uuid file_size_bytes file))) in
          announce_sending node f
      | None => set_peer node (mk_peer_files (next_to_send :: rest) sending)
      end
  | SInProgress (mk_in_progress Interrupted td) =>
      let! sent := send node (Some (pf_contact_id next_to_send))
                     (ContinueTransfer (pf_target_filerequest_id next_to_send) (transfer_id td)) in
      do! match sent with
          | Some _ =>
              let sd := locked_new chunk_size next_to_send (transfer_id td) file_size_bytes file in
              let sd := mk_locked (send_manager sd)
                          (pf_with_status (pending_file sd) (SInProgress (mk_in_progress Prepared td)))
                          (must_verify_contact_id sd) in
              set_peer node (mk_peer_files rest (Some sd))
          | None => ret tt
          end in
      announce_sending node next_to_send
  | _ =>
      do! notify_expect (FileFailed (pf_id next_to_send)) in
      next
  end.

(** [send_next], by recursion on the queue: every recursive call comes after a
    file was taken from it. [complete_file] is inlined where [send_next] calls it. *)
Fixpoint send_next_from node (pending : list PendingFile) (sending : option Locked) : M unit :=
  match pending with
  | [] =>
      do! remove_peer node in
      plugin (DoneSending node)
  | next_to_send :: rest =>
      do! set_peer node (mk_peer_files rest sending) in
      match (match pf_status next_to_send with
             | SPending => Some 0
             | SInProgress ip => Some (progress_bytes (transfer_data ip))
             | _ => None
             end) with
      | None =>
          do! notify (outcome_action (pf_id next_to_send) OutcomeFailed) in
          send_next_from node rest sending
      | Some progress =>
          let! opened := open_file next_to_send progress in
          match opened with
          | None =>
              do! notify_expect (FileMissing (pf_id next_to_send)) in
              send_next_from node rest sending
          | Some (file, file_name) =>
              let! size := metadata file in
              match size with
              | None =>
                  do! notify_expect (FileMissing (pf_id next_to_send)) in
                  send_next_from node rest sending
              | Some file_size_bytes =>
                  start_transfer node next_to_send rest sending file file_name file_size_bytes
                    (send_next_from node rest sending)
              end
          end
      end
  end.

(** [send_next] on the occupied entry of [node]. *)
Definition send_next node p : M unit := send_next_from node (pf_pending p) (pf_sending p).

(** [complete_file] *)
Definition complete_file node p (file_id : FylesId) (o : FileOutcome E) : M unit :=
  do! notify (outcome_action file_id o) in
  send_next node p.

Definition compute_reset_status (sending : Locked) : SendStatus :=
  match pf_status (pending_file sending) with
  | SInProgress (mk_in_progress Prepared td) =>
      if 0 <? progress_bytes td then SInProgress (mk_in_progress Interrupted td) else SPending
  | SInProgress (mk_in_progress _ td) => SInProgress (mk_in_progress Interrupted td)
  | _ => SPending
  end.

Definition reset_and_stop node p (sending : Locked) (reason : string) : M unit :=
  let f := pf_with_status (pending_file sending) (compute_reset_status sending) in
  do! notify (FileSendReset (pf_id f) (pf_status f) (Some (pf_retry_count f)) (Some reason)) in
  do! set_peer node (mk_peer_files (pf_pending p ++ [f]) (pf_sending p)) in
  do! plugin (InterruptSending node) in
  plugin (PendingFileAdded node true).

Definition max_allowed_failures (sending : Locked) : Z := 1 + get_file_size_bytes sending / 1000000000.

Definition reset_and_retry node p (sending : Locked) (reason : string) : M unit :=
  if max_allowed_failures sending <? pf_retry_count (pending_file sending)
  then complete_file node p (pf_id (pending_file sending)) OutcomeFailed
  else reset_and_stop node p sending reason.

(** [sending.take()] on the entry. *)
Definition take_sending node p : M (option Locked) :=
  do! set_peer node (mk_peer_files (pf_pending p) None) in ret (pf_sending p).

Definition reset_all_with_occupied node p : M (option ContactId) :=
  match pf_sending p with
  | None => ret None
  | Some sending =>
      do! set_peer node (mk_peer_files (pf_pending p) None) in
      do! reset_and_stop node (mk_peer_files (pf_pending p) None) sending "Peer disconnected while sending" in
      ret (Some (pf_contact_id (pending_file sending)))
  end.

(** [reset_all] on [files.entry(node)] *)
Definition reset_all node : M (option ContactId) :=
  let! entry := lookup_peer node in
  match entry with
  | Some p => reset_all_with_occupied node p
  | None => ret None
  end.

(** [sending.pending_file.retry_count += 1] *)
Definition increase_retry (sending : Locked) : Locked :=
  mk_locked (send_manager sending)
    (pf_with_retry_count (pending_file sending) (wrap64 (pf_retry_count (pending_file sending) + 1)))
    (must_verify_contact_id sending).

(** ** [CoreFileTracker]: functions that take the lock *)

Definition reset_all_on_internal_error_for_entry node : M unit :=
  let! entry := lookup_peer node in
  let! ids :=
    match entry with
    | Some (mk_peer_files pending (Some sending)) =>
        let sending := increase_retry sending in
        do! set_peer node (mk_peer_files pending (Some sending)) in
        ret (Some (get_transfer_id sending), Some (pf_contact_id (pending_file sending)))
    | _ => ret (None, None)
    end in
  do! reset_all node in
  do! send node ids.2 (AbortTransfer ids.1) in
  ret tt.

Definition reset_all_on_internal_error_for node : M unit :=
  locked (reset_all_on_internal_error_for_entry node).

Definition reset_all_on_protocol_violation_for node : M unit :=
  locked (
    let! entry := lookup_peer node in
    do! match entry with
        | Some (mk_peer_files pending (Some sending)) => set_peer node (mk_peer_files pending (Some (increase_retry sending)))
        | _ => ret tt
        end in
    let! contact_id := reset_all node in
    do! send node contact_id (ReqProtocolViolation None) in
    ret tt).

Definition verify_target_contact_id node (target : ContactId) (connected : option ContactId)
  : M ContactVerificationResult :=
  let! known := ask_contact_known target in
  match known with
  | Err _ =>
      do! reset_all_on_internal_error_for node in
      ret VerificationInternalError
  | Ok true =>
      if match connected with Some id => bool_decide (id = target) | None => false end
      then ret Verified else ret VerificationFailed
  | Ok false => ret ContactIsUnknown
  end.

Definition has_pending_files_for node : M bool :=
  locked (let! entry := lookup_peer node in
          ret match entry with Some p => negb (bool_decide (pf_pending p = [])) | None => false end).

Definition has_sending_files_for node : M bool :=
  locked (let! entry := lookup_peer node in
          ret match entry with Some p => bool_decide (is_Some (pf_sending p)) | None => false end).

Definition get_peers_with_pending_files : M (list PeerId) :=
  locked (fun s => Ret ((map_to_list (files s)).*1, s)).

End Operations.

Section Handlers.
Context {W F E : Type} `{!AsyncFile F E} `{!TrackerEnv W F E} (chunk_size : nat).
Abbreviation M := (M W F E).
Abbreviation PeerFiles := (PeerFiles F E).
Abbreviation Locked := (Locked F E).
Implicit Types (node peer : PeerId) (p : PeerFiles) (connected : option ContactId).

(** What a critical section leaves to do after the guard is dropped. *)
Inductive after :=
| AReturn
| AProtocolViolation
| AInternalError
| ASendChunks.

(** ** Sending chunks *)

(** What one turn of [send_chunks_loop] leaves to do after its guard is dropped. *)
Inductive turn :=
| TContinue
| TBreak
| TInterrupted (pending_file_id : FylesId) (status : SendStatus).

Definition set_status (sd : Locked) (st : SendStatus) : Locked :=
  mk_locked (send_manager sd) (pf_with_status (pending_file sd) st) (must_verify_contact_id sd).

(** The arm [SendRes::Done]. *)
Definition chunks_done node (pending : list PendingFile) (sd : Locked) : M unit :=
  let f := pending_file sd in
  let! sent := send node (Some (pf_contact_id f)) (Done (sm_transfer_id (send_manager sd))) in
  match sent with
  | Some _ =>
      match pf_status f with
      | SInProgress (mk_in_progress Sending td) =>
          set_peer node (mk_peer_files pending (Some (set_status sd (SInProgress (mk_in_progress PendingSent td)))))
      | _ => ret tt
      end
  | None =>
      match status_transfer_data (pf_status f) with
      | None => ret tt
      | Some _ =>
          do! reset_all_with_occupied node (mk_peer_files pending (Some sd)) in
          ret tt
      end
  end.

(** The arm [SendRes::IoError]. *)
Definition chunks_io_error node (pending : list PendingFile) (sd : Locked) (e : E) : M unit :=
  let f := pending_file sd in
  do! set_peer node (mk_peer_files pending None) in
  do! send node (Some (pf_contact_id f)) (AbortTransfer (Some (sm_transfer_id (send_manager sd)))) in
  complete_file chunk_size node (mk_peer_files pending None) (pf_id f) (OutcomeIoError e).

(** The arm [SendRes::Interrupt]. *)
Definition chunks_interrupt node (pending : list PendingFile) (sd : Locked) : M turn :=
  let f := pending_file sd in
  match status_transfer_data (pf_status f) with
  | None => ret TBreak
  | Some td =>
      let st := SInProgress (mk_in_progress Interrupted td) in
      do! set_peer node (mk_peer_files (pending ++ [pf_with_status f st]) None) in
      ret (TInterrupted (pf_id f) st)
  end.

(** One turn of the loop, with the lock. *)
Definition send_chunks_turn node connected : M turn :=
  let! entry := lookup_peer node in
  match entry with
  | Some (mk_peer_files pending (Some sd)) =>
      match unlock_mut sd connected with
      | None => ret TBreak
      | Some (manager, f) =>
          fun s =>
            let? (res, manager, s) := send_next_chunk (send_idempotent node connected (pf_contact_id f)) manager s in
            let sd := mk_locked manager f (must_verify_contact_id sd) in
            (do! set_peer node (mk_peer_files pending (Some sd)) in
             match res with
             | NotReady => ret TBreak
             | Sent _ => ret TContinue
             | SendDone => do! chunks_done node pending sd in ret TBreak
             | IoError e => do! chunks_io_error node pending sd e in ret TBreak
             | Interrupt => chunks_interrupt node pending sd
             end) s
      end
  | _ => ret TBreak
  end.

(** One turn with its lock, and what follows the drop of the guard; the result
    says whether the loop goes on. *)
Definition send_chunks_step node connected : M bool :=
  let! t := locked (send_chunks_turn node connected) in
  match t with
  | TContinue => ret true
  | TBreak => ret false
  | TInterrupted id st =>
      do! notify (FileSendReset id st None (Some "Send interrupted: file tracker could not send to peer"%string)) in
      do! plugin (InterruptSending node) in
      ret false
  end.

Fixpoint send_chunks_loop (fuel : nat) node connected : M unit :=
  match fuel with
  | O => fun _ => Diverge
  | S fuel =>
      let! go_on := send_chunks_step node connected in
      if (go_on : bool) then send_chunks_loop fuel node connected else ret tt
  end.

(** Every turn that goes on has filled a slot of the window, so one turn more than
    there are slots is enough. *)
Definition chunk_turns : nat := S (Z.to_nat PARALLEL_CHUNKS).

Definition run_after node connected (a : after) : M unit :=
  match a with
  | AReturn => ret tt
  | AProtocolViolation => reset_all_on_protocol_violation_for node
  | AInternalError => reset_all_on_internal_error_for node
  | ASendChunks => send_chunks_loop chunk_turns node connected
  end.

(** ** Responses *)

(** The answer to a response for a peer without entry. *)
Definition not_offered node : M after :=
  do! send node None (ReqProtocolViolation None) in ret AReturn.

(** [Verified] and [ContactIsUnknown] go on, the latter without the lock. *)
Definition verified_data (sd : Locked) (v : ContactVerificationResult) : Locked :=
  match v with
  | ContactIsUnknown => mk_locked (send_manager sd) (pending_file sd) false
  | _ => sd
  end.

(** [AcceptNewTransfer] and [RestartContinueTransfer] *)
Definition on_accept_new_transfer node connected : M after :=
  let! entry := lookup_peer node in
  match entry with
  | None => not_offered node
  | Some (mk_peer_files _ None) => ret AProtocolViolation
  | Some (mk_peer_files pending (Some sd)) =>
      let! v := verify_target_contact_id node (pf_contact_id (pending_file sd)) connected in
      match v with
      | VerificationFailed => do! reset_all node in ret AReturn
      | VerificationInternalError => ret AInternalError
      | _ =>
          let sd := verified_data sd v in
          match pf_status (pending_file sd) with
          | SInProgress (mk_in_progress Prepared td) =>
              do! set_peer node (mk_peer_files pending (Some (set_status sd (SInProgress (mk_in_progress Sending td))))) in
              ret ASendChunks
          | _ =>
              do! set_peer node (mk_peer_files pending (Some sd)) in
              ret AProtocolViolation
          end
      end
  end.

Definition on_reject_new_transfer node connected : M after :=
  let! entry := lookup_peer node in
  match entry with
  | None => not_offered node
  | Some p =>
      let! taken := take_sending node p in
      match taken with
      | None => ret AProtocolViolation
      | Some sd =>
          let! v := verify_target_contact_id node (pf_contact_id (pending_file sd)) connected in
          match v with
          | VerificationFailed =>
              do! set_peer node (mk_peer_files (pf_pending p) (Some sd)) in
              do! reset_all node in
              ret AReturn
          | VerificationInternalError =>
              do! set_peer node (mk_peer_files (pf_pending p) (Some sd)) in
              ret AInternalError
          | _ =>
              do! complete_file chunk_size node (mk_peer_files (pf_pending p) None) (pf_id (pending_file sd)) OutcomeRejected in
              ret AReturn
          end
      end
  end.

Definition on_accept_continue_transfer node connected (offset : Z) : M after :=
  let! entry := lookup_peer node in
  match entry with
  | None => not_offered node
  | Some (mk_peer_files _ None) => ret AProtocolViolation
  | Some (mk_peer_files pending (Some sd)) =>
      let! v := verify_target_contact_id node (pf_contact_id (pending_file sd)) connected in
      match v with
      | VerificationFailed => do! reset_all node in ret AReturn
      | VerificationInternalError => ret AInternalError
      | _ =>
          let sd := verified_data sd v in
          match pf_status (pending_file sd) with
          | SInProgress (mk_in_progress Prepared td) =>
              let td := mk_transfer_data offset (file_size_bytes td) (transfer_id td) in
              let sd := set_status sd (SInProgress (mk_in_progress Sending td)) in
              match unlock_mut sd connected with
              | None => fun _ => Panic
              | Some (manager, f) =>
                  let sd := mk_locked (sm_set_progress manager offset) f (must_verify_contact_id sd) in
                  do! set_peer node (mk_peer_files pending (Some sd)) in
                  ret ASendChunks
              end
          | _ =>
              do! set_peer node (mk_peer_files pending (Some sd)) in
              ret AProtocolViolation
          end
      end
  end.

Definition on_confirm_chunk node connected (request_id : option Z) : M after :=
  let! entry := lookup_peer node in
  match entry with
  | None => not_offered node
  | Some (mk_peer_files pending sending) =>
      match request_id with
      | None => ret AInternalError
      | Some id =>
          match sending with
          | None => ret AProtocolViolation
          | Some sd =>
              match unlock_mut sd connected with
              | None => do! reset_all node in ret AReturn
              | Some (manager, f) =>
                  match pf_status f with
                  | SInProgress (mk_in_progress Sending td) =>
                      fun s =>
                        let? manager := receive_ack manager id in
                        let td := mk_transfer_data (sm_progress_bytes manager) (file_size_bytes td) (transfer_id td) in
                        let st := SInProgress (mk_in_progress Sending td) in
                        (do! set_peer node (mk_peer_files pending
                               (Some (mk_locked manager (pf_with_status f st) (must_verify_contact_id sd)))) in
                         do! notify (FileSending (pf_id f) st) in
                         ret ASendChunks) s
                  | _ => ret AProtocolViolation
                  end
              end
          end
      end
  end.

Definition on_reject_chunk node : M after :=
  let! entry := lookup_peer node in
  match entry with
  | None => not_offered node
  | Some p =>
      let! taken := take_sending node p in
      match taken with
      | Some sd =>
          match pf_status (pending_file sd) with
          | SInProgress (mk_in_progress Sending _) =>
              do! complete_file chunk_size node (mk_peer_files (pf_pending p) None) (pf_id (pending_file sd)) OutcomeRejected in
              ret AReturn
          | _ => ret AProtocolViolation
          end
      | None => ret AProtocolViolation
      end
  end.

Definition on_confirm_abort node : M after :=
  let! entry := lookup_peer node in
  match entry with
  | None => ret AReturn
  | Some p =>
      match pf_sending p with
      | None => do! send_next chunk_size node p in ret AReturn
      | Some _ => ret AReturn
      end
  end.

(** [ConfirmDone] and [RejectDone] differ in the outcome. *)
Definition on_done_answer node (o : FileOutcome E) : M after :=
  let! entry := lookup_peer node in
  match entry with
  | None => not_offered node
  | Some (mk_peer_files pending (Some sd)) =>
      match pf_status (pending_file sd) with
      | SInProgress (mk_in_progress PendingSent _) =>
          do! set_peer node (mk_peer_files pending None) in
          do! complete_file chunk_size node (mk_peer_files pending None) (pf_id (pending_file sd)) o in
          ret AReturn
      | _ => ret AProtocolViolation
      end
  | Some (mk_peer_files _ None) => ret AProtocolViolation
  end.

Definition on_confirm_done node : M after := on_done_answer node OutcomeSent.
Definition on_reject_done node : M after := on_done_answer node OutcomeRejected.

Definition on_protocol_violation node : M after :=
  let! entry := lookup_peer node in
  match entry with
  | None => ret AReturn
  | Some p =>
      let! taken := take_sending node p in
      match taken with
      | None => ret AReturn
      | Some sd =>
          do! reset_and_retry chunk_size node (mk_peer_files (pf_pending p) None) (increase_retry sd)
                "Peer reported protocol violation" in
          ret AReturn
      end
  end.

Definition on_internal_error node : M after :=
  let! entry := lookup_peer node in
  match entry with
  | None => ret AReturn
  | Some p =>
      let! taken := take_sending node p in
      match taken with
      | None => ret AReturn
      | Some sd =>
          do! reset_and_stop node (mk_peer_files (pf_pending p) None) (increase_retry sd)
                "Peer reported internal error" in
          ret AReturn
      end
  end.

(** The violation is reported from within the critical section. *)
Definition on_reject_continue_transfer node connected : M after :=
  let! entry := lookup_peer node in
  match entry with
  | None => ret AReturn
  | Some p =>
      let! taken := take_sending node p in
      match taken with
      | None => do! reset_all_on_protocol_violation_for node in ret AReturn
      | Some sd =>
          let! v := verify_target_contact_id node (pf_contact_id (pending_file sd)) connected in
          match v with
          | VerificationFailed =>
              do! set_peer node (mk_peer_files (pf_pending p) (Some sd)) in
              do! reset_all node in
              ret AReturn
          | VerificationInternalError =>
              do! set_peer node (mk_peer_files (pf_pending p) (Some sd)) in
              ret AInternalError
          | _ =>
              do! complete_file chunk_size node (mk_peer_files (pf_pending p) None) (pf_id (pending_file sd)) OutcomeRejected in
              ret AReturn
          end
      end
  end.

(** The critical section of [receive_response]. *)
Definition response_section node connected (request_id : option Z) (response : FileResponse) : M after :=
  match response with
  | AcceptNewTransfer | RestartContinueTransfer => on_accept_new_transfer node connected
  | RejectNewTransfer => on_reject_new_transfer node connected
  | AcceptContinueTransfer offset => on_accept_continue_transfer node connected offset
  | ConfirmChunk => on_confirm_chunk node connected request_id
  | RejectChunk => on_reject_chunk node
  | ConfirmAbort => on_confirm_abort node
  | ConfirmDone => on_confirm_done node
  | RejectDone => on_reject_done node
  | AcknowledgeProtocolViolation => ret AReturn
  | ProtocolViolation => on_protocol_violation node
  | InternalError => on_internal_error node
  | RejectContinueTransfer => on_reject_continue_transfer node connected
  end.

Definition receive_response node connected (request_id : option Z) (response : FileResponse) : M unit :=
  match response with
  | AcknowledgeProtocolViolation => ret tt
  | _ =>
      let! a := locked (response_section node connected request_id response) in
      run_after node connected a
  end.

Definition handle_receive_error node (error : ReceiveError) : M unit :=
  locked (
    let! entry := lookup_peer node in
    match entry with
    | None => ret tt
    | Some p =>
        let! taken := take_sending node p in
        let p := mk_peer_files (pf_pending p) None in
        match taken with
        | None => ret tt
        | Some sending =>
            match error with
            | RemoteError debug => reset_and_retry chunk_size node p sending ("Remote error: " +:+ debug)
            | LocalError LTimeout => reset_and_stop node p sending "Request timeout"
            | LocalError (LTransportError UnsupportedProtocols _) =>
                complete_file chunk_size node p (pf_id (pending_file sending)) OutcomeRejected
            | LocalError (LTransportError _ debug) => reset_and_stop node p sending ("Transport error: " +:+ debug)
            | LocalError (LMissingSession debug) | LocalError (LDecryptError debug) =>
                reset_and_retry chunk_size node p sending ("Session/decrypt error: " +:+ debug)
            | LocalError (LResendError debug) => reset_and_retry chunk_size node p sending ("Resend error: " +:+ debug)
            end
        end
    end).

(** ** Commands *)

Definition add_pending_file peer (file : PendingFile) : M unit :=
  let! added :=
    locked (
      match pf_status file with
      | SPending | SInProgress (mk_in_progress Interrupted _) =>
          let! entry := lookup_peer peer in
          let p := default (mk_peer_files [] None) entry in
          do! set_peer peer (mk_peer_files (pf_pending p ++ [file]) (pf_sending p)) in
          ret true
      | _ => ret false
      end) in
  if (added : bool) then plugin (PendingFileAdded peer false) else ret tt.

Definition trigger_interaction_with peer : M unit :=
  locked (
    let! entry := lookup_peer peer in
    match entry with
    | Some p => match pf_sending p with Some _ => ret tt | None => send_next chunk_size peer p end
    | None => ret tt
    end).

(** Abort the file in the sending slot on request of the brain. *)
Definition cancel_sending peer (pending : list PendingFile) (sd : Locked) : M unit :=
  do! set_peer peer (mk_peer_files pending None) in
  do! send peer (Some (pf_contact_id (pending_file sd))) (AbortTransfer (Some (get_transfer_id sd))) in
  do! plugin (PendingFileRemoved peer (negb (bool_decide (pending = []))) false) in
  send_next chunk_size peer (mk_peer_files pending None).

(** Remove the files selected by [sel] from the queue. *)
Definition cancel_pending peer p (sel : PendingFile -> bool) : M (option PeerId) :=
  let kept := List.filter (fun f => negb (sel f)) (pf_pending p) in
  do! set_peer peer (mk_peer_files kept (pf_sending p)) in
  if negb (length (pf_pending p) =? length kept)%nat then
    do! plugin (PendingFileRemoved peer (negb (bool_decide (kept = []))) (bool_decide (is_Some (pf_sending p)))) in
    ret (Some peer)
  else ret None.

(** The end of both cancel functions, on the entry of [peer]. *)
Definition cancel_selected peer p (sel : PendingFile -> bool) : M (option PeerId) :=
  match pf_sending p with
  | Some sd =>
      if sel (pending_file sd) then
        do! cancel_sending peer (pf_pending p) sd in
        ret (Some peer)
      else cancel_pending peer p sel
  | None => cancel_pending peer p sel
  end.

Definition holds_file (file_id : FylesId) p : bool :=
  match pf_sending p with Some sd => bool_decide (pf_id (pending_file sd) = file_id) | None => false end
  || existsb (fun f => bool_decide (pf_id f = file_id)) (pf_pending p).

(** The peer is found by searching the map. *)
Definition cancel_file (file_id : FylesId) : M (option PeerId) :=
  locked (fun s =>
    match List.find (fun kp => holds_file file_id kp.2) (map_to_list (files s)) with
    | None => Ret (None, s)
    | Some (peer, p) => cancel_selected peer p (fun f => bool_decide (pf_id f = file_id)) s
    end).

Definition cancel_file_by_target (target_filerequest_id : FylesId) peer : M (option PeerId) :=
  locked (
    let! entry := lookup_peer peer in
    match entry with
    | None => ret None
    | Some p => cancel_selected peer p (fun f => bool_decide (pf_target_filerequest_id f = target_filerequest_id))
    end).

Definition reset_for_disconnected_peer peer : M unit :=
  let! sending := has_sending_files_for peer in
  if (sending : bool) then locked (do! reset_all peer in ret tt) else ret tt.

Definition handle_outgoing_connection_error peer : M unit := plugin (OutgoingConnectionError peer).

Definition handle_non_correlatable_error peer : M unit := plugin (NonCorrelatableError peer).

End Handlers.
