(* ===== verification/TrackerInvariant.v ===== *)
(** * Invariants of the file tracker

    The states the tracker can reach, by any sequence of responses, errors and
    commands and any interleaving of its sending loops, and what holds in all of
    them: the status of the files and the conditions under which the tracker sends
    a chunk or reports an outcome. *)

From S2P Require Import Prelude Domain FileReader SendManager FileTracker.

(** ** Weakest preconditions (partial correctness) *)

Section Wp.
Context {W F E : Type}.
Implicit Types (s : tracker W F E).

Definition wp {A} (m : M W F E A) (Q : A -> tracker W F E -> Prop) s : Prop :=
  match m s with Ret (a, s') => Q a s' | _ => True end.

Lemma wp_ret {A} (a : A) Q s : Q a s -> wp (ret a) Q s.
Proof. done. Qed.

Lemma wp_bind {A B} (m : M W F E A) (f : A -> M W F E B) Q s :
  wp m (fun a s' => wp (f a) Q s') s -> wp (bind m f) Q s.
Proof. unfold wp, bind. by destruct (m s) as [[a s']| | |]. Qed.

Lemma wp_mono {A} (m : M W F E A) (P Q : A -> tracker W F E -> Prop) s :
  wp m P s -> (forall a s', P a s' -> Q a s') -> wp m Q s.
Proof. unfold wp. destruct (m s) as [[a s']| | |]; auto. Qed.

Lemma wp_locked {A} (m : M W F E A) Q s :
  wp m (fun a s' => Q a (set_lock s' false)) (set_lock s true) -> wp (locked m) Q s.
Proof. unfold wp, locked. destruct (lock s); [done|]. by destruct (m (set_lock s true)) as [[a s']| | |]. Qed.

Lemma wp_lookup_peer peer Q s : Q (files s !! peer) s -> wp (lookup_peer peer) Q s.
Proof. done. Qed.

End Wp.

(** ** The invariant *)

Section Invariant.
Context {W F E : Type} `{!AsyncFile F E} `{!TrackerEnv W F E}.
Implicit Types (s : tracker W F E) (t : list (event E)) (node : PeerId) (p : PeerFiles F E) (sd : LockedSendData Z F E).

(** The states in which a file waits in the queue. *)
Definition status_waiting (st : SendStatus) : Prop :=
  match st with SPending | SInProgress (mk_in_progress Interrupted _) => True | _ => False end.

(** The file being sent: it is prepared, sending or done, its send manager works
    on the transfer its status names, the contact check is off only for contacts
    the brain does not know, and [PendingSent] means that [Done] was sent. *)
Definition sending_ok t node sd : Prop :=
  exists ip td,
    pf_status (pending_file sd) = SInProgress (mk_in_progress ip td) /\ ip <> Interrupted /\
    sm_transfer_id (send_manager sd) = transfer_id td /\
    (must_verify_contact_id sd = false -> EvContactKnown (pf_contact_id (pending_file sd)) (Some false) ∈ t) /\
    (ip = PendingSent -> EvSend node (Some (pf_contact_id (pending_file sd))) (Done (transfer_id td)) true ∈ t).

Definition peer_ok t node p : Prop :=
  Forall (fun f => status_waiting (pf_status f)) (pf_pending p) /\
  forall sd, pf_sending p = Some sd -> sending_ok t node sd.

(** When an event may happen, given the events before it. *)
Definition event_ok (e : event E) t : Prop :=
  match e with
  | EvChunk _ connected target _ _ => connected = Some target \/ EvContactKnown target (Some false) ∈ t
  | EvNotify (FileSent _) => exists node contact tid, EvSend node contact (Done tid) true ∈ t
  | EvNotify (FileSendReset _ st _ _) => status_waiting st
  | _ => True
  end.

Fixpoint trace_ok t : Prop :=
  match t with e :: t => event_ok e t /\ trace_ok t | [] => True end.

Definition inv s : Prop := map_Forall (fun node p => peer_ok (trace s) node p) (files s) /\ trace_ok (trace s).

(** The trace only grows. *)
Definition grows s s' : Prop := exists new, trace s' = new ++ trace s.

#[global] Instance grows_refl : Reflexive grows.
Proof. intros s. by exists []. Qed.
#[global] Instance grows_trans : Transitive grows.
Proof. intros s1 s2 s3 [n1 E1] [n2 E2]. exists (n2 ++ n1). by rewrite E2, E1, app_assoc. Qed.

Lemma sending_ok_mono t t' node sd : (forall e, e ∈ t -> e ∈ t') -> sending_ok t node sd -> sending_ok t' node sd.
Proof. intros Hsub (ip & td & ? & ? & ? & ? & ?). exists ip, td. split_and!; auto. Qed.

Lemma peer_ok_mono t t' node p : (forall e, e ∈ t -> e ∈ t') -> peer_ok t node p -> peer_ok t' node p.
Proof. intros Hsub [? Hs]. split; [done|]. intros sd Hsd. eapply sending_ok_mono; eauto. Qed.

Lemma sending_ok_grows s s' node sd : grows s s' -> sending_ok (trace s) node sd -> sending_ok (trace s') node sd.
Proof. intros [new E']. apply sending_ok_mono. intros e He. rewrite E'. apply elem_of_app. by right. Qed.

Lemma inv_log e s w : inv s -> event_ok e (trace s) -> inv (log_event e (set_world s w)).
Proof.
  intros [HP HT] He. split; [|done]. intros node p Hp. eapply peer_ok_mono; [|by apply (HP node p)].
  intros e' ?. by right.
Qed.

Lemma inv_put node p s : inv s -> peer_ok (trace s) node p -> inv (mk_tracker (<[node := p]> (files s)) (lock s) (trace s) (world s)).
Proof.
  intros [HP HT] Hp. split; [|done]. cbn. intros k q Hq. apply lookup_insert_Some in Hq as [[<- <-]|[_ Hq]]; [done|by apply HP].
Qed.

Lemma inv_delete node s : inv s -> inv (mk_tracker (delete node (files s)) (lock s) (trace s) (world s)).
Proof. intros [HP HT]. split; [|done]. cbn. intros k q Hq. apply lookup_delete_Some in Hq as [_ Hq]. by apply HP. Qed.

Lemma inv_set_lock b s : inv (set_lock s b) <-> inv s.
Proof. done. Qed.

(** Operations keep the invariant and the trace. *)
Definition good s {A} : A -> tracker W F E -> Prop := fun _ s' => inv s' /\ grows s s'.

Lemma good_self s {A} (a : A) : inv s -> good s a s.
Proof. done. Qed.

Lemma good_trans s s1 {A B} (a : A) (b : B) s2 : good s a s1 -> good s1 b s2 -> good s b s2.
Proof. intros [_ G1] [I2 G2]. split; [done|by etransitivity]. Qed.

(** Sequencing: a good step, then a continuation that is good from there. *)
Lemma wp_good_bind {A B} (m : M W F E A) (f : A -> M W F E B) s :
  wp m (fun a s' => good s a s' /\ wp (f a) (good s') s') s -> wp (bind m f) (good s) s.
Proof.
  intros Hm. apply wp_bind. eapply wp_mono; [exact Hm|]. intros a s' [Hg Hf].
  eapply wp_mono; [exact Hf|]. intros b s2. by apply (good_trans s s' a b).
Qed.

Lemma good_send node contact request s :
  inv s -> wp (send node contact request) (fun r s' => good s r s' /\
    trace s' = EvSend node contact request (bool_decide (is_Some r)) :: trace s) s.
Proof.
  intros HI. unfold wp, send. destruct (tracker_send node contact request (world s)) as [r w].
  split; [|done]. split; [by apply inv_log|]. by eexists [_].
Qed.

Lemma good_notify a s : inv s -> event_ok (EvNotify a) (trace s) -> wp (notify a) (good s) s.
Proof.
  intros HI He. unfold wp, notify. destruct (notify_brain a (world s)) as [r w].
  split; [by apply inv_log|]. by eexists [_].
Qed.

Lemma good_notify_expect a s : inv s -> event_ok (EvNotify a) (trace s) -> wp (notify_expect a) (good s) s.
Proof.
  intros HI He. unfold wp, notify_expect. destruct (notify_brain a (world s)) as [[] w]; [|done].
  split; [by apply inv_log|]. by eexists [_].
Qed.

Lemma good_plugin c s : inv s -> wp (plugin c) (good s) s.
Proof. intros HI. split; [by apply inv_log|]. by eexists [_]. Qed.

Lemma good_ask c s :
  inv s -> wp (ask_contact_known c) (fun r s' => good s r s' /\ (r = Ok false -> EvContactKnown c (Some false) ∈ trace s')) s.
Proof.
  intros HI. unfold wp, ask_contact_known. destruct (is_contact_known c (world s)) as [[r w]| | |]; try done. cbn.
  split; [split; [by apply inv_log|by eexists [_]]|]. intros ->. by left.
Qed.

Lemma good_open f o s : inv s -> wp (open_file f o) (good s) s.
Proof. intros HI. unfold wp, open_file. destruct (open_file_for_reading _ _ _ _) as [[r w]| | |]; try done. split; [done|by exists []]. Qed.

Lemma good_metadata f s : inv s -> wp (metadata f) (good s) s.
Proof. intros HI. unfold wp, metadata. destruct (file_metadata_len f (world s)). split; [done|by exists []]. Qed.

Lemma good_fresh s : inv s -> wp fresh_id (good s) s.
Proof. intros HI. unfold wp, fresh_id. destruct (new_fyles_id (world s)). split; [done|by exists []]. Qed.

Lemma good_set_peer node p s : inv s -> peer_ok (trace s) node p -> wp (set_peer node p) (good s) s.
Proof. intros HI Hp. split; [by apply inv_put|by exists []]. Qed.

Lemma good_remove_peer node s : inv s -> wp (remove_peer node) (good s) s.
Proof. intros HI. split; [by apply inv_delete|by exists []]. Qed.

Lemma good_ret {A} (a : A) s : inv s -> wp (ret a) (good s) s.
Proof. intros HI. by apply good_self. Qed.

Lemma peer_ok_empty t node pending :
  Forall (fun f => status_waiting (pf_status f)) pending -> peer_ok t node (mk_peer_files pending None).
Proof. by split. Qed.

Lemma inv_lookup s node p : inv s -> files s !! node = Some p -> peer_ok (trace s) node p.
Proof. intros [HP _]. apply HP. Qed.

End Invariant.

(** ** Every operation keeps the invariant *)

Section Preservation.
Context {W F E : Type} `{!AsyncFile F E} `{!TrackerEnv W F E} (chunk_size : nat).
Implicit Types (s : tracker W F E) (t : list (event E)) (node : PeerId) (p : PeerFiles F E) (sd : LockedSendData Z F E).

Lemma good_seq {A B} (m : M W F E A) (f : A -> M W F E B) s :
  wp m (good s) s -> (forall a s', inv s' -> grows s s' -> wp (f a) (good s') s') -> wp (bind m f) (good s) s.
Proof.
  intros Hm Hf. apply wp_good_bind. eapply wp_mono; [exact Hm|]. intros a s' Hg. split; [done|].
  destruct Hg. by apply Hf.
Qed.

(** One step of an operation: the lemma for its first call, then the rest. *)
Tactic Notation "seq" uconstr(l) "as" simple_intropattern(a) ident(s') ident(HI) ident(HG) :=
  eapply good_seq; [eapply l; eauto|intros a s' HI HG].

Create HintDb tracker.
#[local] Hint Resolve good_set_peer good_plugin good_ret good_notify good_notify_expect good_remove_peer
  good_open good_metadata good_fresh peer_ok_empty sending_ok_grows inv_lookup : tracker.

Lemma good_send' node contact request s : inv s -> wp (send node contact request) (good s) s.
Proof. intros HI. eapply wp_mono; [by apply good_send|]. by intros a s' [? _]. Qed.
#[local] Hint Resolve good_send' : tracker.

Lemma announce_sending_good node f s : inv s -> wp (announce_sending node f) (good s) s.
Proof.
  intros HI. unfold announce_sending.
  eapply good_seq; [|intros; auto with tracker].
  destruct (pf_status f) as [|[[] ?]| | | |]; auto with tracker; apply good_notify_expect; done.
Qed.

Lemma locked_new_ok t node f ip td tid size file :
  pf_status f = SInProgress (mk_in_progress ip td) -> ip = Prepared -> transfer_id td = tid ->
  sending_ok t node (locked_new (ID := Z) chunk_size f tid size file : LockedSendData Z F E).
Proof. intros Hst -> <-. exists Prepared, td. split_and!; done. Qed.

Lemma start_transfer_good node f rest sending file name size (next : M W F E unit) s :
  inv s -> status_waiting (pf_status f) -> Forall (fun f => status_waiting (pf_status f)) rest ->
  (forall sd, sending = Some sd -> sending_ok (trace s) node sd) ->
  (forall s', inv s' -> grows s s' -> wp next (good s') s') ->
  wp (start_transfer chunk_size node f rest sending file name size next) (good s) s.
Proof.
  intros HI Hf Hrest Hsd Hnext. unfold start_transfer.
  destruct (pf_status f) as [|[[] td]| | | |] eqn:Hst; try done.
  - seq good_fresh as tid s1 HI1 HG1. eapply good_seq; [by apply good_send'|]. intros [id|] s2 HI2 HG2.
    + eapply good_seq; [|intros; by apply announce_sending_good]. apply good_set_peer; [done|]. split; [done|].
      intros sd [= <-]. eapply locked_new_ok; done.
    + apply good_set_peer; [done|]. split; [constructor; [by rewrite Hst|done]|]. intros sd Hsd'.
      eapply (sending_ok_grows s); [by etransitivity|auto].
  - eapply good_seq; [by apply good_send'|]. intros r s1 HI1 HG1.
    eapply good_seq; [|intros; by apply announce_sending_good].
    destruct r as [id|]; [|auto with tracker]. apply good_set_peer; [done|]. split; [done|]. intros sd [= <-].
    exists Prepared, td. split_and!; done.
Qed.

Lemma send_next_from_good node pending : forall sending s,
  inv s -> Forall (fun f => status_waiting (pf_status f)) pending ->
  (forall sd, sending = Some sd -> sending_ok (trace s) node sd) ->
  wp (send_next_from chunk_size node pending sending) (good s) s.
Proof.
  induction pending as [|f rest IH]; intros sending s HI HF Hsd; cbn [send_next_from].
  { seq good_remove_peer as x s1 HI1 HG1. auto with tracker. }
  inversion HF as [|? ? Hf Hrest]; subst.
  assert (forall s', inv s' -> grows s s' -> wp (send_next_from chunk_size node rest sending) (good s') s') as Hnext.
  { intros s' HI' HG'. apply IH; [done..|]. intros sd Hsd'. eapply (sending_ok_grows s); auto. }
  eapply good_seq; [apply good_set_peer; [done|by split]|]. intros _ s1 HI1 HG1.
  destruct (match pf_status f with SPending => _ | _ => _ end) as [progress|].
  2:{ eapply good_seq; [by apply good_notify|]. intros _ s2 HI2 HG2. apply Hnext; [done|by etransitivity]. }
  seq good_open as opened s2 HI2 HG2. destruct opened as [[file name]|].
  2:{ eapply good_seq; [by apply good_notify_expect|]. intros _ s3 HI3 HG3. apply Hnext; [done|].
      etransitivity; [done|]. by etransitivity. }
  seq good_metadata as size s3 HI3 HG3. destruct size as [size|].
  2:{ eapply good_seq; [by apply good_notify_expect|]. intros _ s4 HI4 HG4. apply Hnext; [done|].
      etransitivity; [done|]. etransitivity; [done|]. by etransitivity. }
  assert (grows s s3) as HG by (etransitivity; [done|]; by etransitivity).
  apply start_transfer_good; try done.
  - intros sd Hsd'. by eapply (sending_ok_grows s); auto.
  - intros s' HI' HG'. apply Hnext; [done|by etransitivity].
Qed.

Lemma send_next_good node p s : inv s -> peer_ok (trace s) node p -> wp (send_next chunk_size node p) (good s) s.
Proof. intros HI [HF Hsd]. by apply send_next_from_good. Qed.

Lemma complete_file_good node p id o s :
  inv s -> peer_ok (trace s) node p -> event_ok (EvNotify (outcome_action id o)) (trace s) ->
  wp (complete_file chunk_size node p id o) (good s) s.
Proof.
  intros HI [HF Hsd] He. unfold complete_file. seq good_notify as x s1 HI1 HG1.
  apply send_next_good; [done|]. split; [done|]. intros sd Hs. eapply (sending_ok_grows s); auto.
Qed.

Lemma reset_status_waiting sd : status_waiting (compute_reset_status sd).
Proof. unfold compute_reset_status. repeat case_goal; done. Qed.

Lemma reset_and_stop_good node p sd reason s :
  inv s -> peer_ok (trace s) node p -> wp (reset_and_stop node p sd reason) (good s) s.
Proof.
  intros HI [HF Hsd]. unfold reset_and_stop.
  eapply good_seq; [apply good_notify; [done|apply reset_status_waiting]|]. intros _ s1 HI1 HG1.
  eapply good_seq; [apply good_set_peer; [done|]|].
  { split; [|intros sd' Hs; eapply (sending_ok_grows s); auto]. cbn. apply Forall_app. split; [done|].
    apply Forall_singleton, reset_status_waiting. }
  intros _ s2 HI2 HG2. eapply good_seq; [by apply good_plugin|]. intros _ s3 HI3 HG3. by apply good_plugin.
Qed.

Lemma reset_and_retry_good node p sd reason s :
  inv s -> peer_ok (trace s) node p -> wp (reset_and_retry chunk_size node p sd reason) (good s) s.
Proof. intros HI Hp. unfold reset_and_retry. case_goal; [by apply complete_file_good|by apply reset_and_stop_good]. Qed.

Lemma take_sending_good node p s :
  inv s -> peer_ok (trace s) node p ->
  wp (take_sending node p) (fun r s' => good s r s' /\ r = pf_sending p) s.
Proof. intros HI [HF _]. split; [|done]. split; [by apply inv_put|by exists []]. Qed.

Lemma reset_all_with_occupied_good node p s :
  inv s -> peer_ok (trace s) node p -> wp (reset_all_with_occupied node p) (good s) s.
Proof.
  intros HI [HF Hsd]. unfold reset_all_with_occupied. destruct (pf_sending p) as [sd|]; [|auto with tracker].
  eapply good_seq; [apply good_set_peer; auto with tracker|]. intros _ s1 HI1 HG1.
  eapply good_seq; [apply reset_and_stop_good; auto with tracker|]. intros _ s2 HI2 HG2. auto with tracker.
Qed.

Lemma wp_lookup_bind {A} node (f : option (PeerFiles F E) -> M W F E A) s :
  (forall o, files s !! node = o -> wp (f o) (good s) s) -> wp (bind (lookup_peer node) f) (good s) s.
Proof. intros Hf. apply wp_bind, wp_lookup_peer. by apply Hf. Qed.

Lemma reset_all_good node s : inv s -> wp (reset_all node) (good s) s.
Proof.
  intros HI. apply wp_lookup_bind. intros [p|] Hp; [|auto with tracker].
  apply reset_all_with_occupied_good; [done|by eapply inv_lookup].
Qed.

Lemma increase_retry_ok t node sd : sending_ok t node sd -> sending_ok t node (increase_retry sd).
Proof. intros (ip & td & Hs & ?). exists ip, td. split; [exact Hs|done]. Qed.

Lemma good_locked {A} (m : M W F E A) s : inv s -> wp m (good (set_lock s true)) (set_lock s true) -> wp (locked m) (good s) s.
Proof. intros HI Hm. apply wp_locked. eapply wp_mono; [exact Hm|]. intros a s' [? ?]. done. Qed.

Lemma reset_all_on_internal_error_for_good node s : inv s -> wp (reset_all_on_internal_error_for node) (good s) s.
Proof.
  intros HI. apply good_locked; [done|]. set (s0 := set_lock s true). assert (inv s0) as HI0 by done.
  apply wp_lookup_bind. intros o Hp. eapply good_seq.
  { destruct o as [[pending [sd|]]|]; auto with tracker.
    pose proof (inv_lookup _ _ _ HI0 Hp) as [HF Hsd].
    eapply good_seq; [apply good_set_peer; [done|]|intros; auto with tracker].
    split; [done|]. intros sd' [= <-]. by apply increase_retry_ok, Hsd. }
  intros ids s1 HI1 HG1. eapply good_seq; [by apply reset_all_good|]. intros _ s2 HI2 HG2.
  eapply good_seq; [by apply good_send'|]. intros; auto with tracker.
Qed.

Lemma reset_all_on_protocol_violation_for_good node s : inv s -> wp (reset_all_on_protocol_violation_for node) (good s) s.
Proof.
  intros HI. apply good_locked; [done|]. set (s0 := set_lock s true). assert (inv s0) as HI0 by done.
  apply wp_lookup_bind. intros o Hp. eapply good_seq.
  { destruct o as [[pending [sd|]]|]; auto with tracker. pose proof (inv_lookup _ _ _ HI0 Hp) as [HF Hsd].
    apply good_set_peer; [done|]. split; [done|]. intros sd' [= <-]. by apply increase_retry_ok, Hsd. }
  intros _ s1 HI1 HG1. eapply good_seq; [by apply reset_all_good|]. intros c s2 HI2 HG2.
  eapply good_seq; [by apply good_send'|]. intros; auto with tracker.
Qed.

(** The check of the contact. *)
Lemma verify_good node target connected s :
  inv s ->
  wp (verify_target_contact_id node target connected) (fun v s' => good s v s' /\
    (v = Verified -> connected = Some target) /\
    (v = ContactIsUnknown -> EvContactKnown target (Some false) ∈ trace s')) s.
Proof.
  intros HI. unfold verify_target_contact_id. apply wp_bind. eapply wp_mono; [by apply good_ask|].
  intros r s1 [[HI1 HG1] Hr]. destruct r as [[]|e].
  - destruct connected as [c|]; [case_bool_decide as Hc; subst|]; apply wp_ret; split_and!; done.
  - apply wp_ret. split; [done|]. split; [done|]. intros _. by apply Hr.
  - apply wp_bind. eapply wp_mono; [by apply reset_all_on_internal_error_for_good|]. intros _ s2 [HI2 HG2].
    apply wp_ret. split; [split; [done|by etransitivity]|done].
Qed.


(** ** The sending loop *)

Lemma send_next_chunk_frame {ID Wd} `{Countable ID} (sendf : DataChunk -> Wd -> option ID * Wd) (m : SendManager ID F E) w r m' w' :
  send_next_chunk sendf m w = Ret (r, m', w') ->
  sm_transfer_id m' = sm_transfer_id m /\ (w' = w \/ exists c, w' = (sendf c w).2).
Proof.
  unfold send_next_chunk. destruct (is_ready m); [|by intros [= _ <- <-]; auto]. cbn [negb].
  destruct (reader_read (sm_file m)) as [[[[n d]|e]|] rd].
  - destruct (sendf _ w) as [[id|] w1] eqn:Es.
    + case_goal; [|done]. intros [= _ <- <-]. split; [done|]. right. eexists. by rewrite Es.
    + intros [= _ <- <-]. split; [done|]. right. eexists. by rewrite Es.
  - by intros [= _ <- <-]; auto.
  - case_goal; by intros [= _ <- <-]; auto.
Qed.

Lemma release_loop_tid {ID} `{Countable ID} fuel : forall (m : SendManager ID F E) i m',
  release_loop fuel m i = Ret m' -> sm_transfer_id m' = sm_transfer_id m.
Proof.
  induction fuel as [|fuel IH]; [done|]. intros m i m'. simpl. repeat case_goal; intros Hr; try done; try by simplify_eq.
  by apply IH in Hr.
Qed.

Lemma receive_ack_tid {ID} `{Countable ID} (m : SendManager ID F E) id m' :
  receive_ack m id = Ret m' -> sm_transfer_id m' = sm_transfer_id m.
Proof.
  unfold receive_ack, mark_done. destruct (chunk_to_index m !! id); [|done]. cbn [unwrap_panic outcome_bind].
  repeat case_goal; intros Hr; try done; [|by simplify_eq]. by apply release_loop_tid in Hr.
Qed.

Lemma unlock_mut_cases sd connected manager f :
  unlock_mut sd connected = Some (manager, f) ->
  manager = send_manager sd /\ f = pending_file sd /\
  (must_verify_contact_id sd = false \/ connected = Some (pf_contact_id (pending_file sd))).
Proof.
  unfold unlock_mut. destruct (must_verify_contact_id sd); cbn [negb]; [|intros [= <- <-]; auto].
  destruct connected as [c|]; [case_bool_decide as Hc|]; try done. intros [= <- <-]. subst. auto.
Qed.

Lemma sending_ok_manager t node sd (manager : SendManager Z F E) :
  sending_ok t node sd -> sm_transfer_id manager = sm_transfer_id (send_manager sd) ->
  sending_ok t node (mk_locked manager (pending_file sd) (must_verify_contact_id sd)).
Proof. intros (ip & td & ? & ? & Ht & ? & ?) Em. exists ip, td. split_and!; try done. cbn. congruence. Qed.

Lemma chunks_done_good node pending sd s :
  inv s -> Forall (fun f => status_waiting (pf_status f)) pending -> sending_ok (trace s) node sd ->
  wp (chunks_done node pending sd) (good s) s.
Proof.
  intros HI HF Hsd. unfold chunks_done. apply wp_good_bind. eapply wp_mono; [by apply good_send|].
  intros r s1 [[HI1 HG1] Ht]. split; [done|]. destruct r as [id|].
  - destruct Hsd as (ip & td & Hst & Hne & Htid & Hv & Hp). rewrite Hst. destruct ip; auto with tracker.
    apply good_set_peer; [done|]. split; [done|]. intros sd' [= <-]. exists PendingSent, td. cbn. split_and!; try done.
    + intros Hmv. rewrite Ht. right. by apply Hv.
    + intros _. rewrite Ht, Htid. by left.
  - destruct (status_transfer_data _); [|auto with tracker].
    eapply good_seq; [apply reset_all_with_occupied_good; [done|]|intros; auto with tracker].
    split; [done|]. intros sd' [= <-]. by eapply sending_ok_grows.
Qed.

Lemma chunks_io_error_good node pending sd e s :
  inv s -> Forall (fun f => status_waiting (pf_status f)) pending ->
  wp (chunks_io_error chunk_size node pending sd e) (good s) s.
Proof.
  intros HI HF. unfold chunks_io_error.
  eapply good_seq; [apply good_set_peer; auto with tracker|]. intros _ s1 HI1 HG1.
  eapply good_seq; [by apply good_send'|]. intros _ s2 HI2 HG2.
  apply complete_file_good; auto with tracker; done.
Qed.

Lemma chunks_interrupt_good node pending sd s :
  inv s -> Forall (fun f => status_waiting (pf_status f)) pending ->
  wp (chunks_interrupt node pending sd) (fun tn s' => good s tn s' /\
    match tn with TInterrupted _ st => status_waiting st | _ => True end) s.
Proof.
  intros HI HF. unfold chunks_interrupt. destruct (status_transfer_data _) as [td|]; [|by split; [apply good_self|]].
  split; [|done]. split; [|by exists []]. apply inv_put; [done|]. apply peer_ok_empty, Forall_app. split; [done|].
  by apply Forall_singleton.
Qed.

Lemma send_chunks_turn_good node connected s :
  inv s -> wp (send_chunks_turn chunk_size node connected) (fun tn s' => good s tn s' /\
    match tn with TInterrupted _ st => status_waiting st | _ => True end) s.
Proof.
  intros HI. apply wp_bind, wp_lookup_peer.
  destruct (files s !! node) as [[pending [sd|]]|] eqn:Hp; try (by split; [apply good_self|]).
  destruct (inv_lookup _ _ _ HI Hp) as [HF Hsd]. specialize (Hsd sd eq_refl).
  destruct (unlock_mut sd connected) as [[manager f]|] eqn:Hu; [|by split; [apply good_self|]].
  apply unlock_mut_cases in Hu as (-> & -> & Hu). unfold wp.
  destruct (send_next_chunk _ (send_manager sd) s) as [[[res manager] s1]| | |] eqn:Es; try done.
  apply send_next_chunk_frame in Es as [Etid Es].
  assert (good s tt s1) as [HI1 HG1].
  { destruct Es as [->|[c ->]]; [by apply good_self|]. unfold send_idempotent.
    destruct (tracker_send_idempotent _ _ _ _) as [r w]. split; [|by eexists [_]]. apply inv_log; [done|]. cbn.
    destruct Hu as [Hu|Hu]; [right|by left]. destruct Hsd as (ip & td & _ & _ & _ & Hv & _). by apply Hv. }
  cbn [outcome_bind]. set (sd1 := mk_locked manager _ _).
  assert (sending_ok (trace s1) node sd1) as Hsd1 by (eapply sending_ok_grows; [done|by apply sending_ok_manager]).
  set (body := do! _ in _). change (wp body
     (fun tn s' => good s tn s' /\ match tn with TInterrupted _ st => status_waiting st | _ => True end) s1). subst body.
  apply wp_bind. eapply wp_mono; [apply good_set_peer; [done|]|].
  { split; [done|]. by intros sd' [= <-]. }
  intros _ s2 [HI2 HG2]. assert (grows s s2) as HG by (by etransitivity).
  destruct res; try (by split).
  - apply wp_bind. eapply wp_mono; [apply chunks_done_good; [done|done|by apply (sending_ok_grows s1)]|].
    intros _ s3 [HI3 HG3]. split; [split; [done|by etransitivity]|done].
  - apply wp_bind. eapply wp_mono; [by apply chunks_io_error_good|].
    intros _ s3 [HI3 HG3]. split; [split; [done|by etransitivity]|done].
  - eapply wp_mono; [by apply chunks_interrupt_good|]. intros t s3 [[HI3 HG3] Ht].
    split; [split; [done|by etransitivity]|done].
Qed.


Lemma send_chunks_step_good node connected s : inv s -> wp (send_chunks_step chunk_size node connected) (good s) s.
Proof.
  intros HI. unfold send_chunks_step. apply wp_good_bind, wp_locked.
  eapply wp_mono; [by apply send_chunks_turn_good|]. intros tn s1 [Hg Ht]. split; [exact Hg|]. destruct Hg as [HI1 HG1].
  assert (inv (set_lock s1 false)) as HI2 by done. destruct tn; auto with tracker.
  eapply good_seq; [by apply good_notify|]. intros _ s2 HI3 HG3.
  eapply good_seq; [by apply good_plugin|]. intros; auto with tracker.
Qed.

Lemma send_chunks_loop_good fuel : forall node connected s,
  inv s -> wp (send_chunks_loop chunk_size fuel node connected) (good s) s.
Proof.
  induction fuel as [|fuel IH]; intros node connected s HI; [done|]. simpl.
  eapply good_seq; [by apply send_chunks_step_good|]. intros [] s1 HI1 HG1; [by apply IH|auto with tracker].
Qed.

Lemma run_after_good node connected a s : inv s -> wp (run_after chunk_size node connected a) (good s) s.
Proof.
  intros HI. destruct a; cbn [run_after]; [auto with tracker|by apply reset_all_on_protocol_violation_for_good
    |by apply reset_all_on_internal_error_for_good|by apply send_chunks_loop_good].
Qed.

(** ** Responses *)

Lemma not_offered_good node s : inv s -> wp (not_offered node) (good s) s.
Proof. intros HI. eapply good_seq; [by apply good_send'|]. intros; auto with tracker. Qed.

(** What follows the check of the contact: the three ways it can end. *)
Lemma verify_seq {A} node target connected (f : ContactVerificationResult -> M W F E A) s :
  inv s ->
  (forall v s', inv s' -> grows s s' -> (v = Verified -> connected = Some target) ->
    (v = ContactIsUnknown -> EvContactKnown target (Some false) ∈ trace s') -> wp (f v) (good s') s') ->
  wp (bind (verify_target_contact_id node target connected) f) (good s) s.
Proof.
  intros HI Hf. apply wp_good_bind. eapply wp_mono; [by apply verify_good|].
  intros v s' ([HI' HG'] & H1 & H2). split; [done|]. by apply Hf.
Qed.

Lemma verified_data_ok s s' node sd v :
  sending_ok (trace s) node sd -> grows s s' ->
  (v = ContactIsUnknown -> EvContactKnown (pf_contact_id (pending_file sd)) (Some false) ∈ trace s') ->
  sending_ok (trace s') node (verified_data sd v).
Proof.
  intros Hsd HG Hv. apply (sending_ok_grows s s') in Hsd; [|done]. destruct v; try done.
  destruct Hsd as (ip & td & ? & ? & ? & ? & ?). exists ip, td. split_and!; try done. intros _. by apply Hv.
Qed.

Lemma sending_ok_set_sending t node sd td tid' :
  sending_ok t node sd -> pf_status (pending_file sd) = SInProgress (mk_in_progress Prepared td) ->
  transfer_id tid' = transfer_id td ->
  sending_ok t node (set_status sd (SInProgress (mk_in_progress Sending tid'))).
Proof.
  intros (ip & td' & Hst & _ & Htid & Hv & _) Hst' Ht. assert (td' = td) as -> by congruence.
  exists Sending, tid'. split_and!; try done. cbn. congruence.
Qed.

Lemma on_accept_new_transfer_good node connected s : inv s -> wp (on_accept_new_transfer node connected) (good s) s.
Proof.
  intros HI. apply wp_lookup_bind. intros [[pending [sd|]]|] Hp; [|auto with tracker|by apply not_offered_good].
  destruct (inv_lookup _ _ _ HI Hp) as [HF Hsd]. specialize (Hsd sd eq_refl).
  apply verify_seq; [done|]. intros v s1 HI1 HG1 _ Hun.
  pose proof (verified_data_ok s s1 node sd v Hsd HG1 Hun) as Hvd.
  assert (wp (match pf_status (pending_file (verified_data sd v)) with
    | SInProgress (mk_in_progress Prepared td) =>
        do! set_peer node (mk_peer_files pending (Some (set_status (verified_data sd v) (SInProgress (mk_in_progress Sending td))))) in
        ret ASendChunks
    | _ => do! set_peer node (mk_peer_files pending (Some (verified_data sd v))) in ret AProtocolViolation
    end) (good s1) s1) as Hgo.
  { destruct (pf_status (pending_file (verified_data sd v))) as [|[[] td]| | | |] eqn:Hst;
      (eapply good_seq; [apply good_set_peer; [done|]|intros; auto with tracker]; split; [done|]; intros sd' [= <-]; try done).
    by eapply sending_ok_set_sending. }
  destruct v; try exact Hgo; [|auto with tracker].
  eapply good_seq; [by apply reset_all_good|]. intros; auto with tracker.
Qed.

Lemma on_accept_continue_transfer_good node connected offset s :
  inv s -> wp (on_accept_continue_transfer node connected offset) (good s) s.
Proof.
  intros HI. apply wp_lookup_bind. intros [[pending [sd|]]|] Hp; [|auto with tracker|by apply not_offered_good].
  destruct (inv_lookup _ _ _ HI Hp) as [HF Hsd]. specialize (Hsd sd eq_refl).
  apply verify_seq; [done|]. intros v s1 HI1 HG1 _ Hun.
  pose proof (verified_data_ok s s1 node sd v Hsd HG1 Hun) as Hvd. cbn zeta.
  destruct (decide (v = VerificationFailed)) as [->|].
  { eapply good_seq; [by apply reset_all_good|]. intros; auto with tracker. }
  destruct (decide (v = VerificationInternalError)) as [->|]; [auto with tracker|].
  set (vd := verified_data sd v) in *.
  match goal with |- wp (match v with Verified => ?g | _ => _ end) _ _ => assert (wp g (good s1) s1) as Hgo; [|by destruct v] end.
  destruct (pf_status (pending_file vd)) as [|[[] td]| | | |] eqn:Hst;
    try (eapply good_seq; [apply good_set_peer; [done|]|intros; auto with tracker]; split; [done|]; by intros sd' [= <-]).
  destruct (unlock_mut _ connected) as [[manager f]|] eqn:Hu; [|done].
  apply unlock_mut_cases in Hu as (-> & -> & _).
  eapply good_seq; [apply good_set_peer; [done|]|intros; auto with tracker]. split; [done|]. intros sd' [= <-].
  apply (sending_ok_manager _ node (set_status vd (SInProgress (mk_in_progress Sending
           (mk_transfer_data offset (file_size_bytes td) (transfer_id td)))))
           (sm_set_progress (send_manager vd) offset)); [|done].
  by eapply sending_ok_set_sending.
Qed.

(** Rejections: the file is taken and, once verified, completed. *)
Lemma put_back_ok s s1 s2 node pending sd :
  grows s s1 -> grows s1 s2 -> Forall (fun f => status_waiting (pf_status f)) pending ->
  sending_ok (trace s) node sd -> peer_ok (trace s2) node (mk_peer_files pending (Some sd)).
Proof. intros H1 H2 HF Hsd. split; [done|]. intros sd' [= <-]. eapply (sending_ok_grows s); [by etransitivity|done]. Qed.

Lemma rejected_good node connected pending sd s s1 :
  inv s1 -> grows s s1 -> Forall (fun f => status_waiting (pf_status f)) pending -> sending_ok (trace s) node sd ->
  wp (let! v := verify_target_contact_id node (pf_contact_id (pending_file sd)) connected in
      match v with
      | VerificationFailed =>
          do! set_peer node (mk_peer_files pending (Some sd)) in do! reset_all node in ret AReturn
      | VerificationInternalError => do! set_peer node (mk_peer_files pending (Some sd)) in ret AInternalError
      | _ => do! complete_file chunk_size node (mk_peer_files pending None) (pf_id (pending_file sd)) OutcomeRejected in ret AReturn
      end) (good s1) s1.
Proof.
  intros HI1 HG1 HF Hsd. apply verify_seq; [done|]. intros v s2 HI2 HG2 _ _.
  pose proof (put_back_ok s s1 s2 node pending sd HG1 HG2 HF Hsd) as Hback.
  destruct v.
  - eapply good_seq; [apply complete_file_good; auto with tracker; done|]. intros; auto with tracker.
  - eapply good_seq; [apply complete_file_good; auto with tracker; done|]. intros; auto with tracker.
  - eapply good_seq; [by apply good_set_peer|]. intros _ s3 HI3 HG3.
    eapply good_seq; [by apply reset_all_good|]. intros; auto with tracker.
  - eapply good_seq; [by apply good_set_peer|]. intros; auto with tracker.
Qed.

(** A handler that takes the file being sent. *)
Lemma take_seq {A} node p (f : option (LockedSendData Z F E) -> M W F E A) s :
  inv s -> peer_ok (trace s) node p ->
  (forall s', inv s' -> grows s s' -> wp (f (pf_sending p)) (good s') s') ->
  wp (bind (take_sending node p) f) (good s) s.
Proof.
  intros HI Hp Hf. apply wp_good_bind. eapply wp_mono; [by apply take_sending_good|].
  intros r s' [[HI' HG'] ->]. split; [done|]. by apply Hf.
Qed.

Lemma on_reject_new_transfer_good node connected s : inv s -> wp (on_reject_new_transfer chunk_size node connected) (good s) s.
Proof.
  intros HI. apply wp_lookup_bind. intros [p|] Hp; [|by apply not_offered_good].
  pose proof (inv_lookup _ _ _ HI Hp) as Hok. apply take_seq; [done..|]. intros s1 HI1 HG1. destruct Hok as [HF Hsd].
  destruct (pf_sending p) as [sd|]; [|auto with tracker]. apply (rejected_good _ _ _ _ s); auto.
Qed.

Lemma on_reject_continue_transfer_good node connected s :
  inv s -> wp (on_reject_continue_transfer chunk_size node connected) (good s) s.
Proof.
  intros HI. apply wp_lookup_bind. intros [p|] Hp; [|auto with tracker].
  pose proof (inv_lookup _ _ _ HI Hp) as Hok. apply take_seq; [done..|]. intros s1 HI1 HG1. destruct Hok as [HF Hsd].
  destruct (pf_sending p) as [sd|].
  - apply (rejected_good _ _ _ _ s); auto.
  - eapply good_seq; [by apply reset_all_on_protocol_violation_for_good|]. intros; auto with tracker.
Qed.

Lemma on_confirm_chunk_good node connected rid s : inv s -> wp (on_confirm_chunk node connected rid) (good s) s.
Proof.
  intros HI. apply wp_lookup_bind. intros [[pending sending]|] Hp; [|by apply not_offered_good].
  destruct (inv_lookup _ _ _ HI Hp) as [HF Hsd]. destruct rid as [id|]; [|auto with tracker].
  destruct sending as [sd|]; [|auto with tracker]. specialize (Hsd sd eq_refl).
  destruct (unlock_mut sd connected) as [[manager f]|] eqn:Hu.
  2:{ eapply good_seq; [by apply reset_all_good|]. intros; auto with tracker. }
  apply unlock_mut_cases in Hu as (-> & -> & _).
  destruct (pf_status (pending_file sd)) as [|[[] td]| | | |] eqn:Hst; auto with tracker.
  unfold wp. destruct (receive_ack (send_manager sd) id) as [manager| | |] eqn:Ha; try done. cbn [outcome_bind].
  apply receive_ack_tid in Ha. set (body := do! _ in _). change (wp body (good s) s). subst body.
  eapply good_seq; [apply good_set_peer; [done|]|].
  { split; [done|]. intros sd' [= <-]. destruct Hsd as (ip & td' & Hst' & ? & Htid & Hv & _).
    assert (td' = td) as -> by congruence. eexists _, _. split_and!; try done. cbn. congruence. }
  intros _ s1 HI1 HG1. eapply good_seq; [by apply good_notify|]. intros; auto with tracker.
Qed.

Lemma on_reject_chunk_good node s : inv s -> wp (on_reject_chunk chunk_size node) (good s) s.
Proof.
  intros HI. apply wp_lookup_bind. intros [p|] Hp; [|by apply not_offered_good].
  pose proof (inv_lookup _ _ _ HI Hp) as Hok. apply take_seq; [done..|]. intros s1 HI1 HG1. destruct Hok as [HF Hsd].
  destruct (pf_sending p) as [sd|]; [|auto with tracker].
  destruct (pf_status (pending_file sd)) as [|[[] td]| | | |]; auto with tracker.
  eapply good_seq; [apply complete_file_good; auto with tracker; done|]. intros; auto with tracker.
Qed.

Lemma on_confirm_abort_good node s : inv s -> wp (on_confirm_abort chunk_size node) (good s) s.
Proof.
  intros HI. apply wp_lookup_bind. intros [p|] Hp; [|auto with tracker]. destruct (pf_sending p); [auto with tracker|].
  eapply good_seq; [apply send_next_good; eauto with tracker|]. intros; auto with tracker.
Qed.

Lemma on_done_answer_good node o s :
  o = OutcomeSent \/ o = OutcomeRejected -> inv s -> wp (on_done_answer chunk_size node o) (good s) s.
Proof.
  intros Ho HI. apply wp_lookup_bind. intros [[pending [sd|]]|] Hp; [|auto with tracker|by apply not_offered_good].
  destruct (inv_lookup _ _ _ HI Hp) as [HF Hsd]. specialize (Hsd sd eq_refl).
  destruct (pf_status (pending_file sd)) as [|[[] td]| | | |] eqn:Hst; auto with tracker.
  eapply good_seq; [apply good_set_peer; auto with tracker|]. intros _ s1 HI1 HG1.
  eapply good_seq; [apply complete_file_good; auto with tracker|intros; auto with tracker].
  destruct Ho as [-> | ->]; [|done]. cbn. apply (sending_ok_grows s s1) in Hsd; [|done].
  destruct Hsd as (ip & td' & Hst' & _ & _ & _ & Hdone). assert (ip = PendingSent) as -> by congruence. eauto.
Qed.

Lemma on_protocol_violation_good node s : inv s -> wp (on_protocol_violation chunk_size node) (good s) s.
Proof.
  intros HI. apply wp_lookup_bind. intros [p|] Hp; [|auto with tracker].
  pose proof (inv_lookup _ _ _ HI Hp) as Hok. apply take_seq; [done..|]. intros s1 HI1 HG1. destruct Hok as [HF Hsd].
  destruct (pf_sending p) as [sd|]; [|auto with tracker].
  eapply good_seq; [apply reset_and_retry_good; auto with tracker|]. intros; auto with tracker.
Qed.

Lemma on_internal_error_good node s : inv s -> wp (on_internal_error node) (good s) s.
Proof.
  intros HI. apply wp_lookup_bind. intros [p|] Hp; [|auto with tracker].
  pose proof (inv_lookup _ _ _ HI Hp) as Hok. apply take_seq; [done..|]. intros s1 HI1 HG1. destruct Hok as [HF Hsd].
  destruct (pf_sending p) as [sd|]; [|auto with tracker].
  eapply good_seq; [apply reset_and_stop_good; auto with tracker|]. intros; auto with tracker.
Qed.

Lemma response_section_good node connected rid r s :
  inv s -> wp (response_section chunk_size node connected rid r) (good s) s.
Proof.
  intros HI. destruct r; simpl; auto using on_accept_new_transfer_good, on_reject_new_transfer_good,
    on_accept_continue_transfer_good, on_confirm_chunk_good, on_reject_chunk_good, on_confirm_abort_good,
    on_done_answer_good, on_protocol_violation_good, on_internal_error_good, on_reject_continue_transfer_good, good_ret;
  apply on_done_answer_good; auto.
Qed.

Lemma receive_response_good node connected rid r s : inv s -> wp (receive_response chunk_size node connected rid r) (good s) s.
Proof.
  intros HI. assert (wp (let! a := locked (response_section chunk_size node connected rid r) in
    run_after chunk_size node connected a) (good s) s) as Hgo.
  { eapply good_seq; [apply good_locked; [done|by apply response_section_good]|]. intros a s1 HI1 HG1. by apply run_after_good. }
  destruct r; try exact Hgo. by apply (good_ret tt).
Qed.


(** ** Errors and commands *)

Lemma handle_receive_error_good node error s : inv s -> wp (handle_receive_error chunk_size node error) (good s) s.
Proof.
  intros HI. apply good_locked; [done|]. set (s0 := set_lock s true). assert (inv s0) as HI0 by done.
  apply wp_lookup_bind. intros [p|] Hp; [|auto with tracker]. pose proof (inv_lookup _ _ _ HI0 Hp) as Hok.
  apply take_seq; [done..|]. intros s1 HI1 HG1. destruct Hok as [HF Hsd].
  destruct (pf_sending p) as [sd|]; [|auto with tracker].
  destruct error as [d|[|[] d|d|d|d]];
    (apply reset_and_retry_good || apply reset_and_stop_good || apply complete_file_good); auto with tracker; done.
Qed.

Lemma add_pending_file_good peer f s : inv s -> wp (add_pending_file peer f) (good s) s.
Proof.
  intros HI. unfold add_pending_file. eapply good_seq.
  2:{ intros [] s1 HI1 HG1; auto with tracker. }
  apply good_locked; [done|]. set (s0 := set_lock s true). assert (inv s0) as HI0 by done.
  destruct (pf_status f) as [|[[] td]| | | |] eqn:Hst; auto with tracker;
    (apply wp_lookup_bind; intros o Hp; eapply good_seq; [apply good_set_peer; [done|]|intros; auto with tracker]).
  all: destruct o as [p|]; cbn; [destruct (inv_lookup _ _ _ HI0 Hp) as [HF Hsd]; split; [|done]|apply peer_ok_empty]; cbn.
  all: try (apply Forall_app; split; [done|]); apply Forall_singleton; by rewrite Hst.
Qed.

Lemma trigger_interaction_with_good peer s : inv s -> wp (trigger_interaction_with chunk_size peer) (good s) s.
Proof.
  intros HI. apply good_locked; [done|]. set (s0 := set_lock s true). assert (inv s0) as HI0 by done.
  apply wp_lookup_bind. intros [p|] Hp; [|auto with tracker]. destruct (pf_sending p); [auto with tracker|].
  apply send_next_good; eauto with tracker.
Qed.

Lemma cancel_selected_good peer p sel s :
  inv s -> peer_ok (trace s) peer p -> wp (cancel_selected chunk_size peer p sel) (good s) s.
Proof.
  intros HI [HF Hsd].
  assert (wp (cancel_pending peer p sel) (good s) s) as Hpend.
  { unfold cancel_pending. cbn zeta. eapply good_seq; [apply good_set_peer; [done|]|].
    - split; [|done]. cbn. apply Forall_forall. intros f Hf. apply list_elem_of_In, filter_In in Hf as [Hf _].
      apply list_elem_of_In in Hf. by apply (proj1 (Forall_forall _ (pf_pending p)) HF).
    - intros _ s1 HI1 HG1. case_goal; [|auto with tracker]. eapply good_seq; [by apply good_plugin|]. intros; auto with tracker. }
  unfold cancel_selected. destruct (pf_sending p) as [sd|]; [|done]. case_goal; [|done].
  eapply good_seq; [|intros; auto with tracker]. unfold cancel_sending.
  eapply good_seq; [apply good_set_peer; auto with tracker|]. intros _ s1 HI1 HG1.
  eapply good_seq; [by apply good_send'|]. intros _ s2 HI2 HG2.
  eapply good_seq; [by apply good_plugin|]. intros _ s3 HI3 HG3. apply send_next_good; auto with tracker.
Qed.

Lemma cancel_file_good id s : inv s -> wp (cancel_file chunk_size id) (good s) s.
Proof.
  intros HI. apply good_locked; [done|]. set (s0 := set_lock s true). assert (inv s0) as HI0 by done. unfold wp.
  destruct (List.find _ _) as [[peer p]|] eqn:Hf; [|by apply (good_ret (None : option PeerId))].
  apply find_some in Hf as [Hin _]. apply list_elem_of_In, elem_of_map_to_list in Hin.
  apply cancel_selected_good; [done|by eapply inv_lookup].
Qed.

Lemma cancel_file_by_target_good target peer s : inv s -> wp (cancel_file_by_target chunk_size target peer) (good s) s.
Proof.
  intros HI. apply good_locked; [done|]. set (s0 := set_lock s true). assert (inv s0) as HI0 by done.
  apply wp_lookup_bind. intros [p|] Hp; [|auto with tracker]. apply cancel_selected_good; [done|by eapply inv_lookup].
Qed.

Lemma reset_for_disconnected_peer_good peer s : inv s -> wp (reset_for_disconnected_peer peer) (good s) s.
Proof.
  intros HI. unfold reset_for_disconnected_peer. eapply good_seq; [by apply good_locked|].
  intros [] s1 HI1 HG1; [|auto with tracker]. apply good_locked; [done|].
  eapply good_seq; [by apply reset_all_good|]. intros; auto with tracker.
Qed.

End Preservation.

(** ** Reachable states *)

Section Reachable.
Context {W F E : Type} `{!AsyncFile F E} `{!TrackerEnv W F E} (chunk_size : nat).
Implicit Types (s : tracker W F E).

(** What can happen to the tracker. Tasks interleave between their critical
    sections, so these are operations of their own too: [OpSection] is the first
    critical section of a response, [OpAfter] what a response does once it has
    dropped the lock and [OpChunks] one turn of a sending loop. [OpWorld] is whatever
    the rest of the program does to the surroundings in between. *)
Inductive tracker_op :=
| OpResponse (node : PeerId) (connected : option ContactId) (request_id : option Z) (r : FileResponse)
| OpError (node : PeerId) (error : ReceiveError)
| OpChunks (node : PeerId) (connected : option ContactId)
| OpAdd (peer : PeerId) (file : PendingFile)
| OpTrigger (peer : PeerId)
| OpCancel (file_id : FylesId)
| OpCancelTarget (target : FylesId) (peer : PeerId)
| OpDisconnected (peer : PeerId)
| OpConnectionError (peer : PeerId)
| OpNonCorrelatable (peer : PeerId)
| OpSection (node : PeerId) (connected : option ContactId) (request_id : option Z) (r : FileResponse)
| OpAfter (node : PeerId) (connected : option ContactId) (a : after)
| OpWorld (w : W).

Definition run_op (op : tracker_op) : M W F E unit :=
  match op with
  | OpResponse node connected rid r => receive_response chunk_size node connected rid r
  | OpError node e => handle_receive_error chunk_size node e
  | OpChunks node connected => do! send_chunks_step chunk_size node connected in ret tt
  | OpAdd peer f => add_pending_file peer f
  | OpTrigger peer => trigger_interaction_with chunk_size peer
  | OpCancel id => do! cancel_file chunk_size id in ret tt
  | OpCancelTarget target peer => do! cancel_file_by_target chunk_size target peer in ret tt
  | OpDisconnected peer => reset_for_disconnected_peer peer
  | OpConnectionError peer => handle_outgoing_connection_error peer
  | OpNonCorrelatable peer => handle_non_correlatable_error peer
  | OpSection node connected rid r => do! locked (response_section chunk_size node connected rid r) in ret tt
  | OpAfter node connected a => run_after chunk_size node connected a
  | OpWorld w => fun s => Ret (tt, set_world s w)
  end.

(** The new tracker ([with_plugin]). *)
Definition tracker_new (w : W) : tracker W F E := mk_tracker ∅ false [] w.

Inductive reachable (w : W) : tracker W F E -> Prop :=
| reach_new : reachable w (tracker_new w)
| reach_op s s' op : reachable w s -> run_op op s = Ret (tt, s') -> reachable w s'.

Lemma run_op_good op s : inv s -> wp (run_op op) (good s) s.
Proof.
  intros HI. destruct op; simpl; auto using receive_response_good, handle_receive_error_good, add_pending_file_good,
    trigger_interaction_with_good, reset_for_disconnected_peer_good, run_after_good, good_plugin.
  all: try (by apply good_plugin).
  all: try (by split; [|exists []]).
  all: eapply good_seq; [|intros; by apply good_ret];
    auto using send_chunks_step_good, cancel_file_good, cancel_file_by_target_good, good_locked, response_section_good.
Qed.

Lemma reachable_inv w s : reachable w s -> inv s.
Proof.
  induction 1 as [|s s' op _ IH E']; [split; [apply map_Forall_empty|done]|].
  pose proof (run_op_good op s IH) as Hg. unfold wp in Hg. rewrite E' in Hg. apply Hg.
Qed.

Lemma trace_ok_split post e (t : list (event E)) : trace_ok (post ++ e :: t) -> event_ok e t.
Proof. induction post as [|x post IH]; intros [? ?]; auto. Qed.

(** C10 In every reachable state the queues hold only files that wait (pending or
    interrupted) and the file being sent is prepared, sending or done, with a send
    manager for the very transfer its status names. So no file ever takes one of
    the branches of [send_next] for a nonsense status. *)
Theorem tracker_status_invariant w s node p :
  reachable w s -> files s !! node = Some p ->
  Forall (fun f => status_waiting (pf_status f)) (pf_pending p) /\
  forall sd, pf_sending p = Some sd ->
    exists ip td, pf_status (pending_file sd) = SInProgress (mk_in_progress ip td) /\ ip <> Interrupted /\
      get_transfer_id sd = transfer_id td.
Proof.
  intros HR Hp. destruct (inv_lookup _ _ _ (reachable_inv w s HR) Hp) as [HF Hsd]. split; [done|].
  intros sd Hs. destruct (Hsd sd Hs) as (ip & td & ? & ? & ? & _). by exists ip, td.
Qed.

(** C3 A chunk is sent only in a response of the very contact the file is meant
    for, or after the brain has said that it does not know this contact. A known
    contact's file never goes to anybody else. *)
Theorem chunks_only_to_verified_contact w s newer older peer connected target chunk sent :
  reachable w s -> trace s = newer ++ EvChunk peer connected target chunk sent :: older ->
  connected = Some target \/ EvContactKnown target (Some false) ∈ older.
Proof.
  intros HR Ht. assert (event_ok (EvChunk peer connected target chunk sent) older) as He; [|exact He].
  apply (trace_ok_split newer). rewrite <- Ht. apply (reachable_inv w s HR).
Qed.

(** A file is reported as sent only after a [Done] request went out; and what
    the brain is told to store on a reset is always a status from which the file
    can be added again. *)
Theorem reported_outcomes_are_justified w s newer older a :
  reachable w s -> trace s = newer ++ EvNotify a :: older ->
  match a with
  | FileSent _ => exists peer contact tid, EvSend peer contact (Done tid) true ∈ older
  | FileSendReset _ st _ _ => status_waiting st
  | _ => True
  end.
Proof.
  intros HR Ht. assert (event_ok (EvNotify a) older) as He.
  { apply (trace_ok_split newer). rewrite <- Ht. apply (reachable_inv w s HR). }
  by destruct a.
Qed.

(** Running a list of operations. *)
Fixpoint run_ops (ops : list tracker_op) s : outcome (tracker W F E) :=
  match ops with
  | [] => Ret s
  | op :: ops => let? x := run_op op s in run_ops ops x.2
  end.

Lemma run_ops_reachable w ops : forall s s', reachable w s -> run_ops ops s = Ret s' -> reachable w s'.
Proof.
  induction ops as [|op ops IH]; intros s s' HR; simpl; [by intros [= <-]|].
  destruct (run_op op s) as [[[] s1]| | |] eqn:E1; try done. intros E2. eapply IH; [|exact E2]. by eapply reach_op.
Qed.

End Reachable.

(** ** A sample run *)

Module MemTracker.
Import MemFile.

(** Requests are numbered; the brain knows every contact but ["bob"]; every file
    has the bytes 1, 2, 3. *)
#[export] Instance mem_tracker : TrackerEnv Z file unit := {
  tracker_send _ _ _ w := (Some w, w + 1);
  tracker_send_idempotent _ _ _ w := (Some w, w + 1);
  is_contact_known c w := Ret (Ok (negb (bool_decide (c = "bob"%string))), w);
  open_file_for_reading _ _ _ w := Ret (Some (([1; 2; 3], 0%nat), "name"%string), w);
  file_metadata_len _ w := (Some 3, w);
  new_fyles_id w := ("t"%string, w);
  notify_brain _ w := (true, w);
  call_plugin _ w := w;
}.

Definition sample_file : PendingFile := mk_pending_file "f" "alice" "/f" 0 "fr" SPending None [].

(** A transfer of two chunks. *)
Definition sample_ops : list (tracker_op (W := Z)) :=
  [OpAdd "p" sample_file; OpTrigger "p"; OpResponse "p" (Some "alice"%string) (Some 0) AcceptNewTransfer;
   OpResponse "p" (Some "alice"%string) (Some 2) ConfirmChunk; OpResponse "p" (Some "alice"%string) (Some 1) ConfirmChunk;
   OpResponse "p" (Some "alice"%string) (Some 3) ConfirmDone].

Definition state_after (n : nat) : tracker Z file unit :=
  match run_ops 2 (take n sample_ops) (tracker_new 0) with Ret s => s | _ => tracker_new 0 end.

Lemma state_after_reachable n : reachable 2 0 (state_after n).
Proof.
  unfold state_after. destruct (run_ops 2 (take n sample_ops) (tracker_new 0)) as [s| | |] eqn:Er; try constructor.
  eapply run_ops_reachable; [constructor|exact Er].
Qed.

End MemTracker.
Import MemTracker.

Lemma tracker_status_invariant_witness :
  Forall (fun f => status_waiting (pf_status f)) (pf_pending (mk_peer_files [sample_file] (None : option (Locked MemFile.file unit)))).
Proof.
  refine (proj1 (tracker_status_invariant 2 0 (state_after 1) "p" (mk_peer_files [sample_file] None) (state_after_reachable 1) _)).
  vm_compute. reflexivity.
Defined.

Lemma chunks_only_to_verified_contact_witness :
  Some "alice"%string = Some "alice"%string \/ EvContactKnown "alice" (Some false) ∈ drop 1 (trace (state_after 3)).
Proof.
  refine (chunks_only_to_verified_contact 2 0 (state_after 3) [] (drop 1 (trace (state_after 3)))
    "p" (Some "alice"%string) "alice" (mk_chunk "t" [3] 1) true (state_after_reachable 3) _).
  vm_compute. reflexivity.
Defined.

Lemma reported_outcomes_are_justified_witness :
  exists peer contact tid, EvSend peer contact (Done tid) true ∈ drop 2 (trace (state_after 6)).
Proof.
  refine (reported_outcomes_are_justified 2 0 (state_after 6) (take 1 (trace (state_after 6))) (drop 2 (trace (state_after 6)))
    (FileSent "f") (state_after_reachable 6) _).
  vm_compute. reflexivity.
Defined.
