(* ===== verification/TrackerAccounting.v ===== *)
(** * Accounting of the tracked files

    Every file that leaves the tracker is reported to the brain with exactly one
    outcome ([FileOutcome]): the identifiers in the tracker before an operation
    are those in it afterwards plus those reported. Two paths break the rule and lose
    one file each; they are counted ([lost], [stray_reject_chunk]). *)

From S2P Require Import Prelude Domain FileReader SendManager FileTracker TrackerInvariant.

Section Accounting.
Context {W F E : Type} `{!AsyncFile F E} `{!TrackerEnv W F E} (chunk_size : nat).
Implicit Types (s : tracker W F E) (node k : PeerId) (p : PeerFiles F E) (sd : LockedSendData Z F E) (ids : list FylesId).

Definition sending_ids (o : option (LockedSendData Z F E)) : list FylesId :=
  match o with Some sd => [pf_id (pending_file sd)] | None => [] end.

Definition peer_ids p : list FylesId := (pf_id <$> pf_pending p) ++ sending_ids (pf_sending p).

(** The files the tracker holds for a peer. *)
Definition ids_of s node : list FylesId :=
  match files s !! node with Some p => peer_ids p | None => [] end.

(** The file whose outcome an event reports. *)
Definition outcome_of (e : event E) : list FylesId :=
  match e with
  | EvNotify (FileSent id) | EvNotify (FileRejected id) | EvNotify (FileFailed id) | EvNotify (FileMissing id)
  | EvNotify (FileIoError id _) => [id]
  | _ => []
  end.

Definition outcomes (t : list (event E)) : list FylesId := concat (outcome_of <$> t).

(** Failed requests to continue a transfer. *)
Definition is_failed_continue (e : event E) : bool :=
  match e with EvSend _ _ (ContinueTransfer _ _) false => true | _ => false end.

Definition lost (t : list (event E)) : nat := length (List.filter is_failed_continue t).

Lemma outcomes_app t1 t2 : outcomes (t1 ++ t2) = outcomes t1 ++ outcomes t2.
Proof. unfold outcomes. by rewrite fmap_app, concat_app. Qed.

Lemma lost_app t1 t2 : lost (t1 ++ t2) = (lost t1 + lost t2)%nat.
Proof. unfold lost. by rewrite List.filter_app, length_app. Qed.

(** From [s] on, the files [ids] of the peer were kept, reported, or lost. *)
Definition acct node ids s s' : Prop :=
  exists new gone, trace s' = new ++ trace s /\ ids ≡ₚ ids_of s' node ++ outcomes new ++ gone /\
    length gone = lost new /\ forall k, k <> node -> files s' !! k = files s !! k.

(** Nothing was reported or lost; only the entry of the peer may have changed. *)
Definition silent node s s' : Prop :=
  exists new, trace s' = new ++ trace s /\ outcomes new = [] /\ lost new = 0%nat /\
    lock s' = lock s /\ forall k, k <> node -> files s' !! k = files s !! k.

Lemma silent_refl node s : silent node s s.
Proof. by exists []. Qed.

Lemma acct_silent node ids s s1 s2 : silent node s s1 -> acct node ids s1 s2 -> acct node ids s s2.
Proof.
  intros (n1 & E1 & O1 & L1 & _ & F1) (n2 & gone & E2 & HP & Hl & F2). exists (n2 ++ n1), gone.
  rewrite E2, E1, outcomes_app, lost_app, O1, L1, app_nil_r. split_and!; [by rewrite app_assoc|done|lia|].
  intros k Hk. by rewrite F2, F1.
Qed.

Lemma acct_trans node ids s s1 s2 : acct node ids s s1 -> acct node (ids_of s1 node) s1 s2 -> acct node ids s s2.
Proof.
  intros (n1 & g1 & E1 & P1 & L1 & F1) (n2 & g2 & E2 & P2 & L2 & F2). exists (n2 ++ n1), (g2 ++ g1).
  rewrite E2, E1, outcomes_app, lost_app, length_app, P1, P2. split_and!; [by rewrite app_assoc|solve_Permutation|lia|].
  intros k Hk. by rewrite F2, F1.
Qed.

Lemma acct_keep node ids s s' : silent node s s' -> ids ≡ₚ ids_of s' node -> acct node ids s s'.
Proof.
  intros (n & E1 & O1 & L1 & _ & F1) HP. exists n, []. rewrite O1, L1, !app_nil_r. by split_and!.
Qed.

Lemma acct_perm node ids ids' s s' : ids ≡ₚ ids' -> acct node ids' s s' -> acct node ids s s'.
Proof. intros HP (n & g & E1 & P1 & ?). exists n, g. split_and!; try done; [by rewrite HP|naive_solver..]. Qed.

(** The entry of the peer decides its files. *)
Lemma ids_of_lookup s node p : files s !! node = Some p -> ids_of s node = peer_ids p.
Proof. unfold ids_of. by intros ->. Qed.

(** ** Rules *)

Lemma wp_acct_bind {A B} (m : M W F E A) (f : A -> M W F E B) node ids s :
  wp m (fun a s1 => silent node s s1 /\ wp (f a) (fun _ => acct node ids s1) s1) s ->
  wp (bind m f) (fun _ => acct node ids s) s.
Proof.
  intros Hm. apply wp_bind. eapply wp_mono; [exact Hm|]. intros a s1 [Hs Hf]. eapply wp_mono; [exact Hf|].
  intros b s2. by apply acct_silent.
Qed.

(** Calls to the surroundings change nothing in the map. *)
Definition outside s e s' : Prop := files s' = files s /\ lock s' = lock s /\ trace s' = e :: trace s.

Lemma wp_send_eq node contact req s (Q : option Z -> tracker W F E -> Prop) :
  (forall r s', outside s (EvSend node contact req (bool_decide (is_Some r))) s' -> Q r s') ->
  wp (send node contact req) Q s.
Proof. intros HQ. unfold wp, send. destruct (tracker_send node contact req (world s)) as [r w]. by apply HQ. Qed.

Lemma wp_notify_eq a s (Q : unit -> tracker W F E -> Prop) :
  (forall s', outside s (EvNotify a) s' -> Q tt s') -> wp (notify a) Q s.
Proof. intros HQ. unfold wp, notify. destruct (notify_brain a (world s)). by apply HQ. Qed.

Lemma wp_notify_expect_eq a s (Q : unit -> tracker W F E -> Prop) :
  (forall s', outside s (EvNotify a) s' -> Q tt s') -> wp (notify_expect a) Q s.
Proof. intros HQ. unfold wp, notify_expect. destruct (notify_brain a (world s)) as [[] w]; [|done]. by apply HQ. Qed.

Lemma wp_plugin_eq c s (Q : unit -> tracker W F E -> Prop) :
  (forall s', outside s (EvPlugin c) s' -> Q tt s') -> wp (plugin c) Q s.
Proof. intros HQ. by apply HQ. Qed.

Lemma wp_set_peer_eq node p s (Q : unit -> tracker W F E -> Prop) :
  (forall s', files s' = <[node := p]> (files s) -> lock s' = lock s -> trace s' = trace s -> Q tt s') ->
  wp (set_peer node p) Q s.
Proof. intros HQ. by apply HQ. Qed.

Lemma outside_silent node s e s' : outcome_of e = [] -> is_failed_continue e = false -> outside s e s' -> silent node s s'.
Proof.
  intros Ho Hf (EF & EL & ET). exists [e]. unfold outcomes, lost. cbn. rewrite Ho, Hf. split_and!; try done. by rewrite EF.
Qed.

Lemma set_silent node p s s' :
  files s' = <[node := p]> (files s) -> lock s' = lock s -> trace s' = trace s -> silent node s s'.
Proof.
  intros EF EL ET. exists []. split_and!; try done. intros k Hk. rewrite EF. by apply lookup_insert_ne.
Qed.

Lemma outside_ids s e s' node : outside s e s' -> ids_of s' node = ids_of s node.
Proof. intros (EF & _). unfold ids_of. by rewrite EF. Qed.

(** A report of [id]'s outcome pays for [id]. *)
Lemma acct_report node id ids s e s1 s2 :
  outcome_of e = [id] -> is_failed_continue e = false -> outside s e s1 -> acct node ids s1 s2 ->
  acct node (id :: ids) s s2.
Proof.
  intros Ho Hf (EF & _ & ET) (n & g & E1 & P1 & L1 & F1). exists (n ++ [e]), g.
  rewrite E1, ET, outcomes_app, lost_app. unfold outcomes at 2, lost at 2. cbn. rewrite Ho, Hf, P1. cbn.
  split_and!; [by rewrite <- app_assoc|solve_Permutation|lia|]. intros k Hk. by rewrite F1, EF.
Qed.

(** A failed continuation loses the file in hand. *)
Lemma acct_lost node id ids s e s1 s2 :
  outcome_of e = [] -> is_failed_continue e = true -> outside s e s1 -> acct node ids s1 s2 ->
  acct node (id :: ids) s s2.
Proof.
  intros Ho Hf (EF & _ & ET) (n & g & E1 & P1 & L1 & F1). exists (n ++ [e]), (id :: g).
  rewrite E1, ET, outcomes_app, lost_app. unfold outcomes at 2, lost at 2. cbn. rewrite Ho, Hf, P1. cbn.
  split_and!; [by rewrite <- app_assoc|rewrite app_nil_r; solve_Permutation|lia|]. intros k Hk. by rewrite F1, EF.
Qed.


Lemma silent_trans node s1 s2 s3 : silent node s1 s2 -> silent node s2 s3 -> silent node s1 s3.
Proof.
  intros (n1 & E1 & O1 & L1 & K1 & F1) (n2 & E2 & O2 & L2 & K2 & F2). exists (n2 ++ n1).
  rewrite E2, E1, outcomes_app, lost_app, O1, O2, L1, L2, K2, K1. split_and!; try done; [by rewrite app_assoc|].
  intros k Hk. by rewrite F2, F1.
Qed.

(** Silence of a step known by its effect. *)
Ltac silent :=
  first [ by eapply set_silent | eapply outside_silent; [| |eassumption]; done | apply silent_refl ].

(** The next call of an operation, when it is silent. *)
Ltac quiet l := apply wp_acct_bind; apply l; intros; split; [silent|].

Lemma announce_acct node f ids s :
  ids ≡ₚ ids_of s node -> wp (announce_sending node f) (fun _ => acct node ids s) s.
Proof.
  intros HP. unfold announce_sending. apply wp_acct_bind.
  assert (forall s1, silent node s s1 -> files s1 = files s ->
    silent node s s1 /\ wp (plugin (OnSendFile node)) (fun _ => acct node ids s1) s1) as Hend.
  { intros s1 Hs EF. split; [done|]. apply wp_plugin_eq. intros s2 H2. apply acct_keep; [silent|].
    rewrite (outside_ids _ _ _ node H2). unfold ids_of. rewrite EF. exact HP. }
  destruct (pf_status f) as [|[[] ?]| | | |];
    try (apply wp_ret, Hend; [silent|done]);
    apply wp_notify_expect_eq; intros s1 H1; (apply Hend; [silent|apply H1]).
Qed.

Lemma ids_after_set s s' node p : files s' = <[node := p]> (files s) -> ids_of s' node = peer_ids p.
Proof. intros EF. unfold ids_of. by rewrite EF, lookup_insert_eq. Qed.

Lemma start_transfer_acct node f rest file name size (next : M W F E unit) s :
  files s !! node = Some (mk_peer_files rest None) ->
  (forall s', wp next (fun _ => acct node (pf_id <$> rest) s') s') ->
  wp (start_transfer chunk_size node f rest None file name size next) (fun _ => acct node (pf_id f :: (pf_id <$> rest)) s) s.
Proof.
  intros Hent Hnext. unfold start_transfer.
  assert (wp (do! notify_expect (FileFailed (pf_id f)) in next) (fun _ => acct node (pf_id f :: (pf_id <$> rest)) s) s) as Hfail.
  { apply wp_bind, wp_notify_expect_eq. intros s1 H1. eapply wp_mono; [apply Hnext|]. intros a s2 Ha. by eapply acct_report; [| |exact H1|exact Ha]. }
  destruct (pf_status f) as [|[[] td]| | | |]; try exact Hfail.
  - apply wp_bind. unfold wp at 1, fresh_id. destruct (new_fyles_id (world s)) as [tid w].
    apply wp_bind, wp_send_eq. intros r s1 H1.
    assert (silent node s s1) as Hs by silent. destruct r as [id|].
    + apply wp_bind, wp_set_peer_eq. intros s2 EF EL ET.
      eapply wp_mono; [apply (announce_acct node _ (pf_id f :: (pf_id <$> rest)))|].
      * rewrite (ids_after_set _ _ _ _ EF). unfold peer_ids. cbn. solve_Permutation.
      * intros ? s3 Ha. eapply acct_silent; [exact Hs|]. eapply acct_silent; [silent|exact Ha].
    + apply wp_set_peer_eq. intros s2 EF EL ET. eapply acct_silent; [exact Hs|].
      apply acct_keep; [silent|]. rewrite (ids_after_set _ _ _ _ EF). unfold peer_ids. cbn. solve_Permutation.
  - apply wp_bind, wp_send_eq. intros r s1 H1. destruct r as [id|].
    + assert (silent node s s1) as Hs by silent.
      apply wp_bind, wp_set_peer_eq. intros s2 EF EL ET.
      eapply wp_mono; [apply (announce_acct node _ (pf_id f :: (pf_id <$> rest)))|].
      * rewrite (ids_after_set _ _ _ _ EF). unfold peer_ids. cbn. solve_Permutation.
      * intros ? s3 Ha. eapply acct_silent; [exact Hs|]. eapply acct_silent; [silent|exact Ha].
    + apply wp_bind, wp_ret. eapply wp_mono; [apply (announce_acct node _ (pf_id <$> rest))|].
      * rewrite (outside_ids _ _ _ node H1), (ids_of_lookup _ _ _ Hent). unfold peer_ids. cbn. by rewrite app_nil_r.
      * intros ? s2 Ha. by eapply acct_lost; [| |exact H1|exact Ha].
Qed.

(** [send_next] on an entry without a file being sent. *)
Lemma send_next_acct node pending : forall s,
  wp (send_next_from chunk_size node pending None) (fun _ => acct node (pf_id <$> pending) s) s.
Proof.
  induction pending as [|f rest IH]; intros s; cbn [send_next_from].
  { apply wp_bind. unfold wp at 1, remove_peer, modify_files. apply wp_plugin_eq. intros s1 (EF & EL & ET). cbn in *.
    exists [EvPlugin (DoneSending node)], []. unfold ids_of. rewrite EF, ET, lookup_delete_eq. split_and!; try done.
    intros k Hk. by rewrite lookup_delete_ne. }
  cbn [fmap list_fmap]. quiet wp_set_peer_eq.
  assert (files s' !! node = Some (mk_peer_files rest None)) as Hent by (rewrite H; apply lookup_insert_eq).
  clear dependent s. rename s' into s.
  assert (forall e s1, outcome_of e = [pf_id f] -> is_failed_continue e = false -> outside s e s1 ->
    wp (send_next_from chunk_size node rest None) (fun _ => acct node (pf_id f :: (pf_id <$> rest)) s) s1) as Hrep.
  { intros e s1 Ho Hf H1. eapply wp_mono; [apply IH|]. intros ? s2 Ha. by eapply acct_report; [| |exact H1|exact Ha]. }
  destruct (match pf_status f with SPending => _ | _ => _ end) as [progress|].
  2:{ apply wp_bind, wp_notify_eq. intros s1 H1. by eapply Hrep; [| |exact H1]. }
  apply wp_bind. unfold wp at 1, open_file. destruct (open_file_for_reading _ _ _ _) as [[opened w]| | |]; try done.
  cbn [outcome_bind fst snd]. destruct opened as [[file name]|].
  2:{ apply wp_bind, wp_notify_expect_eq. intros s1 H1. by eapply (Hrep (EvNotify (FileMissing (pf_id f)))). }
  apply wp_bind. unfold wp at 1, metadata. destruct (file_metadata_len file _) as [size w'].
  destruct size as [size|].
  2:{ apply wp_bind, wp_notify_expect_eq. intros s1 H1. by eapply (Hrep (EvNotify (FileMissing (pf_id f)))). }
  eapply wp_mono; [apply (start_transfer_acct node f rest file name size)|]; [exact Hent|exact IH|done].
Qed.

Lemma complete_file_acct node pending id o s :
  wp (complete_file chunk_size node (mk_peer_files pending None) id o) (fun _ => acct node (id :: (pf_id <$> pending)) s) s.
Proof.
  unfold complete_file. apply wp_bind, wp_notify_eq. intros s1 H1. eapply wp_mono; [apply send_next_acct|].
  intros ? s2. eapply acct_report; [| |exact H1]; by destruct o.
Qed.

Lemma reset_and_stop_acct node p sd reason s :
  wp (reset_and_stop node p sd reason) (fun _ => acct node (pf_id (pending_file sd) :: peer_ids p) s) s.
Proof.
  unfold reset_and_stop. quiet wp_notify_eq. quiet wp_set_peer_eq.
  assert (pf_id (pending_file sd) :: peer_ids p ≡ₚ ids_of s'0 node) as HP.
  { rewrite (ids_after_set _ _ _ _ H0). unfold peer_ids. cbn. rewrite fmap_app. cbn. solve_Permutation. }
  apply wp_acct_bind, wp_plugin_eq. intros s2 H2'. split; [silent|].
  apply wp_plugin_eq. intros s3 H3'. apply acct_keep; [silent|].
  by rewrite (outside_ids _ _ _ node H3'), (outside_ids _ _ _ node H2').
Qed.

Lemma reset_and_retry_acct node pending sd reason s :
  wp (reset_and_retry chunk_size node (mk_peer_files pending None) sd reason)
    (fun _ => acct node (pf_id (pending_file sd) :: (pf_id <$> pending)) s) s.
Proof.
  unfold reset_and_retry. case_goal; [apply complete_file_acct|].
  eapply wp_mono; [apply reset_and_stop_acct|]. intros ? s'. apply acct_perm. unfold peer_ids. cbn. by rewrite app_nil_r.
Qed.

Lemma reset_all_acct node s : wp (reset_all node) (fun _ => acct node (ids_of s node) s) s.
Proof.
  apply wp_bind, wp_lookup_peer. destruct (files s !! node) as [p|] eqn:Hp.
  2:{ apply wp_ret, acct_keep; [silent|done]. }
  rewrite (ids_of_lookup _ _ _ Hp). unfold reset_all_with_occupied. destruct (pf_sending p) as [sd|] eqn:Hs.
  2:{ apply wp_ret, acct_keep; [silent|by rewrite (ids_of_lookup _ _ _ Hp)]. }
  quiet wp_set_peer_eq. apply wp_bind. eapply wp_mono; [apply reset_and_stop_acct|].
  intros ? s1 Ha. apply wp_ret. eapply acct_perm; [|exact Ha]. unfold peer_ids. rewrite Hs. cbn. solve_Permutation.
Qed.


(** Operations that keep the account of the peer. *)
Definition pays node {A} s : A -> tracker W F E -> Prop := fun _ s' => acct node (ids_of s node) s s'.

Lemma pays_ret node {A} (a : A) s : wp (ret a) (pays node s) s.
Proof. apply acct_keep; [silent|done]. Qed.

Lemma pays_seq node {A B} (m : M W F E A) (f : A -> M W F E B) s :
  wp m (pays node s) s -> (forall a s1, acct node (ids_of s node) s s1 -> wp (f a) (pays node s1) s1) ->
  wp (bind m f) (pays node s) s.
Proof.
  intros Hm Hf. apply wp_bind. eapply wp_mono; [exact Hm|]. intros a s1 Ha. eapply wp_mono; [by apply Hf|].
  intros b s2 Hb. by eapply acct_trans.
Qed.

Lemma pays_then_ret node {A B} (m : M W F E A) (b : B) ids s :
  wp m (fun _ => acct node ids s) s -> wp (bind m (fun _ => ret b)) (fun _ => acct node ids s) s.
Proof. intros Hm. apply wp_bind. eapply wp_mono; [exact Hm|]. intros a s1 Ha. by apply wp_ret. Qed.

Lemma pays_send node contact req s :
  (forall b, is_failed_continue (EvSend node contact req b) = false) -> wp (send node contact req) (pays node s) s.
Proof.
  intros Hc. apply wp_send_eq. intros r s1 H1. apply acct_keep.
  - by eapply (outside_silent _ _ (EvSend node contact req _)); [|apply Hc|exact H1].
  - by rewrite (outside_ids _ _ _ node H1).
Qed.

Lemma pays_set_peer node p s : ids_of s node ≡ₚ peer_ids p -> wp (set_peer node p) (pays node s) s.
Proof.
  intros HP. apply wp_set_peer_eq. intros s1 EF EL ET. apply acct_keep; [silent|]. by rewrite (ids_after_set _ _ _ _ EF).
Qed.

Lemma pays_notify node a s : outcome_of (EvNotify a) = [] -> wp (notify a) (pays node s) s.
Proof.
  intros Ho. apply wp_notify_eq. intros s1 H1. apply acct_keep; [by eapply outside_silent; [exact Ho| |exact H1]|].
  by rewrite (outside_ids _ _ _ node H1).
Qed.

Lemma pays_plugin node c s : wp (plugin c) (pays node s) s.
Proof. apply wp_plugin_eq. intros s1 H1. apply acct_keep; [silent|]. by rewrite (outside_ids _ _ _ node H1). Qed.

Lemma pays_locked node {A} (m : M W F E A) s :
  wp m (pays node (set_lock s true)) (set_lock s true) -> wp (locked m) (pays node s) s.
Proof. intros Hm. apply wp_locked. eapply wp_mono; [exact Hm|]. intros a s' Ha. exact Ha. Qed.

Lemma pays_reset_all node s : wp (reset_all node) (pays node s) s.
Proof. apply reset_all_acct. Qed.

Lemma retry_ids pending sd :
  peer_ids (mk_peer_files pending (Some (increase_retry sd))) = peer_ids (mk_peer_files pending (Some sd)).
Proof. done. Qed.

Lemma protocol_violation_pays node s : wp (reset_all_on_protocol_violation_for node) (pays node s) s.
Proof.
  apply pays_locked. generalize (set_lock s true). clear s. intros s. apply wp_bind, wp_lookup_peer.
  eapply pays_seq.
  { destruct (files s !! node) as [[pending [sd|]]|] eqn:Hp; try apply pays_ret.
    apply pays_set_peer. by rewrite (ids_of_lookup _ _ _ Hp). }
  intros _ s1 _. eapply pays_seq; [apply pays_reset_all|]. intros c s2 _.
  eapply pays_seq; [by apply pays_send|]. intros r s3 _. apply pays_ret.
Qed.

Lemma internal_error_pays node s : wp (reset_all_on_internal_error_for node) (pays node s) s.
Proof.
  apply pays_locked. generalize (set_lock s true). clear s. intros s. apply wp_bind, wp_lookup_peer.
  eapply pays_seq.
  { destruct (files s !! node) as [[pending [sd|]]|] eqn:Hp; try apply pays_ret.
    eapply pays_seq; [apply pays_set_peer; by rewrite (ids_of_lookup _ _ _ Hp)|]. intros x s1 _. apply pays_ret. }
  intros c s1 _. eapply pays_seq; [apply pays_reset_all|]. intros c' s2 _.
  eapply pays_seq; [by apply pays_send|]. intros r s3 _. apply pays_ret.
Qed.

(** Under the lock, the check of the contact either deadlocks or is silent. *)
Lemma verify_silent node target connected s (Q : ContactVerificationResult -> tracker W F E -> Prop) :
  lock s = true ->
  (forall v s1, silent node s s1 -> files s1 = files s -> Q v s1) ->
  wp (verify_target_contact_id node target connected) Q s.
Proof.
  intros Hl HQ. unfold verify_target_contact_id. apply wp_bind. unfold wp at 1, ask_contact_known.
  destruct (is_contact_known target (world s)) as [[r w]| | |]; try done. cbn [outcome_bind fst snd].
  set (s1 := log_event _ _).
  assert (silent node s s1) as Hs by (by exists [EvContactKnown target (result_ok r)]).
  destruct r as [[]|e].
  - case_goal; apply wp_ret; by apply HQ.
  - apply wp_ret. by apply HQ.
  - unfold wp, bind, reset_all_on_internal_error_for, locked. cbn [lock s1 log_event set_world]. by rewrite Hl.
Qed.

(** ** The sending loop *)

Lemma chunks_done_pays node pending sd s :
  files s !! node = Some (mk_peer_files pending (Some sd)) -> wp (chunks_done node pending sd) (pays node s) s.
Proof.
  intros Hp. unfold chunks_done. apply wp_acct_bind, wp_send_eq. intros r s1 H1. split; [silent|].
  rewrite <- (outside_ids _ _ _ node H1). destruct H1 as (EF & _ & _). rewrite <- EF in Hp. fold (pays node (A := unit) s1).
  assert (forall st, ids_of s1 node ≡ₚ peer_ids (mk_peer_files pending (Some (set_status sd st)))) as Hids
    by (intros st; by rewrite (ids_of_lookup _ _ _ Hp)).
  destruct r as [id|].
  - destruct (pf_status (pending_file sd)) as [|[[] td]| | | |]; try apply pays_ret. by apply pays_set_peer.
  - destruct (status_transfer_data _); [|apply pays_ret]. apply pays_then_ret.
    pose proof (reset_all_acct node s1) as Hr. unfold reset_all in Hr. unfold wp, bind, lookup_peer in Hr.
    cbn [outcome_bind fst snd] in Hr. rewrite Hp in Hr. exact Hr.
Qed.

Lemma send_next_chunk_outside {ID Wd} `{Countable ID} (sendf : DataChunk -> Wd -> option ID * Wd) (m : SendManager ID F E) w r m' w' :
  send_next_chunk sendf m w = Ret (r, m', w') -> w' = w \/ exists c, w' = (sendf c w).2.
Proof. intros Hs. by apply send_next_chunk_frame in Hs as [_ ?]. Qed.

Lemma send_chunks_turn_pays node connected s : wp (send_chunks_turn chunk_size node connected) (pays node s) s.
Proof.
  apply wp_bind, wp_lookup_peer. destruct (files s !! node) as [[pending [sd|]]|] eqn:Hp; try apply pays_ret.
  destruct (unlock_mut sd connected) as [[manager f]|] eqn:Hu; [|apply pays_ret].
  apply unlock_mut_cases in Hu as (-> & -> & _). unfold wp.
  destruct (send_next_chunk _ (send_manager sd) s) as [[[res manager] s1]| | |] eqn:Es; try done.
  apply send_next_chunk_outside in Es. cbn [outcome_bind]. set (sd1 := mk_locked manager _ _).
  assert (silent node s s1 /\ files s1 = files s) as [Hs EF].
  { destruct Es as [->|[c ->]]; [split; [silent|done]|]. unfold send_idempotent.
    destruct (tracker_send_idempotent _ _ _ _) as [r w]. split; [|done]. by eexists [_]. }
  set (body := do! _ in _). change (wp body (pays node s) s1). subst body.
  assert (ids_of s node = peer_ids (mk_peer_files pending (Some sd1))) as Hids by (by rewrite (ids_of_lookup _ _ _ Hp)).
  eapply wp_mono; [|intros a s2 Ha; eapply acct_silent; [exact Hs|exact Ha]]. cbn beta.
  apply wp_acct_bind, wp_set_peer_eq. intros s2 EF2 EL2 ET2. split; [silent|].
  assert (files s2 !! node = Some (mk_peer_files pending (Some sd1))) as Hp2 by (rewrite EF2; apply lookup_insert_eq).
  rewrite Hids, <- (ids_of_lookup s2 node _ Hp2). fold (pays node (A := turn) s2). destruct res; try apply pays_ret.
  - apply pays_then_ret. by apply chunks_done_pays.
  - apply pays_then_ret. rewrite (ids_of_lookup _ _ _ Hp2). unfold chunks_io_error.
    quiet wp_set_peer_eq. apply wp_acct_bind, wp_send_eq. intros r s4 H4. split; [silent|].
    eapply wp_mono; [apply complete_file_acct|]. intros ? s5. apply acct_perm. unfold peer_ids. cbn. solve_Permutation.
  - unfold chunks_interrupt. destruct (status_transfer_data _); [|apply pays_ret].
    eapply pays_seq; [apply pays_set_peer|intros; apply pays_ret]. rewrite (ids_of_lookup _ _ _ Hp2).
    unfold peer_ids. cbn. rewrite fmap_app. cbn. by rewrite app_nil_r.
Qed.

Lemma send_chunks_step_pays node connected s : wp (send_chunks_step chunk_size node connected) (pays node s) s.
Proof.
  eapply pays_seq; [apply pays_locked, send_chunks_turn_pays|]. intros [] s1 _; try apply pays_ret.
  eapply pays_seq; [by apply pays_notify|]. intros x s2 _. eapply pays_seq; [apply pays_plugin|]. intros; apply pays_ret.
Qed.

Lemma send_chunks_loop_pays fuel : forall node connected s, wp (send_chunks_loop chunk_size fuel node connected) (pays node s) s.
Proof.
  induction fuel as [|fuel IH]; intros node connected s; [done|]. simpl.
  eapply pays_seq; [apply send_chunks_step_pays|]. intros [] s1 _; [apply IH|apply pays_ret].
Qed.

Lemma run_after_pays node connected a s : wp (run_after chunk_size node connected a) (pays node s) s.
Proof.
  destruct a; cbn [run_after]; [apply pays_ret|apply protocol_violation_pays|apply internal_error_pays|apply send_chunks_loop_pays].
Qed.


(** ** Responses *)

Lemma not_offered_pays node s : wp (not_offered node) (pays node s) s.
Proof. eapply pays_seq; [by apply pays_send|]. intros; apply pays_ret. Qed.

Lemma verified_ids pending sd v :
  peer_ids (mk_peer_files pending (Some (verified_data sd v))) = peer_ids (mk_peer_files pending (Some sd)).
Proof. by destruct v. Qed.

(** After the check, with the entry unchanged. *)
Lemma verify_pays {A} node target connected (f : ContactVerificationResult -> M W F E A) p s :
  lock s = true -> files s !! node = Some p ->
  (forall v s1, files s1 !! node = Some p -> wp (f v) (pays node s1) s1) ->
  wp (bind (verify_target_contact_id node target connected) f) (pays node s) s.
Proof.
  intros Hl Hp Hf. apply wp_acct_bind, verify_silent; [done|]. intros v s1 Hs EF. split; [done|].
  rewrite <- EF in Hp. rewrite (ids_of_lookup s node p) by (by rewrite <- EF).
  rewrite <- (ids_of_lookup s1 node p Hp). by apply Hf.
Qed.

Lemma on_accept_new_transfer_pays node connected s :
  lock s = true -> wp (on_accept_new_transfer node connected) (pays node s) s.
Proof.
  intros Hl. apply wp_bind, wp_lookup_peer.
  destruct (files s !! node) as [[pending [sd|]]|] eqn:Hp; [|apply pays_ret|apply not_offered_pays].
  eapply verify_pays; [done..|]. intros v s1 Hp1.
  destruct v; [| |eapply pays_seq; [apply pays_reset_all|intros; apply pays_ret]|apply pays_ret].
  all: cbn [verified_data pending_file]; destruct (pf_status (pending_file sd)) as [|[[] td]| | | |];
    (eapply pays_seq; [apply pays_set_peer; by rewrite (ids_of_lookup _ _ _ Hp1)|intros; apply pays_ret]).
Qed.

Lemma on_accept_continue_transfer_pays node connected offset s :
  lock s = true -> wp (on_accept_continue_transfer node connected offset) (pays node s) s.
Proof.
  intros Hl. apply wp_bind, wp_lookup_peer.
  destruct (files s !! node) as [[pending [sd|]]|] eqn:Hp; [|apply pays_ret|apply not_offered_pays].
  eapply verify_pays; [done..|]. intros v s1 Hp1.
  destruct v; [| |eapply pays_seq; [apply pays_reset_all|intros; apply pays_ret]|apply pays_ret]; cbn zeta.
  all: cbn [verified_data pending_file]; destruct (pf_status (pending_file sd)) as [|[[] td]| | | |];
    try (eapply pays_seq; [apply pays_set_peer; by rewrite (ids_of_lookup _ _ _ Hp1)|intros; apply pays_ret]).
  all: destruct (unlock_mut _ connected) as [[manager f]|] eqn:Hu; [|done]; apply unlock_mut_cases in Hu as (-> & -> & _);
    eapply pays_seq; [apply pays_set_peer; by rewrite (ids_of_lookup _ _ _ Hp1)|intros; apply pays_ret].
Qed.

(** A handler that takes the file being sent: the file is then in hand. *)
Lemma take_pays {A} node p (f : option (LockedSendData Z F E) -> M W F E A) s :
  files s !! node = Some p ->
  (forall s1, files s1 = <[node := mk_peer_files (pf_pending p) None]> (files s) -> lock s1 = lock s ->
    wp (f (pf_sending p)) (fun _ => acct node (peer_ids p) s1) s1) ->
  wp (bind (take_sending node p) f) (pays node s) s.
Proof.
  intros Hp Hf. apply wp_acct_bind. unfold take_sending. apply wp_bind, wp_set_peer_eq. intros s1 EF EL ET.
  apply wp_ret. split; [silent|]. rewrite (ids_of_lookup _ _ _ Hp). by apply Hf.
Qed.

(** The file in hand is completed with an outcome. *)
Lemma complete_taken node p sd o s :
  pf_sending p = Some sd ->
  wp (do! complete_file chunk_size node (mk_peer_files (pf_pending p) None) (pf_id (pending_file sd)) o in ret AReturn)
    (fun _ => acct node (peer_ids p) s) s.
Proof.
  intros Hs. apply pays_then_ret. eapply wp_mono; [apply complete_file_acct|]. intros ? s1. apply acct_perm.
  unfold peer_ids. rewrite Hs. cbn. solve_Permutation.
Qed.

Lemma empty_taken node p {A} (a : A) s :
  pf_sending p = None -> files s !! node = Some (mk_peer_files (pf_pending p) None) ->
  wp (ret a) (fun _ => acct node (peer_ids p) s) s.
Proof.
  intros Hs Hp. apply wp_ret, acct_keep; [silent|]. rewrite (ids_of_lookup _ _ _ Hp). unfold peer_ids. by rewrite Hs.
Qed.

Lemma rejected_pays node connected p sd s :
  lock s = true -> pf_sending p = Some sd ->
  wp (let! v := verify_target_contact_id node (pf_contact_id (pending_file sd)) connected in
      match v with
      | VerificationFailed =>
          do! set_peer node (mk_peer_files (pf_pending p) (Some sd)) in do! reset_all node in ret AReturn
      | VerificationInternalError => do! set_peer node (mk_peer_files (pf_pending p) (Some sd)) in ret AInternalError
      | _ => do! complete_file chunk_size node (mk_peer_files (pf_pending p) None) (pf_id (pending_file sd)) OutcomeRejected in ret AReturn
      end) (fun _ => acct node (peer_ids p) s) s.
Proof.
  intros Hl Hs. apply wp_acct_bind, verify_silent; [done|]. intros v s1 Hsil EF. split; [done|].
  destruct v; [by apply complete_taken..| |].
  - quiet wp_set_peer_eq. apply pays_then_ret. eapply wp_mono; [apply reset_all_acct|]. intros ? s2. apply acct_perm.
    rewrite (ids_after_set _ _ _ _ H). unfold peer_ids. by rewrite Hs.
  - quiet wp_set_peer_eq. apply wp_ret, acct_keep; [silent|]. rewrite (ids_after_set _ _ _ _ H). unfold peer_ids. by rewrite Hs.
Qed.

Lemma on_reject_new_transfer_pays node connected s :
  lock s = true -> wp (on_reject_new_transfer chunk_size node connected) (pays node s) s.
Proof.
  intros Hl. apply wp_bind, wp_lookup_peer. destruct (files s !! node) as [p|] eqn:Hp; [|apply not_offered_pays].
  apply take_pays; [done|]. intros s1 EF EL. destruct (pf_sending p) as [sd|] eqn:Hs.
  - apply rejected_pays; [congruence|done].
  - apply empty_taken; [done|]. rewrite EF. apply lookup_insert_eq.
Qed.

Lemma on_reject_continue_transfer_pays node connected s :
  lock s = true -> wp (on_reject_continue_transfer chunk_size node connected) (pays node s) s.
Proof.
  intros Hl. apply wp_bind, wp_lookup_peer. destruct (files s !! node) as [p|] eqn:Hp; [|apply pays_ret].
  apply take_pays; [done|]. intros s1 EF EL. destruct (pf_sending p) as [sd|] eqn:Hs.
  - apply rejected_pays; [congruence|done].
  - unfold wp, bind, reset_all_on_protocol_violation_for, locked. by rewrite EL, Hl.
Qed.

Lemma on_confirm_chunk_pays node connected rid s : wp (on_confirm_chunk node connected rid) (pays node s) s.
Proof.
  apply wp_bind, wp_lookup_peer. destruct (files s !! node) as [[pending sending]|] eqn:Hp; [|apply not_offered_pays].
  destruct rid as [id|]; [|apply pays_ret]. destruct sending as [sd|]; [|apply pays_ret].
  destruct (unlock_mut sd connected) as [[manager f]|] eqn:Hu.
  2:{ eapply pays_seq; [apply pays_reset_all|]. intros; apply pays_ret. }
  apply unlock_mut_cases in Hu as (-> & -> & _).
  destruct (pf_status (pending_file sd)) as [|[[] td]| | | |] eqn:Hst; try apply pays_ret.
  unfold wp. destruct (receive_ack (send_manager sd) id) as [manager| | |]; try done. cbn [outcome_bind].
  set (body := do! _ in _). change (wp body (pays node s) s). subst body.
  eapply pays_seq; [apply pays_set_peer; by rewrite (ids_of_lookup _ _ _ Hp)|]. intros ? s1 _.
  eapply pays_seq; [by apply pays_notify|]. intros; apply pays_ret.
Qed.

(** A [RejectChunk] that arrives while no chunks of the file in hand are being sent. *)
Definition stray_reject_chunk (r : FileResponse) s node : bool :=
  match r, files s !! node ≫= pf_sending with
  | RejectChunk, Some sd =>
      match pf_status (pending_file sd) with SInProgress (mk_in_progress Sending _) => false | _ => true end
  | _, _ => false
  end.

(** One file of the peer is gone without a report. *)
Definition drops_one node s s' : Prop :=
  exists id, ids_of s node ≡ₚ ids_of s' node ++ [id] /\ trace s' = trace s /\ forall k, k <> node -> files s' !! k = files s !! k.

Lemma on_reject_chunk_pays node s :
  stray_reject_chunk RejectChunk s node = false -> wp (on_reject_chunk chunk_size node) (pays node s) s.
Proof.
  unfold stray_reject_chunk. intros Hstray. apply wp_bind, wp_lookup_peer.
  destruct (files s !! node) as [p|] eqn:Hp; [|apply not_offered_pays].
  apply take_pays; [done|]. intros s1 EF EL. cbn in Hstray. destruct (pf_sending p) as [sd|] eqn:Hs.
  2:{ apply empty_taken; [done|]. rewrite EF. apply lookup_insert_eq. }
  by destruct (pf_status (pending_file sd)) as [|[[] td]| | | |] eqn:Hst; try apply complete_taken.
Qed.

Lemma stray_reject_drops node connected rid r s :
  stray_reject_chunk r s node = true ->
  r = RejectChunk /\ wp (response_section chunk_size node connected rid r) (fun _ => drops_one node s) s.
Proof.
  unfold stray_reject_chunk. destruct r; try done. intros Hstray. split; [done|]. apply wp_bind, wp_lookup_peer.
  destruct (files s !! node) as [p|] eqn:Hp; [|done]. cbn in Hstray. apply wp_bind. unfold take_sending.
  apply wp_bind, wp_set_peer_eq. intros s1 EF EL ET. apply wp_ret. destruct (pf_sending p) as [sd|] eqn:Hs; [|done].
  assert (drops_one node s s1) as Hd.
  { exists (pf_id (pending_file sd)). rewrite (ids_of_lookup _ _ _ Hp), (ids_after_set _ _ _ _ EF). unfold peer_ids. rewrite Hs. cbn.
    rewrite app_nil_r. split_and!; [done..|]. intros k Hk. rewrite EF. by rewrite lookup_insert_ne. }
  by destruct (pf_status (pending_file sd)) as [|[[] td]| | | |].
Qed.

Lemma on_confirm_abort_pays node s : wp (on_confirm_abort chunk_size node) (pays node s) s.
Proof.
  apply wp_bind, wp_lookup_peer. destruct (files s !! node) as [p|] eqn:Hp; [|apply pays_ret].
  destruct (pf_sending p) eqn:Hs; [apply pays_ret|]. unfold pays. rewrite (ids_of_lookup _ _ _ Hp).
  apply pays_then_ret. unfold send_next. rewrite Hs. eapply wp_mono; [apply send_next_acct|]. intros ? s1. apply acct_perm.
  unfold peer_ids. rewrite Hs. by rewrite app_nil_r.
Qed.

Lemma on_done_answer_pays node o s : wp (on_done_answer chunk_size node o) (pays node s) s.
Proof.
  apply wp_bind, wp_lookup_peer.
  destruct (files s !! node) as [[pending [sd|]]|] eqn:Hp; [|apply pays_ret|apply not_offered_pays].
  destruct (pf_status (pending_file sd)) as [|[[] td]| | | |] eqn:Hst; try apply pays_ret.
  unfold pays. rewrite (ids_of_lookup _ _ _ Hp). quiet wp_set_peer_eq.
  by apply (complete_taken node (mk_peer_files pending (Some sd))).
Qed.

Lemma on_protocol_violation_pays node s : wp (on_protocol_violation chunk_size node) (pays node s) s.
Proof.
  apply wp_bind, wp_lookup_peer. destruct (files s !! node) as [p|] eqn:Hp; [|apply pays_ret].
  apply take_pays; [done|]. intros s1 EF EL. destruct (pf_sending p) as [sd|] eqn:Hs.
  2:{ apply empty_taken; [done|]. rewrite EF. apply lookup_insert_eq. }
  apply pays_then_ret. eapply wp_mono; [apply reset_and_retry_acct|]. intros ? s2. apply acct_perm.
  unfold peer_ids. rewrite Hs. cbn. solve_Permutation.
Qed.

(** The file in hand goes back to the queue. *)
Lemma stop_taken node p sd sd' reason s :
  pf_sending p = Some sd -> pf_id (pending_file sd') = pf_id (pending_file sd) ->
  wp (reset_and_stop node (mk_peer_files (pf_pending p) None) sd' reason) (fun _ => acct node (peer_ids p) s) s.
Proof.
  intros Hs Hid. eapply wp_mono; [apply reset_and_stop_acct|]. intros ? s2. apply acct_perm.
  unfold peer_ids. rewrite Hs, Hid. cbn. rewrite app_nil_r. solve_Permutation.
Qed.

Lemma on_internal_error_pays node s : wp (on_internal_error node) (pays node s) s.
Proof.
  apply wp_bind, wp_lookup_peer. destruct (files s !! node) as [p|] eqn:Hp; [|apply pays_ret].
  apply take_pays; [done|]. intros s1 EF EL. destruct (pf_sending p) as [sd|] eqn:Hs.
  2:{ apply empty_taken; [done|]. rewrite EF. apply lookup_insert_eq. }
  apply pays_then_ret. by eapply stop_taken.
Qed.

Lemma response_section_pays node connected rid r s :
  lock s = true -> stray_reject_chunk r s node = false -> wp (response_section chunk_size node connected rid r) (pays node s) s.
Proof.
  intros Hl Hstray. destruct r; simpl; auto using on_accept_new_transfer_pays, on_reject_new_transfer_pays,
    on_accept_continue_transfer_pays, on_confirm_chunk_pays, on_reject_chunk_pays, on_confirm_abort_pays,
    on_protocol_violation_pays, on_internal_error_pays, on_reject_continue_transfer_pays, pays_ret;
  apply on_done_answer_pays.
Qed.

Lemma receive_response_pays node connected rid r s :
  stray_reject_chunk r s node = false -> wp (receive_response chunk_size node connected rid r) (pays node s) s.
Proof.
  intros Hstray. assert (wp (let! a := locked (response_section chunk_size node connected rid r) in
    run_after chunk_size node connected a) (pays node s) s) as Hgo.
  { eapply pays_seq; [by apply pays_locked, response_section_pays|]. intros a s1 _. apply run_after_pays. }
  destruct r; try exact Hgo. apply (pays_ret node tt).
Qed.

Lemma handle_receive_error_pays node error s : wp (handle_receive_error chunk_size node error) (pays node s) s.
Proof.
  apply pays_locked. generalize (set_lock s true). clear s. intros s. apply wp_bind, wp_lookup_peer.
  destruct (files s !! node) as [p|] eqn:Hp; [|apply pays_ret]. apply take_pays; [done|]. intros s1 EF EL.
  destruct (pf_sending p) as [sd|] eqn:Hs.
  2:{ apply empty_taken; [done|]. rewrite EF. apply lookup_insert_eq. }
  assert (forall reason, wp (reset_and_retry chunk_size node (mk_peer_files (pf_pending p) None) sd reason)
    (fun _ => acct node (peer_ids p) s1) s1) as Hretry.
  { intros reason. eapply wp_mono; [apply reset_and_retry_acct|]. intros ? s2. apply acct_perm.
    unfold peer_ids. rewrite Hs. cbn. solve_Permutation. }
  destruct error as [d|[|[] d|d|d|d]]; try (apply Hretry || by eapply stop_taken).
  eapply wp_mono; [apply complete_file_acct|]. intros ? s2. apply acct_perm. unfold peer_ids. rewrite Hs. cbn. solve_Permutation.
Qed.

Lemma trigger_pays peer s : wp (trigger_interaction_with chunk_size peer) (pays peer s) s.
Proof.
  apply pays_locked. generalize (set_lock s true). clear s. intros s. apply wp_bind, wp_lookup_peer.
  destruct (files s !! peer) as [p|] eqn:Hp; [|apply pays_ret]. destruct (pf_sending p) eqn:Hs; [apply pays_ret|].
  unfold send_next. rewrite Hs. eapply wp_mono; [apply send_next_acct|]. intros ? s1. apply acct_perm.
  rewrite (ids_of_lookup _ _ _ Hp). unfold peer_ids. rewrite Hs. by rewrite app_nil_r.
Qed.

Lemma disconnected_pays peer s : wp (reset_for_disconnected_peer peer) (pays peer s) s.
Proof.
  eapply pays_seq.
  { apply pays_locked. apply wp_bind, wp_lookup_peer. apply pays_ret. }
  intros [] s1 _; [|apply pays_ret]. apply pays_locked. eapply pays_seq; [apply pays_reset_all|]. intros; apply pays_ret.
Qed.

(** ** Properties *)

(** The operations for one peer that are not commands to add or cancel files. *)
Definition peer_op (node : PeerId) (op : tracker_op (W := W)) : Prop :=
  match op with
  | OpResponse n _ _ _ | OpSection n _ _ _ | OpError n _ | OpChunks n _ | OpAfter n _ _ | OpTrigger n | OpDisconnected n
  | OpConnectionError n | OpNonCorrelatable n => n = node
  | _ => False
  end.

Definition stray_op node (op : tracker_op (W := W)) s : bool :=
  match op with OpResponse _ _ _ r | OpSection _ _ _ r => stray_reject_chunk r s node | _ => false end.

Lemma peer_op_pays node op s : peer_op node op -> stray_op node op s = false -> wp (run_op chunk_size op) (pays node s) s.
Proof.
  destruct op; try done; intros <- Hs; simpl in Hs |- *.
  - by apply receive_response_pays.
  - apply handle_receive_error_pays.
  - eapply pays_seq; [apply send_chunks_step_pays|]. intros; apply pays_ret.
  - apply trigger_pays.
  - apply disconnected_pays.
  - apply pays_plugin.
  - apply pays_plugin.
  - eapply pays_seq; [by apply pays_locked, response_section_pays|]. intros; apply pays_ret.
  - apply run_after_pays.
Qed.

Lemma stray_op_drops node op s :
  peer_op node op -> stray_op node op s = true ->
  wp (run_op chunk_size op) (fun _ s' => exists s1, drops_one node s s1 /\ acct node (ids_of s1 node) s1 s') s.
Proof.
  destruct op as [n connected rid r| | | | | | | | | |n connected rid r| |]; try done; intros Hn Hs; simpl in Hn, Hs |- *; subst n.
  - destruct (stray_reject_drops node connected rid r (set_lock s true) Hs) as [-> Hd].
    apply wp_bind, wp_locked. eapply wp_mono; [exact Hd|]. intros a s1 H1. cbn.
    eapply wp_mono; [apply run_after_pays|]. intros ? s2 H2. exists (set_lock s1 false). split; [exact H1|exact H2].
  - destruct (stray_reject_drops node connected rid r (set_lock s true) Hs) as [-> Hd].
    apply wp_bind, wp_locked. eapply wp_mono; [exact Hd|]. intros a s1 H1. apply wp_ret.
    exists (set_lock s1 false). split; [exact H1|]. apply acct_keep; [silent|done].
Qed.

(** C4 Conservation of files: in every operation for a peer, the files of the peer are
    afterwards still tracked, or have been reported to the brain with exactly one
    outcome each, or are lost; and no file of another peer is touched. The lost files
    are exactly as many as requests to continue a transfer that could not be sent,
    and one more if the peer rejected a chunk while no chunks of the file in hand
    were being sent. *)
Theorem every_file_is_accounted_for node op s s' :
  peer_op node op -> run_op chunk_size op s = Ret (tt, s') ->
  exists new gone, trace s' = new ++ trace s /\
    ids_of s node ≡ₚ ids_of s' node ++ outcomes new ++ gone /\
    length gone = (lost new + if stray_op node op s then 1 else 0)%nat /\
    forall k, k <> node -> files s' !! k = files s !! k.
Proof.
  intros Hop E'. destruct (stray_op node op s) eqn:Hs.
  - pose proof (stray_op_drops node op s Hop Hs) as Hp. unfold wp in Hp. rewrite E' in Hp.
    destruct Hp as (s1 & (id & Hid & ET & HF) & new & gone & E1 & P1 & L1 & F1).
    exists new, (gone ++ [id]). rewrite length_app, L1, Hid, P1. split_and!; [by rewrite E1, ET|solve_Permutation|done|].
    intros k Hk. by rewrite F1, HF.
  - pose proof (peer_op_pays node op s Hop Hs) as Hp. unfold wp in Hp. rewrite E' in Hp.
    destruct Hp as (new & gone & E1 & P1 & L1 & F1). exists new, gone. split_and!; try done. by rewrite L1, Nat.add_0_r.
Qed.

End Accounting.

Import MemFile MemTracker.

Lemma every_file_is_accounted_for_witness :
  exists new gone, trace (state_after 6) = new ++ trace (state_after 5) /\
    ids_of (state_after 5) "p" ≡ₚ ids_of (state_after 6) "p" ++ outcomes new ++ gone /\
    length gone = (lost new + 0)%nat /\
    forall k, k <> "p"%string -> files (state_after 6) !! k = files (state_after 5) !! k.
Proof.
  apply (every_file_is_accounted_for 2 "p" (OpResponse "p" (Some "alice"%string) (Some 3) ConfirmDone) (state_after 5) (state_after 6)).
  - done.
  - vm_compute. reflexivity.
Defined.

(** ** The paths that lose a file *)

(** The same surroundings, but requests to continue a transfer cannot be sent. *)
Definition broken_continue : TrackerEnv Z file unit := {|
  tracker_send _ _ req w := (match req with ContinueTransfer _ _ => None | _ => Some w end, w + 1);
  tracker_send_idempotent _ _ _ w := (Some w, w + 1);
  is_contact_known _ w := Ret (Ok true, w);
  open_file_for_reading _ _ _ w := Ret (Some (([1; 2; 3], 0%nat), "name"%string), w);
  file_metadata_len _ w := (Some 3, w);
  new_fyles_id w := ("t"%string, w);
  notify_brain _ w := (true, w);
  call_plugin _ w := w;
|}.

Definition interrupted_file : PendingFile :=
  pf_with_status sample_file (SInProgress (mk_in_progress Interrupted (mk_transfer_data 1 3 "t"))).

(** The two paths on which the tracker forgets a file, neither tracking nor
    reporting it: a peer that rejects a chunk before any was sent, and an
    interrupted file whose request to continue cannot be sent. *)
Theorem tracker_loses_files :
  (exists s', run_op 2 (OpResponse "p" (Some "alice"%string) None RejectChunk) (state_after 2) = Ret (tt, s') /\
     ids_of (state_after 2) "p" = ["f"%string] /\ ids_of s' "p" = [] /\ outcomes (trace s') = []) /\
  (exists s',
     run_ops (TrackerEnv0 := broken_continue) 2 [OpAdd "p" interrupted_file; OpTrigger "p"] (tracker_new 0) = Ret s' /\
     files s' !! ("p" : PeerId) = Some (mk_peer_files [] None) /\ outcomes (trace s') = []).
Proof. split; eexists; vm_compute; done. Qed.
