(* ===== verification/TrackerLocks.v ===== *)
(** * Locks, loops and retries of the file tracker

    As long as the brain answers, every operation of the tracker comes back with the
    lock free, except in two situations, in which it waits for itself; and the
    sending loops end. *)

From S2P Require Import Prelude Domain FileReader SendManager FileTracker TrackerInvariant TrackerAccounting.

Section Locks.
Context {W F E : Type} `{!AsyncFile F E} `{!TrackerEnv W F E} (chunk_size : nat).
Implicit Types (s : tracker W F E) (node : PeerId) (p : PeerFiles F E) (sd : LockedSendData Z F E).

(** Run with the lock held or not ([l]), [m] neither blocks nor loops, and leaves
    the lock as it was. *)
Definition live {A} (l : bool) (m : M W F E A) : Prop :=
  forall s, lock s = l ->
    match m s with Ret (_, s') => lock s' = l | Panic => True | Deadlock | Diverge => False end.

Lemma live_ret {A} l (a : A) : live l (ret a).
Proof. by intros s Hs. Qed.

Lemma live_bind {A B} l (m : M W F E A) (f : A -> M W F E B) : live l m -> (forall a, live l (f a)) -> live l (bind m f).
Proof.
  intros Hm Hf s Hs. unfold bind. specialize (Hm s Hs). destruct (m s) as [[a s1]| | |]; try done. by apply Hf.
Qed.

Lemma live_locked {A} (m : M W F E A) : live true m -> live false (locked m).
Proof.
  intros Hm s Hs. unfold locked. rewrite Hs. specialize (Hm (set_lock s true) eq_refl).
  by destruct (m (set_lock s true)) as [[a s1]| | |].
Qed.

Lemma live_lookup_peer l node : live l (lookup_peer node).
Proof. by intros s Hs. Qed.
Lemma live_set_peer l node p : live l (set_peer node p).
Proof. by intros s Hs. Qed.
Lemma live_remove_peer l node : live l (remove_peer node).
Proof. by intros s Hs. Qed.
Lemma live_send l node c r : live l (send node c r).
Proof. intros s Hs. unfold send. by destruct (tracker_send _ _ _ _). Qed.
Lemma live_notify l a : live l (notify a).
Proof. intros s Hs. unfold notify. by destruct (notify_brain _ _). Qed.
Lemma live_notify_expect l a : live l (notify_expect a).
Proof. intros s Hs. unfold notify_expect. by destruct (notify_brain _ _) as [[] ?]. Qed.
Lemma live_plugin l c : live l (plugin c).
Proof. by intros s Hs. Qed.
Lemma live_metadata l f : live l (metadata f).
Proof. intros s Hs. unfold metadata. by destruct (file_metadata_len _ _). Qed.
Lemma live_fresh_id l : live l fresh_id.
Proof. intros s Hs. unfold fresh_id. by destruct (new_fyles_id _). Qed.

(** Requests to the brain are answered, by a value or an error. *)
Hypothesis brain_opens : forall path id o w,
  match open_file_for_reading path id o w with Ret _ | Panic => True | _ => False end.
Hypothesis brain_knows : forall c w,
  match is_contact_known c w with Ret _ | Panic => True | _ => False end.

Lemma live_open l f o : live l (open_file f o).
Proof. intros s Hs. unfold open_file. pose proof (brain_opens (pf_file_path f) (pf_id f) o (world s)). by destruct (open_file_for_reading _ _ _ _). Qed.

Create HintDb live_db.
#[local] Hint Resolve live_ret live_bind live_locked live_lookup_peer live_set_peer live_remove_peer live_send live_notify
  live_notify_expect live_plugin live_metadata live_fresh_id live_open : live_db.

(** Splits an operation into its calls. *)
Ltac live_steps :=
  repeat first
    [ solve [auto with live_db]
    | progress cbv zeta
    | apply live_bind; [|intros]
    | match goal with |- live _ (match ?x with _ => _ end) => destruct x end
    | match goal with |- live _ (if ?x then _ else _) => destruct x end ].

Lemma live_announce l node f : live l (announce_sending node f).
Proof. unfold announce_sending. live_steps. Qed.
#[local] Hint Resolve live_announce : live_db.

Lemma live_send_next_from l node pending : forall sending, live l (send_next_from chunk_size node pending sending).
Proof.
  induction pending as [|f rest IH]; intros sending; cbn [send_next_from]; [live_steps|]. specialize (IH sending).
  apply live_bind; [auto with live_db|]. intros _. destruct (match pf_status f with SPending => _ | _ => _ end); [|live_steps].
  unfold start_transfer. live_steps.
Qed.

Lemma live_send_next l node p : live l (send_next chunk_size node p).
Proof. apply live_send_next_from. Qed.
#[local] Hint Resolve live_send_next : live_db.

Lemma live_complete l node p id o : live l (complete_file chunk_size node p id o).
Proof. unfold complete_file. live_steps. Qed.
Lemma live_reset_and_stop l node p sd reason : live l (reset_and_stop node p sd reason).
Proof. unfold reset_and_stop. cbn zeta. live_steps. Qed.
#[local] Hint Resolve live_complete live_reset_and_stop : live_db.

Lemma live_reset_and_retry l node p sd reason : live l (reset_and_retry chunk_size node p sd reason).
Proof. unfold reset_and_retry. live_steps. Qed.
Lemma live_take l node p : live l (take_sending node p).
Proof. unfold take_sending. live_steps. Qed.
Lemma live_reset_occupied l node p : live l (reset_all_with_occupied node p).
Proof. unfold reset_all_with_occupied. live_steps. Qed.
#[local] Hint Resolve live_reset_and_retry live_take live_reset_occupied : live_db.
Lemma live_reset_all l node : live l (reset_all node).
Proof. unfold reset_all. live_steps. Qed.
#[local] Hint Resolve live_reset_all : live_db.

Lemma live_internal_error node : live false (reset_all_on_internal_error_for node).
Proof. apply live_locked. unfold reset_all_on_internal_error_for_entry. live_steps. Qed.
Lemma live_protocol_violation node : live false (reset_all_on_protocol_violation_for node).
Proof. apply live_locked. live_steps. Qed.
#[local] Hint Resolve live_internal_error live_protocol_violation : live_db.

Lemma live_not_offered l node : live l (not_offered node).
Proof. unfold not_offered. live_steps. Qed.
#[local] Hint Resolve live_not_offered : live_db.

(** ** The loops *)

(** The slots that [release_loop] can still empty. *)
Definition acknowledged (l : list Slot) : nat :=
  length (List.filter (fun x => match x with SlotAcknowledged _ => true | _ => false end) l).

Lemma acknowledged_empty l i b :
  l !! i = Some (SlotAcknowledged b) -> acknowledged l = S (acknowledged (<[i := SlotEmpty]> l)).
Proof.
  revert i. induction l as [|x l IH]; intros i; [done|]. destruct i as [|i]; simpl.
  - intros [= ->]. done.
  - intros Hi%IH. unfold acknowledged in *. simpl. destruct x; simpl; lia.
Qed.

Lemma acknowledged_le l : (acknowledged l <= length l)%nat.
Proof. induction l as [|x l IH]; [done|]. unfold acknowledged in *. simpl. destruct x; simpl; lia. Qed.

Lemma release_loop_ends fuel : forall (m : SendManager Z F E) i,
  (acknowledged (chunks_in_flight m) < fuel)%nat ->
  match release_loop fuel m i with Ret _ | Panic => True | _ => False end.
Proof.
  induction fuel as [|fuel IH]; intros m i Hf; [lia|]. simpl.
  destruct (chunks_in_flight m !! i) as [[| |b]|] eqn:Hi; try done. destruct (_ <? _); [|done]. apply IH.
  rewrite (acknowledged_empty _ _ _ Hi) in Hf. cbn [chunks_in_flight]. lia.
Qed.

Lemma receive_ack_ends (m : SendManager Z F E) id : match receive_ack m id with Ret _ | Panic => True | _ => False end.
Proof.
  unfold receive_ack, mark_done. destruct (chunk_to_index m !! id); [|done]. cbn [unwrap_panic outcome_bind].
  destruct (_ && _); [|done]. destruct (chunks_in_flight m !! _) as [[|b|b]|]; try done.
  set (m1 := mk_send_manager _ _ _ _ _ _ _ _). destruct (_ =? _); [|done].
  apply release_loop_ends. pose proof (acknowledged_le (chunks_in_flight m1)). lia.
Qed.

Lemma send_next_chunk_ends {Wd} (sendf : DataChunk -> Wd -> option Z * Wd) (m : SendManager Z F E) w :
  match send_next_chunk sendf m w with Ret _ | Panic => True | _ => False end.
Proof.
  unfold send_next_chunk. destruct (is_ready m); [|done]. cbn [negb].
  destruct (reader_read (sm_file m)) as [[[[n d]|e]|] r]; [|done|by destruct (_ && _)].
  destruct (sendf _ w) as [[id|] w1]; [|done]. by destruct (_ <? _)%nat.
Qed.


(** How much of the window is in use. *)
Definition in_flight (m : SendManager Z F E) : Z := wrap32 (next_slot m - earliest_not_sent m).

Lemma send_next_chunk_sent {Wd} (sendf : DataChunk -> Wd -> option Z * Wd) (m : SendManager Z F E) w id m' w' :
  send_next_chunk sendf m w = Ret (Sent id, m', w') ->
  in_flight m < PARALLEL_CHUNKS /\ in_flight m' = in_flight m + 1.
Proof.
  unfold send_next_chunk. destruct (is_ready m) eqn:Hr; [|done]. cbn [negb].
  destruct (reader_read (sm_file m)) as [[[[n d]|e]|] r]; [|done|by destruct (_ && _)].
  destruct (sendf _ w) as [[id0|] w1]; [|done]. destruct (_ <? _)%nat; [|done]. intros [= <- <- <-].
  unfold is_ready in Hr. apply Z.ltb_lt in Hr. split; [exact Hr|]. unfold in_flight. cbn.
  unfold wrap32 at 1 2. rewrite Zminus_mod_idemp_l.
  replace (next_slot m + 1 - earliest_not_sent m) with (next_slot m - earliest_not_sent m + 1) by lia.
  rewrite <- Zplus_mod_idemp_l. apply Z.mod_small. unfold wrap32, PARALLEL_CHUNKS in Hr.
  pose proof (Z.mod_pos_bound (next_slot m - earliest_not_sent m) u32_modulus ltac:(done)).
  unfold wrap32, u32_modulus in *. lia.
Qed.

Definition sending_of s node : option (LockedSendData Z F E) :=
  match files s !! node with Some p => pf_sending p | None => None end.

(** A turn after which the loop goes on has put one more chunk in flight. *)
Lemma turn_continues node connected s s' :
  send_chunks_turn chunk_size node connected s = Ret (TContinue, s') ->
  exists sd sd', sending_of s node = Some sd /\ sending_of s' node = Some sd' /\
    in_flight (send_manager sd) < PARALLEL_CHUNKS /\ in_flight (send_manager sd') = in_flight (send_manager sd) + 1.
Proof.
  unfold send_chunks_turn, bind, lookup_peer. cbn [outcome_bind fst snd].
  unfold sending_of. destruct (files s !! node) as [[pending [sd|]]|]; try done.
  destruct (unlock_mut sd connected) as [[manager f]|] eqn:Hu; [|done]. apply unlock_mut_cases in Hu as (-> & -> & _).
  destruct (send_next_chunk _ (send_manager sd) s) as [[[res manager] s1]| | |] eqn:Es; try done.
  cbn [outcome_bind fst snd]. unfold set_peer, modify_files. cbn [outcome_bind fst snd].
  destruct res as [|id| |e|]; try done.
  - intros [= <-]. apply send_next_chunk_sent in Es. exists sd. eexists. cbn. rewrite lookup_insert_eq. split_and!; try done; apply Es.
  - intros Hx. exfalso. revert Hx. destruct (chunks_done _ _ _ _) as [[] | | |]; done.
  - intros Hx. exfalso. revert Hx. destruct (chunks_io_error _ _ _ _ _ _) as [[] | | |]; done.
  - unfold chunks_interrupt. by destruct (status_transfer_data _).
Qed.

Lemma live_turn node connected : live true (send_chunks_turn chunk_size node connected).
Proof.
  apply live_bind; [auto with live_db|]. intros [[pending [sd|]]|]; auto with live_db.
  destruct (unlock_mut sd connected) as [[manager f]|]; [|auto with live_db].
  intros s Hs. pose proof (send_next_chunk_ends (send_idempotent node connected (pf_contact_id f)) manager s) as He.
  destruct (send_next_chunk _ manager s) as [[[res manager'] s1]| | |] eqn:Es; try done. cbn [outcome_bind].
  assert (lock s1 = true) as Hs1.
  { apply send_next_chunk_outside in Es as [->|[c ->]]; [done|]. unfold send_idempotent. by destruct (tracker_send_idempotent _ _ _ _). }
  revert s1 Hs1 Es. cbn zeta. intros s1 Hs1 _. set (sd1 := mk_locked manager' _ _).
  set (body := do! _ in _). assert (live true body) as Hb; [|exact (Hb s1 Hs1)]. subst body.
  apply live_bind; [auto with live_db|]. intros _. unfold chunks_done, chunks_io_error, chunks_interrupt. cbn zeta. live_steps.
Qed.

Lemma live_step node connected : live false (send_chunks_step chunk_size node connected).
Proof. unfold send_chunks_step. apply live_bind; [apply live_locked, live_turn|]. intros []; live_steps. Qed.
#[local] Hint Resolve live_step : live_db.

Lemma step_continues node connected s s' :
  send_chunks_step chunk_size node connected s = Ret (true, s') ->
  exists sd sd', sending_of s node = Some sd /\ sending_of s' node = Some sd' /\
    in_flight (send_manager sd) < PARALLEL_CHUNKS /\ in_flight (send_manager sd') = in_flight (send_manager sd) + 1.
Proof.
  unfold send_chunks_step, bind, locked. destruct (lock s); [done|].
  destruct (send_chunks_turn chunk_size node connected (set_lock s true)) as [[[] s1]| | |] eqn:Et; try done.
  - intros [= <-]. by apply turn_continues in Et.
  - cbn [outcome_bind fst snd]. unfold notify. destruct (notify_brain _ _). done.
Qed.

(** The loop: with [k] chunks in flight, [8 - k] more turns are enough. *)
Lemma live_loop_from fuel : forall k node connected s,
  lock s = false -> (forall sd, sending_of s node = Some sd -> Z.of_nat k <= in_flight (send_manager sd)) ->
  (8 <= fuel + k)%nat ->
  match send_chunks_loop chunk_size (S fuel) node connected s with
  | Ret (_, s') => lock s' = false | Panic => True | _ => False
  end.
Proof.
  induction fuel as [|fuel IH]; intros k node connected s Hs Hk Hf;
    cbn [send_chunks_loop]; unfold bind at 1; pose proof (live_step node connected s Hs) as Hlive;
    destruct (send_chunks_step chunk_size node connected s) as [[[] s1]| | |] eqn:Es; try done;
    apply step_continues in Es as (sd & sd' & E1 & E2 & Hlt & Heq); pose proof (Hk sd E1) as Hle;
    unfold PARALLEL_CHUNKS in Hlt; [lia|].
  apply (IH (S k)); [done| |lia]. intros sd2 E3. cbn [snd] in E3. assert (sd2 = sd') as -> by congruence. lia.
Qed.

Lemma live_loop node connected : live false (send_chunks_loop chunk_size chunk_turns node connected).
Proof.
  intros s Hs. apply (live_loop_from 8 0); [done| |lia]. intros sd _. unfold in_flight, wrap32.
  pose proof (Z.mod_pos_bound (next_slot (send_manager sd) - earliest_not_sent (send_manager sd)) u32_modulus ltac:(done)). lia.
Qed.

Lemma live_run_after node connected a : live false (run_after chunk_size node connected a).
Proof. destruct a; cbn [run_after]; auto using live_loop with live_db. Qed.

(** ** The operations *)

(** The brain fails to say whether it knows the contact of the file in hand. *)
Definition contact_unclear s sd : bool :=
  match is_contact_known (pf_contact_id (pending_file sd)) (world s) with Ret (Err _, _) => true | _ => false end.

(** The responses whose handler calls, with the lock held, a function that takes it. *)
Definition section_waits (r : FileResponse) node s : bool :=
  match files s !! node with
  | None => false
  | Some p =>
      match r, pf_sending p with
      | (AcceptNewTransfer | RestartContinueTransfer | RejectNewTransfer | AcceptContinueTransfer _ | RejectContinueTransfer),
        Some sd => contact_unclear s sd
      | RejectContinueTransfer, None => true
      | _, _ => false
      end
  end.

(** As [live], from one state. *)
Definition live_at {A} (l : bool) (m : M W F E A) s : Prop :=
  match m s with Ret (_, s') => lock s' = l | Panic => True | Deadlock | Diverge => False end.

Lemma live_verified {A} l node sd connected (f : ContactVerificationResult -> M W F E A) s :
  lock s = l -> contact_unclear s sd = false -> (forall v, live l (f v)) ->
  live_at l (bind (verify_target_contact_id node (pf_contact_id (pending_file sd)) connected) f) s.
Proof.
  intros Hs Hc Hf. unfold live_at, bind at 1, verify_target_contact_id, bind, ask_contact_known. unfold contact_unclear in Hc.
  pose proof (brain_knows (pf_contact_id (pending_file sd)) (world s)) as Hk.
  destruct (is_contact_known _ (world s)) as [[[b|e] w]| | |]; try done. cbn [outcome_bind fst snd].
  destruct b; [destruct connected as [c|]; [case_bool_decide|]|]; by apply Hf.
Qed.

Lemma unclear_waits {A} node sd connected (f : ContactVerificationResult -> M W F E A) s :
  lock s = true -> contact_unclear s sd = true ->
  bind (verify_target_contact_id node (pf_contact_id (pending_file sd)) connected) f s = Deadlock.
Proof.
  intros Hs Hc. unfold bind at 1, verify_target_contact_id, bind, ask_contact_known. unfold contact_unclear in Hc.
  destruct (is_contact_known _ (world s)) as [[[b|e] w]| | |]; try done. cbn [outcome_bind fst snd].
  unfold reset_all_on_internal_error_for, locked. cbn. by rewrite Hs.
Qed.

(** The responses whose handler checks the contact first. *)
Definition checks_contact (r : FileResponse) : bool :=
  match r with
  | AcceptNewTransfer | RestartContinueTransfer | RejectNewTransfer | AcceptContinueTransfer _ | RejectContinueTransfer => true
  | _ => false
  end.

Lemma live_section node connected rid r : checks_contact r = false -> live true (response_section chunk_size node connected rid r).
Proof.
  intros Hne. destruct r; try done; cbn [response_section];
    unfold on_confirm_chunk, on_reject_chunk,
      on_confirm_abort, on_confirm_done, on_reject_done, on_done_answer, on_protocol_violation, on_internal_error; cbn zeta; live_steps.
  all: try (by intros ? ?).
  all: intros st Hst; match goal with |- context [receive_ack ?m ?i] => pose proof (receive_ack_ends m i) as He;
    destruct (receive_ack m i) as [m'| | |]; try done end; cbn [outcome_bind];
    match goal with |- context [bind ?m ?f st] => assert (live true (bind m f)) as Hb; [live_steps|exact (Hb st Hst)] end.
Qed.

Lemma take_then {A} node p (f : option (LockedSendData Z F E) -> M W F E A) s :
  exists s1, lock s1 = lock s /\ world s1 = world s /\ bind (take_sending node p) f s = f (pf_sending p) s1.
Proof. exists (mk_tracker (<[node := mk_peer_files (pf_pending p) None]> (files s)) (lock s) (trace s) (world s)). done. Qed.

(** Such a handler waits for itself exactly in the situations of [section_waits]. *)
Lemma checked_section node connected rid r s :
  checks_contact r = true -> lock s = true ->
  if section_waits r node s then response_section chunk_size node connected rid r s = Deadlock
  else live_at true (response_section chunk_size node connected rid r) s.
Proof.
  unfold section_waits. intros Hr Hs. destruct (files s !! node) as [[pending sending]|] eqn:Hp; cbn [pf_sending].
  2: { destruct r; try done; unfold live_at; cbn [response_section];
         unfold on_accept_new_transfer, on_reject_new_transfer, on_accept_continue_transfer, on_reject_continue_transfer;
         unfold bind at 1, lookup_peer; cbn [outcome_bind fst snd]; rewrite Hp; first [exact Hs|by apply live_not_offered]. }
  destruct r; try done; destruct sending as [sd|]; try (destruct (contact_unclear s sd) eqn:Hc); unfold live_at; cbn [response_section];
    unfold on_accept_new_transfer, on_reject_new_transfer, on_accept_continue_transfer, on_reject_continue_transfer;
    unfold bind at 1, lookup_peer; cbn [outcome_bind fst snd]; rewrite Hp;
    try match goal with |- context [bind (take_sending ?n ?p) ?f ?s] =>
      destruct (take_then n p f s) as (s1 & Hl1 & Hw1 & ->); rewrite Hs in Hl1; cbn [pf_sending pf_pending];
      try (unfold contact_unclear in Hc; rewrite <- Hw1 in Hc)
    end.
  all: first
    [ done
    | by apply unclear_waits
    | match goal with |- context [bind (verify_target_contact_id _ _ _) ?f ?s] => apply (live_verified true node sd connected f s) end;
      [done|exact Hc|]; intros []; unfold verified_data; live_steps; by intros ? ?
    | unfold bind at 1, reset_all_on_protocol_violation_for, locked; by rewrite Hl1 ].
Qed.

Lemma live_locked_section node connected rid r s :
  lock s = false ->
  if section_waits r node s then locked (response_section chunk_size node connected rid r) s = Deadlock
  else live_at false (locked (response_section chunk_size node connected rid r)) s.
Proof.
  intros Hs. unfold live_at, locked. rewrite Hs.
  assert (section_waits r node s = section_waits r node (set_lock s true)) as -> by done.
  assert (if section_waits r node (set_lock s true) then response_section chunk_size node connected rid r (set_lock s true) = Deadlock
          else live_at true (response_section chunk_size node connected rid r) (set_lock s true)) as Hsec.
  { destruct (checks_contact r) eqn:Hr; [by apply checked_section|].
    replace (section_waits r node (set_lock s true)) with false; [by apply live_section|].
    unfold section_waits. destruct (files _ !! node); [|done]. by destruct r. }
  destruct (section_waits _ _ _); [by rewrite Hsec|]. unfold live_at in Hsec.
  by destruct (response_section _ _ _ _ _ _) as [[a s1]| | |].
Qed.

Lemma live_response node connected rid r s :
  lock s = false ->
  if section_waits r node s then receive_response chunk_size node connected rid r s = Deadlock
  else live_at false (receive_response chunk_size node connected rid r) s.
Proof.
  intros Hs. pose proof (live_locked_section node connected rid r s Hs) as Hsec.
  assert (if section_waits r node s then bind (locked (response_section chunk_size node connected rid r)) (run_after chunk_size node connected) s = Deadlock
    else live_at false (bind (locked (response_section chunk_size node connected rid r)) (run_after chunk_size node connected)) s) as Hgo.
  { unfold bind, live_at in *. destruct (section_waits r node s); [by rewrite Hsec|].
    destruct (locked _ s) as [[a s1]| | |]; try done. by apply live_run_after. }
  destruct r; try exact Hgo. unfold section_waits. by destruct (files s !! node).
Qed.

Lemma live_cancel_selected l peer p sel : live l (cancel_selected chunk_size peer p sel).
Proof. unfold cancel_selected, cancel_sending, cancel_pending. cbn zeta. live_steps. Qed.

Definition op_waits (op : tracker_op (W := W)) s : bool :=
  match op with OpResponse node _ _ r | OpSection node _ _ r => section_waits r node s | _ => false end.

Lemma live_op op s :
  lock s = false -> match op with OpResponse _ _ _ _ | OpSection _ _ _ _ => False | _ => True end -> live_at false (run_op chunk_size op) s.
Proof.
  intros Hs Hop. destruct op; try done; unfold live_at; cbn [run_op].
  - apply (live_locked (A := unit)); [|done]. live_steps.
  - apply (live_bind false); auto with live_db.
  - apply (live_bind false); [|intros []; auto with live_db|done]. apply live_locked. live_steps.
  - apply (live_locked (A := unit)); [|done]. live_steps.
  - apply (live_bind false); [|auto with live_db|done]. apply live_locked. intros s' Hs'.
    destruct (List.find _ _) as [[peer p]|]; [|done]. by apply live_cancel_selected.
  - apply (live_bind false); [|auto with live_db|done]. apply live_locked. live_steps. apply live_cancel_selected.
  - apply (live_bind false); [|intros []; auto with live_db|done]; apply live_locked; live_steps.
  - by apply live_run_after.
Qed.

(** C9 While the brain answers its requests, an operation that finds the lock free comes
    back with the lock free, or panics, except in two situations, in which it waits for
    itself for ever: the peer answers the request to start or continue a transfer and
    the brain fails to say whether it knows the contact of the file, or a peer to whom
    nothing is being sent rejects a continuation. In no other situation does it wait
    for the lock it holds; and a sending loop that runs without interruption ends,
    since nine turns fill the window. *)
Theorem tracker_never_blocks op s :
  lock s = false ->
  match run_op chunk_size op s with
  | Ret (_, s') => lock s' = false /\ op_waits op s = false
  | Panic => op_waits op s = false
  | Deadlock => op_waits op s = true
  | Diverge => False
  end.
Proof.
  intros Hs.
  assert (if op_waits op s then run_op chunk_size op s = Deadlock else live_at false (run_op chunk_size op) s) as Hop.
  { destruct op as [node c rid r| | | | | | | | | |node c rid r| |]; try (by apply live_op); cbn [run_op op_waits].
    - by apply live_response.
    - pose proof (live_locked_section node c rid r s Hs) as Hl. unfold live_at, bind in *.
      destruct (section_waits r node s); [by rewrite Hl|]. by destruct (locked _ s) as [[? ?]| | |]. }
  unfold live_at in Hop. destruct (op_waits op s); [by rewrite Hop|]. by destruct (run_op _ _ _) as [[? ?]| | |].
Qed.

End Locks.

Section Retries.
Context {W F E : Type} `{!AsyncFile F E} `{!TrackerEnv W F E} (chunk_size : nat).
Implicit Types (s : tracker W F E) (node : PeerId).

(** ** Retries *)

(** Retry policy: each reported protocol violation counts; the file is given
    up, with [FileFailed], exactly when the count exceeds one plus one for every
    gigabyte; otherwise it goes to the back of the queue with the new count, and
    the brain and the plugin are told. *)
Theorem protocol_violation_retry_policy node connected rid s s' pending sd :
  files s !! node = Some (mk_peer_files pending (Some sd)) ->
  receive_response chunk_size node connected rid ProtocolViolation s = Ret (tt, s') ->
  let retries := wrap64 (pf_retry_count (pending_file sd) + 1) in
  if 1 + get_file_size_bytes sd / 1000000000 <? retries
  then exists newer, trace s' = newer ++ EvNotify (FileFailed (pf_id (pending_file sd))) :: trace s
  else
    let f := pf_with_status (pf_with_retry_count (pending_file sd) retries) (compute_reset_status sd) in
    files s' = <[node := mk_peer_files (pending ++ [f]) None]> (files s) /\
    trace s' = EvPlugin (PendingFileAdded node true) :: EvPlugin (InterruptSending node)
               :: EvNotify (FileSendReset (pf_id f) (pf_status f) (Some retries) (Some "Peer reported protocol violation"%string))
               :: trace s.
Proof.
  intros Hp. unfold receive_response, bind at 1, locked. destruct (lock s); [done|].
  unfold response_section, on_protocol_violation, bind at 1, lookup_peer. cbn [outcome_bind fst snd files set_lock]. rewrite Hp.
  unfold take_sending. unfold bind at 1 2, set_peer, modify_files, ret. cbn [outcome_bind fst snd pf_sending pf_pending].
  unfold reset_and_retry, max_allowed_failures. cbn zeta.
  change (get_file_size_bytes (increase_retry sd)) with (get_file_size_bytes sd).
  change (pf_retry_count (pending_file (increase_retry sd))) with (wrap64 (pf_retry_count (pending_file sd) + 1)).
  destruct (_ <? _).
  - unfold bind at 1, complete_file. unfold bind at 1, notify. cbn [world set_lock].
    destruct (notify_brain _ _) as [b w]. cbn [outcome_bind fst snd].
    set (s1 := log_event _ _).
    pose proof (send_next_acct chunk_size node pending s1) as Ha. unfold wp in Ha. unfold send_next. cbn [pf_pending pf_sending].
    destruct (send_next_from chunk_size node pending None s1) as [[[] s2]| | |]; cbn; try done. intros [= <-].
    destruct Ha as (new & _ & Et & _). exists new. exact Et.
  - unfold bind at 1, reset_and_stop. cbn zeta. unfold bind at 1, notify. cbn [world set_lock].
    destruct (notify_brain _ _) as [b w]. cbn. intros [= <-]. cbn. by rewrite insert_insert_eq.
Qed.

(** An internal error reported by the peer never makes the tracker give up a
    file, however often it has failed: it goes back to the queue. *)
Theorem internal_error_always_retries node connected rid s s' pending sd :
  files s !! node = Some (mk_peer_files pending (Some sd)) ->
  receive_response chunk_size node connected rid InternalError s = Ret (tt, s') ->
  files s' = <[node := mk_peer_files (pending ++
    [pf_with_status (pf_with_retry_count (pending_file sd) (wrap64 (pf_retry_count (pending_file sd) + 1)))
       (compute_reset_status sd)]) None]> (files s) /\
  exists newer, trace s' = newer ++ trace s /\ outcomes newer = [].
Proof.
  intros Hp. unfold receive_response, bind at 1, locked. destruct (lock s); [done|].
  unfold response_section, on_internal_error, bind at 1, lookup_peer. cbn [outcome_bind fst snd files set_lock]. rewrite Hp.
  unfold take_sending. unfold bind at 1 2, set_peer, modify_files, ret. cbn [outcome_bind fst snd pf_sending pf_pending].
  unfold bind at 1, reset_and_stop. cbn zeta. unfold bind at 1, notify. cbn [world set_lock].
  destruct (notify_brain _ _) as [b w]. cbn. intros [= <-]. cbn. split; [by rewrite insert_insert_eq|].
  by eexists [_; _; _].
Qed.

End Retries.

Import MemFile MemTracker.

(** An operation that returns, and one that waits for itself. *)
Lemma tracker_never_blocks_witness :
  let confirmed := OpResponse (W := Z) "p" (Some "alice"%string) (Some 3) ConfirmDone in
  let stray := OpResponse (W := Z) "p" (Some "alice"%string) (Some 0) RejectContinueTransfer in
  op_waits confirmed (state_after 5) = false /\ op_waits stray (state_after 1) = true /\
  match run_op 2 confirmed (state_after 5) with
  | Ret (_, s') => lock s' = false /\ op_waits confirmed (state_after 5) = false
  | Panic => op_waits confirmed (state_after 5) = false
  | Deadlock => op_waits confirmed (state_after 5) = true
  | Diverge => False
  end /\
  match run_op 2 stray (state_after 1) with
  | Ret (_, s') => lock s' = false /\ op_waits stray (state_after 1) = false
  | Panic => op_waits stray (state_after 1) = false
  | Deadlock => op_waits stray (state_after 1) = true
  | Diverge => False
  end.
Proof.
  split; [vm_compute; reflexivity|]. split; [vm_compute; reflexivity|].
  split; apply (tracker_never_blocks 2); first [done|vm_compute; reflexivity].
Defined.

(** The tracker waits for itself when a peer to whom nothing is being sent rejects a
    continuation. *)
Example tracker_deadlocks :
  receive_response 2 "p" (Some "alice"%string) (Some 0) RejectContinueTransfer (state_after 1) = Deadlock.
Proof. vm_compute. reflexivity. Qed.

(** The file being sent after the transfer was offered. *)
Definition sample_sending : LockedSendData Z file unit :=
  default (locked_new 2 sample_file "t" 0 ([], 0%nat)) (sending_of (state_after 2) "p").

Definition sample_violation :=
  match receive_response 2 "p" None None ProtocolViolation (state_after 2) with Ret (_, s) => s | _ => state_after 2 end.

Lemma protocol_violation_retry_policy_witness :
  let f := pf_with_status (pf_with_retry_count (pending_file sample_sending) 1) (compute_reset_status sample_sending) in
  files sample_violation = <[("p" : PeerId) := mk_peer_files ([] ++ [f]) None]> (files (state_after 2)) /\
  trace sample_violation = EvPlugin (PendingFileAdded "p" true) :: EvPlugin (InterruptSending "p")
    :: EvNotify (FileSendReset (pf_id f) (pf_status f) (Some 1) (Some "Peer reported protocol violation"%string))
    :: trace (state_after 2).
Proof.
  refine (protocol_violation_retry_policy 2 "p" None None (state_after 2) sample_violation [] sample_sending _ _).
  - vm_compute. reflexivity.
  - vm_compute. reflexivity.
Defined.

Definition sample_internal_error :=
  match receive_response 2 "p" None None InternalError (state_after 2) with Ret (_, s) => s | _ => state_after 2 end.

Lemma internal_error_always_retries_witness :
  files sample_internal_error = <[("p" : PeerId) := mk_peer_files ([] ++
    [pf_with_status (pf_with_retry_count (pending_file sample_sending) 1) (compute_reset_status sample_sending)]) None]> (files (state_after 2)) /\
  exists newer, trace sample_internal_error = newer ++ trace (state_after 2) /\ outcomes newer = [].
Proof.
  refine (internal_error_always_retries 2 "p" None None (state_after 2) sample_internal_error [] sample_sending _ _).
  - vm_compute. reflexivity.
  - vm_compute. reflexivity.
Defined.
