(* ===== verification/BrainTypes.v ===== *)
(** * Data and interfaces of the brain

    The data of core/src/core/domain_models.rs that the brain handles, its errors
    (core/src/core/brain/error.rs, db.rs, p2p.rs), its requests and actions
    (core/src/core/brain/types.rs, action_client.rs, action_p2p.rs), the traits
    FilerequestDb (core/src/core/db.rs) and NetworkNode (core/src/core/p2p.rs) as
    classes, and the bounded list of core/src/library/bounded_list.rs. *)

From S2P Require Import Prelude Domain TtlMap ReceiveManager HostPath HostController DriveHandler.

(** Keys of contacts are opaque to the brain, except that the public part can be
    taken out. *)
Class BrainKeys := {
  Keys : Type;
  PublicKeys : Type;
  keys_public : Keys -> PublicKeys;
}.

(** ** Domain data *)

Record Filerequest := mk_filerequest {
  fr_id : FylesId;
  fr_title : string;
  fr_description : string;
  fr_access : FilerequestAccess;
  fr_is_active : bool;
}.

Record CreateFilerequest := mk_create_filerequest {
  cfr_title : string;
  cfr_description : string;
  cfr_access : FilerequestAccess;
  cfr_is_active : bool;
}.

Record DisplayContact := mk_display_contact {
  dc_id : ContactId;
  dc_name : string;
}.

Record CreateRemoteFilerequest := mk_create_remote {
  crf_peer_id : PeerId;
  crf_filerequest_id : string;
  crf_name : string;
  crf_contact_id : ContactId;
}.

Record RemoteFilerequest := mk_remote_filerequest {
  rfr_id : FylesId;
  rfr_peer_id : PeerId;
  rfr_filerequest_id : FylesId;
  rfr_contact_id : ContactId;
  rfr_name : string;
}.

Record ReceivedFile := mk_received_file {
  rf_id : FylesId;
  rf_contact_id : option ContactId;
  rf_peer_id : string;
  rf_filerequest_id : FylesId;
  rf_transfer_id : option FylesId;
  rf_file_name : string;
  rf_file_path : option string;
  rf_file_size_bytes : Z;
  rf_progress_bytes : Z;
  rf_status : ReceiveStatus;
  rf_started_at_ms : Z;
  rf_received_at_ms : option Z;
}.

Record FileInfo := mk_file_info {
  fi_path : string;
  fi_display_name : option string;
}.

Record CreatePendingFiles := mk_create_pending {
  cp_file_infos : list FileInfo;
  cp_target_filerequest_id : FylesId;
}.

Record NodeStatusInfo := mk_node_status {
  ns_peer_id : PeerId;
  ns_external_addresses : list string;
  ns_internal_addresses : list string;
  ns_connected_peers : Z;
  ns_start_timestamp : Z;
}.

Record FileToSend := mk_file_to_send {
  fts_id : FylesId;
  fts_peer_id : PeerId;
  fts_contact_id : ContactId;
  fts_filerequest_id : FylesId;
  fts_file_path : string;
  fts_retry_count : Z;
  fts_status : SendStatus;
}.

Inductive Notification :=
| FileReceived (contact_name : option string) (filerequest_name file_name : string) (file_size : Z).

(** [ServerMessage] by the functions that build one. *)
Inductive ServerMessage :=
| pending_file_status_changed (pending_file_id : FylesId) (status : SendStatus) (target_filerequest_id : FylesId)
| received_file_status_changed (rf : ReceivedFile)
| database_restored
| received_self_contact_invite_over_network
| self_contact_invite_accepted_over_network
| contact_share_accepted_over_network.

Abbreviation Challenge := (list Z).

(** ** Errors

    Errors of libraries that the brain only passes on carry no content here. *)
Inductive DbError :=
| DataNotYetInitialized
| DbOperation
| DbDatabase
| DbCommunication
| DbValidation (message : string)
| DbDataConversion (message : string)
| DbNotFound (message : string)
| DbIo
| DbGeneric (message : string).

Inductive P2pError :=
| FileNotAccepted (filerequest_id : FylesId)
| NetworkError (msg : string)
| P2pInternalCommunicationError (msg : string)
| UnspecifiedError.

Inductive FilerequestError (E : Type) :=
| DatabaseError (e : DbError)
| InternalCommunicationError
| P2pNodeError (e : P2pError)
| GenericError (msg : string)
| HostError (source : BoxedError E)
| InputError (msg : string).
Arguments DatabaseError {E}.
Arguments InternalCommunicationError {E}.
Arguments P2pNodeError {E}.
Arguments GenericError {E}.
Arguments HostError {E}.
Arguments InputError {E}.

(** ** Bounded list *)

Record BoundedList (T : Type) := mk_bounded { bl_items : list T; bl_max_size : nat }.
Arguments mk_bounded {T}.
Arguments bl_items {T}.
Arguments bl_max_size {T}.

Section BoundedList.
Context {T : Type}.
Implicit Types (l : BoundedList T).

Definition bounded_new (max_size : nat) : BoundedList T := mk_bounded [] max_size.

Definition bounded_push (item : T) l : result unit T * BoundedList T :=
  if (length (bl_items l) <? bl_max_size l)%nat
  then (Ok tt, mk_bounded (bl_items l ++ [item]) (bl_max_size l))
  else (Err item, l).

Definition bounded_is_full l : bool := (length (bl_items l) =? bl_max_size l)%nat.

(** The bound is kept, and an item is refused exactly when the list is full. *)
Lemma bounded_push_spec item l :
  (length (bl_items l) <= bl_max_size l)%nat ->
  (length (bl_items (bounded_push item l).2) <= bl_max_size (bounded_push item l).2)%nat /\
  bl_max_size (bounded_push item l).2 = bl_max_size l /\
  match (bounded_push item l).1 with
  | Ok _ => bounded_is_full l = false /\ bl_items (bounded_push item l).2 = bl_items l ++ [item]
  | Err i => bounded_is_full l = true /\ i = item /\ (bounded_push item l).2 = l
  end.
Proof.
  intros Hl. unfold bounded_push, bounded_is_full. destruct (Nat.ltb_spec (length (bl_items l)) (bl_max_size l)); simpl.
  - rewrite length_app. simpl. split_and!; [lia|done| |done]. apply Nat.eqb_neq. lia.
  - split_and!; try done. apply Nat.eqb_eq. lia.
Qed.
End BoundedList.

(** ** Data that contains keys *)

Section Keys.
Context `{!BrainKeys}.

Record Contact := mk_contact {
  c_id : ContactId;
  c_name : string;
  c_public_keys : PublicKeys;
}.

Record SelfContact := mk_self_contact {
  sc_id : ContactId;
  sc_name : string;
  sc_keys : Keys;
}.

Record NodeInfo := mk_node_info {
  ni_node_key_pair : list Z;
  ni_self_contact_id : ContactId;
  ni_self_contact_keys : Keys;
}.

(** ** The database

    The trait FilerequestDb on a world [W]. *)
Class FilerequestDb (W F : Type) := {
  db_get_filerequest : FylesId -> W -> result Filerequest DbError * W;
  db_get_filerequests : W -> result (list Filerequest) DbError * W;
  db_create_filerequest : CreateFilerequest -> W -> result FylesId DbError * W;
  db_update_filerequest : Filerequest -> W -> result unit DbError * W;
  db_delete_filerequest : FylesId -> W -> result unit DbError * W;
  db_get_contact_name : ContactId -> W -> result string DbError * W;
  db_get_contact_names : list ContactId -> W -> result (gmap ContactId string) DbError * W;
  db_get_contact : ContactId -> W -> result Contact DbError * W;
  db_get_contacts : W -> result (list DisplayContact) DbError * W;
  db_update_contact : DisplayContact -> W -> result unit DbError * W;
  db_delete_contact : ContactId -> W -> result unit DbError * W;
  db_get_contact_public_keys : ContactId -> W -> result (option PublicKeys) DbError * W;
  db_store_node_keys : NodeInfo -> W -> result unit DbError * W;
  db_get_node_keys : W -> result NodeInfo DbError * W;
  db_get_remote_filerequest : FylesId -> W -> result RemoteFilerequest DbError * W;
  db_get_remote_filerequests_by_contact : ContactId -> W -> result (list RemoteFilerequest) DbError * W;
  db_get_all_remote_filerequests : W -> result (list RemoteFilerequest) DbError * W;
  db_create_remote_filerequest : CreateRemoteFilerequest -> W -> result FylesId DbError * W;
  db_delete_remote_filerequest : FylesId -> W -> result unit DbError * W;
  db_update_remote_filerequest : FylesId -> string -> W -> result unit DbError * W;
  db_get_pending_file : FylesId -> W -> result PendingFile DbError * W;
  db_get_pending_files : FylesId -> W -> result (list PendingFile) DbError * W;
  db_get_all_pending_files : W -> result (list PendingFile) DbError * W;
  db_create_pending_files : CreatePendingFiles -> W -> result (list FylesId) DbError * W;
  db_update_pending_file_status : FylesId -> SendStatus -> option Z -> W -> result FylesId DbError * W;
  db_add_interruption_reason : FylesId -> string -> W -> result unit DbError * W;
  db_delete_pending_file : FylesId -> W -> result unit DbError * W;
  db_count_non_terminal_pending_files_for_path : FylesId -> W -> result Z DbError * W;
  db_create_incoming_file : CreateIncomingFile -> W -> result FylesId DbError * W;
  db_update_received_file_status : FylesId -> ReceiveStatus -> Z -> W -> result unit DbError * W;
  db_get_received_file_by_transfer_id : FylesId -> W -> result ReceivedFile DbError * W;
  db_complete_received_file : CompleteReceivedFile -> W -> result FylesId DbError * W;
  db_list_received_files : FylesId -> W -> result (list ReceivedFile) DbError * W;
  db_delete_received_file : FylesId -> W -> result unit DbError * W;
  db_get_stale_received_files : Z -> W -> result (list ReceivedFile) DbError * W;
  db_get_self_contact : W -> result SelfContact DbError * W;
  db_get_self_contact_for_display : W -> result DisplayContact DbError * W;
  db_update_self_contact_name : string -> W -> result unit DbError * W;
  db_update_identity : SelfContact -> W -> result unit DbError * W;
  db_get_sharable_public_self_contact : W -> result Contact DbError * W;
  db_register_contact : Contact -> W -> result unit DbError * W;
  db_backup_database : F -> path -> W -> result unit DbError * W;
  db_restore_database : F -> W -> result unit DbError * W;
  db_get_settings : W -> result (list Z) DbError * W;
  db_store_settings : list Z -> W -> result unit DbError * W;
}.

(** The trait NetworkNode. *)
Class NetworkNode (W : Type) := {
  net_display_keypair : list Z -> W -> result string unit;
  net_send_files : list FileToSend -> W -> result unit P2pError * W;
  net_initial_files_to_send : list FileToSend -> W -> result unit P2pError * W;
  net_get_node_info : W -> result NodeStatusInfo P2pError * W;
  net_cancel_file : FylesId -> W -> result bool P2pError * W;
  net_cancel_files_for_remote_filerequest : FylesId -> PeerId -> W -> result bool P2pError * W;
  net_generate_keypair : W -> result (list Z) unit * W;
  net_update_identity : ContactId -> Keys -> W -> W;
  net_use_self_contact_invite : Challenge -> PeerId -> W -> W;
  net_use_contact_share_challenge : Challenge -> PeerId -> W -> W;
  net_apply_settings : list Z -> W -> result unit P2pError * W;
}.

(** Clocks, random numbers, the channel to the frontend and notifications. *)
Class BrainEnv (W : Type) := {
  brain_now : W -> Z * W;
  brain_epoch_millis : W -> option Z * W;
  random_challenge : W -> Challenge * W;
  new_contact_id : W -> ContactId * W;
  new_contact_keys : W -> Keys * W;
  client_push : ServerMessage -> W -> bool * W;
  send_notification : Notification -> W -> W;
}.
End Keys.

(** ** Requests

    A request and the channel for its answer, by the number of the channel. *)
Record BrainRequest (T : Type) := mk_brain_request {
  request : T;
  response_sender : option nat;
}.
Arguments mk_brain_request {T}.
Arguments request {T}.
Arguments response_sender {T}.

Record FilerequestAccessRequest := mk_access_request {
  ar_filerequest_id : FylesId;
  ar_contact_id : option ContactId;
}.

Record OpenFileForReadingRequest := mk_open_request {
  of_uri : string;
  of_id : FylesId;
  of_byte_offset : Z;
}.

Module Client.
Inductive ClientAction `{!BrainKeys} :=
| WaitForReady (r : BrainRequest unit)
| CreateFilerequest (r : BrainRequest CreateFilerequest)
| ReadFilerequest (r : BrainRequest FylesId)
| UpdateFilerequest (r : BrainRequest Filerequest)
| DeleteFilerequest (r : BrainRequest FylesId)
| ListFilerequests (r : BrainRequest unit)
| GetContactName (r : BrainRequest ContactId)
| GetContactNames (r : BrainRequest (list ContactId))
| GetContact (r : BrainRequest ContactId)
| GetFullSelfContact (r : BrainRequest unit)
| ListContacts (r : BrainRequest unit)
| UpdateContact (r : BrainRequest DisplayContact)
| DeleteContact (r : BrainRequest ContactId)
| Shutdown (r : BrainRequest unit)
| GetNodeStatus (r : BrainRequest unit)
| GetNodePeerId (r : BrainRequest unit)
| CreateRemoteFilerequest (r : BrainRequest CreateRemoteFilerequest)
| GetRemoteFilerequest (r : BrainRequest FylesId)
| GetRemoteFilerequestsByContact (r : BrainRequest ContactId)
| GetAllRemoteFilerequests (r : BrainRequest unit)
| DeleteRemoteFilerequest (r : BrainRequest FylesId)
| UpdateRemoteFilerequest (r : BrainRequest (FylesId * string))
| CreatePendingFiles (r : BrainRequest CreatePendingFiles)
| GetPendingFile (r : BrainRequest FylesId)
| GetPendingFiles (r : BrainRequest FylesId)
| GetAllPendingFiles (r : BrainRequest unit)
| DeletePendingFile (r : BrainRequest FylesId)
| ListReceivedFilesForRequest (r : BrainRequest FylesId)
| DeleteReceivedFile (r : BrainRequest FylesId)
| UpdateSelfContactName (r : BrainRequest string)
| UpdateIdentity (r : BrainRequest SelfContact)
| GetSelfContactDisplay (r : BrainRequest unit)
| SharePublicSelfContact (r : BrainRequest unit)
| RegisterContact (r : BrainRequest Contact)
| RegisterSelfContactInviteChallenge (r : BrainRequest unit)
| UnregisterSelfContactInviteChallenge (r : BrainRequest Challenge)
| UseSelfContactInviteChallenge (r : BrainRequest (Challenge * PeerId))
| RegisterContactShareChallenge (r : BrainRequest unit)
| UnregisterContactShareChallenge (r : BrainRequest Challenge)
| UseContactShareChallenge (r : BrainRequest (Challenge * PeerId))
| BackupData (r : BrainRequest unit)
| RestoreData (r : BrainRequest string)
| UpdateSettings (r : BrainRequest (list Z))
| GetSettings (r : BrainRequest unit).
End Client.

Module Node.
Inductive NodeAction `{!BrainKeys} :=
| RequestFileDrop (r : BrainRequest FilerequestAccessRequest)
| RequestFileTransferContinuation (r : BrainRequest FilerequestContinueRequest)
| GetNodeInfo (r : BrainRequest unit)
| Ready
| FileSending (pending_file_id : FylesId) (status : SendStatus)
| FileSendReset (pending_file_id : FylesId) (status : SendStatus) (retry_count : option Z) (reason : option string)
| FileSent (pending_file_id : FylesId)
| FileRejected (pending_file_id : FylesId)
| FileFailed (pending_file_id : FylesId)
| FileMissing (pending_file_id : FylesId)
| FileIoError (file : FylesId)
| StoreReceivedFile (r : BrainRequest CompleteReceivedFile)
| CreateIncomingFile (r : BrainRequest CreateIncomingFile)
| UpdateReceivedFileStatus (transfer_id : FylesId) (status : ReceiveStatus) (progress_bytes : Z)
| DeleteReceivedFile (transfer_id : FylesId)
| GetContactPublicKeys (r : BrainRequest ContactId)
| IsContactKnown (r : BrainRequest ContactId)
| OpenFileForReading (r : BrainRequest OpenFileForReadingRequest)
| ValidateSelfContactInviteChallenge (r : BrainRequest Challenge)
| UpdateIdentity (new_identity : SelfContact)
| AnsweredSelfContactInvite
| RejectedSelfContactInvite
| SelfContactInviteGotRejected
| ValidateContactShareChallenge (r : BrainRequest Challenge)
| CreateContact (contact : Contact)
| AnsweredContactShare
| RejectedContactShare
| ContactShareGotRejected.
End Node.
