(* ===== verification/EventLoop.v ===== *)
(** * The event loop of the node (p2p/src/event_loop.rs)

    Commands of the brain (p2p/src/command.rs, sent by the client of p2p/src/lib.rs),
    events of the swarm and the timeouts of requests, and the tasks they start. The
    tasks work on the tracker of FileTracker.v; they interleave wherever they are not
    in a critical section of the tracker. A panic of one task ends the process (the
    release profile has panic = "abort"), so it is a [Panic] of the node. *)

From S2P Require Import Prelude Domain FileReader SendManager FileTracker TrackerInvariant BrainTypes.

(** ** Commands *)

(** [enum P2pCommand]; a sender is the number of its channel. *)
Inductive P2pCommand `{!BrainKeys} :=
| StartListening (addr : string) (sender : nat)
| SendFiles (files_to_send : list FileToSend) (sender : nat)
| InitialFilesToSend (files_to_send : list FileToSend) (sender : nat)
| GetNodeInfo (sender : nat)
| CancelFile (file_id : FylesId) (sender : nat)
| CancelFilesForRemoteFilerequest (target_filerequest_id : FylesId) (peer_id : PeerId) (sender : nat)
| UpdateIdentity (contact_id : ContactId) (keys : Keys)
| UseSelfContactInviteChallenge (invite_code : Challenge) (peer_id : string)
| UseContactShareChallenge (share_code : Challenge) (peer_id : string)
| ApplySettings (settings : list Z) (sender : nat).

Inductive CommandAnswer :=
| AnswerUnit (r : result unit unit)
| AnswerBool (r : result bool unit)
| AnswerInfo (info : NodeStatusInfo).

(** The swarm, the sessions and the requests that carry challenges; libp2p's parser
    of peer ids. *)
Class LoopEnv (W : Type) `{!BrainKeys} := {
  parse_peer_id : string -> option PeerId;
  swarm_listen_on : string -> W -> bool * W;
  swarm_status : W -> PeerId * list string * list string * Z;
  session_update_identity : ContactId -> Keys -> W -> W;
  send_self_contact_invite : PeerId -> Challenge -> W -> W;
  send_contact_share : PeerId -> Challenge -> W -> W;
}.

(** ** The client (p2p/src/lib.rs)

    The methods of the trait NetworkNode send a command and wait for its answer. *)
Inductive NetworkCall `{!BrainKeys} :=
| CallSendFiles (files_to_send : list FileToSend)
| CallInitialFilesToSend (files : list FileToSend)
| CallGetNodeInfo
| CallCancelFile (file_id : FylesId)
| CallCancelFilesForRemoteFilerequest (target_filerequest_id : FylesId) (peer_id : string)
| CallUpdateIdentity (contact_id : ContactId) (keys : Keys)
| CallUseSelfContactInvite (invite_code : Challenge) (peer_id : string)
| CallUseContactShareChallenge (share_code : Challenge) (peer_id : string)
| CallApplySettings (settings : list Z).

(** The command on a new channel; None is the panic of [unwrap_thing]. *)
Definition client_command {W} `{!BrainKeys} `{!LoopEnv W} (call : NetworkCall) (sender : nat) : option P2pCommand :=
  match call with
  | CallSendFiles files => Some (SendFiles files sender)
  | CallInitialFilesToSend files => Some (InitialFilesToSend files sender)
  | CallGetNodeInfo => Some (GetNodeInfo sender)
  | CallCancelFile file_id => Some (CancelFile file_id sender)
  | CallCancelFilesForRemoteFilerequest target peer_id =>
      (fun peer => CancelFilesForRemoteFilerequest target peer sender) <$> parse_peer_id peer_id
  | CallUpdateIdentity contact_id keys => Some (UpdateIdentity contact_id keys)
  | CallUseSelfContactInvite code peer_id => Some (UseSelfContactInviteChallenge code peer_id)
  | CallUseContactShareChallenge code peer_id => Some (UseContactShareChallenge code peer_id)
  | CallApplySettings settings => Some (ApplySettings settings sender)
  end.

(** [receiver.await.to_arced_dyn_err()?.auto_map_err()]; a dropped channel is None. *)
Definition client_unit_result (answer : option CommandAnswer) : result unit P2pError :=
  match answer with Some (AnswerUnit (Ok _)) => Ok tt | _ => Err UnspecifiedError end.

(** ** Tasks

    What tokio::spawn starts; a task that goes on after a critical section is a task
    again. *)
Inductive task `{!BrainKeys} :=
| TListen (addr : string) (sender : nat)
| TSendFiles (files : list FileToSend) (sender : nat)
| TInitialFiles (files : list FileToSend) (sender : nat)
| TNodeInfo (sender : nat)
| TCancelFile (file_id : FylesId) (sender : nat)
| TCancelTarget (target : FylesId) (peer : PeerId) (sender : nat)
| TUpdateIdentity (contact_id : ContactId) (keys : Keys)
| TSelfContactInvite (peer : PeerId) (code : Challenge)
| TContactShare (peer : PeerId) (code : Challenge)
| TTrigger (peer : PeerId)
| TConnected (peer : PeerId) (dialer : bool)
| TDisconnected (peer : PeerId)
| TDialError (peer : option PeerId)
| TResponse (node : PeerId) (connected : option ContactId) (request_id : option Z) (r : FileResponse)
| TAfter (node : PeerId) (connected : option ContactId) (a : after)
| TError (node : PeerId) (e : ReceiveError).

(** Events of the swarm and timeouts. Events that are only logged are [OtherEvent];
    what the transport makes of filerequest messages is [FilerequestResponse] and
    [FilerequestError]. A discovered address can be that of a relay. *)
Inductive SwarmEvent :=
| Discovered (peers : list (PeerId * bool))
| ConnectionEstablished (peer : PeerId) (dialer : bool)
| ConnectionClosed (peer : PeerId) (num_established : Z)
| OutgoingConnectionError (peer : option PeerId)
| FilerequestResponse (node : PeerId) (connected : option ContactId) (request_id : option Z) (r : FileResponse)
| FilerequestFailure (node : PeerId) (e : ReceiveError)
| FilerequestTimeout (node : PeerId)
| OtherEvent.

Section EventLoop.
Context {W F E : Type} `{!AsyncFile F E} `{!TrackerEnv W F E} `{!BrainKeys} `{!LoopEnv W}.
Context (chunk_size : nat) (start_timestamp : Z).

(** [struct EventLoopData]: tracker and dials that are waited for; the tasks that
    run, and the answers given. Whoever sends a command waits for its answer, so that
    the answers can be sent. *)
Record event_loop := mk_loop {
  file_tracker : tracker W F E;
  pending_dial : gmap PeerId nat;
  tasks : list task;
  answered : list (nat * CommandAnswer);
}.
Implicit Types (l : event_loop).

Definition set_tracker (t : tracker W F E) l : event_loop :=
  mk_loop t (pending_dial l) (tasks l) (answered l).
Definition spawn (ts : list task) l : event_loop :=
  mk_loop (file_tracker l) (pending_dial l) (tasks l ++ ts) (answered l).
Definition reply (sender : nat) (a : CommandAnswer) l : event_loop :=
  mk_loop (file_tracker l) (pending_dial l) (tasks l) (answered l ++ [(sender, a)]).
Definition take_dial (peer : PeerId) (a : CommandAnswer) l : event_loop :=
  match pending_dial l !! peer with
  | Some sender =>
      reply sender a (mk_loop (file_tracker l) (delete peer (pending_dial l)) (tasks l) (answered l))
  | None => l
  end.

(** A call of the tracker, and a change of the surroundings. *)
Definition on_tracker {A} (m : M W F E A) (k : A -> event_loop -> event_loop) l : outcome event_loop :=
  let? (a, t) := m (file_tracker l) in Ret (k a (set_tracker t l)).
Definition on_world (f : W -> W) l : event_loop :=
  set_tracker (set_world (file_tracker l) (f (world (file_tracker l)))) l.

(** ** Handlers *)

Definition handle_command (command : P2pCommand) l : event_loop :=
  match command with
  | StartListening addr sender => spawn [TListen addr sender] l
  | SendFiles files sender => spawn [TSendFiles files sender] l
  | InitialFilesToSend files sender => spawn [TInitialFiles files sender] l
  | GetNodeInfo sender => spawn [TNodeInfo sender] l
  | CancelFile file_id sender => spawn [TCancelFile file_id sender] l
  | CancelFilesForRemoteFilerequest target peer sender => spawn [TCancelTarget target peer sender] l
  | UpdateIdentity contact_id keys => spawn [TUpdateIdentity contact_id keys] l
  | UseSelfContactInviteChallenge code peer_id =>
      match parse_peer_id peer_id with Some peer => spawn [TSelfContactInvite peer code] l | None => l end
  | UseContactShareChallenge code peer_id =>
      match parse_peer_id peer_id with Some peer => spawn [TContactShare peer code] l | None => l end
  | ApplySettings _ sender => reply sender (AnswerUnit (Ok tt)) l
  end.

Definition handle_discovered_peer (x : PeerId * bool) : list task :=
  let (peer, circuit) := x in if circuit : bool then [] else [TTrigger peer].

Definition handle_local_event (event : SwarmEvent) l : event_loop :=
  match event with
  | Discovered peers => spawn (flat_map handle_discovered_peer peers) l
  | ConnectionEstablished peer dialer => spawn [TConnected peer dialer] l
  | ConnectionClosed peer num_established => if num_established =? 0 then spawn [TDisconnected peer] l else l
  | OutgoingConnectionError peer => spawn [TDialError peer] l
  | FilerequestResponse node connected request_id r => spawn [TResponse node connected request_id r] l
  | FilerequestFailure node e => spawn [TError node e] l
  | FilerequestTimeout node => spawn [TError node (LocalError LTimeout)] l
  | OtherEvent => l
  end.

(** ** Running a task *)

Definition new_pending_file (f : FileToSend) : PendingFile :=
  mk_pending_file (fts_id f) (fts_contact_id f) (fts_file_path f) 0 (fts_filerequest_id f) SPending None [].
Definition initial_pending_file (f : FileToSend) : PendingFile :=
  mk_pending_file (fts_id f) (fts_contact_id f) (fts_file_path f) (fts_retry_count f) (fts_filerequest_id f)
    (fts_status f) None [].

Definition handle_connection_established (peer : PeerId) (dialer : bool) l : outcome event_loop :=
  let l := if dialer then take_dial peer (AnswerUnit (Ok tt)) l else l in
  on_tracker (has_pending_files_for peer) (fun pending l => if pending : bool then spawn [TTrigger peer] l else l) l.

Definition handle_dial_error (peer : option PeerId) l : event_loop :=
  match peer with Some peer => take_dial peer (AnswerUnit (Err tt)) l | None => l end.

Definition get_node_info l : NodeStatusInfo :=
  let '(peer_id, external, internal, connected) := swarm_status (world (file_tracker l)) in
  mk_node_status peer_id external internal connected start_timestamp.

(** The loops over files, one file at a time. [unwrap_thing] panics on an invalid
    peer id. *)
Definition send_files (files : list FileToSend) (sender : nat) l : outcome event_loop :=
  match files with
  | [] => Ret (reply sender (AnswerUnit (Ok tt)) l)
  | f :: files =>
      match parse_peer_id (fts_peer_id f) with
      | None => Panic
      | Some peer =>
          on_tracker (add_pending_file peer (new_pending_file f)) (fun _ => spawn [TTrigger peer; TSendFiles files sender]) l
      end
  end.

Definition initial_files_to_send (files : list FileToSend) (sender : nat) l : outcome event_loop :=
  match files with
  | [] => Ret (reply sender (AnswerUnit (Ok tt)) l)
  | f :: files =>
      match parse_peer_id (fts_peer_id f) with
      | None => Panic
      | Some peer =>
          on_tracker (add_pending_file peer (initial_pending_file f)) (fun _ => spawn [TInitialFiles files sender]) l
      end
  end.

(** The result is the new state without the task. *)
Definition run_task (t : task) l : outcome event_loop :=
  match t with
  | TListen addr sender =>
      let (listening, w) := swarm_listen_on addr (world (file_tracker l)) in
      Ret (reply sender (AnswerUnit (if listening : bool then Ok tt else Err tt)) (on_world (fun _ => w) l))
  | TSendFiles files sender => send_files files sender l
  | TInitialFiles files sender => initial_files_to_send files sender l
  | TNodeInfo sender => Ret (reply sender (AnswerInfo (get_node_info l)) l)
  | TCancelFile file_id sender =>
      on_tracker (cancel_file chunk_size file_id)
        (fun cancelled => reply sender (AnswerBool (Ok (bool_decide (is_Some cancelled))))) l
  | TCancelTarget target peer sender =>
      on_tracker (cancel_file_by_target chunk_size target peer)
        (fun cancelled => reply sender (AnswerBool (Ok (bool_decide (is_Some cancelled))))) l
  | TUpdateIdentity contact_id keys => Ret (on_world (session_update_identity contact_id keys) l)
  | TSelfContactInvite peer code => Ret (on_world (send_self_contact_invite peer code) l)
  | TContactShare peer code => Ret (on_world (send_contact_share peer code) l)
  | TTrigger peer => on_tracker (trigger_interaction_with chunk_size peer) (fun _ l => l) l
  | TConnected peer dialer => handle_connection_established peer dialer l
  | TDisconnected peer => on_tracker (reset_for_disconnected_peer peer) (fun _ l => l) l
  | TDialError peer => Ret (handle_dial_error peer l)
  | TResponse _ _ _ AcknowledgeProtocolViolation => Ret l
  | TResponse node connected request_id r =>
      on_tracker (locked (response_section chunk_size node connected request_id r))
        (fun a => spawn [TAfter node connected a]) l
  | TAfter node connected ASendChunks =>
      on_tracker (send_chunks_step chunk_size node connected)
        (fun go_on l => if go_on : bool then spawn [TAfter node connected ASendChunks] l else l) l
  | TAfter node connected a => on_tracker (run_after chunk_size node connected a) (fun _ l => l) l
  | TError node e => on_tracker (handle_receive_error chunk_size node e) (fun _ l => l) l
  end.

(** ** Runs *)

Definition loop_new (w : W) : event_loop := mk_loop (tracker_new w) ∅ [] [].

Definition remove_task (i : nat) l : event_loop :=
  mk_loop (file_tracker l) (pending_dial l) (delete i (tasks l)) (answered l).

(** What the node is given *)
Inductive input :=
| Command (c : P2pCommand)
| Event (e : SwarmEvent).

(** [runs w history l]: from the start, given the inputs [history], in any order of
    commands, events and tasks. The rest of the program changes the surroundings at
    any time. *)
Inductive runs (w : W) : list input -> event_loop -> Prop :=
| run_start : runs w [] (loop_new w)
| run_command history l c : runs w history l -> runs w (history ++ [Command c]) (handle_command c l)
| run_event history l e : runs w history l -> runs w (history ++ [Event e]) (handle_local_event e l)
| run_any_task history l l' i t :
    runs w history l -> tasks l !! i = Some t -> run_task t (remove_task i l) = Ret l' -> runs w history l'
| run_world history l f : runs w history l -> runs w history (on_world f l).
End EventLoop.
