(* ===== verification/NodeRuns.v ===== *)
(** * Properties of the running node

    The event loop of EventLoop.v does with the tracker what its inputs call for,
    answers every command once, and queues the files it is given. *)

From S2P Require Import Prelude Domain FileReader SendManager FileTracker TrackerInvariant BrainTypes EventLoop.

Section Runs.
Context {W F E : Type} `{!AsyncFile F E} `{!TrackerEnv W F E} `{!BrainKeys} `{!LoopEnv W}.
Context (chunk_size : nat) (start_timestamp : Z).
Implicit Types (l : event_loop (W := W) (F := F) (E := E)) (s : tracker W F E).

Abbreviation run_task := (run_task chunk_size start_timestamp).
Abbreviation runs := (runs chunk_size start_timestamp).
Abbreviation reachable := (reachable chunk_size).
Abbreviation operation := (tracker_op (W := W)).

(** ** The tracker *)

(** A query under the lock changes nothing. *)
Lemma query_same {A} (f : tracker W F E -> A) s a s' :
  locked (fun s => Ret (f s, s)) s = Ret (a, s') -> s' = s.
Proof. unfold locked. destruct s as [fs [] tr w]; [done|]. by intros [= _ <-]. Qed.

Lemma has_pending_same peer s a s' : has_pending_files_for peer s = Ret (a, s') -> s' = s.
Proof. apply (query_same (fun s => match files s !! peer with Some p => negb (bool_decide (pf_pending p = [])) | None => false end)). Qed.

(** *** What the inputs call for

    The operations of the tracker that an input calls for, whatever the state; those
    of a response are the critical section that looks at it. *)
Definition adds (pending : FileToSend -> PendingFile) (trigger : bool) (f : FileToSend) : list operation :=
  match parse_peer_id (fts_peer_id f) with
  | Some peer => OpAdd peer (pending f) :: if trigger then [OpTrigger peer] else []
  | None => []
  end.

Definition response_op node connected request_id (r : FileResponse) : list operation :=
  match r with AcknowledgeProtocolViolation => [] | _ => [OpSection node connected request_id r] end.

Definition called_for (x : input) : list operation :=
  match x with
  | Command (SendFiles fs _) => flat_map (adds new_pending_file true) fs
  | Command (InitialFilesToSend fs _) => flat_map (adds initial_pending_file false) fs
  | Command (CancelFile file_id _) => [OpCancel file_id]
  | Command (CancelFilesForRemoteFilerequest target peer _) => [OpCancelTarget target peer]
  | Command _ => []
  | Event (Discovered peers) => map (fun x => OpTrigger x.1) (List.filter (fun x => negb x.2) peers)
  | Event (ConnectionClosed peer num_established) => if num_established =? 0 then [OpDisconnected peer] else []
  | Event (FilerequestResponse node connected request_id r) => response_op node connected request_id r
  | Event (FilerequestFailure node e) => [OpError node e]
  | Event (FilerequestTimeout node) => [OpError node (LocalError LTimeout)]
  | Event _ => []
  end.

(** What a new connection may call for besides: it depends on the queue of the peer. *)
Definition may_call_for (x : input) : list operation :=
  match x with Event (ConnectionEstablished peer _) => [OpTrigger peer] | _ => [] end.

(** What a running task has yet to do. *)
Definition owed (t : task) : list operation :=
  match t with
  | TSendFiles fs _ => flat_map (adds new_pending_file true) fs
  | TInitialFiles fs _ => flat_map (adds initial_pending_file false) fs
  | TCancelFile file_id _ => [OpCancel file_id]
  | TCancelTarget target peer _ => [OpCancelTarget target peer]
  | TTrigger peer => [OpTrigger peer]
  | TDisconnected peer => [OpDisconnected peer]
  | TResponse node connected request_id r => response_op node connected request_id r
  | TError node e => [OpError node e]
  | _ => []
  end.
Definition may_owe (t : task) : list operation := match t with TConnected peer _ => [OpTrigger peer] | _ => [] end.

(** The operations that inputs call for; the others follow from a response, or are
    changes of the surroundings. *)
Definition direct (op : operation) : bool :=
  match op with
  | OpAdd _ _ | OpTrigger _ | OpCancel _ | OpCancelTarget _ _ | OpDisconnected _ | OpSection _ _ _ _ | OpError _ _ => true
  | _ => false
  end.

(** The responses that an operation, a task or an input goes on with *)
Definition op_response (op : operation) : list (PeerId * option ContactId) :=
  match op with OpAfter node connected _ | OpChunks node connected => [(node, connected)] | _ => [] end.
Definition task_response (t : task) : list (PeerId * option ContactId) :=
  match t with TResponse node connected _ _ | TAfter node connected _ => [(node, connected)] | _ => [] end.
Definition input_response (x : input) : list (PeerId * option ContactId) :=
  match x with Event (FilerequestResponse node connected _ _) => [(node, connected)] | _ => [] end.

(** A sequence of operations *)
Inductive op_runs : list operation -> tracker W F E -> tracker W F E -> Prop :=
| ops_nil s : op_runs [] s s
| ops_snoc ops op s s1 s2 : op_runs ops s s1 -> run_op chunk_size op s1 = Ret (tt, s2) -> op_runs (ops ++ [op]) s s2.

Lemma op_runs_one op s s' : run_op chunk_size op s = Ret (tt, s') -> op_runs [op] s s'.
Proof. intros Hop. by apply (ops_snoc [] op s s s'); [constructor|]. Qed.

Lemma op_runs_app ops1 ops2 s1 s2 s3 : op_runs ops1 s1 s2 -> op_runs ops2 s2 s3 -> op_runs (ops1 ++ ops2) s1 s3.
Proof. intros H1. induction 1; [by rewrite app_nil_r|]. rewrite app_assoc. econstructor; [by apply IHop_runs|done]. Qed.

Lemma op_runs_reachable ops w s : op_runs ops (tracker_new w) s -> reachable w s.
Proof. remember (tracker_new w) as s0 eqn:E0. induction 1; subst; [constructor|]. econstructor; [by apply IHop_runs|done]. Qed.

(** What a task does: operations, and tasks that it starts. *)
Record does (t : task) l l' (ops : list operation) (new : list task) : Prop := {
  does_tasks : tasks l' = tasks l ++ new;
  does_runs : op_runs ops (file_tracker l) (file_tracker l');
  does_owed : exists extra, List.filter direct ops ++ flat_map owed new ≡ₚ owed t ++ extra /\ extra ⊆+ may_owe t;
  does_may_owe : flat_map may_owe new = [];
  does_response : flat_map op_response ops ++ flat_map task_response new ⊆ task_response t;
}.

Lemma does_nothing t l l' : file_tracker l' = file_tracker l -> tasks l' = tasks l -> owed t = [] -> does t l l' [] [].
Proof.
  intros Ht Hs Ho. split; cbn; [by rewrite app_nil_r| rewrite Ht; constructor| |done|set_solver].
  exists []. rewrite Ho. split; [done|apply submseteq_nil_l].
Qed.

Lemma does_world t f l l' :
  file_tracker l' = file_tracker (on_world f l) -> tasks l' = tasks l -> owed t = [] -> does t l l' [OpWorld (f (world (file_tracker l)))] [].
Proof.
  intros Ht Hs Ho. split; cbn; [by rewrite app_nil_r|rewrite Ht; by apply op_runs_one| |done|set_solver].
  exists []. rewrite Ho. split; [done|apply submseteq_nil_l].
Qed.

(** A task whose work is one operation. *)
Lemma does_op {A} t (m : M W F E A) k op (new : A -> list task) l l' :
  (forall a l, file_tracker (k a l) = file_tracker l /\ tasks (k a l) = tasks l ++ new a) ->
  (forall s, run_op chunk_size op s = (do! m in ret tt) s) ->
  (forall a, List.filter direct [op] ++ flat_map owed (new a) ≡ₚ owed t) ->
  (forall a, flat_map may_owe (new a) = []) ->
  (forall a, op_response op ++ flat_map task_response (new a) ⊆ task_response t) ->
  on_tracker m k l = Ret l' -> exists ops new, does t l l' ops new.
Proof.
  intros Hk Hop Ho Hm Hr E'. unfold on_tracker in E'. apply outcome_bind_ret in E' as [[a s] [Em E']]. injection E' as <-.
  destruct (Hk a (set_tracker s l)) as [Hft Hts]. exists [op], (new a). split.
  - exact Hts.
  - rewrite Hft. apply op_runs_one. rewrite Hop. unfold bind. by rewrite Em.
  - exists []. rewrite app_nil_r. split; [apply Ho|apply submseteq_nil_l].
  - apply Hm.
  - cbn. by rewrite app_nil_r.
Qed.

Lemma bind_ret_tt (m : M W F E unit) s : (do! m in ret tt) s = m s.
Proof. unfold bind, ret. by destruct (m s) as [[[] ?]| | |]. Qed.

Lemma take_dial_same peer a l : file_tracker (take_dial peer a l) = file_tracker l /\ tasks (take_dial peer a l) = tasks l.
Proof. unfold take_dial. by destruct (pending_dial l !! peer). Qed.

(** The operation of a task without a result, with the tasks that it always starts. *)
Ltac one_op op new :=
  eapply (does_op _ _ _ op (fun _ => new)); [| | | | |eassumption];
  [intros; cbn; by rewrite ?app_nil_r|intros; by rewrite ?bind_ret_tt|done|done|set_solver].

Lemma send_files_does pending trigger fs n l l' (again : list FileToSend -> nat -> task) :
  (forall fs n, owed (again fs n) = flat_map (adds pending trigger) fs /\ may_owe (again fs n) = [] /\ task_response (again fs n) = []) ->
  match fs with
  | [] => Ret (reply n (AnswerUnit (Ok tt)) l)
  | f :: fs =>
      match parse_peer_id (fts_peer_id f) with
      | None => Panic
      | Some peer => on_tracker (add_pending_file peer (pending f))
          (fun _ => spawn ((if trigger then [TTrigger peer] else []) ++ [again fs n])) l
      end
  end = Ret l' ->
  exists ops new, does (again fs n) l l' ops new.
Proof.
  intros Ha E'. destruct fs as [|f fs].
  - injection E' as <-. exists [], []. apply does_nothing; [done..|]. by rewrite (proj1 (Ha [] n)).
  - destruct (parse_peer_id (fts_peer_id f)) as [peer|] eqn:Ep; [|done].
    eapply (does_op _ _ _ (OpAdd peer (pending f)) (fun _ => (if trigger then [TTrigger peer] else []) ++ [again fs n])); [| | | | |exact E'].
    + done.
    + intros. by rewrite bind_ret_tt.
    + intros _. rewrite (proj1 (Ha (f :: fs) n)). cbn [flat_map]. unfold adds at 1. rewrite Ep.
      destruct trigger; cbn; by rewrite (proj1 (Ha fs n)), app_nil_r.
    + intros _. destruct (Ha fs n) as (_ & Hm & _). destruct trigger; cbn; by rewrite Hm.
    + intros _. destruct (Ha fs n) as (_ & _ & Hr). destruct trigger; cbn; rewrite Hr; set_solver.
Qed.

Lemma run_task_does t l l' : run_task t l = Ret l' -> exists ops new, does t l l' ops new.
Proof.
  intros E'. destruct t; cbn [EventLoop.run_task] in E'.
  - destruct (swarm_listen_on addr _) as [b w]. injection E' as <-. do 2 eexists. by apply (does_world _ (fun _ => w)).
  - by apply (send_files_does new_pending_file true files sender l l' TSendFiles).
  - by apply (send_files_does initial_pending_file false files sender l l' TInitialFiles).
  - injection E' as <-. exists [], []. by apply does_nothing.
  - one_op (OpCancel (W := W) file_id) (@nil task).
  - one_op (OpCancelTarget (W := W) target peer) (@nil task).
  - injection E' as <-. do 2 eexists. by apply does_world.
  - injection E' as <-. do 2 eexists. by apply does_world.
  - injection E' as <-. do 2 eexists. by apply does_world.
  - one_op (OpTrigger (W := W) peer) (@nil task).
  - unfold handle_connection_established, on_tracker in E'. apply outcome_bind_ret in E' as [[a s] [Em E']].
    injection E' as <-. apply has_pending_same in Em as ->. exists [], (if a then [TTrigger peer] else []).
    pose proof (take_dial_same peer (AnswerUnit (Ok tt)) l) as [Ht1 Ht2].
    split; destruct a, dialer; cbn; rewrite ?Ht1, ?Ht2, ?app_nil_r; try done; try constructor; try set_solver.
    all: first [by exists [OpTrigger peer] | exists []; split; [done|apply submseteq_nil_l]].
  - one_op (OpDisconnected (W := W) peer) (@nil task).
  - injection E' as <-. exists [], []. destruct peer as [peer|]; apply does_nothing; try done; apply take_dial_same.
  - destruct r; try (injection E' as <-; exists [], []; by apply does_nothing).
    all: match goal with H : on_tracker (locked (response_section _ _ _ _ ?r)) _ _ = _ |- _ =>
      eapply (does_op _ _ _ (OpSection node connected request_id r) (fun a => [TAfter node connected a])); [| | | | |exact H];
      [done|done|done|done|set_solver] end.
  - destruct a.
    4: { eapply (does_op _ _ _ (OpChunks node connected) (fun go_on : bool => if go_on then [TAfter node connected ASendChunks] else []));
         [| | | | |exact E'];
         [intros [] ?; cbn; by rewrite ?app_nil_r|done|by intros []|by intros []|intros []; set_solver]. }
    all: match goal with H : on_tracker (run_after _ _ _ ?a) _ _ = _ |- _ => one_op (OpAfter (W := W) node connected a) (@nil task) end.
  - one_op (OpError (W := W) node e) (@nil task).
Qed.

Lemma handle_command_tasks c l :
  file_tracker (handle_command c l) = file_tracker l /\
  exists new, tasks (handle_command c l) = tasks l ++ new /\
    flat_map owed new = called_for (Command c) /\ flat_map may_owe new = [] /\ flat_map task_response new = [].
Proof.
  destruct c; cbn [handle_command]; try destruct (parse_peer_id _); (split; [done|]);
    first [eexists [_]; cbn; rewrite ?app_nil_r; done | exists []; cbn; by rewrite app_nil_r].
Qed.

Lemma discovered_tasks peers (new := flat_map handle_discovered_peer peers) :
  flat_map owed new = called_for (Event (Discovered peers)) /\ flat_map may_owe new = [] /\ flat_map task_response new = [].
Proof.
  subst new. induction peers as [|[peer []] peers (IH1 & IH2 & IH3)]; cbn in *; [done..|]. by rewrite IH1.
Qed.

Lemma handle_event_tasks e l :
  file_tracker (handle_local_event e l) = file_tracker l /\
  exists new, tasks (handle_local_event e l) = tasks l ++ new /\
    flat_map owed new = called_for (Event e) /\ flat_map may_owe new = may_call_for (Event e) /\
    flat_map task_response new = input_response (Event e).
Proof.
  destruct e as [peers| |peer n| | | | |]; cbn [handle_local_event]; try destruct (n =? 0) eqn:En.
  1: { split; [done|]. exists (flat_map handle_discovered_peer peers). split; [done|]. apply discovered_tasks. }
  all: split; [done|]; first [eexists [_]; cbn; rewrite ?En, ?app_nil_r; done | exists []; cbn; rewrite ?En, ?app_nil_r; done].
Qed.

(** The state of a node and the operations that led there, given its inputs. *)
Record accounted (w : W) (history : list input) l (ops : list operation) : Prop := {
  acc_runs : op_runs ops (tracker_new w) (file_tracker l);
  acc_owed : exists extra, List.filter direct ops ++ flat_map owed (tasks l) ≡ₚ flat_map called_for history ++ extra /\
    extra ++ flat_map may_owe (tasks l) ⊆+ flat_map may_call_for history;
  acc_response : flat_map op_response ops ++ flat_map task_response (tasks l) ⊆ flat_map input_response history;
}.

Lemma accounted_input w history l ops x l' new :
  accounted w history l ops -> file_tracker l' = file_tracker l -> tasks l' = tasks l ++ new ->
  flat_map owed new = called_for x -> flat_map may_owe new = may_call_for x -> flat_map task_response new = input_response x ->
  accounted w (history ++ [x]) l' ops.
Proof.
  intros [Hr (extra & Ho & Hm) Hp] Hft Hts Eo Em Ep. split.
  - by rewrite Hft.
  - exists extra. rewrite Hts, !flat_map_app. cbn. rewrite Eo, Em, !app_nil_r. split.
    + rewrite (app_assoc (List.filter direct ops)), Ho, <- !app_assoc. f_equiv. apply Permutation_app_comm.
    + rewrite app_assoc. by apply submseteq_app.
  - rewrite Hts, !flat_map_app. cbn. rewrite Ep, app_nil_r. set_solver.
Qed.

Lemma tasks_remove {A} (f : task -> list A) i t l :
  tasks l !! i = Some t -> flat_map f (tasks l) ≡ₚ f t ++ flat_map f (tasks (remove_task i l)).
Proof.
  intros Ht. cbn. rewrite <- (take_drop_middle (tasks l) i t Ht) at 1. rewrite delete_take_drop, !flat_map_app. cbn. solve_Permutation.
Qed.

Lemma accounted_task w history l ops i t l' :
  accounted w history l ops -> tasks l !! i = Some t -> run_task t (remove_task i l) = Ret l' ->
  exists ops', accounted w history l' (ops ++ ops').
Proof.
  intros [Hr (extra & Ho & Hm) Hp] Ht (ops' & new & [Hts Hr' (extra' & Ho' & Hm') Hmo Hp'])%run_task_does. exists ops'. split.
  - by eapply op_runs_app.
  - exists (extra' ++ extra). rewrite (tasks_remove owed i t l Ht) in Ho. rewrite (tasks_remove may_owe i t l Ht) in Hm.
    rewrite Hts, !flat_map_app, List.filter_app, Hmo, app_nil_r. split.
    + transitivity ((List.filter direct ops' ++ flat_map owed new) ++ List.filter direct ops ++ flat_map owed (tasks (remove_task i l)));
        [solve_Permutation|]. rewrite Ho'. transitivity (extra' ++ (List.filter direct ops ++ owed t ++ flat_map owed (tasks (remove_task i l))));
        [solve_Permutation|]. rewrite Ho. solve_Permutation.
    + etransitivity; [|exact Hm]. rewrite <- app_assoc.
      transitivity (may_owe t ++ extra ++ flat_map may_owe (tasks (remove_task i l))); [by apply submseteq_skips_r|].
      apply Permutation_submseteq. solve_Permutation.
  - rewrite Hts, !flat_map_app. pose proof (tasks_remove task_response i t l Ht) as He. intros x Hx.
    apply Hp. rewrite He. set_solver.
Qed.

Lemma runs_accounted w history l : runs w history l -> exists ops, accounted w history l ops.
Proof.
  induction 1 as [|history l c _ [ops IH]|history l e _ [ops IH]|history l l' i t _ [ops IH] Ht Er|history l f _ [ops IH]].
  - exists []. split; cbn; [constructor| |set_solver]. exists []. split; [done|apply submseteq_nil_l].
  - destruct (handle_command_tasks c l) as (Hft & new & Hts & Ho & Hm & Hp). exists ops. by eapply accounted_input.
  - destruct (handle_event_tasks e l) as (Hft & new & Hts & Ho & Hm & Hp). exists ops. by eapply accounted_input.
  - destruct (accounted_task _ _ _ _ _ _ _ IH Ht Er) as [ops' H']. eauto.
  - exists (ops ++ [OpWorld (f (world (file_tracker l)))]). destruct IH as [Hr Ho Hp]. split.
    + by econstructor.
    + by rewrite List.filter_app, app_nil_r.
    + by rewrite flat_map_app, app_nil_r.
Qed.

(** C37 (refinement). The node does with its tracker what it is told, and nothing else.
    Whatever commands, swarm events and timeouts arrive, and however the tasks they
    start interleave, the state of the tracker is that after a sequence of its
    operations in which each input occurs with the operations it calls for: a file to
    send is added once, for its own peer, and that peer is triggered; a peer is reset
    when its last connection is closed, and only then; every response, failure and
    timeout is handled once, for its peer. What is missing is owed by tasks that still
    run; what there is besides is a trigger for an established connection at most, and
    the continuations of responses that arrived. *)
Theorem node_refines_tracker w history l :
  runs w history l ->
  exists ops extra,
    op_runs ops (tracker_new w) (file_tracker l) /\
    List.filter direct ops ++ flat_map owed (tasks l) ≡ₚ flat_map called_for history ++ extra /\
    extra ⊆+ flat_map may_call_for history /\
    flat_map op_response ops ⊆ flat_map input_response history.
Proof.
  intros (ops & [Hr (extra & Ho & Hm) Hp])%runs_accounted. exists ops, extra. split_and!; [done|done| |set_solver].
  etransitivity; [|exact Hm]. by apply submseteq_inserts_r.
Qed.

(** ** Answers *)

Inductive answer_kind := UnitAnswer | BoolAnswer | InfoAnswer.

Definition kind_of (a : CommandAnswer) : answer_kind :=
  match a with AnswerUnit _ => UnitAnswer | AnswerBool _ => BoolAnswer | AnswerInfo _ => InfoAnswer end.

(** The channel of a command, and what its answer is to be *)
Definition expects (x : input) : list (nat * answer_kind) :=
  match x with
  | Command (StartListening _ n | SendFiles _ n | InitialFilesToSend _ n | ApplySettings _ n) => [(n, UnitAnswer)]
  | Command (CancelFile _ n | CancelFilesForRemoteFilerequest _ _ n) => [(n, BoolAnswer)]
  | Command (GetNodeInfo n) => [(n, InfoAnswer)]
  | _ => []
  end.

Definition task_sender (t : task) : list (nat * answer_kind) :=
  match t with
  | TListen _ n | TSendFiles _ n | TInitialFiles _ n => [(n, UnitAnswer)]
  | TCancelFile _ n | TCancelTarget _ _ n => [(n, BoolAnswer)]
  | TNodeInfo n => [(n, InfoAnswer)]
  | _ => []
  end.

Definition given l : list (nat * answer_kind) := map (fun x => (x.1, kind_of x.2)) (answered l).

(** Every channel, by where it is: answered, or held by a task. *)
Definition channels l : list (nat * answer_kind) := given l ++ flat_map task_sender (tasks l).

Lemma channels_spawn ts l : channels (spawn ts l) ≡ₚ flat_map task_sender ts ++ channels l.
Proof. unfold channels, given. cbn. rewrite flat_map_app. solve_Permutation. Qed.

Lemma channels_reply n a l : channels (reply n a l) ≡ₚ (n, kind_of a) :: channels l.
Proof. unfold channels, given. cbn. rewrite map_app. cbn. solve_Permutation. Qed.

Lemma channels_take_dial peer a l : pending_dial l = ∅ -> take_dial peer a l = l.
Proof. intros Hd. unfold take_dial. by rewrite Hd. Qed.

Lemma channels_remove i t l : tasks l !! i = Some t -> task_sender t ++ channels (remove_task i l) ≡ₚ channels l.
Proof. intros Ht. unfold channels, given. rewrite (tasks_remove task_sender i t l Ht). cbn. solve_Permutation. Qed.

(** A call of the tracker leaves the rest alone. *)
Lemma on_tracker_run {A} (m : M W F E A) k l l' :
  on_tracker m k l = Ret l' -> exists a t, l' = k a (set_tracker t l).
Proof. intros E'. unfold on_tracker in E'. apply outcome_bind_ret in E' as [[a t] [_ E']]. injection E' as <-. eauto. Qed.

Lemma run_task_channels t l l' :
  pending_dial l = ∅ -> run_task t l = Ret l' -> channels l' ≡ₚ task_sender t ++ channels l /\ pending_dial l' = ∅.
Proof.
  intros Hd E'. destruct t; cbn [EventLoop.run_task task_sender] in *; unfold send_files, initial_files_to_send in *.
  - destruct (swarm_listen_on addr _) as [b w]. injection E' as <-. by rewrite channels_reply.
  - destruct files as [|f fs]; [injection E' as <-; by rewrite channels_reply|]. destruct (parse_peer_id _) as [peer|]; [|done].
    apply on_tracker_run in E' as (a & t & ->). by rewrite channels_spawn.
  - destruct files as [|f fs]; [injection E' as <-; by rewrite channels_reply|]. destruct (parse_peer_id _) as [peer|]; [|done].
    apply on_tracker_run in E' as (a & t & ->). by rewrite channels_spawn.
  - injection E' as <-. by rewrite channels_reply.
  - apply on_tracker_run in E' as (a & t & ->). by rewrite channels_reply.
  - apply on_tracker_run in E' as (a & t & ->). by rewrite channels_reply.
  - by injection E' as <-.
  - by injection E' as <-.
  - by injection E' as <-.
  - by apply on_tracker_run in E' as (a & t & ->).
  - unfold handle_connection_established in E'. apply on_tracker_run in E' as (a & t & ->).
    destruct dialer; rewrite ?channels_take_dial by done; destruct a; rewrite ?channels_spawn; done.
  - by apply on_tracker_run in E' as (a & t & ->).
  - injection E' as <-. unfold handle_dial_error. destruct peer; [|done]. by rewrite channels_take_dial.
  - destruct r; try (by injection E' as <-); apply on_tracker_run in E' as (a & t & ->); by rewrite channels_spawn.
  - destruct a; apply on_tracker_run in E' as (a & t & ->); try done. destruct a; rewrite ?channels_spawn; done.
  - by apply on_tracker_run in E' as (a & t & ->).
Qed.

Lemma discovered_senders peers : flat_map task_sender (flat_map handle_discovered_peer peers) = [].
Proof. induction peers as [|[peer []] peers IH]; cbn; done. Qed.

Lemma runs_channels w history l : runs w history l -> channels l ≡ₚ flat_map expects history /\ pending_dial l = ∅.
Proof.
  induction 1 as [|history l c _ [IH Hd]|history l e _ [IH Hd]|history l l' i t _ [IH Hd] Ht Er|history l f _ [IH Hd]].
  - done.
  - rewrite flat_map_app, <- IH. destruct c; cbn [handle_command]; try destruct (parse_peer_id _);
      rewrite ?channels_spawn, ?channels_reply; cbn; (split; [solve_Permutation|done]).
  - rewrite flat_map_app, <- IH. destruct e as [peers| | | | | | |]; cbn [handle_local_event]; try destruct (_ =? 0);
      rewrite ?channels_spawn, ?discovered_senders; cbn; (split; [solve_Permutation|done]).
  - apply run_task_channels in Er as [-> ->]; [|done]. by rewrite (channels_remove i t l Ht), IH.
  - by rewrite <- IH.
Qed.

(** C38 (invariant). Every command with a channel is answered, once and with an answer
    of its kind: in every state that the node comes to, the channels of the commands so
    far are, each exactly once, answered so or held by a task that still runs; none is
    dropped. When no task runs any more, every command has its answer. *)
Theorem commands_are_answered_once w history l :
  runs w history l ->
  map (fun x => (x.1, kind_of x.2)) (answered l) ++ flat_map task_sender (tasks l) ≡ₚ flat_map expects history /\
  (tasks l = [] -> map (fun x => (x.1, kind_of x.2)) (answered l) ≡ₚ flat_map expects history).
Proof.
  intros Hr. apply runs_channels in Hr as [Hc _]. split; [exact Hc|]. intros Ht. unfold channels in Hc. rewrite Ht in Hc.
  cbn in Hc. by rewrite app_nil_r in Hc.
Qed.

(** ** Queuing *)

(** The files queued for a peer. *)
Definition queue l (peer : PeerId) : list PendingFile :=
  match files (file_tracker l) !! peer with Some p => pf_pending p | None => [] end.

(** The task started last runs, [n] times. *)
Fixpoint run_last (n : nat) l : outcome (event_loop (W := W) (F := F) (E := E)) :=
  match n with
  | O => Ret l
  | S n =>
      match last (tasks l) with
      | Some t => let? l := run_task t (remove_task (pred (length (tasks l))) l) in run_last n l
      | None => Ret l
      end
  end.

Lemma run_last_spawn n t l : run_last (S n) (spawn [t] l) = let? l := run_task t l in run_last n l.
Proof.
  cbn [run_last]. unfold spawn at 1. cbn [tasks]. rewrite last_snoc. f_equal. f_equal. destruct l as [ft pd ts an]. unfold remove_task. cbn.
  f_equal. rewrite length_app, Nat.add_1_r. cbn. by rewrite delete_middle, app_nil_r.
Qed.

Lemma add_pending_queue peer (f : PendingFile) l :
  lock (file_tracker l) = false -> status_waiting (pf_status f) ->
  exists t, add_pending_file peer f (file_tracker l) = Ret (tt, t) /\ lock t = false /\
    forall k, queue (set_tracker t l) k = queue l k ++ if decide (k = peer) then [f] else [].
Proof.
  intros Hl Hf. unfold add_pending_file, bind, locked. rewrite Hl. unfold status_waiting in Hf.
  assert (forall s, (match pf_status f with
      | SPending | SInProgress (mk_in_progress Interrupted _) =>
          let! entry := lookup_peer peer in
          let p := default (mk_peer_files [] None) entry in
          do! set_peer peer (mk_peer_files (pf_pending p ++ [f]) (pf_sending p)) in ret true
      | _ => ret false
      end) s = Ret (true, mk_tracker (<[peer := mk_peer_files (pf_pending (default (mk_peer_files [] None) (files s !! peer)) ++ [f])
          (pf_sending (default (mk_peer_files [] None) (files s !! peer)))]> (files s)) (lock s) (trace s) (world s))) as Hs.
  { intros s. destruct (pf_status f) as [|[[] td]| | | |]; done. }
  unfold bind in Hs. rewrite Hs. cbn. eexists. split_and!; [done|done|]. intros k. unfold queue. cbn. case_decide as Hk.
  - subst k. rewrite lookup_insert_eq. cbn. by destruct (files (file_tracker l) !! peer).
  - rewrite lookup_insert_ne by congruence. by rewrite app_nil_r.
Qed.

(** The files of a list that are meant for a peer, as they are queued. *)
Definition queued_for (peer : PeerId) (fs : list FileToSend) : list PendingFile :=
  map initial_pending_file (filter (fun f => parse_peer_id (fts_peer_id f) = Some peer) fs).

Lemma queued_ids peer fs : map pf_id (queued_for peer fs) `sublist_of` map fts_id fs.
Proof.
  unfold queued_for. induction fs as [|f fs IH]; [done|]. rewrite filter_cons. case_decide; cbn; by constructor.
Qed.

Lemma initial_step f fs n m l peer :
  lock (file_tracker l) = false -> parse_peer_id (fts_peer_id f) = Some peer -> status_waiting (fts_status f) ->
  exists l1, run_last (S m) (spawn [TInitialFiles (f :: fs) n] l) = run_last m (spawn [TInitialFiles fs n] l1) /\
    lock (file_tracker l1) = false /\ tasks l1 = tasks l /\ answered l1 = answered l /\
    forall k, queue l1 k = queue l k ++ queued_for k [f].
Proof.
  intros Hl Hp Hs. rewrite run_last_spawn. cbn [EventLoop.run_task initial_files_to_send]. rewrite Hp. unfold on_tracker.
  destruct (add_pending_queue peer (initial_pending_file f) l Hl Hs) as (t & -> & Ht & Hq). cbn [outcome_bind].
  exists (set_tracker t l). split_and!; try done. intros k. rewrite Hq. f_equal. unfold queued_for. cbn.
  repeat case_decide; try done; congruence.
Qed.

Lemma initial_run good rest n m l :
  lock (file_tracker l) = false ->
  Forall (fun f => is_Some (parse_peer_id (fts_peer_id f)) /\ status_waiting (fts_status f)) good ->
  exists l1, run_last (length good + m) (spawn [TInitialFiles (good ++ rest) n] l) = run_last m (spawn [TInitialFiles rest n] l1) /\
    lock (file_tracker l1) = false /\ tasks l1 = tasks l /\ answered l1 = answered l /\
    forall k, queue l1 k = queue l k ++ queued_for k good.
Proof.
  intros Hl HF. revert l Hl. induction HF as [|f good [[peer Hp] Hs] HF IH]; intros l Hl.
  - exists l. split_and!; try done. intros k. by rewrite app_nil_r.
  - destruct (initial_step f (good ++ rest) n (length good + m) l peer Hl Hp Hs) as (l1 & E1 & Hl1 & T1 & A1 & Q1).
    destruct (IH l1 Hl1) as (l2 & E2 & Hl2 & T2 & A2 & Q2). exists l2.
    cbn [length app Nat.add]. rewrite E1, E2, T2, A2, T1, A1. split_and!; try done.
    intros k. rewrite Q2, Q1, <- app_assoc. f_equal. unfold queued_for. cbn. by case_decide.
Qed.

(** A peer id that cannot be read ends the process. *)
Lemma unreadable_peer_ends_process fs n l :
  lock (file_tracker l) = false -> Forall (fun f => status_waiting (fts_status f)) fs ->
  Exists (fun f => parse_peer_id (fts_peer_id f) = None) fs ->
  run_last (S (length fs)) (handle_command (InitialFilesToSend fs n) l) = Panic.
Proof.
  intros Hl Hs Hx. cbn [handle_command]. revert l Hl Hs. induction fs as [|f fs IH]; intros l Hl Hs; [by apply Exists_nil in Hx|].
  apply Forall_cons in Hs as [Hf Hs]. cbn [length]. destruct (parse_peer_id (fts_peer_id f)) as [peer|] eqn:Ep.
  - destruct (initial_step f fs n (S (length fs)) l peer Hl Ep Hf) as (l1 & -> & Hl1 & _).
    apply Exists_cons in Hx as [Hx|Hx]; [congruence|]. by apply IH.
  - rewrite run_last_spawn. cbn [EventLoop.run_task initial_files_to_send]. by rewrite Ep.
Qed.
End Runs.
