(* ===== verification/Brain.v ===== *)
(** * The brain

    core/src/core/brain.rs, brain/handle_action.rs and brain/stale_cleanup.rs: one
    definition per action of the client and of the network node. The database, the
    node, clocks and the frontend are the classes of BrainTypes.v over a world [W];
    the disk is reached through [HostController]. A handler runs in a state monad
    over the world, the data of the brain and its mutex, and the log of answers. The
    program spawns a task per action; here an action is one step, and tasks meet in
    the mutex, which a task that blocks never gives back. *)

From S2P Require Import Prelude Domain TtlMap ReceiveManager HostPath HostController DriveHandler BrainTypes.

(** [struct EphemeralBrainData]; a queued request is the channel of its answer. *)
Record EphemeralBrainData (St : Type) := mk_ephemeral {
  successfully_started : bool;
  queued_wait_for_ready_requests : option (BoundedList nat);
  self_contact_invite_challenges : TtlSet St;
  contact_share_challenges : TtlSet St;
}.
Arguments mk_ephemeral {St}.
Arguments successfully_started {St}.
Arguments queued_wait_for_ready_requests {St}.
Arguments self_contact_invite_challenges {St}.
Arguments contact_share_challenges {St}.

Definition minute : Z := 60 * second.

Definition ephemeral_new {St : Type} `{!ExpiringSet Challenge St} : EphemeralBrainData St :=
  mk_ephemeral false (Some (bounded_new 25)) (ttl_set_new minute) (ttl_set_new (2 * minute)).

(** The answers, by the type of the channel. *)
Inductive Response (C F E : Type) `{!BrainKeys} : Type :=
| RBool (b : bool)
| RFylesId (r : result FylesId (FilerequestError E))
| RFilerequest (r : result Filerequest (FilerequestError E))
| RUnitResult (r : result unit (FilerequestError E))
| RFilerequests (r : result (list Filerequest) (FilerequestError E))
| RString (r : result string (FilerequestError E))
| RNames (r : result (gmap ContactId string) (FilerequestError E))
| RContact (r : result Contact (FilerequestError E))
| RSelfContact (r : result SelfContact (FilerequestError E))
| RDisplayContacts (r : result (list DisplayContact) (FilerequestError E))
| RDisplayContact (r : result DisplayContact (FilerequestError E))
| RBoolResult (r : result bool (FilerequestError E))
| RNodeStatus (r : result NodeStatusInfo (FilerequestError E))
| RRemoteFilerequest (r : result RemoteFilerequest (FilerequestError E))
| RRemoteFilerequests (r : result (list RemoteFilerequest) (FilerequestError E))
| RFylesIds (r : result (list FylesId) (FilerequestError E))
| RPendingFile (r : result PendingFile (FilerequestError E))
| RPendingFiles (r : result (list PendingFile) (FilerequestError E))
| RReceivedFiles (r : result (list ReceivedFile) (FilerequestError E))
| RChallenge (c : Challenge)
| RUnit
| RBytes (r : result (list Z) (FilerequestError E))
| RDriveHandler (h : option (FilerequestDriveHandler C))
| RContinue (r : option (FilerequestContinueResponse (FilerequestDriveHandler C)))
| RNodeInfo (r : result (NodeInfo * list Z) (FilerequestError E))
| RPublicKeys (k : option PublicKeys)
| RKnown (r : result bool string)
| RFileMeta (r : result (FileMeta F) unit)
| RSelfContactOption (c : option SelfContact)
| RContactOption (c : option Contact).

Arguments RBool {C F E _}.
Arguments RFylesId {C F E _}.
Arguments RFilerequest {C F E _}.
Arguments RUnitResult {C F E _}.
Arguments RFilerequests {C F E _}.
Arguments RString {C F E _}.
Arguments RNames {C F E _}.
Arguments RContact {C F E _}.
Arguments RSelfContact {C F E _}.
Arguments RDisplayContacts {C F E _}.
Arguments RDisplayContact {C F E _}.
Arguments RBoolResult {C F E _}.
Arguments RNodeStatus {C F E _}.
Arguments RRemoteFilerequest {C F E _}.
Arguments RRemoteFilerequests {C F E _}.
Arguments RFylesIds {C F E _}.
Arguments RPendingFile {C F E _}.
Arguments RPendingFiles {C F E _}.
Arguments RReceivedFiles {C F E _}.
Arguments RChallenge {C F E _}.
Arguments RUnit {C F E _}.
Arguments RBytes {C F E _}.
Arguments RDriveHandler {C F E _}.
Arguments RContinue {C F E _}.
Arguments RNodeInfo {C F E _}.
Arguments RPublicKeys {C F E _}.
Arguments RKnown {C F E _}.
Arguments RFileMeta {C F E _}.
Arguments RSelfContactOption {C F E _}.
Arguments RContactOption {C F E _}.

Section Monad.
Context {C W F E St : Type} `{!BrainKeys}.

(** [struct Brain]: what its handlers change. [ephemeral_guard] says that a task
    holds the mutex of the ephemeral data. *)
Record brain := mk_brain {
  brain_world : W;
  ephemeral_data : EphemeralBrainData St;
  ephemeral_guard : bool;
  answers : list (nat * Response C F E);
}.

Definition BM (A : Type) : Type := brain -> outcome (A * brain).

Definition bret {A} (a : A) : BM A := fun b => Ret (a, b).
Definition bbind {A B} (m : BM A) (k : A -> BM B) : BM B := fun b => let? (a, b) := m b in k a b.

(** A call of the surroundings; a call of the host, which may panic; [expect]. *)
Definition call {A} (f : W -> A * W) : BM A := fun b =>
  let (a, w) := f (brain_world b) in
  Ret (a, mk_brain w (ephemeral_data b) (ephemeral_guard b) (answers b)).
Definition call_unit (f : W -> W) : BM unit := call (fun w => (tt, f w)).
Definition host {A} (m : io W (BoxedError E) A) : BM (result A (BoxedError E)) := fun b =>
  let? (r, w) := m (brain_world b) in
  Ret (r, mk_brain w (ephemeral_data b) (ephemeral_guard b) (answers b)).
Definition bexpect {A E'} (r : result A E') : BM A := fun b =>
  match r with Ok a => Ret (a, b) | Err _ => Panic end.

(** [if let Some(sender) = request.response_sender.timeout_lock().await.take()] and
    the send. *)
Definition respond (sender : option nat) (v : Response C F E) : BM unit := fun b =>
  match sender with
  | Some n => Ret (tt, mk_brain (brain_world b) (ephemeral_data b) (ephemeral_guard b) (answers b ++ [(n, v)]))
  | None => Ret (tt, b)
  end.

(** [self.ephemeral_data.timeout_lock().await]: in the release profile it waits
    without limit. *)
Definition lock_ephemeral : BM unit := fun b =>
  if ephemeral_guard b then Deadlock
  else Ret (tt, mk_brain (brain_world b) (ephemeral_data b) true (answers b)).
Definition unlock_ephemeral : BM unit := fun b =>
  Ret (tt, mk_brain (brain_world b) (ephemeral_data b) false (answers b)).
Definition get_ephemeral : BM (EphemeralBrainData St) := fun b => Ret (ephemeral_data b, b).
Definition put_ephemeral (d : EphemeralBrainData St) : BM unit := fun b =>
  Ret (tt, mk_brain (brain_world b) d (ephemeral_guard b) (answers b)).
End Monad.
Arguments brain C W F E St {_}.
Arguments BM C W F E St {_}.

Notation "'await' x ':=' m 'in' k" := (bbind m (fun x => k))
  (at level 10, x pattern, m at level 100, k at level 200) : fyles_scope.
Notation "'run!' m 'in' k" := (bbind m (fun _ => k))
  (at level 10, m at level 100, k at level 200) : fyles_scope.

Section Handlers.
Context {C W F E St : Type} `{!BrainKeys} `{!ExpiringSet Challenge St}.
Context `{!FilerequestDb W F} `{!NetworkNode W} `{!BrainEnv W} `{!HostController C W F E} `{!Sanitizer}.
Context (host_controller : C) (internal_data_dir : path).

Abbreviation M A := (BM C W F E St A).
Abbreviation Resp := (Response C F E).
Abbreviation FR A := (result A (FilerequestError E)).

(** [auto_map_err] for the two errors that occur. *)
Definition map_db {A} (r : result A DbError) : FR A :=
  match r with Ok a => Ok a | Err e => Err (DatabaseError e) end.
Definition map_p2p {A} (r : result A P2pError) : FR A :=
  match r with Ok a => Ok a | Err e => Err (P2pNodeError e) end.

(** The arms that ask the database once and pass the result on. *)
Definition answer {T A} (r : BrainRequest T) (wrap : FR A -> Resp) (f : W -> result A DbError * W) : M unit :=
  await result := call f in respond (response_sender r) (wrap (map_db result)).

(** A change of the ephemeral data under its mutex, at the time of the clock. *)
Definition change_ephemeral {A} (f : Z -> EphemeralBrainData St -> A * EphemeralBrainData St) : M A :=
  run! lock_ephemeral in
  await now := call brain_now in
  await d := get_ephemeral in
  let (a, d) := f now d in
  run! put_ephemeral d in
  run! unlock_ephemeral in bret a.

Definition push (m : ServerMessage) : M bool := call (client_push m).
Definition push_expect (m : ServerMessage) : M unit :=
  await sent := push m in bexpect (if sent : bool then Ok tt else Err tt).

(** ** Filerequests *)

Definition create_filerequest_action (r : BrainRequest CreateFilerequest) : M unit :=
  await result := call (db_create_filerequest (request r)) in
  match result with
  | Err e => respond (response_sender r) (RFylesId (Err (DatabaseError e)))
  | Ok id =>
      await creation_result :=
        host (host_create_filerequest_resource host_controller (Namespace (cfr_title (request r)) None)) in
      match creation_result with
      | Err _ =>
          run! call (db_delete_filerequest id) in
          respond (response_sender r)
            (RFylesId (Err (GenericError "Unable to create Filerequest because directory cannot be created")))
      | Ok _ => respond (response_sender r) (RFylesId (Ok id))
      end
  end.

(** The call of rename_filerquest on a handler made for it. *)
Definition rename_directory (filerequest : Filerequest) (title : string) : M bool := fun b =>
  let h := handler_new host_controller (fr_id filerequest) (fr_title filerequest) in
  let? (r, w) := rename_filerquest h title (brain_world b) in
  Ret (is_ok r, mk_brain w (ephemeral_data b) (ephemeral_guard b) (answers b)).

Definition update_filerequest_action (r : BrainRequest Filerequest) : M unit :=
  await filerequest := call (db_get_filerequest (fr_id (request r))) in
  match filerequest with
  | Err e => respond (response_sender r) (RUnitResult (Err (DatabaseError e)))
  | Ok filerequest =>
      await renamed :=
        if negb (bool_decide (fr_title filerequest = fr_title (request r)))
        then rename_directory filerequest (fr_title (request r))
        else bret true in
      if negb renamed
      then respond (response_sender r)
             (RUnitResult (Err (GenericError "Unable to rename Filerequest because directory cannot be renamed")))
      else answer r RUnitResult (db_update_filerequest (request r))
  end.

Definition delete_filerequest_action (r : BrainRequest FylesId) : M unit :=
  answer r RUnitResult (db_delete_filerequest (request r)).
Definition read_filerequest_action (r : BrainRequest FylesId) : M unit :=
  answer r RFilerequest (db_get_filerequest (request r)).
Definition list_filerequests_action (r : BrainRequest unit) : M unit :=
  answer r RFilerequests db_get_filerequests.

(** ** Contacts *)

Definition get_contact_name_action (r : BrainRequest ContactId) : M unit :=
  answer r RString (db_get_contact_name (request r)).
Definition get_contact_names_action (r : BrainRequest (list ContactId)) : M unit :=
  answer r RNames (db_get_contact_names (request r)).
Definition get_contact_action (r : BrainRequest ContactId) : M unit :=
  answer r RContact (db_get_contact (request r)).
Definition list_contacts_action (r : BrainRequest unit) : M unit :=
  answer r RDisplayContacts db_get_contacts.
Definition update_contact_action (r : BrainRequest DisplayContact) : M unit :=
  answer r RUnitResult (db_update_contact (request r)).
Definition delete_contact_action (r : BrainRequest ContactId) : M unit :=
  answer r RUnitResult (db_delete_contact (request r)).

Definition shutdown_action (r : BrainRequest unit) : M unit :=
  respond (response_sender r) (RBoolResult (Ok true)).

Definition get_node_status_action (r : BrainRequest unit) : M unit :=
  await result := call net_get_node_info in
  respond (response_sender r) (RNodeStatus (map_p2p result)).

(** ** Remote filerequests *)

Definition create_remote_filerequest_action (r : BrainRequest CreateRemoteFilerequest) : M unit :=
  answer r RFylesId (db_create_remote_filerequest (request r)).
Definition get_remote_filerequest_action (r : BrainRequest FylesId) : M unit :=
  answer r RRemoteFilerequest (db_get_remote_filerequest (request r)).
Definition get_remote_filerequests_by_contact_action (r : BrainRequest ContactId) : M unit :=
  answer r RRemoteFilerequests (db_get_remote_filerequests_by_contact (request r)).
Definition get_all_remote_filerequests_action (r : BrainRequest unit) : M unit :=
  answer r RRemoteFilerequests db_get_all_remote_filerequests.

Definition delete_remote_filerequest_action (r : BrainRequest FylesId) : M unit :=
  await filerequest := call (db_get_remote_filerequest (request r)) in
  match filerequest with
  | Err e => respond (response_sender r) (RBoolResult (Err (DatabaseError e)))
  | Ok filerequest =>
      await result := call (net_cancel_files_for_remote_filerequest
                              (rfr_filerequest_id filerequest) (rfr_peer_id filerequest)) in
      await result :=
        match result with
        | Err e => bret (Err (P2pNodeError e))
        | Ok _ =>
            await deleted := call (db_delete_remote_filerequest (request r)) in
            bret (map_db (match deleted with Ok _ => Ok true | Err e => Err e end))
        end in
      respond (response_sender r) (RBoolResult result)
  end.

Definition update_remote_filerequest_action (r : BrainRequest (FylesId * string)) : M unit :=
  answer r RUnitResult (db_update_remote_filerequest (fst (request r)) (snd (request r))).

(** ** Files to send *)

Definition new_files_to_send (filerequest : RemoteFilerequest) (ids : list FylesId) (infos : list FileInfo)
  : list FileToSend :=
  zip_with (fun id info =>
    mk_file_to_send id (rfr_peer_id filerequest) (rfr_contact_id filerequest) (rfr_filerequest_id filerequest)
      (fi_path info) 0 SPending) ids infos.

Definition create_pending_files_action (r : BrainRequest CreatePendingFiles) : M unit :=
  await filerequest := call (db_get_remote_filerequest (cp_target_filerequest_id (request r))) in
  match filerequest with
  | Err _ =>
      respond (response_sender r)
        (RFylesIds (Err (InputError ("No filerequest known with id " +:+ cp_target_filerequest_id (request r)))))
  | Ok filerequest =>
      await pending_file_id_res := call (db_create_pending_files (request r)) in
      run! match pending_file_id_res with
          | Ok ids =>
              await sent := call (net_send_files (new_files_to_send filerequest ids (cp_file_infos (request r)))) in
              bexpect sent
          | Err _ => bret tt
          end in
      respond (response_sender r) (RFylesIds (map_db pending_file_id_res))
  end.

Definition get_pending_file_action (r : BrainRequest FylesId) : M unit :=
  answer r RPendingFile (db_get_pending_file (request r)).
Definition get_pending_files_action (r : BrainRequest FylesId) : M unit :=
  answer r RPendingFiles (db_get_pending_files (request r)).
Definition get_all_pending_files_action (r : BrainRequest unit) : M unit :=
  answer r RPendingFiles db_get_all_pending_files.

(** The message of an error of the node is not kept. *)
Definition delete_pending_file_action (r : BrainRequest FylesId) : M unit :=
  await pending_file := call (db_get_pending_file (request r)) in
  match pending_file with
  | Err e => respond (response_sender r) (RUnitResult (Err (DatabaseError e)))
  | Ok pending_file =>
      match pf_status pending_file with
      | SPending | SInProgress _ =>
          await cancelled := call (net_cancel_file (request r)) in
          match cancelled with
          | Ok true => answer r RUnitResult (db_delete_pending_file (request r))
          | Ok false =>
              run! call (db_delete_pending_file (request r)) in
              respond (response_sender r)
                (RUnitResult (Err (DatabaseError (DbValidation "File exists in DB but not in P2P node"))))
          | Err _ =>
              respond (response_sender r)
                (RUnitResult (Err (DatabaseError (DbValidation "Failed to cancel file transfer"))))
          end
      | _ => answer r RUnitResult (db_delete_pending_file (request r))
      end
  end.

Definition get_node_peer_id_action (r : BrainRequest unit) : M unit :=
  await keys := call db_get_node_keys in
  match keys with
  | Ok keys =>
      await peer_id := call (fun w => (net_display_keypair (ni_node_key_pair keys) w, w)) in
      respond (response_sender r)
        (RString (match peer_id with Ok p => Ok p | Err _ => Err (GenericError "Failed to extract peer Id") end))
  | Err e => respond (response_sender r) (RString (Err (DatabaseError e)))
  end.

Definition list_received_files_action (r : BrainRequest FylesId) : M unit :=
  answer r RReceivedFiles (db_list_received_files (request r)).
Definition delete_received_file_action (r : BrainRequest FylesId) : M unit :=
  answer r RUnitResult (db_delete_received_file (request r)).
Definition update_self_contact_name_action (r : BrainRequest string) : M unit :=
  answer r RUnitResult (db_update_self_contact_name (request r)).

(** The guard of the match lives until its end, so the arm [None] asks for the
    mutex that the task holds; and the sender has been taken before. *)
Definition wait_for_ready_action (r : BrainRequest unit) : M unit :=
  match response_sender r with
  | Some sender =>
      run! lock_ephemeral in
      await d := get_ephemeral in
      match queued_wait_for_ready_requests d with
      | Some q =>
          let (_, q) := bounded_push sender q in
          run! put_ephemeral (mk_ephemeral (successfully_started d) (Some q)
                (self_contact_invite_challenges d) (contact_share_challenges d)) in
          unlock_ephemeral
      | None =>
          run! lock_ephemeral in
          await d := get_ephemeral in
          run! unlock_ephemeral in
          run! respond None (RBool (successfully_started d)) in
          unlock_ephemeral
      end
  | None => bret tt
  end.

(** ** Identity *)

Definition get_full_self_contact_action (r : BrainRequest unit) : M unit :=
  answer r RSelfContact db_get_self_contact.

Definition update_identity_client_action (r : BrainRequest SelfContact) : M unit :=
  await result := call (db_update_identity (request r)) in
  run! call_unit (net_update_identity (sc_id (request r)) (sc_keys (request r))) in
  respond (response_sender r) (RUnitResult (map_db result)).

Definition get_self_contact_display_action (r : BrainRequest unit) : M unit :=
  answer r RDisplayContact db_get_self_contact_for_display.
Definition share_public_self_contact_action (r : BrainRequest unit) : M unit :=
  answer r RContact db_get_sharable_public_self_contact.
Definition register_contact_action (r : BrainRequest Contact) : M unit :=
  answer r RUnitResult (db_register_contact (request r)).

(** ** Challenges *)

Definition with_invites (f : TtlSet St -> TtlSet St) (d : EphemeralBrainData St) : EphemeralBrainData St :=
  mk_ephemeral (successfully_started d) (queued_wait_for_ready_requests d)
    (f (self_contact_invite_challenges d)) (contact_share_challenges d).
Definition with_shares (f : TtlSet St -> TtlSet St) (d : EphemeralBrainData St) : EphemeralBrainData St :=
  mk_ephemeral (successfully_started d) (queued_wait_for_ready_requests d)
    (self_contact_invite_challenges d) (f (contact_share_challenges d)).

Definition register_self_contact_invite_action (r : BrainRequest unit) : M unit :=
  await challenge := call random_challenge in
  run! change_ephemeral (fun now d => (tt, with_invites (ttl_set_insert challenge now) d)) in
  respond (response_sender r) (RChallenge challenge).

Definition unregister_self_contact_invite_action (r : BrainRequest Challenge) : M unit :=
  run! change_ephemeral (fun now d => (tt, with_invites (fun s => snd (ttl_set_remove (request r) now s)) d)) in
  respond (response_sender r) RUnit.

Definition use_self_contact_invite_action (r : BrainRequest (Challenge * PeerId)) : M unit :=
  run! call_unit (net_use_self_contact_invite (fst (request r)) (snd (request r))) in
  respond (response_sender r) RUnit.

Definition register_contact_share_action (r : BrainRequest unit) : M unit :=
  await challenge := call random_challenge in
  run! change_ephemeral (fun now d => (tt, with_shares (ttl_set_insert challenge now) d)) in
  respond (response_sender r) (RChallenge challenge).

Definition unregister_contact_share_action (r : BrainRequest Challenge) : M unit :=
  run! change_ephemeral (fun now d => (tt, with_shares (fun s => snd (ttl_set_remove (request r) now s)) d)) in
  respond (response_sender r) RUnit.

Definition use_contact_share_action (r : BrainRequest (Challenge * PeerId)) : M unit :=
  run! call_unit (net_use_contact_share_challenge (fst (request r)) (snd (request r))) in
  respond (response_sender r) RUnit.

(** ** Backup and settings *)

Definition backup_data_action (r : BrainRequest unit) : M unit :=
  await backup_file := host (host_get_path_to_db_backup_file host_controller) in
  match backup_file with
  | Err e => respond (response_sender r) (RUnitResult (Err (HostError e)))
  | Ok file => answer r RUnitResult (db_backup_database file internal_data_dir)
  end.

Definition restore_data_action (r : BrainRequest string) : M unit :=
  await backup_file := host (host_access_file_for_reading host_controller (request r)) in
  match backup_file with
  | Err e => respond (response_sender r) (RUnitResult (Err (HostError e)))
  | Ok f =>
      await restored := call (db_restore_database (meta_file f)) in
      run! respond (response_sender r) (RUnitResult (map_db restored)) in
      match restored with
      | Err _ => bret tt
      | Ok _ => push_expect database_restored
      end
  end.

Definition update_settings_action (r : BrainRequest (list Z)) : M unit :=
  await apply_result := call (net_apply_settings (request r)) in
  match apply_result with
  | Err e => respond (response_sender r) (RUnitResult (Err (P2pNodeError e)))
  | Ok _ => answer r RUnitResult (db_store_settings (request r))
  end.

Definition get_settings_action (r : BrainRequest unit) : M unit := answer r RBytes db_get_settings.

Definition handle_client_action (action : Client.ClientAction) : M unit :=
  match action with
  | Client.CreateFilerequest r => create_filerequest_action r
  | Client.UpdateFilerequest r => update_filerequest_action r
  | Client.DeleteFilerequest r => delete_filerequest_action r
  | Client.ReadFilerequest r => read_filerequest_action r
  | Client.ListFilerequests r => list_filerequests_action r
  | Client.GetContactName r => get_contact_name_action r
  | Client.GetContactNames r => get_contact_names_action r
  | Client.GetContact r => get_contact_action r
  | Client.ListContacts r => list_contacts_action r
  | Client.UpdateContact r => update_contact_action r
  | Client.DeleteContact r => delete_contact_action r
  | Client.Shutdown r => shutdown_action r
  | Client.GetNodeStatus r => get_node_status_action r
  | Client.CreateRemoteFilerequest r => create_remote_filerequest_action r
  | Client.GetRemoteFilerequest r => get_remote_filerequest_action r
  | Client.GetRemoteFilerequestsByContact r => get_remote_filerequests_by_contact_action r
  | Client.GetAllRemoteFilerequests r => get_all_remote_filerequests_action r
  | Client.DeleteRemoteFilerequest r => delete_remote_filerequest_action r
  | Client.UpdateRemoteFilerequest r => update_remote_filerequest_action r
  | Client.CreatePendingFiles r => create_pending_files_action r
  | Client.GetPendingFile r => get_pending_file_action r
  | Client.GetPendingFiles r => get_pending_files_action r
  | Client.GetAllPendingFiles r => get_all_pending_files_action r
  | Client.DeletePendingFile r => delete_pending_file_action r
  | Client.GetNodePeerId r => get_node_peer_id_action r
  | Client.ListReceivedFilesForRequest r => list_received_files_action r
  | Client.DeleteReceivedFile r => delete_received_file_action r
  | Client.UpdateSelfContactName r => update_self_contact_name_action r
  | Client.WaitForReady r => wait_for_ready_action r
  | Client.GetFullSelfContact r => get_full_self_contact_action r
  | Client.UpdateIdentity r => update_identity_client_action r
  | Client.GetSelfContactDisplay r => get_self_contact_display_action r
  | Client.SharePublicSelfContact r => share_public_self_contact_action r
  | Client.RegisterContact r => register_contact_action r
  | Client.RegisterSelfContactInviteChallenge r => register_self_contact_invite_action r
  | Client.UnregisterSelfContactInviteChallenge r => unregister_self_contact_invite_action r
  | Client.UseSelfContactInviteChallenge r => use_self_contact_invite_action r
  | Client.RegisterContactShareChallenge r => register_contact_share_action r
  | Client.UnregisterContactShareChallenge r => unregister_contact_share_action r
  | Client.UseContactShareChallenge r => use_contact_share_action r
  | Client.BackupData r => backup_data_action r
  | Client.RestoreData r => restore_data_action r
  | Client.UpdateSettings r => update_settings_action r
  | Client.GetSettings r => get_settings_action r
  end.

(** ** Actions of the network node *)

(** The brain's own contact, on another device, may drop files everywhere. *)
Definition request_file_drop_action (r : BrainRequest FilerequestAccessRequest) : M unit :=
  await filerequest := call (db_get_filerequest (ar_filerequest_id (request r))) in
  match filerequest with
  | Ok filerequest =>
      if negb (fr_is_active filerequest) then respond (response_sender r) (RDriveHandler None)
      else
        await is_accessible :=
          match is_accessible_by (fr_access filerequest) (ar_contact_id (request r)), ar_contact_id (request r) with
          | false, Some maybe_me =>
              await self_contact := call db_get_self_contact in
              bret (match self_contact with Ok sc => bool_decide (sc_id sc = maybe_me) | Err _ => false end)
          | accessible, _ => bret accessible
          end in
        respond (response_sender r)
          (RDriveHandler (if is_accessible : bool
                          then Some (handler_new host_controller (fr_id filerequest) (fr_title filerequest))
                          else None))
  | Err _ => respond (response_sender r) (RDriveHandler None)
  end.

Definition continuation (r : FilerequestContinueRequest) (filerequest : result Filerequest DbError)
    (received_file : result ReceivedFile DbError)
  : option (FilerequestContinueResponse (FilerequestDriveHandler C)) :=
  match filerequest, received_file with
  | Ok filerequest, Ok rf =>
      if negb (fr_is_active filerequest) then None
      else if negb (is_accessible_by (fr_access filerequest) (cq_contact_id r)) then None
      else if negb (bool_decide (rf_peer_id rf = cq_peer_id r)) then None
      else if negb (bool_decide (rf_contact_id rf = cq_contact_id r)) then None
      else Some (mk_continue_response (handler_new host_controller (fr_id filerequest) (fr_title filerequest))
                   (rf_file_name rf) (rf_file_size_bytes rf) (rf_started_at_ms rf))
  | _, _ => None
  end.

Definition request_continuation_action (r : BrainRequest FilerequestContinueRequest) : M unit :=
  await received_file := call (db_get_received_file_by_transfer_id (cq_transfer_id (request r))) in
  await filerequest := call (db_get_filerequest (cq_filerequest_id (request r))) in
  respond (response_sender r) (RContinue (continuation (request r) filerequest received_file)).

Definition get_node_info_action (r : BrainRequest unit) : M unit :=
  await result := call db_get_node_keys in
  await settings := call db_get_settings in
  let persisted_settings := match settings with Ok v => v | Err _ => [] end in
  match result with
  | Ok node_info => respond (response_sender r) (RNodeInfo (Ok (node_info, persisted_settings)))
  | Err DataNotYetInitialized =>
      await keypair := call net_generate_keypair in
      await keypair := bexpect keypair in
      await contact_id := call new_contact_id in
      await keys := call new_contact_keys in
      let node_info := mk_node_info keypair contact_id keys in
      await stored := call (db_store_node_keys node_info) in
      run! bexpect stored in
      respond (response_sender r) (RNodeInfo (Ok (node_info, persisted_settings)))
  | Err _ => fun _ => Panic
  end.

(** *** Start-up *)

Definition is_continuable (file : PendingFile) : bool :=
  match pf_status file with SPending | SInProgress _ => true | _ => false end.

Definition index_remote_filerequests (l : list RemoteFilerequest) : gmap FylesId RemoteFilerequest :=
  foldl (fun m fr => <[rfr_id fr := fr]> m) ∅ l.

Definition startup_files (remote : gmap FylesId RemoteFilerequest) (files : list PendingFile)
  : list (PendingFile * RemoteFilerequest) :=
  omap (fun file => (fun fr => (file, fr)) <$> remote !! pf_target_filerequest_id file)
    (filter (fun file => is_continuable file = true) files).

(** The loop that resets files which were being sent. *)
Fixpoint reset_sending (files : list (PendingFile * RemoteFilerequest)) : M (list (PendingFile * RemoteFilerequest)) :=
  match files with
  | [] => bret []
  | (file, fr) :: files =>
      await file :=
        match pf_status file with
        | SInProgress (mk_in_progress Sending td) =>
            let file := pf_with_status file (SInProgress (mk_in_progress Interrupted td)) in
            await updated := call (db_update_pending_file_status (pf_id file) (pf_status file) None) in
            run! bexpect updated in bret file
        | _ => bret file
        end in
      await files := reset_sending files in
      bret ((file, fr) :: files)
  end.

Definition file_to_send (x : PendingFile * RemoteFilerequest) : FileToSend :=
  let (pending_file, remote_fr) := x in
  mk_file_to_send (pf_id pending_file) (rfr_peer_id remote_fr) (rfr_contact_id remote_fr)
    (rfr_filerequest_id remote_fr) (pf_file_path pending_file) (pf_retry_count pending_file) (pf_status pending_file).

Fixpoint answer_all (senders : list nat) : M unit :=
  match senders with
  | [] => bret tt
  | sender :: senders => run! respond (Some sender) (RBool true) in answer_all senders
  end.

Definition ready_action : M unit :=
  await remote := call db_get_all_remote_filerequests in
  await remote := bexpect remote in
  await pending := call db_get_all_pending_files in
  await pending := bexpect pending in
  await files := reset_sending (startup_files (index_remote_filerequests remote) pending) in
  run! lock_ephemeral in
  await d := get_ephemeral in
  run! put_ephemeral (mk_ephemeral true None (self_contact_invite_challenges d) (contact_share_challenges d)) in
  run! match queued_wait_for_ready_requests d with
      | Some senders => answer_all (bl_items senders)
      | None => bret tt
      end in
  run! call (net_initial_files_to_send (map file_to_send files)) in
  unlock_ephemeral.

(** *** Progress of files to send *)

Definition try_cleanup_source_file (pending_file_id : FylesId) : M unit :=
  await pending_file := call (db_get_pending_file pending_file_id) in
  match pending_file with
  | Err _ => bret tt
  | Ok pending_file =>
      await count := call (db_count_non_terminal_pending_files_for_path pending_file_id) in
      match count with
      | Ok count =>
          if count =? 0
          then run! host (host_remove_source_file_if_temporary host_controller (pf_file_path pending_file)) in bret tt
          else bret tt
      | Err _ => bret tt
      end
  end.

(** The start of all arms that change the status of a file to send. *)
Definition update_send_status (id : FylesId) (status : SendStatus) (retry_count : option Z) : M FylesId :=
  await target := call (db_update_pending_file_status id status retry_count) in
  bexpect target.

(** FileSent, FileRejected, FileFailed, FileMissing and FileIoError. *)
Definition file_finished_action (id : FylesId) (status : SendStatus) : M unit :=
  await target := update_send_status id status None in
  run! push (pending_file_status_changed id status target) in
  try_cleanup_source_file id.

Definition file_sending_action (id : FylesId) (status : SendStatus) : M unit :=
  await target := update_send_status id status None in
  run! push (pending_file_status_changed id status target) in bret tt.

Definition file_send_reset_action (id : FylesId) (status : SendStatus) (retry_count : option Z)
    (reason : option string) : M unit :=
  await target := update_send_status id status retry_count in
  run! match reason with
      | Some reason => run! call (db_add_interruption_reason id reason) in bret tt
      | None => bret tt
      end in
  run! push (pending_file_status_changed id status target) in bret tt.

(** *** Files received *)

Definition notify_received (rf : ReceivedFile) : M unit :=
  await contact_name :=
    match rf_contact_id rf with
    | Some id =>
        await name := call (db_get_contact_name id) in bret (result_ok name)
    | None => bret None
    end in
  await filerequest := call (db_get_filerequest (rf_filerequest_id rf)) in
  match filerequest with
  | Ok fr =>
      call_unit (send_notification (FileReceived contact_name (fr_title fr) (rf_file_name rf) (rf_file_size_bytes rf)))
  | Err _ => bret tt
  end.

Definition store_received_file_action (r : BrainRequest CompleteReceivedFile) : M unit :=
  await result := call (db_complete_received_file (request r)) in
  await received := call (db_get_received_file_by_transfer_id (cf_transfer_id (request r))) in
  run! match received with
      | Ok rf => run! push (received_file_status_changed rf) in bret tt
      | Err _ => bret tt
      end in
  run! respond (response_sender r) (RFylesId (map_db result)) in
  match received with
  | Ok rf => notify_received rf
  | Err _ => bret tt
  end.

Definition create_incoming_file_action (r : BrainRequest CreateIncomingFile) : M unit :=
  let req := request r in
  await result := call (db_create_incoming_file req) in
  run! match result with
      | Err _ => bret tt
      | Ok id =>
          run! push (received_file_status_changed
                 (mk_received_file id (ci_contact_id req) (ci_peer_id req) (ci_filerequest_id req)
                    (Some (ci_transfer_id req)) (ci_file_name req) None (ci_file_size_bytes req) 0 RReceiving
                    (ci_started_at_ms req) None)) in bret tt
      end in
  respond (response_sender r) (RFylesId (map_db result)).

Definition update_received_file_status_action (transfer_id : FylesId) (status : ReceiveStatus) (progress : Z)
  : M unit :=
  run! call (db_update_received_file_status transfer_id status progress) in
  await received := call (db_get_received_file_by_transfer_id transfer_id) in
  match received with
  | Ok rf => run! push (received_file_status_changed rf) in bret tt
  | Err _ => bret tt
  end.

Definition delete_received_by_transfer_action (transfer_id : FylesId) : M unit :=
  await received := call (db_get_received_file_by_transfer_id transfer_id) in
  match received with
  | Ok rf => run! call (db_delete_received_file (rf_id rf)) in bret tt
  | Err _ => bret tt
  end.

(** *** Contacts as the node sees them *)

Definition get_contact_public_keys_action (r : BrainRequest ContactId) : M unit :=
  await stored := call (db_get_contact_public_keys (request r)) in
  await keys :=
    match stored with
    | Ok (Some keys) => bret (Some keys)
    | _ =>
        await self_contact := call db_get_self_contact in
        bret (match self_contact with
              | Ok sc => if bool_decide (sc_id sc = request r) then Some (keys_public (sc_keys sc)) else None
              | Err _ => None
              end)
    end in
  respond (response_sender r) (RPublicKeys keys).

Definition is_contact_known_action (r : BrainRequest ContactId) : M unit :=
  await contact_name := call (db_get_contact_name (request r)) in
  respond (response_sender r)
    (RKnown (match contact_name with
             | Ok _ => Ok true
             | Err (DbNotFound _) => Ok false
             | Err _ => Err "Could not determine whether contact is known due to DB error"
             end)).

Definition open_file_for_reading_action (r : BrainRequest OpenFileForReadingRequest) : M unit :=
  await file := host (host_access_file_for_reading host_controller (of_uri (request r))) in
  run! match file with
      | Err _ => file_finished_action (of_id (request r)) SFailed
      | Ok _ => bret tt
      end in
  respond (response_sender r) (RFileMeta (match file with Ok f => Ok f | Err _ => Err tt end)).

Definition validate_self_contact_invite_action (r : BrainRequest Challenge) : M unit :=
  await removed :=
    change_ephemeral (fun now d =>
      let (removed, set) := ttl_set_remove (request r) now (self_contact_invite_challenges d) in
      (removed, with_invites (fun _ => set) d)) in
  if removed : bool then
    await self_contact := call db_get_self_contact in
    respond (response_sender r) (RSelfContactOption (result_ok self_contact))
  else respond (response_sender r) (RSelfContactOption None).

Definition validate_contact_share_action (r : BrainRequest Challenge) : M unit :=
  await contained :=
    change_ephemeral (fun now d => (ttl_set_contains (request r) now (contact_share_challenges d), d)) in
  if contained : bool then
    await contact := call db_get_sharable_public_self_contact in
    respond (response_sender r) (RContactOption (result_ok contact))
  else respond (response_sender r) (RContactOption None).

Definition update_identity_node_action (new_identity : SelfContact) : M unit :=
  await updated := call (db_update_identity new_identity) in
  match updated with
  | Ok _ =>
      run! call_unit (net_update_identity (sc_id new_identity) (sc_keys new_identity)) in
      push_expect received_self_contact_invite_over_network
  | Err _ => bret tt
  end.

Definition create_contact_action (contact : Contact) : M unit :=
  await registered := call (db_register_contact contact) in
  match registered with
  | Ok _ => push_expect contact_share_accepted_over_network
  | Err _ => bret tt
  end.

Definition handle_p2p_action (action : Node.NodeAction) : M unit :=
  match action with
  | Node.RequestFileDrop r => request_file_drop_action r
  | Node.RequestFileTransferContinuation r => request_continuation_action r
  | Node.GetNodeInfo r => get_node_info_action r
  | Node.Ready => ready_action
  | Node.FileSent id => file_finished_action id SSent
  | Node.FileSending id status => file_sending_action id status
  | Node.FileSendReset id status retry_count reason => file_send_reset_action id status retry_count reason
  | Node.FileRejected id => file_finished_action id SRejected
  | Node.FileFailed id => file_finished_action id SFailed
  | Node.FileMissing id => file_finished_action id SFailed
  | Node.FileIoError id => file_finished_action id SFailed
  | Node.StoreReceivedFile r => store_received_file_action r
  | Node.CreateIncomingFile r => create_incoming_file_action r
  | Node.UpdateReceivedFileStatus transfer_id status progress =>
      update_received_file_status_action transfer_id status progress
  | Node.DeleteReceivedFile transfer_id => delete_received_by_transfer_action transfer_id
  | Node.GetContactPublicKeys r => get_contact_public_keys_action r
  | Node.IsContactKnown r => is_contact_known_action r
  | Node.OpenFileForReading r => open_file_for_reading_action r
  | Node.ValidateSelfContactInviteChallenge r => validate_self_contact_invite_action r
  | Node.UpdateIdentity new_identity => update_identity_node_action new_identity
  | Node.AnsweredSelfContactInvite => push_expect self_contact_invite_accepted_over_network
  | Node.ValidateContactShareChallenge r => validate_contact_share_action r
  | Node.CreateContact contact => create_contact_action contact
  | Node.RejectedSelfContactInvite | Node.SelfContactInviteGotRejected
  | Node.AnsweredContactShare | Node.ContactShareGotRejected | Node.RejectedContactShare => bret tt
  end.

(** [enum BrainAction] and [handle_action] *)
Inductive BrainAction : Type :=
| ClientActionOf (a : Client.ClientAction)
| NetworkNodeActionOf (a : Node.NodeAction).

Definition handle_action (action : BrainAction) : M unit :=
  match action with
  | ClientActionOf a => handle_client_action a
  | NetworkNodeActionOf a => handle_p2p_action a
  end.

(** ** Cleanup of stale files *)

Definition DEFAULT_STALE_THRESHOLD_MS : Z := 7 * 24 * 60 * 60 * 1000.

Fixpoint remove_stale_received (files : list ReceivedFile) : M unit :=
  match files with
  | [] => bret tt
  | file :: files =>
      run! match rf_transfer_id file with
          | Some transfer_id =>
              let part_filename :=
                get_part_file_name (rf_started_at_ms file) transfer_id (rf_peer_id file) (rf_contact_id file) in
              run! host (host_remove_partial_file host_controller part_filename) in
              run! call (db_update_received_file_status transfer_id RFailed (rf_progress_bytes file)) in bret tt
          | None => bret tt
          end in
      remove_stale_received files
  end.

Definition structured_partial_cleanup : M unit :=
  await now := call brain_epoch_millis in
  match now with
  | None => bret tt
  | Some now =>
      await stale_files := call (db_get_stale_received_files (now - DEFAULT_STALE_THRESHOLD_MS)) in
      match stale_files with
      | Ok files => remove_stale_received files
      | Err _ => bret tt
      end
  end.

Definition is_stale_partial (threshold : Z) (file : string) : bool :=
  match parse_part_file_started_at_ms file with Some started_at => started_at <? threshold | None => false end.

Fixpoint remove_stale_partials (threshold : Z) (files : list string) : M unit :=
  match files with
  | [] => bret tt
  | file :: files =>
      run! if is_stale_partial threshold file
          then run! host (host_remove_partial_file host_controller file) in bret tt
          else bret tt in
      remove_stale_partials threshold files
  end.

Definition sweep_partial_cleanup : M unit :=
  await now := call brain_epoch_millis in
  match now with
  | None => bret tt
  | Some now =>
      await partial_files := host (host_list_partial_files host_controller) in
      match partial_files with
      | Ok files => remove_stale_partials (now - DEFAULT_STALE_THRESHOLD_MS) files
      | Err _ => bret tt
      end
  end.

Fixpoint remove_stale_outgoing (threshold : Z) (files : list OutgoingFileInfo) : M unit :=
  match files with
  | [] => bret tt
  | file :: files =>
      run! if modified_ms file <? threshold
          then run! host (host_remove_source_file_if_temporary host_controller (outgoing_path file)) in bret tt
          else bret tt in
      remove_stale_outgoing threshold files
  end.

Definition sweep_outgoing_files_cleanup : M unit :=
  await now := call brain_epoch_millis in
  match now with
  | None => bret tt
  | Some now =>
      await temp_files := host (host_list_temporary_outgoing_files host_controller) in
      match temp_files with
      | Ok files => remove_stale_outgoing (now - DEFAULT_STALE_THRESHOLD_MS) files
      | Err _ => bret tt
      end
  end.

Definition run_cleanups : M unit :=
  run! structured_partial_cleanup in
  run! sweep_partial_cleanup in
  sweep_outgoing_files_cleanup.
End Handlers.

(** The handlers, to be unfolded where every action is looked at; what only some of
    them are is left to those proofs. *)
Create HintDb brain_actions.
#[export] Hint Unfold create_filerequest_action update_filerequest_action delete_filerequest_action
  read_filerequest_action list_filerequests_action get_contact_name_action get_contact_names_action
  get_contact_action list_contacts_action update_contact_action delete_contact_action shutdown_action
  get_node_status_action create_remote_filerequest_action get_remote_filerequest_action
  get_remote_filerequests_by_contact_action get_all_remote_filerequests_action
  delete_remote_filerequest_action update_remote_filerequest_action create_pending_files_action
  get_pending_file_action get_pending_files_action get_all_pending_files_action delete_pending_file_action
  get_node_peer_id_action list_received_files_action delete_received_file_action
  update_self_contact_name_action get_full_self_contact_action update_identity_client_action
  get_self_contact_display_action share_public_self_contact_action register_contact_action
  register_self_contact_invite_action unregister_self_contact_invite_action use_self_contact_invite_action
  register_contact_share_action unregister_contact_share_action use_contact_share_action backup_data_action
  restore_data_action update_settings_action get_settings_action : brain_actions.
#[export] Hint Unfold request_file_drop_action request_continuation_action get_node_info_action
  file_sending_action file_send_reset_action update_send_status store_received_file_action notify_received
  create_incoming_file_action update_received_file_status_action delete_received_by_transfer_action
  get_contact_public_keys_action is_contact_known_action open_file_for_reading_action
  validate_contact_share_action update_identity_node_action create_contact_action answer call_unit
  push_expect push : brain_actions.
