(* ===== verification/BrainAccess.v ===== *)
(** * Who may send a file

    The brain's answers to the requests of the receiver, and the receiver joined to
    the brain: a transfer is accepted only with access to an active filerequest. *)

From S2P Require Import Prelude Domain TtlMap IdleExpiryMap ReceiveManager Receiver HostPath HostController FsController.
From S2P Require Import DriveHandler DriveSafety BrainTypes Brain.

Section Access.
Context {C W F E St : Type} `{!BrainKeys} `{!ExpiringSet Challenge St}.
Context `{!FilerequestDb W F} `{!NetworkNode W} `{!BrainEnv W} `{!HostController C W F E} `{!Sanitizer}.
Context (host_controller : C) (internal_data_dir : path).
Implicit Types (b : brain C W F E St) (w : W).

(** The result of a database query, and the world after it. *)
Abbreviation found q w a := (fst (q w) = Ok a).

(** ** File drops *)

(** The filerequest is active and its audience has the contact, or the contact is
    the owner of this node. *)
Definition may_drop (w : W) (filerequest_id : FylesId) (contact : option ContactId) (fr : Filerequest) : Prop :=
  found (db_get_filerequest filerequest_id) w fr /\ fr_is_active fr = true /\
  (is_accessible_by (fr_access fr) contact = true \/
   exists me sc, contact = Some me /\ found db_get_self_contact (db_get_filerequest filerequest_id w).2 sc /\ sc_id sc = me).

Lemma drop_answer (r : BrainRequest FilerequestAccessRequest) sender b :
  response_sender r = Some sender ->
  exists b' h, request_file_drop_action host_controller r b = Ret (tt, b') /\
    answers b' = answers b ++ [(sender, RDriveHandler h)] /\
    match h with
    | Some h => exists fr, may_drop (brain_world b) (ar_filerequest_id (request r)) (ar_contact_id (request r)) fr /\
                  h = handler_new host_controller (fr_id fr) (fr_title fr)
    | None => forall fr, ~ may_drop (brain_world b) (ar_filerequest_id (request r)) (ar_contact_id (request r)) fr
    end.
Proof.
  intros Hs. unfold request_file_drop_action, bbind, call, respond, may_drop. rewrite Hs.
  destruct (db_get_filerequest _ (brain_world b)) as [[fr|e] w1] eqn:Ef; cbn.
  2: { eexists _, None. split_and!; [done|done|]. by intros fr ([=] & _). }
  destruct (fr_is_active fr) eqn:Ea; cbn.
  2: { eexists _, None. split_and!; [done|done|]. intros fr' ([= <-] & ? & _). congruence. }
  destruct (is_accessible_by (fr_access fr) (ar_contact_id (request r))) eqn:Eacc; cbn.
  { eexists _, (Some _). split_and!; [done|done|]. exists fr. eauto. }
  destruct (ar_contact_id (request r)) as [me|] eqn:Ec; cbn.
  2: { eexists _, None. split_and!; [done|done|]. intros fr' ([= <-] & _ & [?|(? & ? & ? & _)]); congruence. }
  destruct (db_get_self_contact w1) as [[sc|e] w2] eqn:Es; cbn.
  - case_bool_decide as Eme.
    + eexists _, (Some _). split_and!; [done|done|]. exists fr. split; [|done]. split_and!; [done|done|].
      right. by exists me, sc.
    + eexists _, None. split_and!; [done|done|].
      intros fr' ([= <-] & _ & [?|(me' & sc' & [= <-] & Hsc & Hid)]); [congruence|].
      simpl in Hsc. congruence.
  - eexists _, None. split_and!; [done|done|].
    intros fr' ([= <-] & _ & [?|(me' & sc' & [= <-] & Hsc & Hid)]); [congruence|].
    by simpl in Hsc.
Qed.

(** ** Continuations *)

(** The filerequest is active, its audience has the contact, and the transfer is
    recorded for this peer and contact. *)
Definition may_continue (w : W) (q : FilerequestContinueRequest) (fr : Filerequest) (rf : ReceivedFile) : Prop :=
  found (db_get_received_file_by_transfer_id (cq_transfer_id q)) w rf /\
  found (db_get_filerequest (cq_filerequest_id q)) (db_get_received_file_by_transfer_id (cq_transfer_id q) w).2 fr /\
  fr_is_active fr = true /\ is_accessible_by (fr_access fr) (cq_contact_id q) = true /\
  rf_peer_id rf = cq_peer_id q /\ rf_contact_id rf = cq_contact_id q.

Lemma continue_answer (r : BrainRequest FilerequestContinueRequest) sender b :
  response_sender r = Some sender ->
  exists b' a, request_continuation_action host_controller r b = Ret (tt, b') /\
    answers b' = answers b ++ [(sender, RContinue a)] /\
    match a with
    | Some a => exists fr rf, may_continue (brain_world b) (request r) fr rf /\
        a = mk_continue_response (handler_new host_controller (fr_id fr) (fr_title fr))
              (rf_file_name rf) (rf_file_size_bytes rf) (rf_started_at_ms rf)
    | None => forall fr rf, ~ may_continue (brain_world b) (request r) fr rf
    end.
Proof.
  intros Hs. unfold request_continuation_action, bbind, call, respond, may_continue. rewrite Hs.
  destruct (db_get_received_file_by_transfer_id _ (brain_world b)) as [rr w1] eqn:Er; cbn.
  destruct (db_get_filerequest _ w1) as [rq w2] eqn:Ef; cbn.
  eexists _, _. split_and!; [done|done|]. unfold continuation.
  destruct rq as [fr|e]; [|(intros ? ? (E1' & E2' & ?); simpl in *; simplify_eq; naive_solver congruence)]. destruct rr as [rf|e]; [|(intros ? ? (E1' & E2' & ?); simpl in *; simplify_eq; naive_solver congruence)].
  destruct (fr_is_active fr) eqn:Ea; cbn; [|(intros ? ? (E1' & E2' & ?); simpl in *; simplify_eq; naive_solver congruence)].
  destruct (is_accessible_by _ _) eqn:Eacc; cbn; [|(intros ? ? (E1' & E2' & ?); simpl in *; simplify_eq; naive_solver congruence)].
  destruct (bool_decide (rf_peer_id rf = cq_peer_id (request r))) eqn:E1; bools; cbn; [|(intros ? ? (E1' & E2' & ?); simpl in *; simplify_eq; naive_solver congruence)].
  destruct (bool_decide (rf_contact_id rf = cq_contact_id (request r))) eqn:E2; bools; cbn; [|(intros ? ? (E1' & E2' & ?); simpl in *; simplify_eq; naive_solver congruence)].
  exists fr, rf. by split_and!.
Qed.

(** ** The receiver on top of the brain *)

Context {FH : Type} (base : ReceiverEnv W FH (FilerequestDriveHandler C)).

(** A request sent to the brain, and the answer on its channel. *)
Definition ask_brain {A} (m : BM C W F E St unit) (pick : Response C F E -> option A)
    (b : brain C W F E St) : outcome (option A * brain C W F E St) :=
  let? (_, b) := m b in
  match last (answers b) with
  | Some (_, v) => match pick v with Some a => Ret (Some a, b) | None => Panic end
  | None => Panic
  end.

Definition lift_world {A} (f : W -> A * W) (b : brain C W F E St) : A * brain C W F E St :=
  let (a, w) := f (brain_world b) in (a, mk_brain w (ephemeral_data b) (ephemeral_guard b) (answers b)).

Definition request_to {T} (q : T) : BrainRequest T := mk_brain_request q (Some 0%nat).

(** The surroundings of the receiver with the brain as it is; clocks, files and the
    drive handler are those of [base]. *)
Definition receiver_with_brain : ReceiverEnv (brain C W F E St) FH (FilerequestDriveHandler C) := {|
  instant_now := lift_world instant_now;
  unix_epoch_millis := lift_world unix_epoch_millis;
  random_draw b := let '(x, y, w) := random_draw (brain_world b) in
    (x, y, mk_brain w (ephemeral_data b) (ephemeral_guard b) (answers b));
  request_file_drop fr contact b :=
    let? (a, b) := ask_brain (handle_p2p_action host_controller (Node.RequestFileDrop (request_to (mk_access_request fr contact))))
                     (fun v => match v with RDriveHandler h => Some h | _ => None end) b in
    Ret (default None a, b);
  create_incoming_file q b :=
    let? (a, b) := ask_brain (handle_p2p_action host_controller (Node.CreateIncomingFile (request_to q)))
                     (fun v => match v with RFylesId r => Some (is_ok r) | _ => None end) b in
    Ret (default false a, b);
  request_file_transfer_continuation q b :=
    let? (a, b) := ask_brain (handle_p2p_action host_controller (Node.RequestFileTransferContinuation (request_to q)))
                     (fun v => match v with RContinue a => Some a | _ => None end) b in
    Ret (default None a, b);
  store_received_file q b :=
    let? (a, b) := ask_brain (handle_p2p_action host_controller (Node.StoreReceivedFile (request_to q)))
                     (fun v => match v with RFylesId r => Some (is_ok r) | _ => None end) b in
    Ret (default false a, b);
  update_received_file_status t s p b :=
    match handle_p2p_action host_controller (Node.UpdateReceivedFileStatus t s p) b with
    | Ret (_, b) => (true, b)
    | _ => (true, b)
    end;
  ReceiveManager.get_partial_file_for_writing h n := lift_world (ReceiveManager.get_partial_file_for_writing h n);
  ReceiveManager.remove_partial_file h n := lift_world (ReceiveManager.remove_partial_file h n);
  ReceiveManager.finalize_partial_file h p n := lift_world (ReceiveManager.finalize_partial_file h p n);
  metadata_len f := lift_world (metadata_len f);
  write_all f d := lift_world (write_all f d);
|}.

Lemma ask_brain_answer {A} (m : BM C W F E St unit) (pick : Response C F E -> option A) b b1 n v a :
  m b = Ret (tt, b1) -> answers b1 = answers b ++ [(n, v)] -> pick v = Some a -> ask_brain m pick b = Ret (Some a, b1).
Proof. intros Em Ea Ep. unfold ask_brain. rewrite Em. cbn. by rewrite Ea, last_snoc, Ep. Qed.

Lemma with_brain_drop fr contact b h b' :
  request_file_drop (ReceiverEnv := receiver_with_brain) fr contact b = Ret (Some h, b') ->
  exists f, may_drop (brain_world b) fr contact f /\ h = handler_new host_controller (fr_id f) (fr_title f).
Proof.
  intros E'. destruct (drop_answer (request_to (mk_access_request fr contact)) 0%nat b eq_refl) as (b1 & a & Em & Ha & Hm).
  cbn [request_file_drop receiver_with_brain handle_p2p_action] in E'. erewrite ask_brain_answer in E' by done.
  by injection E' as -> _.
Qed.

Lemma with_brain_continuation q b a b' :
  request_file_transfer_continuation (ReceiverEnv := receiver_with_brain) q b = Ret (Some a, b') ->
  exists f rf, may_continue (brain_world b) q f rf /\
    a = mk_continue_response (handler_new host_controller (fr_id f) (fr_title f))
          (rf_file_name rf) (rf_file_size_bytes rf) (rf_started_at_ms rf).
Proof.
  intros E'. destruct (continue_answer (request_to q) 0%nat b eq_refl) as (b1 & o & Em & Ha & Hm).
  cbn [request_file_transfer_continuation receiver_with_brain handle_p2p_action] in E'.
  erewrite ask_brain_answer in E' by done. by injection E' as -> _.
Qed.

(** Reading the clock changes nothing of the brain but its surroundings. *)
Lemma with_brain_clock b b' :
  clock_reads (ReceiverEnv0 := receiver_with_brain) b b' -> clock_reads (brain_world b) (brain_world b').
Proof.
  induction 1 as [|b b1 b2 -> _ IH]; [apply rtc_refl|]. eapply rtc_l; [|exact IH]. cbn. unfold lift_world.
  by destruct (instant_now (brain_world b)).
Qed.

(** C36 The receiver and the brain together: a peer's transfer is accepted only with
    access. Accepting a new transfer means that the brain, in the state of this very
    moment, has found the filerequest active and open to the contact, or that the contact is the owner of this node;
    continuing one means that the filerequest is active and open to the contact and
    that the transfer was recorded for this peer and contact, or that the receiver
    still has the transfer of this contact in memory. *)
Theorem accepted_transfer_has_access (files : FilerequestReceiver) node contact request b resp files' b' fr tid offset :
  respond_to (ReceiverEnv0 := receiver_with_brain) files node contact request b = Ret (resp, files', b') ->
  (exists name size, request = NewTransfer fr name size tid /\ resp = AcceptNewTransfer /\ offset = 0) \/
  (request = ContinueTransfer fr tid /\ resp = AcceptContinueTransfer offset) ->
  (exists w f, clock_reads (brain_world b) w /\ may_drop w fr contact f) \/
  (exists w f rf, clock_reads (brain_world b) w /\ may_continue w (mk_continue_request fr contact node tid) f rf) \/
  (exists mgr t, entries (now_entry (ReceiverEnv0 := receiver_with_brain) files node b).1.2 !! node = Some (mk_timed mgr t) /\
     belongs_to mgr contact fr tid).
Proof.
  intros E' Hreq. destruct (acceptance_presupposes _ _ _ _ _ _ _ _ _ _ _ E' Hreq) as [_ [Hd|[Hc|Hm]]].
  - destruct Hd as (b1 & dh & b2 & Hr%with_brain_clock & Hd). apply with_brain_drop in Hd as (f & Hf & _). left. eauto.
  - destruct Hc as (b1 & a & b2 & Hr%with_brain_clock & Hc). apply with_brain_continuation in Hc as (f & rf & Hf & _).
    right; left. eauto 6.
  - by right; right.
Qed.
End Access.
