(* ===== verification/BrainAnswers.v ===== *)
(** * The answers of the brain

    Every request is answered exactly once; waiting for readiness, and what it does
    to the brain after it is ready. *)

From S2P Require Import Prelude Domain TtlMap ReceiveManager HostPath HostController FsController DriveHandler.
From S2P Require Import BrainTypes Brain.

Create HintDb replies.

(** What the handlers need of the host: its operations return; opening a file for
    reading may panic. *)
Class HostReturns (C W F E : Type) `{!HostController C W F E} : Prop := {
  returns_create : forall c ns w, exists r w', host_create_filerequest_resource (F := F) (E := E) c ns w = Ret (r, w');
  returns_rename : forall c a b w, exists r w', host_rename_resource (F := F) (E := E) c (Namespace a None) (Namespace b None) w = Ret (r, w');
  returns_backup : forall c w, exists r w', host_get_path_to_db_backup_file (F := F) (E := E) c w = Ret (r, w');
  returns_remove_source : forall c p w, exists r w', host_remove_source_file_if_temporary (F := F) (E := E) c p w = Ret (r, w');
  returns_remove_partial : forall c p w, exists r w', host_remove_partial_file (F := F) (E := E) c p w = Ret (r, w');
  returns_access : forall c p w,
    match host_access_file_for_reading (F := F) (E := E) c p w with Ret _ | Panic => True | _ => False end;
}.

Section Answers.
Context {C W F E St : Type} `{!BrainKeys} `{!ExpiringSet Challenge St}.
Context `{!FilerequestDb W F} `{!NetworkNode W} `{!BrainEnv W} `{!HostController C W F E} `{!Sanitizer}.
Context `{!HostReturns C W F E}.
Context (host_controller : C) (internal_data_dir : path).
Implicit Types (b : brain C W F E St).
Abbreviation M A := (BM C W F E St A).

(** A property of the ephemeral data that the four changes of the challenges keep. *)
Record stable (P : EphemeralBrainData St -> Prop) : Prop := {
  stable_register_invite : forall w now d,
    P d -> P (with_invites (ttl_set_insert (random_challenge w).1 now) d);
  stable_remove_invite : forall c now d, P d -> P (with_invites (fun s => (ttl_set_remove c now s).2) d);
  stable_register_share : forall w now d,
    P d -> P (with_shares (ttl_set_insert (random_challenge w).1 now) d);
  stable_remove_share : forall c now d, P d -> P (with_shares (fun s => (ttl_set_remove c now s).2) d);
  stable_readiness : forall started queue d,
    P d -> P (mk_ephemeral started queue (self_contact_invite_challenges d) (contact_share_challenges d));
}.

Context (P : EphemeralBrainData St -> Prop) (HP : stable P).

(** [replies p to m]: with the mutex free, [m] returns with the mutex free and has
    answered on the channel [to], if any, once and on no other; [P] is kept; it
    panics only if [p]. *)
Definition replies (p : bool) (to : option nat) {A} (m : M A) : Prop :=
  forall b, ephemeral_guard b = false -> P (ephemeral_data b) ->
    match m b with
    | Ret (_, b') => ephemeral_guard b' = false /\ P (ephemeral_data b') /\
        match to with
        | Some n => exists v, answers b' = answers b ++ [(n, v)]
        | None => answers b' = answers b
        end
    | Panic => p = true
    | _ => False
    end.

Lemma replies_ret p {A} (a : A) : replies p None (bret a).
Proof. by intros b. Qed.

Lemma replies_call p {A} (f : W -> A * W) : replies p None (call f).
Proof. intros b Hb Hp. unfold call. by destruct (f (brain_world b)). Qed.

Lemma replies_expect {A E'} (r : result A E') : replies true None (bexpect r).
Proof. intros b Hb Hp. by destruct r. Qed.

Lemma replies_respond p to v : replies p to (respond to v).
Proof. intros b Hb Hp. destruct to; cbn; eauto. Qed.

Lemma replies_bind p to {A B} (m : M A) (k : A -> M B) :
  replies p None m -> (forall a, replies p to (k a)) -> replies p to (bbind m k).
Proof.
  intros Hm Hk b Hb Hp. unfold bbind. specialize (Hm b Hb Hp). destruct (m b) as [[a b1]| | |]; cbn; try done.
  destruct Hm as (Hg & Hp1 & Ha). specialize (Hk a b1 Hg Hp1). destruct (k a b1) as [[x b2]| | |]; try done.
  by rewrite <- Ha.
Qed.

Lemma replies_bind_call p to {A B} (f : W -> A * W) (k : A -> M B) :
  (forall w, replies p to (k (f w).1)) -> replies p to (bbind (call f) k).
Proof.
  intros Hk b Hb Hp. unfold bbind, call. specialize (Hk (brain_world b)). destruct (f (brain_world b)) as [a w]. cbn in *.
  by apply (Hk (mk_brain w (ephemeral_data b) (ephemeral_guard b) (answers b))).
Qed.

(** The answer first, silence afterwards. *)
Lemma replies_bind_after p to {A B} (m : M A) (k : A -> M B) :
  replies p to m -> (forall a, replies p None (k a)) -> replies p to (bbind m k).
Proof.
  intros Hm Hk b Hb Hp. unfold bbind. specialize (Hm b Hb Hp). destruct (m b) as [[a b1]| | |]; cbn; try done.
  destruct Hm as (Hg & Hp1 & Ha). specialize (Hk a b1 Hg Hp1). destruct (k a b1) as [[x b2]| | |]; try done.
  destruct Hk as (? & ? & ->). done.
Qed.

Lemma replies_host p {A} (m : io W (BoxedError E) A) :
  (forall w, exists r w', m w = Ret (r, w')) -> replies p None (host m).
Proof. intros Hm b Hb Hp. unfold host. by destruct (Hm (brain_world b)) as (r & w' & ->). Qed.

Lemma replies_access uri :
  replies true None (host (host_access_file_for_reading host_controller uri)).
Proof.
  intros b Hb Hp. unfold host. pose proof (returns_access host_controller uri (brain_world b)) as Ha.
  by destruct (host_access_file_for_reading host_controller uri (brain_world b)) as [[]| | |].
Qed.

Lemma replies_change p {A} (f : Z -> EphemeralBrainData St -> A * EphemeralBrainData St) :
  (forall now d, P d -> P (f now d).2) -> replies p None (change_ephemeral f : M A).
Proof.
  intros Hf b Hb Hp. unfold change_ephemeral, bbind, lock_ephemeral, call, get_ephemeral. rewrite Hb. cbn.
  destruct (brain_now _) as [now w]. cbn. specialize (Hf now _ Hp). by destruct (f now _).
Qed.

Lemma replies_rename p fr title : replies p None (rename_directory host_controller fr title : M bool).
Proof.
  intros b Hb Hp. unfold rename_directory, rename_filerquest. cbn. case_bool_decide; [done|].
  unfold io_bind, io_map_err. cbn. unfold directory_namespace.
  match goal with |- context [host_rename_resource ?c (Namespace ?x None) (Namespace ?y None) ?w] =>
    destruct (returns_rename c x y w) as (r & w' & Er)
  end.
  rewrite Er. cbn. by destruct r.
Qed.

Lemma stable_validate c now d :
  P d ->
  P (let (removed, set) := ttl_set_remove c now (self_contact_invite_challenges d) in
     (removed, with_invites (fun _ => set) d)).2.
Proof.
  intros Hd. pose proof (stable_remove_invite P HP c now d Hd) as Hr. unfold with_invites in *.
  by destruct (ttl_set_remove c now (self_contact_invite_challenges d)).
Qed.

#[local] Hint Resolve replies_ret replies_call replies_expect replies_respond replies_host replies_access
  replies_rename returns_create returns_backup returns_remove_source returns_remove_partial : replies.
#[local] Hint Extern 1 (replies _ _ (change_ephemeral _)) => apply replies_change; intros; cbn;
  first [done | by apply (stable_register_invite P HP) | by apply (stable_remove_invite P HP)
        | by apply (stable_register_share P HP) | by apply (stable_remove_share P HP)
        | by apply stable_validate] : replies.

(** Peel the calls of a handler off, by cases on what they return. *)
Ltac replies_step :=
  first
    [ solve [eauto with replies]
    | match goal with
      | |- replies _ _ (bbind _ _) =>
          first [ apply replies_bind_call; intros ?
                | apply replies_bind; [solve [eauto with replies]|intros ?]
                | apply replies_bind_after; [solve [eauto with replies]|intros ?]
                | apply replies_bind; [|intros ?] ]
      | |- replies _ _ (match ?x with _ => _ end) => destruct x
      end ].
Ltac replies_solve := repeat replies_step.

(** ** Requests of the client *)

Definition client_sender (a : Client.ClientAction) : option nat :=
  match a with
  | Client.WaitForReady r | Client.ListFilerequests r | Client.GetFullSelfContact r | Client.ListContacts r
  | Client.Shutdown r | Client.GetNodeStatus r | Client.GetNodePeerId r | Client.GetAllRemoteFilerequests r
  | Client.GetAllPendingFiles r | Client.GetSelfContactDisplay r | Client.SharePublicSelfContact r
  | Client.RegisterSelfContactInviteChallenge r | Client.RegisterContactShareChallenge r | Client.BackupData r
  | Client.GetSettings r => response_sender r
  | Client.ReadFilerequest r | Client.DeleteFilerequest r | Client.GetContactName r | Client.GetContact r
  | Client.DeleteContact r | Client.GetRemoteFilerequest r | Client.GetRemoteFilerequestsByContact r
  | Client.DeleteRemoteFilerequest r | Client.GetPendingFile r | Client.GetPendingFiles r | Client.DeletePendingFile r
  | Client.ListReceivedFilesForRequest r | Client.DeleteReceivedFile r | Client.UpdateSelfContactName r
  | Client.RestoreData r => response_sender r
  | Client.UnregisterSelfContactInviteChallenge r | Client.UnregisterContactShareChallenge r
  | Client.UpdateSettings r => response_sender r
  | Client.UseSelfContactInviteChallenge r | Client.UseContactShareChallenge r => response_sender r
  | Client.GetContactNames r => response_sender r
  | Client.CreateFilerequest r => response_sender r
  | Client.UpdateFilerequest r => response_sender r
  | Client.UpdateContact r => response_sender r
  | Client.CreateRemoteFilerequest r => response_sender r
  | Client.UpdateRemoteFilerequest r => response_sender r
  | Client.CreatePendingFiles r => response_sender r
  | Client.UpdateIdentity r => response_sender r
  | Client.RegisterContact r => response_sender r
  end.

Definition waits_for_ready (a : Client.ClientAction) : bool :=
  match a with Client.WaitForReady _ => true | _ => false end.

(** The two actions with an [expect]: the node refuses new files, or the frontend is
    gone when a backup was restored. *)
Definition client_may_panic (a : Client.ClientAction) : bool :=
  match a with Client.CreatePendingFiles _ | Client.RestoreData _ => true | _ => false end.

Lemma client_action_replies a :
  waits_for_ready a = false ->
  replies (client_may_panic a) (client_sender a) (handle_client_action host_controller internal_data_dir a : M unit).
Proof.
  intros Hw. destruct a; try done; cbn [handle_client_action client_may_panic client_sender].
  all: autounfold with brain_actions; replies_solve.
Qed.

(** ** Actions of the network node *)

Definition node_sender (a : Node.NodeAction) : option nat :=
  match a with
  | Node.RequestFileDrop r => response_sender r
  | Node.RequestFileTransferContinuation r => response_sender r
  | Node.GetNodeInfo r => response_sender r
  | Node.StoreReceivedFile r => response_sender r
  | Node.CreateIncomingFile r => response_sender r
  | Node.GetContactPublicKeys r | Node.IsContactKnown r => response_sender r
  | Node.OpenFileForReading r => response_sender r
  | Node.ValidateSelfContactInviteChallenge r | Node.ValidateContactShareChallenge r => response_sender r
  | _ => None
  end.

Definition is_ready_action (a : Node.NodeAction) : bool :=
  match a with Node.Ready => true | _ => false end.

(** The actions with an [expect] or a panic: a status or the keys of the node cannot
    be stored, a file cannot be opened, or the frontend is gone. *)
Definition node_may_panic (a : Node.NodeAction) : bool :=
  match a with
  | Node.GetNodeInfo _ | Node.OpenFileForReading _ | Node.FileSent _ | Node.FileSending _ _
  | Node.FileSendReset _ _ _ _ | Node.FileRejected _ | Node.FileFailed _ | Node.FileMissing _ | Node.FileIoError _
  | Node.UpdateIdentity _ | Node.AnsweredSelfContactInvite | Node.CreateContact _ => true
  | _ => false
  end.

Lemma replies_panic to {A} : replies true to (fun _ => Panic : outcome (A * _)).
Proof. by intros b. Qed.
#[local] Hint Resolve replies_panic : replies.

Lemma file_finished_replies id status :
  replies true None (file_finished_action host_controller id status : M unit).
Proof.
  unfold file_finished_action, update_send_status, try_cleanup_source_file, push. replies_solve.
Qed.
#[local] Hint Resolve file_finished_replies : replies.

Lemma node_action_replies a :
  is_ready_action a = false ->
  replies (node_may_panic a) (node_sender a) (handle_p2p_action host_controller a : M unit).
Proof.
  intros Hr. destruct a; try done; cbn [handle_p2p_action node_may_panic node_sender].
  all: unfold validate_self_contact_invite_action; autounfold with brain_actions; replies_solve.
Qed.
End Answers.

(** ** The theorems *)

Section Theorems.
Context {C W F E St : Type} `{!BrainKeys} `{!ExpiringSet Challenge St}.
Context `{!FilerequestDb W F} `{!NetworkNode W} `{!BrainEnv W} `{!HostController C W F E} `{!Sanitizer}.
Context `{!HostReturns C W F E}.
Context (host_controller : C) (internal_data_dir : path).
Implicit Types (b : brain C W F E St).

Definition action_sender (a : BrainAction) : option nat :=
  match a with ClientActionOf a => client_sender a | NetworkNodeActionOf a => node_sender a end.

Definition may_panic (a : BrainAction) : bool :=
  match a with ClientActionOf a => client_may_panic a | NetworkNodeActionOf a => node_may_panic a end.

Definition about_readiness (a : BrainAction) : bool :=
  match a with ClientActionOf a => waits_for_ready a | NetworkNodeActionOf a => is_ready_action a end.

Lemma action_replies (P : EphemeralBrainData St -> Prop) a :
  stable P -> about_readiness a = false ->
  replies (C := C) (F := F) (E := E) P (may_panic a) (action_sender a)
    (handle_action host_controller internal_data_dir a).
Proof.
  intros HP Ha. destruct a; cbn [handle_action may_panic action_sender] in *;
    [by apply client_action_replies|by apply node_action_replies].
Qed.

(** While the mutex of the ephemeral data is free, every action of the client
    and of the network node is handled to its end and leaves it free; a request is
    answered exactly once, on its own channel, on every path through the handler, and
    an action without a channel answers nobody. Only the actions with an expect in
    their handler can panic. Waiting for readiness and the readiness itself are
    treated apart. *)
Theorem request_is_answered_once a b :
  about_readiness a = false -> ephemeral_guard b = false ->
  match handle_action host_controller internal_data_dir a b with
  | Ret (_, b') =>
      ephemeral_guard b' = false /\
      match action_sender a with
      | Some n => exists v, answers b' = answers b ++ [(n, v)]
      | None => answers b' = answers b
      end
  | Panic => may_panic a = true
  | Deadlock | Diverge => False
  end.
Proof.
  intros Ha Hb. pose proof (action_replies (fun _ => True) a) as Hr.
  specialize (Hr ltac:(by split) Ha b Hb I). destruct (handle_action _ _ a b) as [[? b']| | |]; [|done..].
  destruct Hr as (? & _ & ?). done.
Qed.

(** *** Readiness *)

(** The state while a task holds the mutex. *)
Definition guard_held b : brain C W F E St :=
  mk_brain (brain_world b) (ephemeral_data b) true (answers b).

Lemma answer_all_spec senders b :
  answer_all senders b
  = Ret (tt, mk_brain (brain_world b) (ephemeral_data b) (ephemeral_guard b)
               (answers b ++ map (fun n => (n, RBool true)) senders)).
Proof.
  revert b. induction senders as [|n senders IH]; intros b; cbn.
  - rewrite app_nil_r. by destruct b.
  - unfold bbind. cbn. rewrite IH. cbn. by rewrite <- app_assoc.
Qed.

Lemma reset_sending_answers files b files' b' :
  reset_sending files b = Ret (files', b') ->
  ephemeral_data b' = ephemeral_data b /\ ephemeral_guard b' = ephemeral_guard b /\ answers b' = answers b.
Proof.
  revert b files' b'. induction files as [|[file fr] files IH]; intros b files' b' Er; cbn in Er.
  { by injection Er as <- <-. }
  unfold bbind in Er. apply outcome_bind_ret in Er as [[f1 b1] [E1 Er]].
  apply outcome_bind_ret in Er as [[fs b2] [E2 Er]]. injection Er as <- <-. apply IH in E2 as (-> & -> & ->).
  destruct (pf_status file) as [|[[] td]| | | |]; try by injection E1 as <- <-.
  unfold call in E1. cbn in E1.
  destruct (db_update_pending_file_status _ _ _ (brain_world b)) as [[?|?] w1]; cbn in E1; [|done].
  by injection E1 as <- <-.
Qed.

(** The actions that change or read the challenges. *)
Definition about_challenges (a : BrainAction) : bool :=
  match a with
  | ClientActionOf (Client.RegisterSelfContactInviteChallenge _)
  | ClientActionOf (Client.UnregisterSelfContactInviteChallenge _)
  | ClientActionOf (Client.RegisterContactShareChallenge _)
  | ClientActionOf (Client.UnregisterContactShareChallenge _)
  | NetworkNodeActionOf (Node.ValidateSelfContactInviteChallenge _)
  | NetworkNodeActionOf (Node.ValidateContactShareChallenge _) => true
  | _ => false
  end.

Lemma challenge_action_blocks a b :
  about_challenges a = true -> ephemeral_guard b = true ->
  handle_action host_controller internal_data_dir a b = Deadlock.
Proof.
  intros Ha Hb. destruct a as [[]|[]]; try done; cbn;
    unfold register_self_contact_invite_action, unregister_self_contact_invite_action, register_contact_share_action,
      unregister_contact_share_action, validate_self_contact_invite_action, validate_contact_share_action,
      change_ephemeral, bbind, call, lock_ephemeral; cbn; rewrite ?Hb; try done.
  all: by destruct (random_challenge (brain_world b)).
Qed.

(** Waiting for readiness. Before the node is ready a request to wait is queued, as
    long as fewer than 25 wait, and dropped without an answer otherwise. When the
    node becomes ready, everyone in the queue is told so, once and in order. A
    request to wait that comes later is never answered: its handler waits for a mutex
    it holds itself; and since it never gives the mutex back, from then on every
    action on the challenges of contact invites and shares blocks as well. *)
Theorem waiting_after_ready_blocks (r : BrainRequest unit) n b :
  response_sender r = Some n -> ephemeral_guard b = false ->
  let wait := handle_action host_controller internal_data_dir (ClientActionOf (Client.WaitForReady r)) in
  let ready := handle_action host_controller internal_data_dir (NetworkNodeActionOf Node.Ready) in
  (forall q, queued_wait_for_ready_requests (ephemeral_data b) = Some q ->
     exists b', wait b = Ret (tt, b') /\ answers b' = answers b /\ ephemeral_guard b' = false /\
       queued_wait_for_ready_requests (ephemeral_data b') = Some (bounded_push n q).2) /\
  (forall q b', queued_wait_for_ready_requests (ephemeral_data b) = Some q -> ready b = Ret (tt, b') ->
     answers b' = answers b ++ map (fun n => (n, RBool true)) (bl_items q) /\
     queued_wait_for_ready_requests (ephemeral_data b') = None /\
     successfully_started (ephemeral_data b') = true /\ ephemeral_guard b' = false) /\
  (queued_wait_for_ready_requests (ephemeral_data b) = None ->
     wait b = Deadlock /\ lock_ephemeral b = Ret (tt, guard_held b) /\
     forall a, about_challenges a = true ->
       handle_action host_controller internal_data_dir a (guard_held b) = Deadlock).
Proof.
  intros Hs Hg wait ready. split_and!.
  - intros q Hq. unfold wait. cbn. unfold wait_for_ready_action, bbind, lock_ephemeral. rewrite Hs, Hg. cbn.
    rewrite Hq. cbn. destruct (bounded_push n q) as [? q'] eqn:Eq. eexists. by split_and!.
  - intros q b' Hq Er. unfold ready in Er. cbn in Er. unfold ready_action, bbind, call in Er.
    destruct (db_get_all_remote_filerequests (brain_world b)) as [[remote|] w1]; cbn in Er; [|done].
    destruct (db_get_all_pending_files w1) as [[pending|] w2]; cbn in Er; [|done].
    apply outcome_bind_ret in Er as [[files b2] [Ers Er]]. apply reset_sending_answers in Ers as (E1 & E2 & E3).
    cbn in E1, E2, E3. unfold lock_ephemeral in Er. rewrite E2, Hg in Er. cbn in Er. rewrite E1, Hq in Er.
    rewrite answer_all_spec in Er. cbn in Er.
    destruct (net_initial_files_to_send _ (brain_world b2)) as [? w3]. injection Er as <-. cbn. by rewrite E3.
  - intros Hq. split_and!.
    + unfold wait. cbn. unfold wait_for_ready_action, bbind, lock_ephemeral. rewrite Hs, Hg. cbn. by rewrite Hq.
    + unfold lock_ephemeral. by rewrite Hg.
    + intros a Ha. by apply challenge_action_blocks.
Qed.

(** *** Challenges *)

(** Actions one after the other, all of which return. *)
Fixpoint run_actions (acts : list BrainAction) b : outcome (brain C W F E St) :=
  match acts with
  | [] => Ret b
  | a :: acts => let? (_, b) := handle_action host_controller internal_data_dir a b in run_actions acts b
  end.

Lemma readiness_keeps (P : EphemeralBrainData St -> Prop) a b b' :
  stable P -> about_readiness a = true -> ephemeral_guard b = false -> P (ephemeral_data b) ->
  handle_action host_controller internal_data_dir a b = Ret (tt, b') ->
  ephemeral_guard b' = false /\ P (ephemeral_data b').
Proof.
  intros HP Ha Hg Hp Er. destruct a as [[]|[]]; try done; cbn in Er.
  - unfold wait_for_ready_action in Er. destruct (response_sender r) as [n|]; [|by injection Er as <-].
    unfold bbind, lock_ephemeral in Er. rewrite Hg in Er. cbn in Er.
    destruct (queued_wait_for_ready_requests (ephemeral_data b)) as [q|]; [|done].
    destruct (bounded_push n q) as [? q']. injection Er as <-. cbn. split; [done|]. by apply (stable_readiness P HP).
  - unfold ready_action, bbind, call in Er.
    destruct (db_get_all_remote_filerequests (brain_world b)) as [[remote|] w1]; cbn in Er; [|done].
    destruct (db_get_all_pending_files w1) as [[pending|] w2]; cbn in Er; [|done].
    apply outcome_bind_ret in Er as [[files b2] [Ers Er]]. apply reset_sending_answers in Ers as (E1 & E2 & E3).
    cbn in E1, E2, E3. unfold lock_ephemeral in Er. rewrite E2, Hg in Er. cbn in Er.
    apply outcome_bind_ret in Er as [[? b3] [E4 Er]].
    assert (ephemeral_data b3 = mk_ephemeral true None (self_contact_invite_challenges (ephemeral_data b))
      (contact_share_challenges (ephemeral_data b))) as E5.
    { rewrite E1 in E4. destruct (queued_wait_for_ready_requests (ephemeral_data b)).
      - rewrite answer_all_spec in E4. by injection E4 as _ <-.
      - by injection E4 as _ <-. }
    destruct (net_initial_files_to_send _ _) as [? w3]. injection Er as <-. cbn. split; [done|].
    rewrite E5. by apply (stable_readiness P HP).
Qed.

Lemma run_actions_keep (P : EphemeralBrainData St -> Prop) acts b b' :
  stable P -> ephemeral_guard b = false -> P (ephemeral_data b) -> run_actions acts b = Ret b' ->
  ephemeral_guard b' = false /\ P (ephemeral_data b').
Proof.
  intros HP. revert b. induction acts as [|a acts IH]; intros b Hg Hp Er; cbn in Er; [by injection Er as <-|].
  apply outcome_bind_ret in Er as [[[] b1] [E1 Er]]. destruct (about_readiness a) eqn:Ea.
  - destruct (readiness_keeps P a b b1 HP Ea Hg Hp E1). by apply (IH b1).
  - pose proof (action_replies P a HP Ea b Hg Hp) as Hr. rewrite E1 in Hr. destruct Hr as (? & ? & _). by apply (IH b1).
Qed.

Context `{!ExpiringSetLaws Challenge St}.

Abbreviation invites b := (self_contact_invite_challenges (ephemeral_data b)).

Definition absent (c : Challenge) (d : EphemeralBrainData St) : Prop :=
  ttl_set_content (self_contact_invite_challenges d) !! c = None.

Lemma absent_stable c : (forall w, (random_challenge w).1 <> c) -> stable (absent c).
Proof.
  intros Hc. unfold absent. split; cbn; try done.
  - intros w now d Hd. destruct (ttl_set_insert_content (random_challenge w).1 now (self_contact_invite_challenges d)) as (_ & _ & Hi).
    apply eq_None_not_Some. intros [x Ec]. apply Hi in Ec; [congruence|]. intros Heq. by apply (Hc w).
  - intros c' now d Hd. destruct (ttl_set_remove_content c' now (self_contact_invite_challenges d)) as (_ & -> & _).
    by apply lookup_delete_None; right.
Qed.

Lemma validate_run c r n b :
  request r = c -> response_sender r = Some n -> ephemeral_guard b = false ->
  exists b' o, handle_action host_controller internal_data_dir
      (NetworkNodeActionOf (Node.ValidateSelfContactInviteChallenge r)) b = Ret (tt, b') /\
    answers b' = answers b ++ [(n, RSelfContactOption o)] /\ ephemeral_guard b' = false /\ absent c (ephemeral_data b') /\
    let removed := (ttl_set_remove c (brain_now (brain_world b)).1 (invites b)).1 in
    o = if removed then result_ok (db_get_self_contact (brain_now (brain_world b)).2).1 else None.
Proof.
  intros Hr Hs Hg. cbn. unfold validate_self_contact_invite_action, change_ephemeral, bbind, lock_ephemeral, call, get_ephemeral.
  rewrite Hg, Hr, Hs. cbn. destruct (brain_now (brain_world b)) as [now w1] eqn:En. cbn.
  destruct (ttl_set_remove_content c now (invites b)) as (_ & Hc & _).
  destruct (ttl_set_remove c now (invites b)) as [[] set] eqn:Er; cbn in *.
  - destruct (db_get_self_contact w1) as [sc w2] eqn:Es. cbn. eexists _, _.
    split_and!; try done. unfold absent. cbn. rewrite Hc. apply lookup_delete_eq.
  - eexists _, _. split_and!; try done. unfold absent. cbn. rewrite Hc. apply lookup_delete_eq.
Qed.

(** An invite to become one's own contact can be used once: after a challenge was
    presented, whether it was valid or not, it is refused again whatever happens in
    between, unless the same bytes are drawn for a new invite. A challenge that was
    registered and whose lifetime is not over is accepted. *)
Theorem invite_challenge_is_single_use c (r r' : BrainRequest Challenge) n n' acts b b1 b2 :
  (forall w, (random_challenge w).1 <> c) ->
  request r = c -> response_sender r = Some n -> request r' = c -> response_sender r' = Some n' ->
  ephemeral_guard b = false ->
  handle_action host_controller internal_data_dir (NetworkNodeActionOf (Node.ValidateSelfContactInviteChallenge r)) b = Ret (tt, b1) ->
  run_actions acts b1 = Ret b2 ->
  (forall d, ttl_set_content (invites b) !! c = Some d -> (brain_now (brain_world b)).1 < d ->
     answers b1 = answers b ++ [(n, RSelfContactOption (result_ok (db_get_self_contact (brain_now (brain_world b)).2).1))]) /\
  exists b3, handle_action host_controller internal_data_dir
      (NetworkNodeActionOf (Node.ValidateSelfContactInviteChallenge r')) b2 = Ret (tt, b3) /\
    answers b3 = answers b2 ++ [(n', RSelfContactOption None)].
Proof.
  intros Hc Hr Hs Hr' Hs' Hg E1 E2. destruct (validate_run c r n b Hr Hs Hg) as (b1' & o & E1' & Ha & Hg1 & Hab & Ho).
  rewrite E1 in E1'. injection E1' as <-.
  destruct (run_actions_keep (absent c) acts b1 b2 (absent_stable c Hc) Hg1 Hab E2) as [Hg2 Hab2].
  destruct (validate_run c r' n' b2 Hr' Hs' Hg2) as (b3 & o3 & E3 & Ha3 & _ & _ & Ho3). split.
  - intros d Hd Hnow. rewrite Ha, Ho. destruct (es_remove_content c (brain_now (brain_world b)).1 (ts_set (invites b))) as (_ & _ & Hrm).
    unfold ttl_set_remove. specialize (Hrm d Hd Hnow). by destruct (es_remove _ _ _) as [x ?]; cbn in *; subst x.
  - exists b3. split; [done|]. rewrite Ha3, Ho3.
    destruct (ttl_set_remove_content c (brain_now (brain_world b2)).1 (invites b2)) as (_ & _ & Hrm).
    unfold absent in Hab2. destruct (ttl_set_remove c _ (invites b2)) as [[] ?]; [|done]. cbn in Hrm.
    destruct (Hrm eq_refl) as [x Hx]. congruence.
Qed.

(** A contact share challenge, in contrast, stays valid when it is used. *)
Lemma share_challenge_is_kept (r : BrainRequest Challenge) b b' :
  ephemeral_guard b = false ->
  handle_action host_controller internal_data_dir (NetworkNodeActionOf (Node.ValidateContactShareChallenge r)) b = Ret (tt, b') ->
  contact_share_challenges (ephemeral_data b') = contact_share_challenges (ephemeral_data b).
Proof.
  intros Hg E1. cbn in E1. unfold validate_contact_share_action, change_ephemeral, bbind, lock_ephemeral, call, get_ephemeral in E1.
  rewrite Hg in E1. cbn in E1. destruct (brain_now (brain_world b)) as [now w1]. cbn in E1.
  unfold respond in E1. destruct (ttl_set_contains _ _ _); cbn in E1;
    [destruct (db_get_sharable_public_self_contact w1); cbn in E1|]; destruct (response_sender r); by injection E1 as <-.
Qed.
End Theorems.
