(* ===== verification/BrainFiles.v ===== *)
(** * The brain and the files

    What the brain hands to the network node when it starts, the cleanup of stale
    part files, and the host controller of FsController.v as the host of the brain. *)

From S2P Require Import Prelude Domain TtlMap FileReader SendManager ReceiveManager FileTracker TrackerInvariant HostPath.
From S2P Require Import HostController FsController Disk DriveHandler BrainTypes Brain BrainAnswers.

(** ** The host returns *)

Section Returns.
Context {W F E : Type} `{!FileSystem W F E} `{!Sanitizer}.

Lemma ensure_dir_returns d p : io_returns (S:=W) (ensure_filerequest_dir d p).
Proof. unfold ensure_filerequest_dir. returns_solve. Qed.

Lemma validate_returns f : io_returns (S:=W) (E:=BoxedError E) (validate_partial_basename f).
Proof. unfold validate_partial_basename. returns_solve. Qed.

Lemma ask_mut_returns {E' A} (f : W -> A * W) : io_returns (E:=E') (ask_mut f).
Proof. intros s. unfold ask_mut. destruct (f s). by eexists _, _. Qed.

#[local] Hint Resolve ensure_dir_returns validate_returns ask_mut_returns : io_returns.

#[global] Instance direct_fs_returns : HostReturns DirectFsController W F E.
Proof.
  split; cbn.
  - intros c ns. change (io_returns (S:=W) (create_filerequest_resource c ns)).
    unfold create_filerequest_resource. returns_solve.
  - intros c a b w. unfold rename_resource, io_map_err, io_bind, io_result, ask, sys, io_throw, io_ret. cbn.
    destruct (exists_at _ w); cbn; [by eexists _, _|]. destruct (fs_rename _ _ w). by eexists _, _.
  - intros c. change (io_returns (S:=W) (get_path_to_db_backup_file c)). unfold get_path_to_db_backup_file. returns_solve.
  - intros c p. change (io_returns (S:=W) (E:=BoxedError E) (io_ret false)). returns_solve.
  - intros c p. change (io_returns (S:=W) (FsController.remove_partial_file c p)). unfold FsController.remove_partial_file. returns_solve.
  - intros c p w. unfold access_file_for_reading, io_map_err, io_bind, sys, io_expect, io_ret.
    destruct (open_read (path_from p) w) as [[f|e] w']; cbn; [|done]. by destruct (file_name (path_from p)).
Qed.
End Returns.

(** ** Start-up *)

Section Startup.
Context {C W F E St : Type} `{!BrainKeys} `{!ExpiringSet Challenge St}.
Context `{!FilerequestDb W F} `{!NetworkNode W} `{!BrainEnv W} `{!HostController C W F E} `{!Sanitizer}.
Implicit Types (b : brain C W F E St).

(** A file that was being sent when the program ended is interrupted. *)
Definition interrupted (file : PendingFile) : PendingFile :=
  match pf_status file with
  | SInProgress (mk_in_progress Sending td) => pf_with_status file (SInProgress (mk_in_progress Interrupted td))
  | _ => file
  end.

Lemma reset_sending_files files b files' b' :
  reset_sending files b = Ret (files', b') -> files' = map (fun x => (interrupted x.1, x.2)) files.
Proof.
  revert b files' b'. induction files as [|[file fr] files IH]; intros b files' b' Er; cbn in Er.
  { by injection Er as <- <-. }
  unfold bbind in Er. apply outcome_bind_ret in Er as [[f1 b1] [E1 Er]].
  apply outcome_bind_ret in Er as [[fs b2] [E2 Er]]. injection Er as <- <-. apply IH in E2 as ->. cbn. f_equal. f_equal.
  unfold interrupted. destruct (pf_status file) as [|[[] td]| | | |]; try by injection E1 as <- <-.
  unfold call in E1. cbn in E1.
  destruct (db_update_pending_file_status _ _ _ (brain_world b)) as [[?|?] w1]; cbn in E1; [|done].
  by injection E1 as <- <-.
Qed.

(** A status as the database returns it. *)
Definition stored_status (st : SendStatus) : Prop :=
  exists tag progress size tid, from_db_columns tag progress size tid = Ok st.

Lemma interrupted_waits file :
  stored_status (pf_status file) -> is_continuable file = true -> status_waiting (pf_status (interrupted file)).
Proof.
  intros (tag & p & s & t & Et) Hc. unfold is_continuable, interrupted in *.
  destruct (pf_status file) as [|[[] td]| | | |] eqn:Es; cbn; rewrite ?Es; try done.
  all: exfalso; unfold from_db_columns in Et; repeat case_decide; try done; destruct p, s, t; done.
Qed.

Lemma startup_files_spec remote files x :
  x ∈ startup_files remote files <->
  x.1 ∈ files /\ is_continuable x.1 = true /\ remote !! pf_target_filerequest_id x.1 = Some x.2.
Proof.
  unfold startup_files. rewrite list_elem_of_omap. destruct x as [file fr]. cbn. split.
  - intros (f & [Hc Hf]%list_elem_of_filter & Hx). destruct (remote !! pf_target_filerequest_id f) eqn:El; [|done].
    cbn in Hx. by injection Hx as <- <-.
  - intros (Hf & Hc & Hl). exists file. by rewrite list_elem_of_filter, Hl.
Qed.

Lemma interrupted_id file : pf_id (interrupted file) = pf_id file.
Proof. unfold interrupted. by destruct (pf_status file) as [|[[] td]| | | |]. Qed.

(** No file is handed over twice. *)
Lemma startup_files_sublist remote files :
  map (fun x => fts_id (file_to_send (interrupted x.1, x.2))) (startup_files remote files) `sublist_of` map pf_id files.
Proof.
  induction files as [|file files IH]; [done|]. unfold startup_files in *. rewrite filter_cons. case_decide; cbn; [|by constructor].
  destruct (remote !! pf_target_filerequest_id file); cbn; [|by constructor]. rewrite interrupted_id. by constructor.
Qed.

Lemma index_elem (remote : list RemoteFilerequest) fr k : index_remote_filerequests remote !! k = Some fr -> fr ∈ remote.
Proof.
  unfold index_remote_filerequests. rewrite <- (app_nil_l remote) at 2.
  assert (forall (m : gmap FylesId RemoteFilerequest) pre, (forall k fr, m !! k = Some fr -> fr ∈ pre) ->
    foldl (fun m fr => <[rfr_id fr := fr]> m) m remote !! k = Some fr -> fr ∈ pre ++ remote) as Hgen.
  { induction remote as [|x remote IH]; cbn; intros m pre Hm Hl; [rewrite app_nil_r; eauto|].
    replace (pre ++ x :: remote) with ((pre ++ [x]) ++ remote) by (by rewrite <- app_assoc). eapply IH; [|exact Hl].
    intros k' fr' [[_ <-]|[_ Hl']]%lookup_insert_Some; set_solver. }
  apply (Hgen ∅ []). by intros k' fr' ?%lookup_empty_Some.
Qed.

(** What the node gets to send when the program starts: exactly the files that
    the database has as pending or in progress and whose remote filerequest it
    knows, addressed to the peer, contact and filerequest of that entry; files that
    were being sent are interrupted. With statuses as the database returns them every
    file is in a state in which the tracker can queue it. *)
Lemma ready_hands_over (hc : C) (dir : path) b b' :
  handle_action hc dir (NetworkNodeActionOf Node.Ready) b = Ret (tt, b') ->
  exists remote pending w1 w2 w3 files,
    db_get_all_remote_filerequests (brain_world b) = (Ok remote, w1) /\
    db_get_all_pending_files w1 = (Ok pending, w2) /\
    brain_world b' = (net_initial_files_to_send files w3).2 /\
    (forall f, f ∈ files <-> exists file fr, file ∈ pending /\ is_continuable file = true /\
       index_remote_filerequests remote !! pf_target_filerequest_id file = Some fr /\
       f = file_to_send (interrupted file, fr)) /\
    (Forall (fun file => stored_status (pf_status file)) pending ->
     Forall (fun f => status_waiting (fts_status f)) files) /\
    map fts_id files `sublist_of` map pf_id pending.
Proof.
  intros Er. cbn in Er. unfold ready_action, bbind, call in Er.
  destruct (db_get_all_remote_filerequests (brain_world b)) as [[remote|] w1]; cbn in Er; [|done].
  destruct (db_get_all_pending_files w1) as [[pending|] w2] eqn:Ep; cbn in Er; [|done].
  apply outcome_bind_ret in Er as [[files b2] [Ers Er]]. apply reset_sending_files in Ers as ->.
  apply outcome_bind_ret in Er as [[? b3] [_ Er]]. cbn in Er.
  apply outcome_bind_ret in Er as [[? b4] [_ Er]]. cbn in Er.
  destruct (net_initial_files_to_send _ (brain_world b4)) as [? w3] eqn:En. injection Er as <-.
  exists remote, pending, w1, w2, (brain_world b4),
    (map file_to_send (map (fun x => (interrupted x.1, x.2)) (startup_files (index_remote_filerequests remote) pending))).
  rewrite En. split_and!; [done|done|done| | |].
  - intros f. rewrite list_elem_of_fmap. setoid_rewrite list_elem_of_fmap. split.
    + intros (y & -> & x & -> & Hx). apply startup_files_spec in Hx as (? & ? & ?). by exists x.1, x.2.
    + intros (file & fr & Hf & Hc & Hl & ->). eexists. split; [done|]. exists (file, fr). split; [done|].
      by apply startup_files_spec.
  - intros Hst. apply Forall_forall. intros f Hf. apply list_elem_of_fmap in Hf as (y & -> & Hy).
    apply list_elem_of_fmap in Hy as (x & -> & Hx). apply startup_files_spec in Hx as (Hx & Hc & _).
    cbn. apply interrupted_waits; [|done]. by eapply Forall_forall in Hst.
  - rewrite !map_map. apply startup_files_sublist.
Qed.

End Startup.

(** ** Cleanup *)

Section Cleanup.
Context {W F E N St : Type} `{!BrainKeys} `{!ExpiringSet Challenge St}.
Context `{!BrainEnv W} `{!FileSystem W F E} `{!Sanitizer}.
Context (file_at : path -> W -> option N) (data : N -> W -> option (list Z)) `{!FileSystemLaws W F E N file_at data}.
Context (c : DirectFsController).
Implicit Types (b : brain DirectFsController W F E St) (n : N).

Abbreviation part_path f := (path_join (partial_dir c) (path_from f)).

(** A file with content that no stale name in the directory of part files leads to. *)
Definition not_stale (threshold : Z) n (content : list Z) (w : W) : Prop :=
  data n w = Some content /\
    forall f, plain f -> is_stale_partial threshold f = true -> file_at (part_path f) w <> Some n.

Lemma remove_partial_keeps threshold n content f w :
  is_stale_partial threshold f = true -> not_stale threshold n content w ->
  iwp (FsController.remove_partial_file c f) (fun _ w' => not_stale threshold n content w') w.
Proof.
  intros Hf Hn. unfold FsController.remove_partial_file. io_step. unfold validate_partial_basename.
  destruct (bool_decide _) eqn:Eb; cbn [negb]; io_steps; [|done]. bools. apply basename_plain in Eb.
  destruct (exists_at (part_path f) w); io_steps; [|done].
  destruct Hn as [Hd Hs]. split; [by apply (law_remove _ _ (part_path f) w n); [|apply Hs]|].
  intros f' Hp' Hf' Ha. by apply (law_remove_at _ _) in Ha; apply (Hs f').
Qed.

Lemma remove_stale_partials_keeps threshold n content files b :
  not_stale threshold n content (brain_world b) ->
  exists b', remove_stale_partials c threshold files b = Ret (tt, b') /\ not_stale threshold n content (brain_world b') /\
    ephemeral_data b' = ephemeral_data b /\ answers b' = answers b.
Proof.
  revert b. induction files as [|f files IH]; intros b Hn; cbn; [by exists b|].
  unfold bbind at 1. destruct (is_stale_partial threshold f) eqn:Es; [|by apply IH].
  unfold bbind, host. cbn [host_remove_partial_file direct_fs_host].
  destruct (iwp_run _ _ _ (remove_partial_keeps threshold n content f (brain_world b) Es Hn)) as (r & w & -> & Hw). cbn.
  by apply (IH (mk_brain w (ephemeral_data b) (ephemeral_guard b) (answers b))).
Qed.

Lemma list_partial_files_changes_nothing w : iwp (list_partial_files (E:=E) c) (fun _ w' => w' = w) w.
Proof.
  unfold list_partial_files. io_step. io_step. destruct (negb _); io_steps; [done|].
  destruct (read_dir _ w); [|done]. by io_steps.
Qed.

(** The sweep over part files ends and removes only files older than seven days by
    the start time in their name: the content of a file that no such name in the
    directory of part files leads to is untouched. A name that the receiver made for
    a transfer that started within the seven days is not such a name; one for an
    older transfer is. *)
Theorem sweep_keeps_recent_files b now w1 :
  brain_epoch_millis (brain_world b) = (Some now, w1) ->
  let threshold := now - DEFAULT_STALE_THRESHOLD_MS in
  (forall n content, not_stale threshold n content w1 ->
     exists b', sweep_partial_cleanup c b = Ret (tt, b') /\ data n (brain_world b') = Some content) /\
  (forall started tid peer contact, - 2 ^ 63 <= started < 2 ^ 63 ->
     is_stale_partial threshold (get_part_file_name started tid peer contact) = true <-> started < threshold).
Proof.
  intros Ec threshold. split.
  - intros n content Hn. unfold sweep_partial_cleanup, bbind, call. rewrite Ec. cbn [brain_world outcome_bind]. unfold host.
    cbn [host_list_partial_files direct_fs_host brain_world].
    destruct (iwp_run _ _ _ (list_partial_files_changes_nothing w1)) as (r & w & -> & ->). cbn.
    destruct r as [files|e]; [|by eexists; split; [done|apply Hn]].
    edestruct (remove_stale_partials_keeps threshold n content files) as (b' & Hr & Hw & _); [|rewrite Hr; by exists b'; split; [|apply Hw]].
    done.
  - intros started tid peer contact Hz. unfold is_stale_partial. rewrite parse_part_file_name by done. lia.
Qed.
End Cleanup.
