(* ===== verification/Invites.v ===== *)
(** * Invites (p2p/src/event_loop/trait_impls/)

    What the node does with the challenges of self-contact invites and contact
    shares that peers present (request_receiver.rs) and with the answers to its own
    (response_receiver.rs), on top of the brain of Brain.v; and how often the keys
    of the own contact leave the node. *)

From S2P Require Import Prelude Domain TtlMap ReceiveManager HostPath HostController FsController DriveHandler.
From S2P Require Import BrainTypes Brain BrainAccess BrainAnswers.

Create HintDb spends.

Section Invites.
Context {C W F E St : Type} `{!BrainKeys} `{!ExpiringSet Challenge St}.
Context `{!FilerequestDb W F} `{!NetworkNode W} `{!BrainEnv W} `{!HostController C W F E} `{!Sanitizer}.
Context (host_controller : C) (internal_data_dir : path).
Implicit Types (b : brain C W F E St).
Abbreviation M A := (BM C W F E St A).

(** [self.brain_action_sender.send(action).await.expect(..)]: the brain handles the
    action in a task of its own; if that task dies or blocks, the sender does not
    notice. *)
Definition post (a : Node.NodeAction) b : brain C W F E St :=
  match handle_p2p_action host_controller a b with Ret (_, b) => b | _ => b end.

(** ** Challenges that peers present *)

(** [RequestReceiver<SelfContactInviteChallenge, SelfContact>::respond_to] *)
Definition respond_to_self_contact_invite (node_id : PeerId) (contact_id : option ContactId) (request : Challenge) b
  : outcome (option SelfContact * brain C W F E St) :=
  let? (a, b) := ask_brain (handle_p2p_action host_controller (Node.ValidateSelfContactInviteChallenge (request_to request)))
                   (fun v => match v with RSelfContactOption o => Some o | _ => None end) b in
  match default None a with
  | Some self_contact => Ret (Some self_contact, post Node.AnsweredSelfContactInvite b)
  | None => Ret (None, post Node.RejectedSelfContactInvite b)
  end.

(** [RequestReceiver<ContactShareChallenge, Contact>::respond_to] *)
Definition respond_to_contact_share (node_id : PeerId) (contact_id : option ContactId) (request : Challenge) b
  : outcome (option Contact * brain C W F E St) :=
  let? (a, b) := ask_brain (handle_p2p_action host_controller (Node.ValidateContactShareChallenge (request_to request)))
                   (fun v => match v with RContactOption o => Some o | _ => None end) b in
  Ret (default None a, b).

(** ** Answers of peers *)

(** [ResponseReceiver<SelfContact>] and [ResponseReceiver<Contact>] *)
Definition receive_self_contact (response : SelfContact) b : brain C W F E St := post (Node.UpdateIdentity response) b.
Definition self_contact_invite_failed b : brain C W F E St := post Node.SelfContactInviteGotRejected b.
Definition receive_contact (response : Contact) b : brain C W F E St := post (Node.CreateContact response) b.

(** ** How often the own contact is given out *)

Context `{!ExpiringSetLaws Challenge St}.

Definition gives_self_contact (x : nat * Response C F E) : bool :=
  match x.2 with RSelfContactOption (Some _) => true | _ => false end.

Definition given b : nat := length (filter (fun x => gives_self_contact x = true) (answers b)).

Definition open_invites b : nat := size (ttl_set_content (self_contact_invite_challenges (ephemeral_data b))).

#[local] Arguments given : simpl never.
#[local] Arguments open_invites : simpl never.

(** The own contact was given out, or can still be, at most [k] times more than
    before. *)
Definition spends (k : nat) {A} (m : M A) : Prop :=
  forall b, match m b with
            | Ret (_, b') => (given b <= given b' /\ given b' + open_invites b' <= given b + open_invites b + k)%nat
            | _ => True
            end.

Lemma spends_weaken k k' {A} (m : M A) : (k <= k')%nat -> spends k m -> spends k' m.
Proof. intros Hk Hm b. specialize (Hm b). destruct (m b) as [[]| | |]; try done. lia. Qed.

Lemma spends_bind k k' {A B} (m : M A) (f : A -> M B) :
  spends k m -> (forall a, spends k' (f a)) -> spends (k + k') (bbind m f).
Proof.
  intros Hm Hf b. unfold bbind. specialize (Hm b). destruct (m b) as [[a b1]| | |]; cbn; try done.
  specialize (Hf a b1). destruct (f a b1) as [[x b2]| | |]; try done. lia.
Qed.

Lemma spends_bind0 {A B} (m : M A) (f : A -> M B) : spends 0 m -> (forall a, spends 0 (f a)) -> spends 0 (bbind m f).
Proof. intros. by apply (spends_bind 0 0). Qed.

Lemma spends_ret {A} (a : A) : spends 0 (bret a).
Proof. intros b. cbn. lia. Qed.

Lemma spends_call {A} (f : W -> A * W) : spends 0 (call f).
Proof. intros b. unfold call. destruct (f (brain_world b)). unfold given, open_invites. cbn. lia. Qed.

Lemma spends_host {A} (m : io W (BoxedError E) A) : spends 0 (host m).
Proof. intros b. unfold host. destruct (m (brain_world b)) as [[]| | |]; try done. unfold given, open_invites. cbn. lia. Qed.

Lemma spends_expect {A E'} (r : result A E') : spends 0 (bexpect r).
Proof. intros b. destruct r; [|done]. cbn. lia. Qed.

Lemma spends_panic {A} : spends 0 (fun _ => Panic : outcome (A * _)).
Proof. by intros b. Qed.

Lemma spends_rename fr title : spends 0 (rename_directory host_controller fr title).
Proof.
  intros b. unfold rename_directory. destruct (rename_filerquest _ _ _) as [[]| | |]; try done.
  unfold given, open_invites. cbn. lia.
Qed.

Lemma given_snoc w d g a x :
  given (mk_brain w d g (a ++ [x])) = (given (mk_brain w d g a) + if gives_self_contact x then 1 else 0)%nat.
Proof.
  unfold given. cbn. rewrite filter_app, length_app. f_equal. cbn. destruct (gives_self_contact x) eqn:Ex.
  - by rewrite decide_True.
  - by rewrite decide_False.
Qed.

Lemma spends_respond to v : gives_self_contact (0%nat, v) = false -> spends 0 (respond to v).
Proof.
  intros Hv b. unfold respond. destruct to as [n|]; [|lia]. rewrite given_snoc.
  replace (gives_self_contact (n, v)) with false by done. unfold given, open_invites. cbn. lia.
Qed.

(** Changes of the challenges, by the number of invites they open. *)
Lemma spends_change k {A} (f : Z -> EphemeralBrainData St -> A * EphemeralBrainData St) :
  (forall now d, (size (ttl_set_content (self_contact_invite_challenges (f now d).2)) <=
     size (ttl_set_content (self_contact_invite_challenges d)) + k)%nat) ->
  spends k (change_ephemeral f).
Proof.
  intros Hf b. unfold change_ephemeral, bbind, lock_ephemeral, call, get_ephemeral. destruct (ephemeral_guard b); cbn; [done|].
  destruct (brain_now _) as [now w]. cbn. specialize (Hf now (ephemeral_data b)). destruct (f now _) as [x d]. cbn in *.
  unfold given, open_invites. cbn. lia.
Qed.

Lemma size_remove c now (s : TtlSet St) :
  (size (ttl_set_content (ttl_set_remove c now s).2) + (if (ttl_set_remove c now s).1 then 1 else 0) <= size (ttl_set_content s))%nat.
Proof.
  destruct (ttl_set_remove_content c now s) as (_ & -> & Hr). destruct (ttl_set_remove c now s).1.
  - destruct (Hr eq_refl) as [d Hd]. rewrite map_size_delete_Some by eauto.
    assert (size (ttl_set_content s) <> 0)%nat; [|lia]. intros Hz%map_size_empty_iff. by rewrite Hz in Hd.
  - rewrite Nat.add_0_r. apply map_subseteq_size, delete_subseteq.
Qed.

Lemma size_insert c now (s : TtlSet St) :
  (size (ttl_set_content (ttl_set_insert c now s)) <= size (ttl_set_content s) + 1)%nat.
Proof.
  unfold ttl_set_content, ttl_set_insert. cbn. rewrite es_insert_content.
  destruct (es_vacuum_content now (ts_set s)) as [Hv _]. apply map_subseteq_size in Hv.
  rewrite map_size_insert. case_match; unfold id; lia.
Qed.

Lemma spends_validate r : spends 0 (validate_self_contact_invite_action r).
Proof.
  intros b. unfold validate_self_contact_invite_action, change_ephemeral, bbind, lock_ephemeral, call, get_ephemeral.
  destruct (ephemeral_guard b); cbn; [done|]. destruct (brain_now _) as [now w]. cbn.
  pose proof (size_remove (request r) now (self_contact_invite_challenges (ephemeral_data b))) as Hs.
  destruct (ttl_set_remove _ _ _) as [[] set]; cbn in *.
  - destruct (db_get_self_contact w) as [sc w1]. cbn. destruct (response_sender r); cbn; [rewrite given_snoc|].
    + destruct (gives_self_contact _); unfold given, open_invites in *; cbn in *; lia.
    + unfold given, open_invites; cbn in *; lia.
  - destruct (response_sender r); cbn; [rewrite given_snoc|]; unfold given, open_invites; cbn in *; lia.
Qed.

(** The data are replaced with the same invites. *)
Lemma spends_put {A} (f : EphemeralBrainData St -> EphemeralBrainData St) (k : EphemeralBrainData St -> M A) :
  (forall d, self_contact_invite_challenges (f d) = self_contact_invite_challenges d) -> (forall d, spends 0 (k d)) ->
  spends 0 (await d := get_ephemeral in run! put_ephemeral (f d) in k d).
Proof.
  intros Hf Hk b. cbn. specialize (Hk (ephemeral_data b)
    (mk_brain (brain_world b) (f (ephemeral_data b)) (ephemeral_guard b) (answers b))).
  destruct (k _ _) as [[]| | |]; try done. unfold given, open_invites in *. cbn in *. rewrite Hf in Hk. lia.
Qed.

Lemma spends_lock : spends 0 lock_ephemeral.
Proof. intros b. unfold lock_ephemeral. destruct (ephemeral_guard b); [done|]. unfold given, open_invites. cbn. lia. Qed.

Lemma spends_unlock : spends 0 unlock_ephemeral.
Proof. intros b. unfold unlock_ephemeral, given, open_invites. cbn. lia. Qed.

#[local] Hint Resolve spends_ret spends_call spends_host spends_expect spends_panic spends_rename spends_lock
  spends_unlock spends_validate : spends.
#[local] Hint Extern 1 (spends _ (respond _ _)) => apply spends_respond; done : spends.

Ltac spends_step :=
  first
    [ solve [eauto with spends]
    | match goal with
      | |- spends 0 (bbind get_ephemeral (fun d => bbind (put_ephemeral _) _)) => apply spends_put; [done|intros ?]
      | |- spends 0 (bbind _ _) => apply spends_bind0; [|intros ?]
      | |- spends 0 (match ?x with _ => _ end) => destruct x
      end ].
Ltac spends_solve := repeat spends_step.

Lemma spends_answer_all senders : spends 0 (answer_all senders).
Proof. induction senders; cbn [answer_all]; spends_solve. Qed.

Lemma spends_reset_sending files : spends 0 (reset_sending files).
Proof. induction files as [|[file fr] files IH]; cbn [reset_sending]; spends_solve. Qed.

Lemma spends_finished id status : spends 0 (file_finished_action host_controller id status).
Proof. unfold file_finished_action, update_send_status, try_cleanup_source_file, push. spends_solve. Qed.

#[local] Hint Resolve spends_answer_all spends_reset_sending spends_finished : spends.

Lemma spends_wait r : spends 0 (wait_for_ready_action r).
Proof.
  unfold wait_for_ready_action. destruct (response_sender r); [|apply spends_ret]. apply spends_bind0; [apply spends_lock|].
  intros _ b. cbn. destruct (queued_wait_for_ready_requests (ephemeral_data b)).
  - destruct (bounded_push _ _). unfold given, open_invites. cbn. lia.
  - unfold bbind, lock_ephemeral. destruct (ephemeral_guard b); [done|]. unfold given, open_invites. cbn. lia.
Qed.

(** The number of invites an action opens. *)
Definition opens_invite (a : BrainAction) : nat :=
  match a with ClientActionOf (Client.RegisterSelfContactInviteChallenge _) => 1 | _ => 0 end.

Lemma spends_register r : spends 1 (register_self_contact_invite_action r).
Proof.
  unfold register_self_contact_invite_action. apply (spends_bind 0 1); [apply spends_call|]. intros challenge.
  apply (spends_bind 1 0); [|intros _; by apply spends_respond]. apply spends_change. intros now d. apply size_insert.
Qed.

Lemma spends_change0 {A} (f : Z -> EphemeralBrainData St -> A * EphemeralBrainData St) :
  (forall now d, ttl_set_content (self_contact_invite_challenges (f now d).2) ⊆ ttl_set_content (self_contact_invite_challenges d)) ->
  spends 0 (change_ephemeral f).
Proof. intros Hf. apply spends_change. intros now d. rewrite Nat.add_0_r. apply map_subseteq_size, Hf. Qed.

Lemma remove_subseteq c now (s : TtlSet St) : ttl_set_content (ttl_set_remove c now s).2 ⊆ ttl_set_content s.
Proof. destruct (ttl_set_remove_content c now s) as (_ & -> & _). apply delete_subseteq. Qed.

#[local] Hint Extern 1 (spends _ (change_ephemeral _)) =>
  apply spends_change0; intros ? ?; first [done | apply remove_subseteq] : spends.

Lemma client_action_spends a :
  spends (opens_invite (ClientActionOf a)) (handle_client_action host_controller internal_data_dir a).
Proof.
  destruct a; cbn [handle_client_action opens_invite]; try (apply spends_register || apply spends_wait).
  all: autounfold with brain_actions; spends_solve.
Qed.

Lemma node_action_spends a : spends 0 (handle_p2p_action host_controller a).
Proof.
  destruct a; cbn [handle_p2p_action].
  all: unfold ready_action; autounfold with brain_actions; spends_solve.
Qed.

Lemma action_spends a : spends (opens_invite a) (handle_action host_controller internal_data_dir a).
Proof. destruct a; [apply client_action_spends|apply node_action_spends]. Qed.

(** ** Presentations *)

(** What happens to the brain: actions, and challenges that peers present. *)
Inductive invite_step :=
| LocalAction (a : BrainAction)
| Presented (node_id : PeerId) (contact_id : option ContactId) (challenge : Challenge).

(** The own contact as it was sent, and to whom. *)
Fixpoint run_invites (steps : list invite_step) b : outcome (list (PeerId * SelfContact) * brain C W F E St) :=
  match steps with
  | [] => Ret ([], b)
  | LocalAction a :: steps =>
      let? (_, b) := handle_action host_controller internal_data_dir a b in run_invites steps b
  | Presented node_id contact_id challenge :: steps =>
      let? (answer, b) := respond_to_self_contact_invite node_id contact_id challenge b in
      let? (sent, b) := run_invites steps b in
      Ret (match answer with Some self_contact => (node_id, self_contact) :: sent | None => sent end, b)
  end.

Definition opened (x : invite_step) : nat := match x with LocalAction a => opens_invite a | Presented _ _ _ => 0 end.

Lemma validate_answers r n b b' :
  response_sender r = Some n -> validate_self_contact_invite_action r b = Ret (tt, b') ->
  exists o, answers b' = answers b ++ [(n, RSelfContactOption o)].
Proof.
  intros Hs Er. unfold validate_self_contact_invite_action, change_ephemeral, bbind, lock_ephemeral, call, get_ephemeral in Er.
  destruct (ephemeral_guard b); cbn in Er; [done|]. destruct (brain_now _) as [now w]. cbn in Er.
  destruct (ttl_set_remove _ _ _) as [[] set]; cbn in Er; [destruct (db_get_self_contact w); cbn in Er|];
    rewrite Hs in Er; injection Er as <-; eauto.
Qed.

Lemma post_spends a b : (open_invites (post a b) <= open_invites b)%nat.
Proof.
  unfold post. pose proof (node_action_spends a b) as Ha. destruct (handle_p2p_action _ a b) as [[]| | |]; lia.
Qed.

Lemma presented_spends node contact c b answer b' :
  respond_to_self_contact_invite node contact c b = Ret (answer, b') ->
  (open_invites b' + (if answer is Some _ then 1 else 0) <= open_invites b)%nat.
Proof.
  intros Er. unfold respond_to_self_contact_invite, ask_brain in Er. cbn [handle_p2p_action] in Er.
  pose proof (spends_validate (request_to c) b) as Hv.
  destruct (validate_self_contact_invite_action (request_to c) b) as [[[] b1]| | |] eqn:Ev; cbn in Er; try done.
  destruct (validate_answers (request_to c) 0%nat b b1 eq_refl Ev) as [o Ho].
  assert (given b1 = given b + if o is Some _ then 1 else 0)%nat as Hg.
  { destruct b as [w d g a], b1 as [w1 d1 g1 a1]. cbn in Ho. subst a1. rewrite given_snoc.
    unfold given, gives_self_contact. cbn. by destruct o. }
  rewrite Ho, last_snoc in Er. cbn in Er. destruct o as [sc|]; injection Er as <- <-.
  - pose proof (post_spends Node.AnsweredSelfContactInvite b1). lia.
  - pose proof (post_spends Node.RejectedSelfContactInvite b1). lia.
Qed.

(** C40 The own contact, which contains the private keys of the user, is sent to peers
    at most as often as invites were made: over any sequence of actions of the client
    and the node and of challenges that any peers present, the number of times it is
    sent is bounded by the invites open at the start and those made since. *)
Theorem keys_leave_once_per_invite steps b sent b' :
  run_invites steps b = Ret (sent, b') ->
  (length sent + open_invites b' <= open_invites b + sum_list_with opened steps)%nat.
Proof.
  revert b sent b'. induction steps as [|[a|node contact c] steps IH]; intros b sent b' Er; cbn in Er.
  - injection Er as <- <-. cbn. lia.
  - apply outcome_bind_ret in Er as [[[] b1] [E1 Er]]. apply IH in Er. pose proof (action_spends a b) as Ha.
    rewrite E1 in Ha. cbn. lia.
  - apply outcome_bind_ret in Er as [[answer b1] [E1 Er]]. apply presented_spends in E1.
    apply outcome_bind_ret in Er as [[sent1 b2] [E2 Er]]. apply IH in E2. injection Er as <- <-.
    destruct answer; cbn in *; lia.
Qed.

(** A new brain has no open invites. *)
Lemma no_invites_at_start w g a : open_invites (mk_brain w ephemeral_new g a : brain C W F E St) = 0%nat.
Proof. unfold open_invites. cbn. unfold ttl_set_content, ttl_set_new. cbn. by rewrite es_new_content. Qed.
End Invites.
