(* ===== verification/BrainExample.v ===== *)
(** * A node in memory

    Instances of the interfaces of the brain on the disk of Disk.v and a small
    database, and the theorems of BrainAccess.v, BrainAnswers.v and BrainFiles.v at
    concrete runs on it. *)

From S2P Require Import Prelude Domain TtlMap IdleExpiryMap SendManager ReceiveManager Receiver HostPath HostController.
From S2P Require Import FsController Disk DriveHandler DriveFiles BrainTypes Brain BrainAccess BrainAnswers BrainFiles.

(** ** A disk with something beside it *)

Section Lift.
Context {D X F E N : Type} {fs : FileSystem D F E}.

Definition on_disk {A} (f : D -> A * D) (w : D * X) : A * (D * X) := let (a, d) := f w.1 in (a, (d, w.2)).

#[global] Instance lift_disk : FileSystem (D * X) F E := {|
  metadata p w := metadata p w.1;
  current_dir w := current_dir w.1;
  canonicalize p w := canonicalize p w.1;
  read_dir p w := read_dir p w.1;
  create_dir_all p := on_disk (create_dir_all p);
  open_read p := on_disk (open_read p);
  open_append_create p := on_disk (open_append_create p);
  open_create_new p := on_disk (open_create_new p);
  open_truncate p := on_disk (open_truncate p);
  fs_remove_file p := on_disk (fs_remove_file p);
  fs_rename p q := on_disk (fs_rename p q);
  system_nanos := on_disk system_nanos;
  process_id := process_id;
  local_date := on_disk local_date;
  invalid_input := invalid_input;
|}.

Context (at_path : path -> D -> option N) (content : N -> D -> option (list Z)) {laws : FileSystemLaws D F E N at_path content}.

#[global] Instance lift_disk_laws :
  FileSystemLaws (D * X) F E N (fun p w => at_path p w.1) (fun n w => content n w.1).
Proof.
  destruct laws as [L1 L2 L3 L4 L5 L6 L7 L8 L9 L10 L11]. split.
  - intros p w d. apply L1.
  - intros p w n. apply L2.
  - intros p w. pose proof (L3 p w.1). cbn. unfold on_disk. by destruct (create_dir_all p w.1).
  - intros p w. pose proof (L4 p w.1). cbn. unfold on_disk. by destruct (open_append_create p w.1).
  - intros p w. pose proof (L5 p w.1). cbn. unfold on_disk. by destruct (open_create_new p w.1).
  - intros p w f w'. cbn. unfold on_disk. destruct (open_create_new p w.1) as [r d] eqn:Eo. intros [= -> <-]. by apply (L6 p w.1 f d).
  - intros p q w H. pose proof (L7 p q w.1 H). cbn. unfold on_disk. by destruct (fs_rename p q w.1).
  - intros p q w w' n H. cbn. unfold on_disk. destruct (fs_rename p q w.1) as [r d] eqn:Eo. intros [= -> <-].
    by apply (L8 p q w.1 d n).
  - intros p q w e w'. cbn. unfold on_disk. destruct (fs_rename p q w.1) as [r d] eqn:Eo. intros [= -> <-].
    pose proof (L9 p q w.1 e d Eo). done.
  - intros p w n b. pose proof (L10 p w.1 n b). cbn. unfold on_disk. by destruct (fs_remove_file p w.1).
  - intros p q w n. pose proof (L11 p q w.1 n). cbn. unfold on_disk. by destruct (fs_remove_file p w.1).
Qed.
End Lift.

Module BrainExample.
Import MemoryDisk MemorySet.
#[local] Existing Instance DriveExample.sanitizer.

#[local] Instance keys : BrainKeys := {| Keys := unit; PublicKeys := unit; keys_public _ := tt |}.

(** Filerequests, remote filerequests, files to send, and what the node was given. *)
Record tables := mk_tables {
  filerequests : gmap FylesId Filerequest;
  remotes : list RemoteFilerequest;
  pendings : list PendingFile;
  handed_over : list FileToSend;
}.
Definition world : Type := disk * tables.

Definition query {A} (f : tables -> option A) (w : world) : result A DbError * world :=
  (match f w.2 with Some a => Ok a | None => Err (DbNotFound "no such entry") end, w).
Definition fails {A} (w : world) : result A DbError * world := (Err DbDatabase, w).

Definition set_status (id : FylesId) (status : SendStatus) (w : world) : result FylesId DbError * world :=
  let files := map (fun f => if decide (pf_id f = id) then pf_with_status f status else f) (pendings w.2) in
  (Ok "fr", (w.1, mk_tables (filerequests w.2) (remotes w.2) files (handed_over w.2))).

#[local] Instance database : FilerequestDb world nat := {|
  db_get_filerequest id := query (fun t => filerequests t !! id);
  db_get_filerequests := query (fun t => Some (map snd (map_to_list (filerequests t))));
  db_create_filerequest _ := fails;
  db_update_filerequest _ := fails;
  db_delete_filerequest _ := fails;
  db_get_contact_name _ := fails;
  db_get_contact_names _ := fails;
  db_get_contact _ := fails;
  db_get_contacts := fails;
  db_update_contact _ := fails;
  db_delete_contact _ := fails;
  db_get_contact_public_keys _ := fails;
  db_store_node_keys _ := fails;
  db_get_node_keys := fails;
  db_get_remote_filerequest _ := fails;
  db_get_remote_filerequests_by_contact _ := fails;
  db_get_all_remote_filerequests := query (fun t => Some (remotes t));
  db_create_remote_filerequest _ := fails;
  db_delete_remote_filerequest _ := fails;
  db_update_remote_filerequest _ _ := fails;
  db_get_pending_file _ := fails;
  db_get_pending_files _ := fails;
  db_get_all_pending_files := query (fun t => Some (pendings t));
  db_create_pending_files _ := fails;
  db_update_pending_file_status id status _ := set_status id status;
  db_add_interruption_reason _ _ := fails;
  db_delete_pending_file _ := fails;
  db_count_non_terminal_pending_files_for_path _ := fails;
  db_create_incoming_file _ w := (Ok "in", w);
  db_update_received_file_status _ _ _ := fails;
  db_get_received_file_by_transfer_id _ := fails;
  db_complete_received_file _ := fails;
  db_list_received_files _ := fails;
  db_delete_received_file _ := fails;
  db_get_stale_received_files _ := fails;
  db_get_self_contact w := (Ok (mk_self_contact "me" "Me" tt), w);
  db_get_self_contact_for_display := fails;
  db_update_self_contact_name _ := fails;
  db_update_identity _ := fails;
  db_get_sharable_public_self_contact := fails;
  db_register_contact _ := fails;
  db_backup_database _ _ := fails;
  db_restore_database _ := fails;
  db_get_settings := fails;
  db_store_settings _ := fails;
|}.

#[local] Instance network : NetworkNode world := {|
  net_display_keypair _ _ := Err tt;
  net_send_files _ w := (Ok tt, w);
  net_initial_files_to_send files w :=
    (Ok tt, (w.1, mk_tables (filerequests w.2) (remotes w.2) (pendings w.2) files));
  net_get_node_info w := (Err UnspecifiedError, w);
  net_cancel_file _ w := (Ok false, w);
  net_cancel_files_for_remote_filerequest _ _ w := (Ok false, w);
  net_generate_keypair w := (Ok [1], w);
  net_update_identity _ _ w := w;
  net_use_self_contact_invite _ _ w := w;
  net_use_contact_share_challenge _ _ w := w;
  net_apply_settings _ w := (Ok tt, w);
|}.

#[local] Instance surroundings : BrainEnv world := {|
  brain_now w := (10, w);
  brain_epoch_millis w := (Some (8 * 24 * 60 * 60 * 1000), w);
  random_challenge w := ([7], w);
  new_contact_id w := ("new", w);
  new_contact_keys w := (tt, w);
  client_push _ w := (true, w);
  send_notification _ w := w;
|}.

(** An active filerequest, two files of which one was being sent, two part files of
    which one is older than a week, and one open invite. *)
Definition stale_part : string := get_part_file_name 1000 "t1" "peer" None.
Definition recent_part : string := get_part_file_name 604800000 "t2" "peer" None.
Definition part (name : string) : path := path_join (partial_dir DriveExample.controller) (path_from name).

Definition disk1 : disk :=
  mk_disk (list_to_set (prefixes (components (path_from "/out/Partial"))))
    (<[components (part stale_part) := 0%nat]> {[components (part recent_part) := 1%nat]})
    (<[0%nat := [1]]> {[1%nat := [2]]}).

Definition tables0 : tables :=
  mk_tables {["fr" := mk_filerequest "fr" "Holidays" "" (Audience ["alice"]) true]}
    [mk_remote_filerequest "r1" "peer" "theirs" "bob" "Theirs"]
    [mk_pending_file "p1" "bob" "/a" 0 "r1" (SInProgress (mk_in_progress Sending (mk_transfer_data 3 9 "t"))) None [];
     mk_pending_file "p2" "bob" "/b" 1 "r1" SSent None []]
    [].

Abbreviation the_brain := (brain DirectFsController world nat unit (gmap Challenge Z)).
Definition invites0 : TtlSet (gmap Challenge Z) := ttl_set_insert [1; 2] 0 (ttl_set_new minute).
Definition brain0 : the_brain :=
  mk_brain (disk1, tables0)
    (mk_ephemeral false (Some (bounded_new 25)) invites0 (ttl_set_new (2 * minute))) false [].

Definition controller := DriveExample.controller.
Definition handle (a : BrainAction) (b : the_brain) : outcome (unit * the_brain) :=
  handle_action controller (path_from "/data") a b.
Definition after (a : BrainAction) (b : the_brain) : the_brain := match handle a b with Ret (_, b) => b | _ => b end.

Definition on_drive {A X} (m : io world X A) (w : world) : option A * world :=
  match m w with Ret (r, w) => (result_ok r, w) | _ => (None, w) end.

#[local] Instance drive : ReceiverEnv world nat (FilerequestDriveHandler DirectFsController) := {
  instant_now w := (0, w);
  unix_epoch_millis w := (Some 700000000, w);
  random_draw w := (3, 0, w);
  request_file_drop _ _ w := Ret (None, w);
  create_incoming_file _ w := Ret (false, w);
  request_file_transfer_continuation _ w := Ret (None, w);
  store_received_file _ w := Ret (false, w);
  update_received_file_status _ _ _ w := (false, w);
  ReceiveManager.get_partial_file_for_writing h n w :=
    on_drive (DriveHandler.get_partial_file_for_writing h n) w;
  ReceiveManager.remove_partial_file h n w :=
    let (r, w) := on_drive (DriveHandler.remove_partial_file h n) w in (bool_decide (is_Some r), w);
  ReceiveManager.finalize_partial_file h p n w := on_drive (DriveHandler.finalize_partial_file h p n) w;
  metadata_len n w := ((fun b => Z.of_nat (length b)) <$> contents w.1 !! n, w);
  write_all n b w :=
    (true, (mk_disk (dirs w.1) (files w.1) (<[n := default [] (contents w.1 !! n) ++ b]> (contents w.1)), w.2));
}.

Definition receiver0 : FilerequestReceiver (H := nat) (DH := FilerequestDriveHandler DirectFsController) :=
  (receiver_new brain0.(brain_world)).1.

Definition drop_response :=
  respond_to (ReceiverEnv0 := receiver_with_brain controller drive) receiver0 "peer" (Some "alice")
    (NewTransfer "fr" "photo.jpg" 5 "t") brain0.

(** Alice may send to the filerequest; Mallory is refused. *)
Lemma only_the_audience_may_send :
  (match drop_response with Ret (r, _, _) => Some r | _ => None end = Some AcceptNewTransfer) /\
  (match respond_to (ReceiverEnv0 := receiver_with_brain controller drive) receiver0 "peer" (Some "mallory")
     (NewTransfer "fr" "photo.jpg" 5 "t") brain0 with Ret (r, _, _) => Some r | _ => None end <> Some AcceptNewTransfer).
Proof. by vm_compute. Qed.

Definition accepted_state := match drop_response with Ret (_, f, b) => (f, b) | _ => (receiver0, brain0) end.

Lemma accepted_transfer_has_access_witness :
  (exists w f, clock_reads (brain_world brain0) w /\ may_drop w "fr" (Some "alice") f) \/
  (exists w f rf, clock_reads (brain_world brain0) w /\
     may_continue w (mk_continue_request "fr" (Some "alice") "peer" "t") f rf) \/
  (exists mgr t, entries (now_entry (ReceiverEnv0 := receiver_with_brain controller drive) receiver0 "peer" brain0).1.2
       !! ("peer" : PeerId) = Some (mk_timed mgr t) /\ belongs_to mgr (Some "alice") "fr" "t").
Proof.
  apply (accepted_transfer_has_access controller drive receiver0 "peer" (Some "alice"%string)
    (NewTransfer "fr" "photo.jpg" 5 "t") brain0 AcceptNewTransfer accepted_state.1 accepted_state.2 "fr" "t" 0).
  - vm_compute. reflexivity.
  - left. by exists "photo.jpg", 5.
Defined.

Lemma request_is_answered_once_witness :
  match handle (NetworkNodeActionOf (Node.RequestFileDrop (mk_brain_request (mk_access_request "fr" None) (Some 4%nat)))) brain0 with
  | Ret (_, b') => ephemeral_guard b' = false /\ exists v, answers b' = answers brain0 ++ [(4%nat, v)]
  | Panic => false = true
  | Deadlock | Diverge => False
  end.
Proof.
  apply (request_is_answered_once controller (path_from "/data")
    (NetworkNodeActionOf (Node.RequestFileDrop (mk_brain_request (mk_access_request "fr" None) (Some 4%nat)))) brain0);
    reflexivity.
Defined.

Definition ready_brain : the_brain := after (NetworkNodeActionOf Node.Ready) brain0.

Lemma waiting_after_ready_blocks_witness :
  handle (ClientActionOf (Client.WaitForReady (mk_brain_request tt (Some 5%nat)))) ready_brain = Deadlock /\
  handle (ClientActionOf (Client.RegisterContactShareChallenge (mk_brain_request tt (Some 6%nat)))) (guard_held ready_brain)
  = Deadlock.
Proof.
  destruct (waiting_after_ready_blocks controller (path_from "/data") (mk_brain_request tt (Some 5%nat)) 5 ready_brain
    eq_refl eq_refl) as (_ & _ & H).
  destruct (H eq_refl) as (Hw & _ & Hc). split; [exact Hw|by apply Hc].
Defined.

Definition present : BrainRequest Challenge := mk_brain_request [1; 2] (Some 7%nat).

Lemma invite_challenge_is_single_use_witness :
  let b1 := after (NetworkNodeActionOf (Node.ValidateSelfContactInviteChallenge present)) brain0 in
  answers b1 = [(7%nat, RSelfContactOption (Some (mk_self_contact "me" "Me" tt)))] /\
  exists b3, handle (NetworkNodeActionOf (Node.ValidateSelfContactInviteChallenge present)) b1 = Ret (tt, b3) /\
    answers b3 = answers b1 ++ [(7%nat, RSelfContactOption None)].
Proof.
  intros b1.
  destruct (invite_challenge_is_single_use controller (path_from "/data") [1; 2] present present 7 7 [] brain0 b1 b1)
    as [H1 H2]; [done|reflexivity..| |reflexivity|].
  - vm_compute. reflexivity.
  - split; [|exact H2]. by apply (H1 minute).
Defined.

Lemma sweep_keeps_recent_files_witness :
  exists b', sweep_partial_cleanup controller brain0 = Ret (tt, b') /\ data 1 (brain_world b').1 = Some [2].
Proof.
  refine (proj1 (sweep_keeps_recent_files (fun p w => file_at p w.1) (fun n w => data n w.1) controller brain0 _ _ eq_refl) 1%nat [2] _).
  split; [by vm_compute|]. intros f Hf Hs Ha. cbn in Ha. rewrite path_join_plain in Ha by done. unfold file_at in Ha.
  cbn [trailing components files disk1] in Ha. apply lookup_insert_Some in Ha as [[_ ?]|[_ Ha]]; [done|].
  apply lookup_singleton_Some in Ha as [Ha _]. unfold part in Ha.
  rewrite (path_join_plain (partial_dir DriveExample.controller) recent_part) in Ha by (vm_compute; intuition discriminate). cbn [components] in Ha. apply app_inj_tail in Ha as [_ [= <-]].
  by vm_compute in Hs.
Defined.

(** The stale part file of the same run is gone. *)
Lemma sweep_removes_stale_file :
  match sweep_partial_cleanup controller brain0 with
  | Ret (_, b) => file_at (part stale_part) (brain_world b).1 = None /\ data 0 (brain_world b).1 = None
  | _ => False
  end.
Proof. by vm_compute. Qed.
End BrainExample.
