(* ===== verification/Restart.v ===== *)
(** * Restart: brain and node together

    From the files in the database to the queues of the tracker, and examples of the
    theorems on invites and on the event loop. *)

From S2P Require Import Prelude Domain TtlMap FileReader SendManager FileTracker TrackerInvariant HostPath HostController.
From S2P Require Import DriveHandler BrainTypes EventLoop NodeRuns Brain BrainAnswers BrainFiles Invites DriveFiles Disk BrainExample.

Section Restart.
Context {C W F E St : Type} `{!BrainKeys} `{!ExpiringSet Challenge St}.
Context `{!FilerequestDb W F} `{!NetworkNode W} `{!BrainEnv W} `{!HostController C W F E} `{!Sanitizer}.
Context {W' F' E' : Type} `{!AsyncFile F' E'} `{!TrackerEnv W' F' E'} `{!LoopEnv W'} (chunk_size : nat) (start_timestamp : Z).
Implicit Types (b : brain C W F E St) (l : event_loop (W := W') (F := F') (E := E')).

(** C39 (functional). After a restart no file is forgotten. When the brain hands its
    files to a node whose tracker is idle, then each file that the database has as
    pending or in progress, and whose remote filerequest it knows, is in the queue of
    the peer of that filerequest, once, with its progress if it was being sent; nothing
    else is added to the queues, and the command is answered. This needs that the peer
    ids of all these files can be read: if there is one that cannot, the process ends,
    whatever the others are. *)
Theorem restart_resumes_files (hc : C) (dir : path) n b b' l :
  handle_action hc dir (NetworkNodeActionOf Node.Ready) b = Ret (tt, b') ->
  lock (file_tracker l) = false ->
  exists remote pending w1 w2 w3 files,
    db_get_all_remote_filerequests (brain_world b) = (Ok remote, w1) /\
    db_get_all_pending_files w1 = (Ok pending, w2) /\
    brain_world b' = (net_initial_files_to_send files w3).2 /\
    let resumed file fr := file ∈ pending /\ is_continuable file = true /\
      index_remote_filerequests remote !! pf_target_filerequest_id file = Some fr in
    (Forall (fun file => stored_status (pf_status file)) pending ->
     (forall file fr, resumed file fr -> is_Some (parse_peer_id (rfr_peer_id fr))) ->
     exists l', run_last chunk_size start_timestamp (S (length files)) (handle_command (InitialFilesToSend files n) l) = Ret l' /\
       answered l' = answered l ++ [(n, AnswerUnit (Ok tt))] /\
       forall peer, exists new, queue l' peer = queue l peer ++ new /\
         (forall f, f ∈ new <-> exists file fr, resumed file fr /\
           parse_peer_id (rfr_peer_id fr) = Some peer /\ f = initial_pending_file (file_to_send (interrupted file, fr)))
         /\ map pf_id new `sublist_of` map pf_id pending) /\
    (Forall (fun file => stored_status (pf_status file)) pending ->
     (exists file fr, resumed file fr /\ parse_peer_id (rfr_peer_id fr) = None) ->
     run_last chunk_size start_timestamp (S (length files)) (handle_command (InitialFilesToSend files n) l) = Panic).
Proof.
  intros Er Hl. destruct (ready_hands_over hc dir b b' Er) as (remote & pending & w1 & w2 & w3 & files & Hr & Hp & Hw & Hf & Hs & Hsub).
  exists remote, pending, w1, w2, w3, files. do 3 (split; [done|]). split; intros Hst; specialize (Hs Hst).
  - intros Hpeers. destruct (initial_run chunk_size start_timestamp files [] n 1 l Hl) as (l1 & E1 & _ & T1 & A1 & Q1).
    { rewrite Forall_forall in Hs |- *. intros f Hfi. split; [|by apply Hs].
      apply Hf in Hfi as (file & fr & H1 & H2 & H3 & ->). by apply (Hpeers file fr). }
    rewrite app_nil_r in E1. exists (reply n (AnswerUnit (Ok tt)) l1). cbn [handle_command]. rewrite <- Nat.add_1_r, E1, run_last_spawn.
    split_and!; [done|by cbn; rewrite A1|]. intros peer. exists (queued_for peer files). split_and!; [apply Q1| |].
    2: { etransitivity; [|exact Hsub]. apply queued_ids. }
    intros f. unfold queued_for. rewrite list_elem_of_fmap. split.
    + intros (x & -> & [Hx Hfi]%list_elem_of_filter). apply Hf in Hfi as (file & fr & ? & ? & ? & ->). by exists file, fr.
    + intros (file & fr & (H1 & H2 & H3) & H4 & ->). eexists. split; [done|]. apply list_elem_of_filter. split; [done|].
      apply Hf. by exists file, fr.
  - intros (file & fr & (H1 & H2 & H3) & H4).
    apply (unreadable_peer_ends_process chunk_size start_timestamp files n l Hl); [done|].
    apply Exists_exists. exists (file_to_send (interrupted file, fr)). split; [apply Hf; by exists file, fr|done].
Qed.
End Restart.

(** ** A node in memory

    The brain of BrainExample.v and a node on the tracker of TrackerInvariant.v. *)
Module NodeExample.
Import MemFile MemTracker MemoryDisk MemorySet BrainExample.
#[local] Existing Instances DriveExample.sanitizer BrainExample.keys BrainExample.database BrainExample.network
  BrainExample.surroundings.

(** Every peer id but the empty one can be read. *)
#[local] Instance swarm : LoopEnv Z := {|
  parse_peer_id s := if decide (s = "") then None else Some s;
  swarm_listen_on _ w := (true, w);
  swarm_status _ := ("me", [], [], 0);
  session_update_identity _ _ w := w;
  send_self_contact_invite _ _ w := w;
  send_contact_share _ _ w := w;
|}.

Abbreviation node := (event_loop (W := Z) (F := file) (E := unit)).
Definition node0 : node := loop_new 0.
Definition waiting (id peer : string) : FileToSend := mk_file_to_send id peer "bob" "fr" "/a" 0 SPending.

Definition command : P2pCommand := InitialFilesToSend [waiting "p1" "peer"] 3.
Definition node1 : node := handle_command command node0.
Definition node2 : node :=
  match run_task 2 0 (TInitialFiles [waiting "p1" "peer"] 3) (remove_task 0 node1) with Ret l => l | _ => node1 end.

Lemma node2_runs : runs 2 0 0 [Command command] node2.
Proof.
  eapply (run_any_task 2 0 0 _ node1 node2 0); [|vm_compute; reflexivity..].
  apply (run_command 2 0 0 [] node0 command). apply run_start.
Qed.

Lemma node_refines_tracker_witness :
  exists ops extra, op_runs 2 ops (tracker_new 0) (file_tracker node2) /\
    List.filter direct ops ++ flat_map owed (tasks node2) ≡ₚ
      [OpAdd "peer" (initial_pending_file (waiting "p1" "peer"))] ++ extra /\ extra ⊆+ [].
Proof.
  destruct (node_refines_tracker 2 0 0 [Command command] node2 node2_runs) as (ops & extra & Hr & Ho & Hm & _).
  exists ops, extra. split_and!; [exact Hr|exact Ho|exact Hm].
Defined.

Lemma commands_are_answered_once_witness :
  map (fun x => (x.1, kind_of x.2)) (answered node2) ++ flat_map task_sender (tasks node2) ≡ₚ [(3%nat, UnitAnswer)].
Proof. exact (proj1 (commands_are_answered_once 2 0 0 [Command command] node2 node2_runs)). Defined.

(** The second file has a peer id that cannot be read. *)
Example unreadable_peer : run_last 2 0 3
  (handle_command (InitialFilesToSend [waiting "p1" "peer"; waiting "p2" ""] 3) node0) = Panic.
Proof. vm_compute. reflexivity. Qed.

Lemma restart_resumes_files_witness :
  exists remote pending w1 w2 w3 files,
    db_get_all_remote_filerequests (brain_world brain0) = (Ok remote, w1) /\
    db_get_all_pending_files w1 = (Ok pending, w2) /\
    brain_world ready_brain = (net_initial_files_to_send files w3).2 /\
    exists l', run_last 2 0 (S (length files)) (handle_command (InitialFilesToSend files 3) node0) = Ret l' /\
      answered l' = [(3%nat, AnswerUnit (Ok tt))].
Proof.
  assert (handle (NetworkNodeActionOf Node.Ready) brain0 = Ret (tt, ready_brain)) as E1 by (vm_compute; reflexivity).
  destruct (restart_resumes_files 2 0 controller (path_from "/data") 3 brain0 ready_brain node0 E1 eq_refl)
    as (remote & pending & w1 & w2 & w3 & files & Hr & Hp & Hw & Hq & _).
  exists remote, pending, w1, w2, w3, files. split_and!; [exact Hr|exact Hp|exact Hw|].
  injection Hr as <- <-. injection Hp as <- <-. destruct Hq as (l' & E2 & Ha & _).
  - repeat constructor.
    + by exists "Sending", (Some 3), (Some 9), (Some "t").
    + by exists "Sent", None, None, None.
  - intros file fr (_ & _ & Hfr). apply index_elem in Hfr. apply list_elem_of_singleton in Hfr as ->. by exists "peer".
  - exists l'. split; [exact E2|exact Ha].
Defined.

(** Two peers present the one open invite; only the first gets the keys. *)
Definition presentations : list invite_step := [Presented "mallory" None [1; 2]; Presented "bob" None [1; 2]].
Definition presented := run_invites controller (path_from "/data") presentations brain0.
Definition sent_contacts := match presented with Ret (sent, _) => sent | _ => [] end.
Definition presented_brain := match presented with Ret (_, b) => b | _ => brain0 end.

Lemma keys_leave_once_per_invite_witness :
  length sent_contacts = 1%nat /\ open_invites brain0 = 1%nat /\
  (length sent_contacts + open_invites presented_brain <= open_invites brain0 + sum_list_with opened presentations)%nat.
Proof.
  split_and!; [by vm_compute..|].
  apply (keys_leave_once_per_invite controller (path_from "/data") presentations brain0). vm_compute. reflexivity.
Defined.
End NodeExample.
