(* ===== verification/NodeKeys.v ===== *)
(** * The keys of contacts of a node

    [ContactKeys] of crypto/src/lib.rs (KeyExchange.v) as the keys that brain,
    database and API handle. *)

From S2P Require Import Prelude NonceWindow Dencryptor KeyExchange BrainTypes.

(** Keys of contacts as the node has them. *)
#[global] Instance contact_keys {W} `{!Primitives W} : BrainKeys := {|
  Keys := ContactKeys;
  PublicKeys := ContactPublicKeys;
  BrainTypes.keys_public := KeyExchange.keys_public;
|}.
