(* ===== verification/Sql.v ===== *)
(** * The SQL of the database

    The statements that core/src/library/sqlite/ gives to SQLite, as syntax, and
    their documented meaning as a function on tables: values and their storage
    classes, expressions with three-valued logic, constraints (NOT NULL, CHECK,
    UNIQUE, PRIMARY KEY, foreign keys with ON DELETE CASCADE), queries, insertions
    with conflict resolution, updates with RETURNING, and the changes of the schema
    that migrations make. Restricted to what the statements use: conditions are
    comparisons, foreign keys have one column, and a join has a condition. *)

From S2P Require Import Prelude Domain.
From stdpp Require Import pretty.
#[local] Open Scope Z_scope.

(** ** Values *)

Inductive value :=
| Null
| Integer (z : Z)
| Text (s : string)
| Blob (b : list Z).

#[export] Instance value_eq_dec : EqDecision value.
Proof. solve_decision. Defined.

(** A row gives the values of its columns, in their order. *)
Abbreviation row := (list (string * value)).

Fixpoint assoc {A} (c : string) (l : list (string * A)) : option A :=
  match l with
  | [] => None
  | (c', a) :: l => if String.eqb c c' then Some a else assoc c l
  end.

Definition row_get (r : row) (c : string) : value := default Null (assoc c r).

Fixpoint row_set (r : row) (c : string) (v : value) : row :=
  match r with
  | [] => []
  | (c', a) :: r => if String.eqb c c' then (c', v) :: r else (c', a) :: row_set r c v
  end.

(** ** Expressions *)

(** Parameters are numbered from 0; [Sub c t w] is (SELECT c FROM t WHERE w), [Now]
    is datetime('now'). A IN (B, C) is A = B OR A = C. *)
Inductive expr :=
| Lit (v : value)
| Param (n : nat)
| Col (q : option string) (c : string)
| Now
| Eq (a b : expr)
| Ne (a b : expr)
| Lt (a b : expr)
| Ge (a b : expr)
| And (a b : expr)
| Or (a b : expr)
| IsNull (a : expr)
| IsNotNull (a : expr)
| Case (c a b : expr)
| Sub (c t : string) (w : expr).

#[export] Instance expr_eq_dec : EqDecision expr.
Proof. solve_decision. Defined.

Definition of_bool (b : bool) : value := Integer (if b then 1 else 0).

(** Conditions are true, false or unknown. *)
Definition truth (v : value) : option bool :=
  match v with
  | Null => None
  | Integer z => Some (negb (z =? 0))
  | Text _ | Blob _ => Some false
  end.

Definition surely (t : option bool) : bool := match t with Some b => b | None => false end.

Definition of_truth (t : option bool) : value :=
  match t with None => Null | Some b => of_bool b end.

Definition and3 (a b : option bool) : option bool :=
  match a, b with
  | Some false, _ | _, Some false => Some false
  | Some true, Some true => Some true
  | _, _ => None
  end.

Definition or3 (a b : option bool) : option bool :=
  match a, b with
  | Some true, _ | _, Some true => Some true
  | Some false, Some false => Some false
  | _, _ => None
  end.

(** A comparison with NULL is unknown; integers come before texts, texts before blobs. *)
Definition compare (f : value -> value -> bool) (a b : value) : value :=
  match a, b with
  | Null, _ | _, Null => Null
  | _, _ => of_bool (f a b)
  end.

Definition value_eqb (a b : value) : bool :=
  match a, b with
  | Null, Null => true
  | Integer x, Integer y => x =? y
  | Text x, Text y => String.eqb x y
  | Blob x, Blob y => bool_decide (x = y)
  | _, _ => false
  end.

Definition value_ltb (a b : value) : bool :=
  match a, b with
  | Integer x, Integer y => x <? y
  | Text x, Text y => String.ltb x y
  | Integer _, (Text _ | Blob _) | Text _, Blob _ => true
  | _, _ => false
  end.

(** The rows in scope, by the names they can be qualified with. *)
Abbreviation scope := (list (string * row)).

Fixpoint scope_get (e : scope) (c : string) : value :=
  match e with
  | [] => Null
  | (_, r) :: e => match assoc c r with Some v => v | None => scope_get e c end
  end.

(** ** Tables *)

Record column := mk_column {
  col_name : string;
  col_type : string;
  col_not_null : bool;
  col_default : option value;
}.

Record foreign_key := mk_foreign_key {
  fk_column : string;
  fk_table : string;
  fk_parent : string;
  fk_cascade : bool;
}.

Record table := mk_table {
  t_columns : list column;
  t_keys : list (list string);
  t_foreign_keys : list foreign_key;
  t_checks : list expr;
}.

#[export] Instance column_eq_dec : EqDecision column.
Proof. solve_decision. Defined.
#[export] Instance foreign_key_eq_dec : EqDecision foreign_key.
Proof. solve_decision. Defined.
#[export] Instance table_eq_dec : EqDecision table.
Proof. solve_decision. Defined.

(** [t_keys] are the primary key and the UNIQUE constraints. *)

Record index := mk_index {
  ix_name : string;
  ix_table : string;
  ix_unique : bool;
  ix_columns : list string;
}.

Abbreviation schema := (gmap string table).
Abbreviation contents := (gmap string (list row)).

Record database := mk_database {
  db_schema : schema;
  db_indexes : list index;
  db_rows : contents;
}.

Definition rows_of (rs : contents) (t : string) : list row := default [] (rs !! t).

(** ** Evaluation *)

Record context := mk_context {
  x_params : list value;
  x_now : string;
  x_rows : contents;
}.

Fixpoint eval (x : context) (s : scope) (e : expr) : value :=
  match e with
  | Lit v => v
  | Param n => default Null (x_params x !! n)
  | Col None c => scope_get s c
  | Col (Some q) c => match assoc q s with Some r => row_get r c | None => Null end
  | Now => Text (x_now x)
  | Eq a b => compare value_eqb (eval x s a) (eval x s b)
  | Ne a b => compare (fun v w => negb (value_eqb v w)) (eval x s a) (eval x s b)
  | Lt a b => compare value_ltb (eval x s a) (eval x s b)
  | Ge a b => compare (fun v w => negb (value_ltb v w)) (eval x s a) (eval x s b)
  | And a b => of_truth (and3 (truth (eval x s a)) (truth (eval x s b)))
  | Or a b => of_truth (or3 (truth (eval x s a)) (truth (eval x s b)))
  | IsNull a => of_bool (value_eqb (eval x s a) Null)
  | IsNotNull a => of_bool (negb (value_eqb (eval x s a) Null))
  | Case c a b => match truth (eval x s c) with Some true => eval x s a | _ => eval x s b end
  | Sub c t w =>
      match List.filter (fun r => surely (truth (eval x ((t, r) :: s) w))) (rows_of (x_rows x) t) with
      | r :: _ => row_get r c
      | [] => Null
      end
  end.

(** A WHERE keeps the rows for which its condition is true; a CHECK is violated
    when its condition is false. *)
Definition holds (x : context) (s : scope) (e : expr) : bool := surely (truth (eval x s e)).
Definition violated (x : context) (s : scope) (e : expr) : bool :=
  match truth (eval x s e) with Some false => true | _ => false end.

(** The type of a column converts what is stored in it. *)
Definition store_as (ty : string) (v : value) : value :=
  match v with
  | Integer z => if String.eqb ty "TEXT" then Text (pretty z) else v
  | Text s =>
      if String.eqb ty "INTEGER" || String.eqb ty "BOOLEAN"
      then match parse_i64 s with Some z => Integer z | None => v end
      else v
  | _ => v
  end.

(** ** Constraints *)

Definition checks_ok (d : table) (r : row) : bool :=
  forallb (fun c => negb (col_not_null c && value_eqb (row_get r (col_name c)) Null)) (t_columns d)
  && forallb (fun e => negb (violated (mk_context [] "" ∅) [("", r)] e)) (t_checks d).

(** The keys of a table, those of its unique indexes included. *)
Definition table_keys (db : database) (t : string) (d : table) : list (list string) :=
  t_keys d ++ (ix_columns <$> filter (fun i => ix_unique i = true /\ ix_table i = t) (db_indexes db)).

(** Two rows conflict on a key if all its columns are equal and none is NULL. *)
Definition conflict (k : list string) (r1 r2 : row) : bool :=
  forallb (fun c => negb (value_eqb (row_get r1 c) Null) && value_eqb (row_get r1 c) (row_get r2 c)) k.

Definition conflicts (ks : list (list string)) (r1 r2 : row) : bool := existsb (fun k => conflict k r1 r2) ks.

Fixpoint unique_ok (ks : list (list string)) (rs : list row) : bool :=
  match rs with
  | [] => true
  | r :: rs => negb (existsb (conflicts ks r) rs) && unique_ok ks rs
  end.

Definition references (rs : contents) (fk : foreign_key) (r : row) : bool :=
  value_eqb (row_get r (fk_column fk)) Null
  || existsb (fun p => value_eqb (row_get p (fk_parent fk)) (row_get r (fk_column fk))) (rows_of rs (fk_table fk)).

Definition foreign_keys_ok (db : database) : bool :=
  forallb (fun '(t, d) => forallb (fun fk => forallb (references (db_rows db) fk) (rows_of (db_rows db) t)) (t_foreign_keys d))
    (map_to_list (db_schema db)).

(** ** Statements *)

Inductive selection :=
| Star
| CountAll
| Exprs (l : list (expr * string)).

(** The tables with the names they go by; ON and WHERE are one condition. *)
Record select := mk_select {
  sel_what : selection;
  sel_from : list (string * string);
  sel_where : expr;
}.

Inductive on_conflict :=
| OrAbort
| OrIgnore
| OrReplace
| DoUpdate (key : list string) (sets : list (string * expr)).

Inductive source :=
| Values (l : list expr)
| FromSelect (s : select).

Inductive stmt :=
| Select (s : select)
| Insert (c : on_conflict) (t : string) (cols : option (list string)) (src : source)
| Update (t : string) (sets : list (string * expr)) (w : expr) (returning : list string)
| Delete (t : string) (w : expr)
| CreateTable (if_not_exists : bool) (t : string) (d : table)
| CreateTableAs (t : string) (s : select)
| DropTable (if_exists : bool) (t : string)
| RenameTable (t t' : string)
| AddColumn (t : string) (c : column)
| DropColumn (t c : string)
| CreateIndex (if_not_exists : bool) (i : index)
| DropIndex (if_exists : bool) (n : string)
| Pragma (name : string) (on : bool).

(** What rusqlite::Error tells apart: a statement that does not fit the schema, a
    violated constraint, a failure of the engine (disk, memory, locks), and what
    the readers of rows report. *)
Inductive RusqliteError :=
| NoSuchName
| ConstraintViolation
| EngineFailure
| QueryReturnedNoRows
| InvalidColumnType
| IntegralValueOutOfRange.

#[export] Instance RusqliteError_eq_dec : EqDecision RusqliteError.
Proof. solve_decision. Defined.

(** ** Preparation: the names a statement uses exist *)

Definition column_names (d : table) : list string := col_name <$> t_columns d.

Definition in_list (c : string) (l : list string) : bool := existsb (String.eqb c) l.

Section Prepare.
Context (sch : schema).

Definition columns_of (t : string) : list string := match sch !! t with Some d => column_names d | None => [] end.

Definition table_known (t : string) : bool := bool_decide (is_Some (sch !! t)).

(** [s] gives the columns of the rows in scope. *)
Fixpoint expr_known (s : list (string * list string)) (e : expr) : bool :=
  match e with
  | Lit _ | Param _ | Now => true
  | Col None c => existsb (fun '(_, cs) => in_list c cs) s
  | Col (Some q) c => match assoc q s with Some cs => in_list c cs | None => false end
  | Eq a b | Ne a b | Lt a b | Ge a b | And a b | Or a b => expr_known s a && expr_known s b
  | IsNull a | IsNotNull a => expr_known s a
  | Case c a b => expr_known s c && expr_known s a && expr_known s b
  | Sub c t w => table_known t && in_list c (columns_of t) && expr_known ((t, columns_of t) :: s) w
  end.

Definition select_known (s : select) : bool :=
  let sc := (fun '(t, a) => (a, columns_of t)) <$> sel_from s in
  forallb (fun '(t, _) => table_known t) (sel_from s)
  && expr_known sc (sel_where s)
  && match sel_what s with Exprs l => forallb (fun '(e, _) => expr_known sc e) l | _ => true end.

Definition sets_known (t : string) (sc : list (string * list string)) (sets : list (string * expr)) : bool :=
  forallb (fun '(c, e) => in_list c (columns_of t) && expr_known sc e) sets.

Definition stmt_known (s : stmt) : bool :=
  match s with
  | Select s | CreateTableAs _ s => select_known s
  | Insert oc t cols src =>
      table_known t
      && forallb (fun c => in_list c (columns_of t)) (default [] cols)
      && match oc with
         | DoUpdate key sets =>
             forallb (fun c => in_list c (columns_of t)) key
             && sets_known t [(t, columns_of t); ("excluded", columns_of t)] sets
         | _ => true
         end
      && match src with
         | Values l => forallb (expr_known []) l && bool_decide (length l = length (default (columns_of t) cols))
         | FromSelect s => select_known s
         end
  | Update t sets w ret =>
      table_known t && sets_known t [(t, columns_of t)] sets && expr_known [(t, columns_of t)] w
      && forallb (fun c => in_list c (columns_of t)) ret
  | Delete t w => table_known t && expr_known [(t, columns_of t)] w
  | CreateTable _ _ _ | DropTable true _ | DropIndex _ _ | Pragma _ _ => true
  | DropTable false t | RenameTable t _ | AddColumn t _ => table_known t
  | DropColumn t c => table_known t && in_list c (columns_of t)
  | CreateIndex _ i => table_known (ix_table i) && forallb (fun c => in_list c (columns_of (ix_table i))) (ix_columns i)
  end.
End Prepare.

(** ** Queries *)

(** The combinations of rows of the tables of a FROM. *)
Fixpoint product (rs : contents) (from : list (string * string)) : list scope :=
  match from with
  | [] => [[]]
  | (t, a) :: from => flat_map (fun r => map (cons (a, r)) (product rs from)) (rows_of rs t)
  end.

Definition project (x : context) (w : selection) (s : scope) : list value :=
  match w with
  | Exprs l => (fun '(e, _) => eval x s e) <$> l
  | _ => flat_map (fun '(_, r) => snd <$> r) s
  end.

Definition query (x : context) (s : select) : list (list value) :=
  let found := List.filter (fun e => holds x e (sel_where s)) (product (x_rows x) (sel_from s)) in
  match sel_what s with
  | CountAll => [[Integer (Z.of_nat (length found))]]
  | w => project x w <$> found
  end.

(** ** Changes of rows *)

(** The tables that refer to [t] with ON DELETE CASCADE, with their keys. *)
Definition cascades (sch : schema) (t : string) : list (string * foreign_key) :=
  flat_map (fun '(c, d) => pair c <$> List.filter (fun fk => fk_cascade fk && String.eqb (fk_table fk) t) (t_foreign_keys d))
    (map_to_list sch).

(** The rows that satisfy [p] go, and the rows that refer to them with CASCADE. A
    chain of references has at most as many tables as there are, unless it is a
    cycle. *)
Fixpoint delete_rows (fuel : nat) (sch : schema) (t : string) (p : row -> bool) (rs : contents) : contents :=
  let removed := List.filter p (rows_of rs t) in
  let rs := <[t := List.filter (fun r => negb (p r)) (rows_of rs t)]> rs in
  match fuel with
  | O => rs
  | S fuel =>
      foldl (fun rs '(c, fk) =>
        delete_rows fuel sch c
          (fun r => negb (value_eqb (row_get r (fk_column fk)) Null)
                    && existsb (fun q => value_eqb (row_get q (fk_parent fk)) (row_get r (fk_column fk))) removed) rs)
        rs (cascades sch t)
  end.

(** The enforcement of foreign keys is a setting of the connection. *)
Definition delete_all (enforce : bool) (sch : schema) (t : string) (p : row -> bool) (rs : contents) : contents :=
  delete_rows (if enforce then size sch else O) sch t p rs.

Definition with_rows (db : database) (rs : contents) : database := mk_database (db_schema db) (db_indexes db) rs.

(** The end of a statement: no row may refer to a row that does not exist. *)
Definition finish (enforce : bool) (db : database) : result database RusqliteError :=
  if enforce && negb (foreign_keys_ok db) then Err ConstraintViolation else Ok db.

Definition new_row (d : table) (cols : list string) (vs : list value) : row :=
  (fun c => (col_name c,
             store_as (col_type c) (match assoc (col_name c) (zip cols vs) with
                                    | Some v => v
                                    | None => default Null (col_default c)
                                    end))) <$> t_columns d.

Definition column_type (d : table) (c : string) : string :=
  match List.find (fun k => String.eqb (col_name k) c) (t_columns d) with Some k => col_type k | None => "" end.

Definition set_row (x : context) (d : table) (sets : list (string * expr)) (s : scope) (r : row) : row :=
  foldl (fun r' '(c, e) => row_set r' c (store_as (column_type d c) (eval x s e))) r sets.

Definition update_rows (x : context) (db : database) (t : string) (d : table) (sets : list (string * expr))
    (scope_of : row -> scope) (p : row -> bool) : result database RusqliteError :=
  let rs := rows_of (db_rows db) t in
  let updated r := set_row x d sets (scope_of r) r in
  let rs' := (fun r => if p r then updated r else r) <$> rs in
  if forallb (fun r => checks_ok d (updated r)) (List.filter p rs) && unique_ok (table_keys db t d) rs'
  then Ok (with_rows db (<[t := rs']> (db_rows db)))
  else Err ConstraintViolation.

Definition append_row (t : string) (r : row) (rs : contents) : contents := <[t := rows_of rs t ++ [r]]> rs.

(** One row of an INSERT, and the number of rows it adds or changes. *)
Definition insert_row (enforce : bool) (x : context) (oc : on_conflict) (t : string) (d : table) (r : row)
    (db : database) : result (nat * database) RusqliteError :=
  let ks := table_keys db t d in
  if negb (checks_ok d r)
  then match oc with OrIgnore => Ok (0%nat, db) | _ => Err ConstraintViolation end
  else
    match List.filter (conflicts ks r) (rows_of (db_rows db) t) with
    | [] => Ok (1%nat, with_rows db (append_row t r (db_rows db)))
    | olds =>
        match oc with
        | OrAbort => Err ConstraintViolation
        | OrIgnore => Ok (0%nat, db)
        | OrReplace =>
            Ok (1%nat, with_rows db (append_row t r (delete_all enforce (db_schema db) t (conflicts ks r) (db_rows db))))
        | DoUpdate key sets =>
            if forallb (conflict key r) olds
            then let! db := update_rows x db t d sets (fun old => [(t, old); ("excluded", r)]) (conflict key r) in
                 Ok (length olds, db)
            else Err ConstraintViolation
        end
    end.

Fixpoint insert_rows (enforce : bool) (x : context) (oc : on_conflict) (t : string) (d : table) (l : list row)
    (db : database) : result (nat * database) RusqliteError :=
  match l with
  | [] => Ok (0%nat, db)
  | r :: l =>
      let! (n, db) := insert_row enforce x oc t d r db in
      let! (m, db) := insert_rows enforce x oc t d l db in
      Ok ((n + m)%nat, db)
  end.

(** ** Changes of the schema *)

Definition move {A} (t t' : string) (m : gmap string A) : gmap string A :=
  match m !! t with Some a => <[t' := a]> (delete t m) | None => m end.

Definition retarget (t t' : string) (d : table) : table :=
  mk_table (t_columns d) (t_keys d)
    ((fun fk => mk_foreign_key (fk_column fk) (if String.eqb (fk_table fk) t then t' else fk_table fk) (fk_parent fk) (fk_cascade fk))
       <$> t_foreign_keys d)
    (t_checks d).

(** References to a renamed table follow it, unless the old behaviour of ALTER TABLE
    is asked for and foreign keys are not enforced. *)
Definition rename_table (follow : bool) (t t' : string) (db : database) : database :=
  mk_database
    (let sch := move t t' (db_schema db) in if follow then retarget t t' <$> sch else sch)
    ((fun i => mk_index (ix_name i) (if String.eqb (ix_table i) t then t' else ix_table i) (ix_unique i) (ix_columns i)) <$> db_indexes db)
    (move t t' (db_rows db)).

Definition drop_table (enforce : bool) (t : string) (db : database) : result database RusqliteError :=
  let! db := finish enforce
    (if enforce then with_rows db (delete_all enforce (db_schema db) t (fun _ => true) (db_rows db)) else db) in
  Ok (mk_database (delete t (db_schema db)) (List.filter (fun i => negb (String.eqb (ix_table i) t)) (db_indexes db))
        (delete t (db_rows db))).

Definition with_columns (d : table) (cs : list column) : table := mk_table cs (t_keys d) (t_foreign_keys d) (t_checks d).

Definition add_column (t : string) (c : column) (d : table) (db : database) : result database RusqliteError :=
  let v := default Null (col_default c) in
  if in_list (col_name c) (column_names d) then Err NoSuchName
  else if col_not_null c && value_eqb v Null then Err NoSuchName
  else Ok (mk_database (<[t := with_columns d (t_columns d ++ [c])]> (db_schema db)) (db_indexes db)
             (<[t := (fun r => r ++ [(col_name c, v)]) <$> rows_of (db_rows db) t]> (db_rows db))).

Definition drop_column (t c : string) (d : table) (db : database) : database :=
  mk_database (<[t := with_columns d (List.filter (fun k => negb (String.eqb (col_name k) c)) (t_columns d))]> (db_schema db))
    (db_indexes db)
    (<[t := (fun r => List.filter (fun p : string * value => negb (String.eqb p.1 c)) r) <$> rows_of (db_rows db) t]> (db_rows db)).

(** The columns of CREATE TABLE AS have the types of the columns they come from. *)
Definition selected_columns (sch : schema) (s : select) : list column :=
  match sel_what s with
  | Exprs l =>
      (fun '(e, n) =>
         mk_column n (match e, sel_from s with
                      | Col _ c, (t, _) :: _ => match sch !! t with Some d => column_type d c | None => "" end
                      | _, _ => ""
                      end) false None) <$> l
  | _ =>
      flat_map (fun '(t, _) =>
        match sch !! t with
        | Some d => (fun c => mk_column (col_name c) (col_type c) false None) <$> t_columns d
        | None => []
        end) (sel_from s)
  end.

Definition create_table (t : string) (d : table) (rs : list row) (db : database) : database :=
  mk_database (<[t := d]> (db_schema db)) (db_indexes db) (<[t := rs]> (db_rows db)).

(** ** Execution *)

Record output := mk_output { out_rows : list (list value); out_changes : nat }.

Definition no_output : output := mk_output [] 0.

(** A statement on the database, with enforced foreign keys or not. *)
Definition exec (enforce legacy : bool) (st : stmt) (ps : list value) (now : string) (db : database)
    : result (output * database) RusqliteError :=
  let x := mk_context ps now (db_rows db) in
  match st with
  | Select s => Ok (mk_output (query x s) 0, db)
  | Insert oc t cols src =>
      match db_schema db !! t with
      | None => Err NoSuchName
      | Some d =>
          let vss := match src with Values l => [eval x [] <$> l] | FromSelect s => query x s end in
          let cs := default (column_names d) cols in
          let! (n, db) := insert_rows enforce x oc t d (new_row d cs <$> vss) db in
          let! db := finish enforce db in
          Ok (mk_output [] n, db)
      end
  | Update t sets w ret =>
      match db_schema db !! t with
      | None => Err NoSuchName
      | Some d =>
          let p r := holds x [(t, r)] w in
          let touched := List.filter p (rows_of (db_rows db) t) in
          let! db := update_rows x db t d sets (fun r => [(t, r)]) p in
          let! db := finish enforce db in
          Ok (mk_output (match ret with
                         | [] => []
                         | _ => (fun r => row_get (set_row x d sets [(t, r)] r) <$> ret) <$> touched
                         end) (length touched), db)
      end
  | Delete t w =>
      let p r := holds x [(t, r)] w in
      let! db' := finish enforce (with_rows db (delete_all enforce (db_schema db) t p (db_rows db))) in
      Ok (mk_output [] (length (List.filter p (rows_of (db_rows db) t))), db')
  | CreateTable ine t d =>
      if table_known (db_schema db) t then if ine then Ok (no_output, db) else Err NoSuchName
      else Ok (no_output, create_table t d [] db)
  | CreateTableAs t s =>
      if table_known (db_schema db) t then Err NoSuchName
      else
        let d := mk_table (selected_columns (db_schema db) s) [] [] [] in
        Ok (no_output, create_table t d (new_row d (column_names d) <$> query x s) db)
  | DropTable ie t =>
      if table_known (db_schema db) t then let! db := drop_table enforce t db in Ok (no_output, db)
      else if ie then Ok (no_output, db) else Err NoSuchName
  | RenameTable t t' =>
      if table_known (db_schema db) t' then Err NoSuchName
      else Ok (no_output, rename_table (enforce || negb legacy) t t' db)
  | AddColumn t c =>
      match db_schema db !! t with
      | None => Err NoSuchName
      | Some d => let! db := add_column t c d db in Ok (no_output, db)
      end
  | DropColumn t c =>
      match db_schema db !! t with
      | None => Err NoSuchName
      | Some d => Ok (no_output, drop_column t c d db)
      end
  | CreateIndex ine i =>
      if in_list (ix_name i) (ix_name <$> db_indexes db) then if ine then Ok (no_output, db) else Err NoSuchName
      else if ix_unique i && negb (unique_ok [ix_columns i] (rows_of (db_rows db) (ix_table i))) then Err ConstraintViolation
      else Ok (no_output, mk_database (db_schema db) (db_indexes db ++ [i]) (db_rows db))
  | DropIndex ie n =>
      if in_list n (ix_name <$> db_indexes db)
      then Ok (no_output, mk_database (db_schema db) (List.filter (fun i => negb (String.eqb (ix_name i) n)) (db_indexes db)) (db_rows db))
      else if ie then Ok (no_output, db) else Err NoSuchName
  | Pragma _ _ => Ok (no_output, db)
  end.

(** ** Sessions: transactions and settings of a connection *)

Record session := mk_session {
  s_db : database;
  s_saved : option database;
  s_enforce : bool;
  s_legacy : bool;
}.

Definition with_db (s : session) (db : database) : session := mk_session db (s_saved s) (s_enforce s) (s_legacy s).

(** A failing statement changes nothing. The enforcement of foreign keys cannot be
    switched within a transaction: PRAGMA foreign_keys has no effect there. *)
Definition step (st : stmt) (ps : list value) (now : string) (s : session) : result output RusqliteError * session :=
  match st with
  | Pragma name on =>
      (Ok no_output,
       if String.eqb name "foreign_keys"
       then match s_saved s with Some _ => s | None => mk_session (s_db s) None on (s_legacy s) end
       else if String.eqb name "legacy_alter_table" then mk_session (s_db s) (s_saved s) (s_enforce s) on
       else s)
  | _ =>
      if negb (stmt_known (db_schema (s_db s)) st) then (Err NoSuchName, s)
      else match exec (s_enforce s) (s_legacy s) st ps now (s_db s) with
           | Ok (out, db) => (Ok out, with_db s db)
           | Err e => (Err e, s)
           end
  end.

Definition begin (s : session) : session := mk_session (s_db s) (Some (s_db s)) (s_enforce s) (s_legacy s).
Definition commit (s : session) : session := mk_session (s_db s) None (s_enforce s) (s_legacy s).
Definition rollback (s : session) : session :=
  mk_session (default (s_db s) (s_saved s)) None (s_enforce s) (s_legacy s).

Definition empty_database : database := mk_database ∅ [] ∅.
