(* ===== verification/SqlText.v ===== *)
(** * Reading SQL text

    A lexer and a recursive descent parser for the statements of
    core/src/library/sqlite/, so that the definitions of the other files contain
    these statements as the source has them. [sql] reads a single statement, as
    Connection::execute and prepare do, [batch] several, as execute_batch does. The
    statements are evaluated to their syntax where they are defined, so a text that
    cannot be read is an error there. *)

From S2P Require Import Prelude Domain Sql.
From Stdlib Require Import Ascii.
#[local] Open Scope Z_scope.

(** ** Tokens *)

Inductive token :=
| TWord (s : string)
| TNum (z : Z)
| TStr (s : string)
| TBlob
| TParam (n : nat)
| TSym (s : string).

Definition code (a : ascii) : nat := nat_of_ascii a.
Definition between (lo hi : nat) (a : ascii) : bool := (lo <=? code a)%nat && (code a <=? hi)%nat.
Definition is_digit (a : ascii) : bool := between 48 57 a.
Definition is_letter (a : ascii) : bool := between 65 90 a || between 97 122 a || (code a =? 95)%nat.
Definition is_space (a : ascii) : bool := (code a =? 32)%nat || (code a =? 10)%nat || (code a =? 9)%nat.

(** What the lexer is in the middle of, with the characters read so far, latest
    first; [LParam] holds an explicit number. *)
Inductive lex_state :=
| LStart
| LWord (acc : list ascii)
| LNum (acc : Z)
| LStr (blob : bool) (acc : list ascii)
| LParam (acc : option nat)
| LSym (a : ascii)
| LComment.

Definition text_of (acc : list ascii) : string := String.string_of_list_ascii (rev acc).

Definition one (a : ascii) : string := String a EmptyString.

(** The first character of a token. *)
Definition lex_first (a : ascii) : option (list token * lex_state) :=
  if is_space a then Some ([], LStart)
  else if is_letter a then Some ([], LWord [a])
  else if is_digit a then Some ([], LNum (Z.of_nat (code a) - 48))
  else if in_list (one a) ["("; ")"; ","; "="; "<"; "*"; "."; ";"] then Some ([TSym (one a)], LStart)
  else if in_list (one a) ["!"; ">"; "-"] then Some ([], LSym a)
  else if String.eqb (one a) "'" then Some ([], LStr false [])
  else if String.eqb (one a) "?" then Some ([], LParam None)
  else None.

(** The end of a token, with the number of the next parameter. *)
Definition lex_end (st : lex_state) (next : nat) : option (list token * nat) :=
  match st with
  | LStart | LComment => Some ([], next)
  | LWord acc => Some ([TWord (text_of acc)], next)
  | LNum z => Some ([TNum z], next)
  | LParam None => Some ([TParam next], S next)
  | LParam (Some n) => Some ([TParam (n - 1)], next)
  | LStr _ _ | LSym _ => None
  end.

Definition lex_step (a : ascii) (st : lex_state) (next : nat) : option (list token * lex_state * nat) :=
  let fresh :=
    '(ended, next) ← lex_end st next;
    '(first, st) ← lex_first a;
    Some (ended ++ first, st, next) in
  match st with
  | LStart => fresh
  | LComment => Some ([], if (code a =? 10)%nat then LStart else LComment, next)
  | LStr blob acc =>
      if String.eqb (one a) "'" then Some ([if blob then TBlob else TStr (text_of acc)], LStart, next)
      else Some ([], LStr blob (a :: acc), next)
  | LWord acc =>
      if is_letter a || is_digit a then Some ([], LWord (a :: acc), next)
      else if String.eqb (one a) "'" && String.eqb (text_of acc) "X" then Some ([], LStr true [], next)
      else fresh
  | LNum z => if is_digit a then Some ([], LNum (10 * z + (Z.of_nat (code a) - 48)), next) else fresh
  | LParam n =>
      if is_digit a then Some ([], LParam (Some (10 * default 0 n + (code a - 48))%nat), next) else fresh
  | LSym b =>
      let s := String b (one a) in
      if in_list s ["!="; ">="] then Some ([TSym s], LStart, next)
      else if String.eqb s "--" then Some ([], LComment, next)
      else None
  end.

Fixpoint lex (s : list ascii) (st : lex_state) (next : nat) : option (list token) :=
  match s with
  | [] => fst <$> lex_end st next
  | a :: s =>
      '(ts, st, next) ← lex_step a st next;
      app ts <$> lex s st next
  end.

Definition tokens (s : string) : option (list token) := lex (String.list_ascii_of_string s) LStart 0.

(** ** Parsers *)

Definition parser (A : Type) : Type := list token -> option (A * list token).

Definition p_ret {A} (a : A) : parser A := fun ts => Some (a, ts).
Definition p_bind {A B} (p : parser A) (k : A -> parser B) : parser B :=
  fun ts => '(a, ts) ← p ts; k a ts.
Definition p_fail {A} : parser A := fun _ => None.
Definition p_or {A} (p q : parser A) : parser A :=
  fun ts => match p ts with Some r => Some r | None => q ts end.

Notation "'read!' x ':=' p 'in' k" := (p_bind p (fun x => k))
  (at level 10, x pattern, p at level 100, k at level 200) : fyles_scope.
Notation "'expect!' p 'in' k" := (p_bind p (fun _ => k))
  (at level 10, p at level 100, k at level 200) : fyles_scope.

Definition any_token : parser token := fun ts => match ts with t :: ts => Some (t, ts) | [] => None end.

Definition word (w : string) : parser unit :=
  read! t := any_token in match t with TWord v => if String.eqb v w then p_ret tt else p_fail | _ => p_fail end.
Definition sym (w : string) : parser unit :=
  read! t := any_token in match t with TSym v => if String.eqb v w then p_ret tt else p_fail | _ => p_fail end.
Definition name : parser string :=
  read! t := any_token in match t with TWord v => p_ret v | _ => p_fail end.

(** [words ["NOT"; "NULL"]] reads these keywords. *)
Fixpoint words (l : list string) : parser unit :=
  match l with [] => p_ret tt | w :: l => expect! word w in words l end.

Definition optional {A} (p : parser A) : parser (option A) :=
  p_or (read! a := p in p_ret (Some a)) (p_ret None).
Definition given {A} (p : parser A) : parser bool :=
  p_or (expect! p in p_ret true) (p_ret false).

(** Lists, with fuel for the number of their items. *)
Fixpoint many (n : nat) {A} (p : parser A) : parser (list A) :=
  match n with
  | O => p_fail
  | S n => p_or (read! a := p in read! l := many n p in p_ret (a :: l)) (p_ret [])
  end.

Definition separated (n : nat) {A} (p : parser A) : parser (list A) :=
  read! a := p in read! l := many n (expect! sym "," in p) in p_ret (a :: l).

Definition parens {A} (p : parser A) : parser A :=
  expect! sym "(" in read! a := p in expect! sym ")" in p_ret a.

(** ** Expressions *)

Definition in_any (e : expr) (l : list expr) : expr :=
  match l with
  | [] => Lit (Integer 0)
  | a :: l => foldl (fun c b => Or c (Eq e b)) (Eq e a) l
  end.

Definition keyword (w : string) : bool :=
  in_list w ["SELECT"; "CASE"; "WHEN"; "THEN"; "ELSE"; "END"; "NULL"; "FROM"; "WHERE"; "ON"; "JOIN"; "AND"; "OR"; "IN"; "IS"; "NOT"].

Definition column_ref : parser expr :=
  read! a := name in
  if keyword a then p_fail
  else p_or (expect! sym "." in read! c := name in p_ret (Col (Some a) c)) (p_ret (Col None a)).

Definition literal : parser value :=
  read! t := any_token in
  match t with
  | TNum z => p_ret (Integer z)
  | TStr s => p_ret (Text s)
  | TBlob => p_ret (Blob [])
  | TWord "NULL" => p_ret Null
  | TWord "true" => p_ret (Integer 1)
  | _ => p_fail
  end.

Definition parameter : parser expr :=
  read! t := any_token in match t with TParam n => p_ret (Param n) | _ => p_fail end.

Definition p_now : parser expr :=
  expect! word "datetime" in expect! sym "(" in
  read! t := any_token in
  match t with TStr "now" => expect! sym ")" in p_ret Now | _ => p_fail end.

Fixpoint expression (n : nat) : parser expr :=
  match n with
  | O => p_fail
  | S n =>
      let case :=
        expect! words ["CASE"; "WHEN"] in read! c := expression n in
        expect! word "THEN" in read! a := expression n in
        expect! word "ELSE" in read! b := expression n in
        expect! word "END" in p_ret (Case c a b) in
      let sub :=
        parens (expect! word "SELECT" in read! c := name in expect! word "FROM" in read! t := name in
                expect! word "WHERE" in read! w := expression n in p_ret (Sub c t w)) in
      let atom :=
        p_or case (p_or sub (p_or (parens (expression n)) (p_or p_now
          (p_or (read! v := literal in p_ret (Lit v)) (p_or parameter column_ref))))) in
      let comparison :=
        read! a := atom in
        p_or (expect! sym "=" in read! b := atom in p_ret (Eq a b))
          (p_or (expect! sym "!=" in read! b := atom in p_ret (Ne a b))
          (p_or (expect! sym "<" in read! b := atom in p_ret (Lt a b))
          (p_or (expect! sym ">=" in read! b := atom in p_ret (Ge a b))
          (p_or (expect! words ["IS"; "NULL"] in p_ret (IsNull a))
          (p_or (expect! words ["IS"; "NOT"; "NULL"] in p_ret (IsNotNull a))
          (p_or (expect! word "IN" in
                 read! l := parens (p_or (separated n atom) (p_ret [])) in p_ret (in_any a l))
            (p_ret a))))))) in
      let conjunction :=
        read! a := comparison in read! l := many n (expect! word "AND" in comparison) in p_ret (foldl And a l) in
      read! a := conjunction in read! l := many n (expect! word "OR" in conjunction) in p_ret (foldl Or a l)
  end.

(** ** Statements *)

Section Statements.
Context (n : nat).

Definition condition : parser expr := p_or (expect! word "WHERE" in expression n) (p_ret (Lit (Integer 1))).

(** The name of a selected expression is its alias or its column. *)
Definition selected : parser (expr * string) :=
  read! e := expression n in
  read! a := optional (expect! p_or (word "as") (word "AS") in name) in
  p_ret (e, match a, e with Some a, _ => a | None, Col _ c => c | None, _ => ""%string end).

Definition p_from : parser (list (string * string) * expr) :=
  read! t := name in
  read! a := optional (read! a := name in if keyword a then p_fail else p_ret a) in
  let first := (t, default t a) in
  p_or
    (expect! word "JOIN" in read! t2 := name in read! a2 := name in
     expect! word "ON" in read! c := expression n in p_ret ([first; (t2, a2)], c))
    (read! w := condition in p_ret ([first], w)).

Definition p_select : parser select :=
  expect! word "SELECT" in
  read! w := p_or (expect! sym "*" in p_ret Star)
    (p_or (expect! word "COUNT" in expect! parens (sym "*") in p_ret CountAll)
      (read! l := separated n selected in p_ret (Exprs l))) in
  expect! word "FROM" in
  read! (from, c) := p_from in
  p_ret (mk_select w from c).

Definition assignment : parser (string * expr) :=
  read! c := name in expect! sym "=" in read! e := expression n in p_ret (c, e).

Definition names : parser (list string) := parens (separated n name).

Definition p_insert : parser stmt :=
  expect! word "INSERT" in
  read! oc := p_or (expect! words ["OR"; "REPLACE"] in p_ret OrReplace)
    (p_or (expect! words ["OR"; "IGNORE"] in p_ret OrIgnore) (p_ret OrAbort)) in
  expect! word "INTO" in read! t := name in
  read! cols := optional names in
  read! src := p_or (expect! word "VALUES" in read! l := parens (separated n (expression n)) in p_ret (Values l))
    (read! s := p_select in p_ret (FromSelect s)) in
  p_or
    (expect! words ["ON"; "CONFLICT"] in read! key := names in
     expect! words ["DO"; "UPDATE"; "SET"] in read! sets := separated n assignment in
     p_ret (Insert (DoUpdate key sets) t cols src))
    (p_ret (Insert oc t cols src)).

Definition p_update : parser stmt :=
  expect! word "UPDATE" in read! t := name in expect! word "SET" in
  read! sets := separated n assignment in
  read! w := condition in
  read! ret := optional (expect! word "RETURNING" in separated n name) in
  p_ret (Update t sets w (default [] ret)).

Definition p_delete : parser stmt :=
  expect! words ["DELETE"; "FROM"] in read! t := name in read! w := condition in p_ret (Delete t w).

(** The definitions of a CREATE TABLE, gathered into the table. *)
Inductive definition_item :=
| DColumn (c : column)
| DKey (k : list string)
| DForeign (fk : foreign_key)
| DCheck (e : expr).

Inductive column_item :=
| CPrimary
| CNotNull
| CUnique
| CDefault (v : value)
| CCheck (e : expr).

Definition p_check : parser expr := expect! word "CHECK" in parens (expression n).

Definition p_column_item : parser column_item :=
  p_or (expect! words ["PRIMARY"; "KEY"] in p_ret CPrimary)
    (p_or (expect! words ["NOT"; "NULL"] in p_ret CNotNull)
    (p_or (expect! word "UNIQUE" in p_ret CUnique)
    (p_or (expect! word "DEFAULT" in read! v := literal in p_ret (CDefault v))
      (read! e := p_check in p_ret (CCheck e))))).

Definition column_items (c ty : string) (l : list column_item) : list definition_item :=
  DColumn (mk_column c ty
    (existsb (fun i => match i with CNotNull => true | _ => false end) l)
    (foldl (fun d i => match i with CDefault v => Some v | _ => d end) None l))
  :: flat_map (fun i => match i with CPrimary | CUnique => [DKey [c]] | CCheck e => [DCheck e] | _ => [] end) l.

Definition p_column : parser (list definition_item) :=
  read! c := name in read! ty := name in read! l := many n p_column_item in p_ret (column_items c ty l).

Definition p_foreign_key : parser foreign_key :=
  expect! words ["FOREIGN"; "KEY"] in read! c := parens name in
  expect! word "REFERENCES" in read! t := name in read! p := parens name in
  read! cascade := given (words ["ON"; "DELETE"; "CASCADE"]) in
  p_ret (mk_foreign_key c t p cascade).

Definition p_definition : parser (list definition_item) :=
  p_or (expect! words ["PRIMARY"; "KEY"] in read! k := names in p_ret [DKey k])
    (p_or (read! fk := p_foreign_key in p_ret [DForeign fk])
    (p_or (read! e := p_check in p_ret [DCheck e]) p_column)).

Definition table_of (l : list definition_item) : table :=
  mk_table
    (flat_map (fun i => match i with DColumn c => [c] | _ => [] end) l)
    (flat_map (fun i => match i with DKey k => [k] | _ => [] end) l)
    (flat_map (fun i => match i with DForeign f => [f] | _ => [] end) l)
    (flat_map (fun i => match i with DCheck e => [e] | _ => [] end) l).

Definition p_create_table : parser stmt :=
  expect! word "CREATE" in expect! given (word "TEMP") in expect! word "TABLE" in
  read! ine := given (words ["IF"; "NOT"; "EXISTS"]) in
  read! t := name in
  p_or (expect! p_or (word "AS") (word "as") in read! s := p_select in p_ret (CreateTableAs t s))
    (read! l := parens (separated n p_definition) in p_ret (CreateTable ine t (table_of (concat l)))).

Definition p_create_index : parser stmt :=
  expect! word "CREATE" in read! u := given (word "UNIQUE") in expect! word "INDEX" in
  read! ine := given (words ["IF"; "NOT"; "EXISTS"]) in
  read! i := name in expect! word "ON" in read! t := name in read! cs := names in
  p_ret (CreateIndex ine (mk_index i t u cs)).

Definition p_drop : parser stmt :=
  expect! word "DROP" in read! k := name in
  read! ie := given (words ["IF"; "EXISTS"]) in read! t := name in
  if String.eqb k "TABLE" then p_ret (DropTable ie t)
  else if String.eqb k "INDEX" then p_ret (DropIndex ie t)
  else p_fail.

Definition p_alter : parser stmt :=
  expect! words ["ALTER"; "TABLE"] in read! t := name in
  p_or (expect! words ["RENAME"; "TO"] in read! t' := name in p_ret (RenameTable t t'))
    (p_or (expect! words ["ADD"; "COLUMN"] in read! l := p_column in
           match l with [DColumn c] => p_ret (AddColumn t c) | _ => p_fail end)
      (expect! words ["DROP"; "COLUMN"] in read! c := name in p_ret (DropColumn t c))).

Definition p_pragma : parser stmt :=
  expect! word "PRAGMA" in read! p := name in expect! sym "=" in
  p_or (expect! word "ON" in p_ret (Pragma p true)) (expect! word "OFF" in p_ret (Pragma p false)).

Definition p_stmt : parser stmt :=
  p_or (read! s := p_select in p_ret (Select s))
    (p_or p_insert (p_or p_update (p_or p_delete (p_or p_create_table
      (p_or p_create_index (p_or p_drop (p_or p_alter p_pragma))))))).

Definition p_batch : parser (list stmt) :=
  read! s := p_stmt in read! l := many n (expect! sym ";" in p_stmt) in
  expect! given (sym ";") in p_ret (s :: l).
End Statements.

(** The whole text is read; no construct has more parts than the text has tokens. *)
Definition parse {A} (p : nat -> parser A) (s : string) : option A :=
  ts ← tokens s;
  match p (length ts) ts with Some (a, []) => Some a | _ => None end.

(** The syntax of a text, computed where it is written. *)
Ltac read_sql p s :=
  let t := eval vm_compute in (parse p s%string) in
  match t with Some ?a => exact a end.

Notation "'sql' s" := ltac:(read_sql p_stmt s) (at level 10, s at level 0, only parsing) : fyles_scope.
Notation "'batch' s" := ltac:(read_sql p_batch s) (at level 10, s at level 0, only parsing) : fyles_scope.

Example reads_condition :
  sql "SELECT id FROM contacts WHERE name IN ('a', 'b') AND id != ?2" =
  Select (mk_select (Exprs [(Col None "id", "id")]) [("contacts", "contacts")]
    (And (Or (Eq (Col None "name") (Lit (Text "a"))) (Eq (Col None "name") (Lit (Text "b"))))
      (Ne (Col None "id") (Param 1))))%string.
Proof. reflexivity. Qed.
