(* ===== verification/SqlTheory.v ===== *)
(** * Properties of SQL statements

    Statements that read and change rows keep the constraints of the tables
    ([exec_integrity]), and those that fit the kinds of the columns keep them
    ([exec_typed]): kinds are the types of columns as the program uses them, which
    SQLite does not enforce. *)

From S2P Require Import Prelude Domain Sql.
#[local] Open Scope Z_scope.

(** ** Values and lists *)

Lemma value_eqb_eq a b : value_eqb a b = true <-> a = b.
Proof.
  destruct a, b; cbn; try (split; congruence).
  - rewrite Z.eqb_eq. naive_solver.
  - rewrite String.eqb_eq. naive_solver.
  - rewrite bool_decide_eq_true. naive_solver.
Qed.

Lemma value_eqb_refl a : value_eqb a a = true.
Proof. by apply value_eqb_eq. Qed.

Lemma value_eqb_sym a b : value_eqb a b = value_eqb b a.
Proof. apply eq_true_iff_eq. rewrite !value_eqb_eq. naive_solver. Qed.

Lemma filter_sublist {A} (p : A -> bool) l : sublist (List.filter p l) l.
Proof. induction l as [|a l IH]; cbn; [done|]. destruct (p a); by constructor. Qed.

Lemma elem_of_List_filter {A} (p : A -> bool) l a : a ∈ List.filter p l <-> a ∈ l /\ p a = true.
Proof. rewrite !list_elem_of_In. apply filter_In. Qed.

Lemma existsb_false_forall {A} (p : A -> bool) l : existsb p l = false <-> forall a, a ∈ l -> p a = false.
Proof.
  induction l as [|b l IH]; cbn.
  - split; [intros _ a Ha; by apply not_elem_of_nil in Ha|done].
  - rewrite orb_false_iff, IH. setoid_rewrite elem_of_cons. naive_solver.
Qed.

Lemma forallb_elem {A} (p : A -> bool) l : forallb p l = true <-> forall a, a ∈ l -> p a = true.
Proof. rewrite forallb_forall. by setoid_rewrite list_elem_of_In. Qed.

Lemma rows_of_insert_eq rs t l : rows_of (<[t := l]> rs) t = l.
Proof. unfold rows_of. by rewrite lookup_insert_eq. Qed.

Lemma rows_of_insert_ne rs t t' l : t <> t' -> rows_of (<[t := l]> rs) t' = rows_of rs t'.
Proof. unfold rows_of. intros. by rewrite lookup_insert_ne. Qed.

Lemma rows_of_insert rs t t' l : rows_of (<[t := l]> rs) t' = if decide (t = t') then l else rows_of rs t'.
Proof. case_decide; [subst; apply rows_of_insert_eq|by apply rows_of_insert_ne]. Qed.

(** ** Rows *)

Lemma assoc_row_set r c c' v :
  assoc c' (row_set r c v) = if String.eqb c c' then (fun _ => v) <$> assoc c r else assoc c' r.
Proof.
  induction r as [|[c1 v1] r IH]; cbn; [by destruct (String.eqb c c')|].
  destruct (String.eqb_spec c c1) as [Hc|Hc]; cbn; rewrite ?IH;
    destruct (String.eqb_spec c' c1) as [Hc1|Hc1], (String.eqb_spec c c') as [Hc'|Hc']; by simplify_eq.
Qed.

Lemma row_get_set_ne r c c' v : c <> c' -> row_get (row_set r c v) c' = row_get r c'.
Proof. intros Hc. unfold row_get. rewrite assoc_row_set. by apply String.eqb_neq in Hc as ->. Qed.

Lemma row_get_set_eq r c v : is_Some (assoc c r) -> row_get (row_set r c v) c = v.
Proof. intros [v' Hv]. unfold row_get. by rewrite assoc_row_set, String.eqb_refl, Hv. Qed.

Lemma row_set_has r c c' v : is_Some (assoc c' r) -> is_Some (assoc c' (row_set r c v)).
Proof.
  intros [v' Hv]. rewrite assoc_row_set. destruct (String.eqb_spec c c') as [<-|]; [rewrite Hv|]; eauto.
Qed.

Lemma scope_get_one a r c : scope_get [(a, r)] c = row_get r c.
Proof. cbn. unfold row_get. by destruct (assoc c r). Qed.

(** ** Keys *)

Lemma conflict_sym k r1 r2 : conflict k r1 r2 = conflict k r2 r1.
Proof.
  apply eq_true_iff_eq. unfold conflict. rewrite !forallb_elem. split; intros H c Hc;
    specialize (H c Hc); apply andb_true_iff in H as [Hn He]; apply value_eqb_eq in He; rewrite <- ?He in *;
    rewrite ?He in *; by rewrite Hn, value_eqb_refl.
Qed.

Lemma conflicts_sym ks r1 r2 : conflicts ks r1 r2 = conflicts ks r2 r1.
Proof. unfold conflicts. induction ks as [|k ks IH]; cbn; [done|]. by rewrite conflict_sym, IH. Qed.

Lemma unique_ok_sublist ks l l' : sublist l' l -> unique_ok ks l = true -> unique_ok ks l' = true.
Proof.
  induction 1 as [|r l' l Hs IH|r l' l Hs IH]; cbn; [done| |]; rewrite ?andb_true_iff; intros [Hn Hu]; [|by auto].
  split; [|by auto]. apply negb_true_iff, existsb_false_forall. intros a Ha.
  apply negb_true_iff in Hn. rewrite existsb_false_forall in Hn. apply Hn. by eapply elem_of_sublist.
Qed.

Lemma unique_ok_snoc ks l r :
  unique_ok ks l = true -> List.filter (conflicts ks r) l = [] -> unique_ok ks (l ++ [r]) = true.
Proof.
  induction l as [|a l IH]; cbn; [done|]. rewrite !andb_true_iff, !negb_true_iff. intros [Hn Hu].
  destruct (conflicts ks r a) eqn:E; [done|]. intros Hf. split; [|by auto].
  rewrite existsb_app, Hn. cbn. by rewrite conflicts_sym, E.
Qed.

Lemma filter_none_iff {A} (p : A -> bool) l : (forall a, a ∈ l -> p a = false) -> List.filter p l = [].
Proof.
  induction l as [|a l IH]; cbn; [done|]. intros H. rewrite (H a) by (by left). apply IH. intros b Hb. apply H. by right.
Qed.

Lemma filter_none {A} (p : A -> bool) l : List.filter p (List.filter (fun a => negb (p a)) l) = [].
Proof. induction l as [|a l IH]; cbn; [done|]. destruct (p a) eqn:E; cbn; [done|]. by rewrite E. Qed.

(** ** Deletions *)

Lemma delete_rows_sublist fuel sch t p rs t' : sublist (rows_of (delete_rows fuel sch t p rs) t') (rows_of rs t').
Proof.
  revert t p rs. induction fuel as [|fuel IH]; intros t p rs; cbn [delete_rows].
  - rewrite rows_of_insert. case_decide; [subst; apply filter_sublist|done].
  - set (removed := List.filter p (rows_of rs t)). clearbody removed.
    assert (sublist (rows_of (<[t := List.filter (fun r => negb (p r)) (rows_of rs t)]> rs) t') (rows_of rs t')) as H0.
    { rewrite rows_of_insert. case_decide; [subst; apply filter_sublist|done]. }
    revert H0. generalize (<[t := List.filter (fun r => negb (p r)) (rows_of rs t)]> rs) as rs1.
    induction (cascades sch t) as [|[c fk] l IHl]; intros rs1 H0; cbn; [done|].
    apply IHl. etrans; [apply IH|done].
Qed.

Lemma delete_rows_first fuel sch t p rs :
  sublist (rows_of (delete_rows fuel sch t p rs) t) (List.filter (fun r => negb (p r)) (rows_of rs t)).
Proof.
  destruct fuel as [|fuel]; cbn [delete_rows]; [by rewrite rows_of_insert_eq|].
  rewrite <- (rows_of_insert_eq rs t (List.filter (fun r => negb (p r)) (rows_of rs t))) at 2.
  generalize (<[t := List.filter (fun r => negb (p r)) (rows_of rs t)]> rs) as rs1.
  generalize (List.filter p (rows_of rs t)) as removed. intros removed.
  induction (cascades sch t) as [|[c fk] l IHl]; intros rs1; cbn; [done|].
  etrans; [apply IHl|apply delete_rows_sublist].
Qed.

Lemma delete_rows_other sch t p rs t' : t <> t' -> rows_of (delete_rows 0 sch t p rs) t' = rows_of rs t'.
Proof. apply rows_of_insert_ne. Qed.

(** A table without foreign keys loses no rows to deletions in others. *)
Definition standalone (sch : schema) (t : string) : Prop := forall d, sch !! t = Some d -> t_foreign_keys d = [].

Lemma cascades_standalone sch t t' fk : standalone sch t' -> (t', fk) ∉ cascades sch t.
Proof.
  intros Hs Hin. unfold cascades in Hin. apply list_elem_of_In, in_flat_map in Hin as ([c d] & Hcd & Hin).
  apply list_elem_of_In, elem_of_map_to_list in Hcd. apply list_elem_of_In, list_elem_of_fmap in Hin as (fk' & [= <- <-] & Hfk).
  rewrite (Hs d Hcd) in Hfk. by apply not_elem_of_nil in Hfk.
Qed.

Lemma delete_rows_standalone fuel sch t p rs t' :
  t <> t' -> standalone sch t' -> rows_of (delete_rows fuel sch t p rs) t' = rows_of rs t'.
Proof.
  intros Hne Hs. revert t p rs Hne. induction fuel as [|fuel IH]; intros t p rs Hne; cbn [delete_rows].
  { by apply rows_of_insert_ne. }
  generalize (List.filter p (rows_of rs t)) as removed. intros removed.
  rewrite <- (rows_of_insert_ne rs t t' (List.filter (fun r => negb (p r)) (rows_of rs t))) by done.
  generalize (<[t := List.filter (fun r => negb (p r)) (rows_of rs t)]> rs) as rs1.
  assert (forall fk, (t', fk) ∉ cascades sch t) as Hc by (intros fk; by apply cascades_standalone).
  induction (cascades sch t) as [|[c fk] l IHl]; intros rs1; cbn; [done|].
  rewrite IHl by (intros fk' ?; apply (Hc fk'); by right). apply IH. intros ->. apply (Hc fk). by left.
Qed.

(** ** Constraints are kept *)

Definition table_ok (db : database) (t : string) (d : table) : Prop :=
  (forall r, r ∈ rows_of (db_rows db) t -> checks_ok d r = true) /\
  unique_ok (table_keys db t d) (rows_of (db_rows db) t) = true.

Definition tables_ok (db : database) : Prop := forall t d, db_schema db !! t = Some d -> table_ok db t d.

Definition integrity (db : database) : Prop := tables_ok db /\ foreign_keys_ok db = true.

(** Statements that leave the schema alone. *)
Definition changes_rows (st : stmt) : bool :=
  match st with Select _ | Insert _ _ _ _ | Update _ _ _ _ | Delete _ _ => true | _ => false end.

Definition same_schema (db db' : database) : Prop :=
  db_schema db' = db_schema db /\ db_indexes db' = db_indexes db.

Lemma tables_ok_sublist db rs :
  tables_ok db -> (forall t, sublist (rows_of rs t) (rows_of (db_rows db) t)) -> tables_ok (with_rows db rs).
Proof.
  intros Hok Hs t d Hd. destruct (Hok t d Hd) as [Hc Hu]. split.
  - intros r Hr. apply Hc. by eapply elem_of_sublist.
  - by eapply (unique_ok_sublist (table_keys db t d)), Hu.
Qed.

Lemma tables_ok_put db t d l :
  tables_ok db -> db_schema db !! t = Some d ->
  (forall r, r ∈ l -> checks_ok d r = true) -> unique_ok (table_keys db t d) l = true ->
  tables_ok (with_rows db (<[t := l]> (db_rows db))).
Proof.
  intros Hok Ht Hc Hu t' d' Hd'. unfold table_ok. cbn [db_rows with_rows]. rewrite rows_of_insert.
  case_decide; [subst; cbn in Hd'; simplify_eq; by split|by apply (Hok t' d')].
Qed.

Lemma update_rows_ok x db t d sets sc p db' :
  tables_ok db -> db_schema db !! t = Some d -> update_rows x db t d sets sc p = Ok db' ->
  tables_ok db' /\ same_schema db db'.
Proof.
  intros Hok Ht. unfold update_rows. destruct (_ && _) eqn:E; [|done]. intros [= <-].
  apply andb_true_iff in E as [Hc Hu]. split; [|by split]. apply (tables_ok_put db t d); [done..| |done].
  intros r (r0 & -> & Hr0)%list_elem_of_fmap. rewrite forallb_elem in Hc. destruct (p r0) eqn:Ep.
  - apply Hc. by apply elem_of_List_filter.
  - by apply (proj1 (Hok t d Ht)).
Qed.

Lemma append_row_ok db t d r :
  tables_ok db -> db_schema db !! t = Some d -> checks_ok d r = true ->
  List.filter (conflicts (table_keys db t d) r) (rows_of (db_rows db) t) = [] ->
  tables_ok (with_rows db (append_row t r (db_rows db))).
Proof.
  intros Hok Ht Hc Hf. destruct (Hok t d Ht) as [Hc0 Hu0]. apply (tables_ok_put db t d); [done..| |by apply unique_ok_snoc].
  intros r' [Hr'| ->%list_elem_of_singleton]%elem_of_app; [by apply Hc0|done].
Qed.

Lemma insert_row_ok x oc t d r db n db' :
  tables_ok db -> db_schema db !! t = Some d -> insert_row true x oc t d r db = Ok (n, db') ->
  tables_ok db' /\ same_schema db db'.
Proof.
  intros Hok Ht. unfold insert_row. destruct (checks_ok d r) eqn:Hc; cbn [negb].
  2: { destruct oc; try done. intros [= <- <-]. by split; [|split]. }
  destruct (List.filter _ _) as [|old olds] eqn:Hf.
  { intros [= <- <-]. split; [|by split]. by apply (append_row_ok db t d). }
  destruct oc; try done.
  - intros [= <- <-]. by split; [|split].
  - intros [= <- <-]. split; [|by split].
    apply (append_row_ok (with_rows db _) t d); [|done..|].
    + apply tables_ok_sublist; [done|]. intros t'. apply delete_rows_sublist.
    + change (table_keys (with_rows db _) t d) with (table_keys db t d). apply filter_none_iff. intros a Ha.
      apply (fun H => elem_of_sublist _ _ _ H (delete_rows_first _ _ _ _ _)), elem_of_List_filter in Ha as [_ Ha].
      apply negb_true_iff in Ha. congruence.
  - destruct (forallb _ _); [|done]. intros (db1 & Hu & [= <- <-])%res_bind_Ok. by eapply update_rows_ok.
Qed.

Lemma insert_rows_ok x oc t d l db n db' :
  tables_ok db -> db_schema db !! t = Some d -> insert_rows true x oc t d l db = Ok (n, db') ->
  tables_ok db' /\ same_schema db db'.
Proof.
  revert db n. induction l as [|r l IH]; intros db n Hok Ht; cbn.
  - intros [= <- <-]. by split; [|split].
  - intros ([n1 db1] & H1 & ([n2 db2] & H2 & [= <- <-])%res_bind_Ok)%res_bind_Ok.
    destruct (insert_row_ok _ _ _ _ _ _ _ _ Hok Ht H1) as [Hok1 [Es1 Ei1]].
    destruct (IH _ _ Hok1 ltac:(by rewrite Es1) H2) as [Hok2 [Es2 Ei2]].
    split; [done|]. split; congruence.
Qed.

Lemma finish_ok db db' : finish true db = Ok db' -> db' = db /\ foreign_keys_ok db = true.
Proof. unfold finish. destruct (foreign_keys_ok db) eqn:E; cbn; [|done]. by intros [= <-]. Qed.

Theorem exec_integrity legacy st ps now db out db' :
  changes_rows st = true -> integrity db -> exec true legacy st ps now db = Ok (out, db') ->
  integrity db' /\ same_schema db db'.
Proof.
  intros Hst [Hok Hfk]. destruct st; try done; cbn [exec].
  - intros [= <- <-]. split; by split.
  - destruct (db_schema db !! t) as [d|] eqn:Ht; [|done].
    intros ([n db1] & H1 & (db2 & [-> Hf]%finish_ok & [= <- <-])%res_bind_Ok)%res_bind_Ok.
    destruct (insert_rows_ok _ _ _ _ _ _ _ _ Hok Ht H1) as [Hok1 Hs]. by split; [split|].
  - destruct (db_schema db !! t) as [d|] eqn:Ht; [|done].
    intros (db1 & H1 & (db2 & [-> Hf]%finish_ok & [= <- <-])%res_bind_Ok)%res_bind_Ok.
    destruct (update_rows_ok _ _ _ _ _ _ _ _ Hok Ht H1) as [Hok1 Hs]. by split; [split|].
  - intros (db1 & [-> Hf]%finish_ok & [= <- <-])%res_bind_Ok. split; [split; [|done]|by split].
    apply tables_ok_sublist; [done|]. intros t'. apply delete_rows_sublist.
Qed.

(** Other tables stay as they are. *)
Lemma update_rows_other x db t d sets sc p db' t' :
  t <> t' -> update_rows x db t d sets sc p = Ok db' -> rows_of (db_rows db') t' = rows_of (db_rows db) t'.
Proof. intros Hne. unfold update_rows. destruct (_ && _); [|done]. intros [= <-]. by apply rows_of_insert_ne. Qed.

Lemma insert_row_other enforce x oc t d r db n db' t' :
  t <> t' -> standalone (db_schema db) t' -> insert_row enforce x oc t d r db = Ok (n, db') ->
  rows_of (db_rows db') t' = rows_of (db_rows db) t' /\ db_schema db' = db_schema db.
Proof.
  intros Hne Hs. unfold insert_row. destruct (negb _); [destruct oc; try done; by intros [= <- <-]|].
  destruct (List.filter _ _) as [|old olds].
  { intros [= <- <-]. split; [by apply rows_of_insert_ne|done]. }
  destruct oc; try done; [by intros [= <- <-]| |].
  - intros [= <- <-]. split; [|done]. cbn. unfold append_row. rewrite rows_of_insert_ne by done. by apply delete_rows_standalone.
  - destruct (forallb _ _); [|done]. intros (db1 & Hu & [= <- <-])%res_bind_Ok. split; [by eapply update_rows_other|].
    unfold update_rows in Hu. destruct (_ && _); [|done]. by injection Hu as <-.
Qed.

Lemma insert_rows_other enforce x oc t d l db n db' t' :
  t <> t' -> standalone (db_schema db) t' -> insert_rows enforce x oc t d l db = Ok (n, db') ->
  rows_of (db_rows db') t' = rows_of (db_rows db) t' /\ db_schema db' = db_schema db.
Proof.
  intros Hne. revert db n. induction l as [|r l IH]; intros db n Hs; cbn; [by intros [= <- <-]|].
  intros ([n1 db1] & H1 & ([n2 db2] & H2 & [= <- <-])%res_bind_Ok)%res_bind_Ok.
  destruct (insert_row_other _ _ _ _ _ _ _ _ _ _ Hne Hs H1) as [Hr1 Hs1]. rewrite <- Hr1, <- Hs1. eapply IH; [|done]. by rewrite Hs1.
Qed.

Definition target (st : stmt) : option string :=
  match st with Insert _ t _ _ | Update t _ _ _ | Delete t _ => Some t | _ => None end.

Lemma finish_same enforce db db' : finish enforce db = Ok db' -> db' = db.
Proof. unfold finish. destruct (_ && _); [done|]. by intros [= <-]. Qed.

Lemma update_rows_schema x db t d sets sc p db' : update_rows x db t d sets sc p = Ok db' -> db_schema db' = db_schema db.
Proof. unfold update_rows. destruct (_ && _); [|done]. by intros [= <-]. Qed.

Lemma exec_other enforce legacy st ps now db out db' t' :
  changes_rows st = true -> target st <> Some t' -> standalone (db_schema db) t' ->
  exec enforce legacy st ps now db = Ok (out, db') ->
  rows_of (db_rows db') t' = rows_of (db_rows db) t' /\ db_schema db' = db_schema db.
Proof.
  intros Hst Ht Hs. destruct st; try done; cbn [exec]; cbn in Ht.
  - by intros [= <- <-].
  - destruct (db_schema db !! t) as [d|]; [|done].
    intros ([n db1] & H1 & (db2 & ->%finish_same & [= <- <-])%res_bind_Ok)%res_bind_Ok.
    eapply insert_rows_other; [|done..]. congruence.
  - destruct (db_schema db !! t) as [d|]; [|done].
    intros (db1 & H1 & (db2 & ->%finish_same & [= <- <-])%res_bind_Ok)%res_bind_Ok.
    split; [|by eapply update_rows_schema]. eapply update_rows_other; [|done]. congruence.
  - intros (db1 & ->%finish_same & [= <- <-])%res_bind_Ok. split; [|done]. apply delete_rows_standalone; [congruence|done].
Qed.

(** ** Kinds of columns *)

Inductive base := BText | BInt | BNat | BBlob.

Record kind := mk_kind { k_base : base; k_null : bool }.

Definition fits (k : kind) (v : value) : bool :=
  match v with
  | Null => k_null k
  | Text _ => match k_base k with BText => true | _ => false end
  | Integer z => match k_base k with BInt => true | BNat => 0 <=? z | _ => false end
  | Blob _ => match k_base k with BBlob => true | _ => false end
  end.

Definition sub_base (a b : base) : bool :=
  match a, b with
  | BText, BText | BInt, BInt | BNat, BNat | BNat, BInt | BBlob, BBlob => true
  | _, _ => false
  end.

Definition sub_kind (a b : kind) : bool := sub_base (k_base a) (k_base b) && implb (k_null a) (k_null b).

Lemma fits_sub a b v : sub_kind a b = true -> fits a v = true -> fits b v = true.
Proof. destruct a as [[] []], b as [[] []], v; done. Qed.

Abbreviation values_fit := (Forall2 (fun k v => fits k v = true)).

Abbreviation row_kinds := (list (string * kind)).

Definition row_fits (ks : row_kinds) (r : row) : Prop :=
  Forall2 (fun (ck : string * kind) (cv : string * value) => ck.1 = cv.1 /\ fits ck.2 cv.2 = true) ks r.

(** The kinds of the tables, which must go with their declared types. *)
Definition base_type (k : kind) : string :=
  match k_base k with BText => "TEXT" | BInt | BNat => "INTEGER" | BBlob => "BLOB" end.

Definition kinds_match (ks : row_kinds) (d : table) : bool :=
  bool_decide (Forall2 (fun (ck : string * kind) c => ck.1 = col_name c /\ base_type ck.2 = col_type c) ks (t_columns d)).

Section Kinds.
Context (K : gmap string row_kinds) (sch : schema).

Definition kinds_agree : Prop :=
  forall t ks, K !! t = Some ks -> exists d, sch !! t = Some d /\ kinds_match ks d = true.

Definition typed (rs : contents) : Prop := forall t ks, K !! t = Some ks -> Forall (row_fits ks) (rows_of rs t).

Fixpoint scope_kind (sc : list (string * row_kinds)) (c : string) : option kind :=
  match sc with
  | [] => None
  | (_, ks) :: sc => match assoc c ks with Some k => Some k | None => scope_kind sc c end
  end.

(** [e] has a value of kind [k], for parameters of the kinds [ps]. *)
Fixpoint has_kind (ps : list kind) (sc : list (string * row_kinds)) (k : kind) (e : expr) : bool :=
  match e with
  | Lit v => fits k v
  | Param n => match ps !! n with Some k' => sub_kind k' k | None => false end
  | Col None c => match scope_kind sc c with Some k' => sub_kind k' k | None => false end
  | Col (Some q) c =>
      match assoc q sc with
      | Some ks => match assoc c ks with Some k' => sub_kind k' k | None => false end
      | None => false
      end
  | Now => sub_kind (mk_kind BText false) k
  | Case _ a b => has_kind ps sc k a && has_kind ps sc k b
  | _ => false
  end.

Definition sets_have_kinds (ps : list kind) (ks : row_kinds) (sc : list (string * row_kinds)) (sets : list (string * expr)) : bool :=
  forallb (fun '(c, e) => match assoc c ks with Some k => has_kind ps sc k e | None => false end) sets.

Definition new_row_kinds (ps : list kind) (ks : row_kinds) (d : table) (cs : list string) (l : list expr) : bool :=
  forallb (fun '((_, k), col) =>
    match assoc (col_name col) (zip cs l) with
    | Some e => has_kind ps [] k e
    | None => fits k (default Null (col_default col))
    end) (zip ks (t_columns d)).

Definition stmt_has_kinds (ps : list kind) (st : stmt) : bool :=
  match st with
  | Select _ | Delete _ _ => true
  | Insert oc t cols (Values l) =>
      match K !! t, sch !! t with
      | Some ks, Some d =>
          new_row_kinds ps ks d (default (column_names d) cols) l
          && match oc with DoUpdate _ sets => sets_have_kinds ps ks [(t, ks); ("excluded", ks)] sets | _ => true end
      | _, _ => false
      end
  | Update t sets _ _ =>
      match K !! t with Some ks => sets_have_kinds ps ks [(t, ks)] sets | None => false end
  | _ => false
  end.

(** *** Soundness *)

Definition scope_fits (sc : list (string * row_kinds)) (s : scope) : Prop :=
  Forall2 (fun (a : string * row_kinds) (b : string * row) => a.1 = b.1 /\ row_fits a.2 b.2) sc s.

Lemma row_fits_assoc ks r c : row_fits ks r ->
  match assoc c ks with
  | Some k => exists v, assoc c r = Some v /\ fits k v = true
  | None => assoc c r = None
  end.
Proof.
  induction 1 as [|[c1 k] [c2 v] ks r [Hc Hv] _ IH]; cbn in *; [done|]. subst c2.
  destruct (String.eqb c c1); [eauto|done].
Qed.

Lemma scope_fits_get sc s c : scope_fits sc s ->
  match scope_kind sc c with Some k => fits k (scope_get s c) = true | None => True end.
Proof.
  induction 1 as [|[a ks] [b r] sc s [Ha Hr] _ IH]; cbn in *; [done|].
  pose proof (row_fits_assoc ks r c Hr) as H. destruct (assoc c ks) as [k|].
  - destruct H as (v & -> & Hv). done.
  - by rewrite H.
Qed.

Lemma scope_fits_assoc sc s q ks : scope_fits sc s -> assoc q sc = Some ks -> exists r, assoc q s = Some r /\ row_fits ks r.
Proof.
  induction 1 as [|[a ks'] [b r] sc s [Ha Hr] _ IH]; cbn in *; [done|]. subst b.
  destruct (String.eqb q a); [intros [= <-]; eauto|done].
Qed.

Lemma has_kind_sound ps x sc s k e :
  Forall2 (fun k v => fits k v = true) ps (x_params x) -> scope_fits sc s ->
  has_kind ps sc k e = true -> fits k (eval x s e) = true.
Proof.
  intros Hps Hs. induction e; cbn [has_kind eval]; try done.
  - destruct (ps !! n) as [k'|] eqn:E; [|done]. intros Hk.
    destruct (Forall2_lookup_l _ _ _ _ _ Hps E) as (v & -> & Hv). by eapply fits_sub.
  - destruct q as [q|].
    + destruct (assoc q sc) as [ks|] eqn:E; [|done]. destruct (assoc c ks) as [k'|] eqn:Ek; [|done]. intros Hk.
      destruct (scope_fits_assoc _ _ _ _ Hs E) as (r & -> & Hr).
      pose proof (row_fits_assoc ks r c Hr) as H. rewrite Ek in H. destruct H as (v & Hv & Hf).
      unfold row_get. rewrite Hv. by eapply fits_sub.
    + pose proof (scope_fits_get sc s c Hs) as H. destruct (scope_kind sc c); [|done]. intros Hk. by eapply fits_sub.
  - by destruct k as [[] ?].
  - intros [Ha Hb]%andb_true_iff. destruct (truth _) as [[]|]; auto.
Qed.

Lemma store_as_fits k v : fits k v = true -> store_as (base_type k) v = v.
Proof. destruct k as [[] ?], v; done. Qed.

Lemma row_fits_set ks r c k v : row_fits ks r -> assoc c ks = Some k -> fits k v = true -> row_fits ks (row_set r c v).
Proof.
  induction 1 as [|[c1 k1] [c2 v2] ks r [Hc Hv] Hr IH]; cbn in *; [done|]. subst c2.
  destruct (String.eqb c c1); intros.
  - simplify_eq. by constructor.
  - constructor; [done|]. by apply IH.
Qed.

Lemma column_type_kind ks d c k : kinds_match ks d = true -> assoc c ks = Some k -> column_type d c = base_type k.
Proof.
  unfold kinds_match, column_type. rewrite bool_decide_eq_true. generalize (t_columns d) as cols.
  induction 1 as [|[c1 k1] col ks cols [Hc Ht] _ IH]; cbn in *; [done|]. rewrite <- Hc, (String.eqb_sym c).
  destruct (String.eqb c1 c); [intros; by simplify_eq|done].
Qed.

Lemma set_row_fits ps x ks d sc s sets r :
  kinds_match ks d = true -> Forall2 (fun k v => fits k v = true) ps (x_params x) -> scope_fits sc s ->
  sets_have_kinds ps ks sc sets = true -> row_fits ks r -> row_fits ks (set_row x d sets s r).
Proof.
  intros Hm Hps Hs. unfold set_row. revert r. induction sets as [|[c e] sets IH]; intros r; cbn; [done|].
  destruct (assoc c ks) as [k|] eqn:E; [|done]. intros [He Hsets]%andb_true_iff Hr. apply IH; [done|].
  assert (fits k (eval x s e) = true) as Hf by (by eapply has_kind_sound).
  rewrite (column_type_kind ks d c k), store_as_fits by done. by eapply row_fits_set.
Qed.

Lemma assoc_zip_map {A B} (f : A -> B) c cs (l : list A) : assoc c (zip cs (f <$> l)) = f <$> assoc c (zip cs l).
Proof.
  revert l. induction cs as [|c' cs IH]; intros [|a l]; cbn; try done. destruct (String.eqb c c'); [done|apply IH].
Qed.

Lemma new_row_fits ps x ks d cs l :
  kinds_match ks d = true -> Forall2 (fun k v => fits k v = true) ps (x_params x) ->
  new_row_kinds ps ks d cs l = true -> row_fits ks (new_row d cs (eval x [] <$> l)).
Proof.
  unfold kinds_match, new_row_kinds, new_row. rewrite bool_decide_eq_true. intros Hm Hps.
  induction Hm as [|[c k] col ks cols [Hc Ht] _ IH]; cbn; [by constructor|]. cbn in Hc, Ht. subst c.
  intros [Hk H]%andb_true_iff. constructor; [|by apply IH]. split; [done|]. cbn.
  rewrite assoc_zip_map, <- Ht. destruct (assoc (col_name col) (zip cs l)) as [e|]; cbn.
  - assert (fits k (eval x [] e) = true) as Hf by (by eapply has_kind_sound; [|constructor|]). by rewrite store_as_fits.
  - by rewrite store_as_fits.
Qed.

Lemma typed_sublist rs rs' : (forall t, sublist (rows_of rs' t) (rows_of rs t)) -> typed rs -> typed rs'.
Proof. intros Hs Hty t ks Ht. rewrite Forall_forall. intros r Hr. eapply Forall_forall; [by apply Hty|by eapply elem_of_sublist]. Qed.

Lemma typed_put rs t l : typed rs -> (forall ks, K !! t = Some ks -> Forall (row_fits ks) l) -> typed (<[t := l]> rs).
Proof. intros Hty Hl t' ks Ht'. rewrite rows_of_insert. case_decide; [subst; by apply Hl|by apply Hty]. Qed.

Section Sound.
Context (Hagree : kinds_agree) (ps : list kind) (x : context).
Context (Hps : Forall2 (fun k v => fits k v = true) ps (x_params x)).

Lemma update_rows_typed db t d ks sets sc scope_of p db' :
  db_schema db = sch -> K !! t = Some ks -> sch !! t = Some d -> typed (db_rows db) ->
  sets_have_kinds ps ks sc sets = true -> (forall r, row_fits ks r -> scope_fits sc (scope_of r)) ->
  update_rows x db t d sets scope_of p = Ok db' -> typed (db_rows db').
Proof.
  intros Hsch Hk Hd Hty Hsets Hsc. unfold update_rows. destruct (_ && _); [|done]. intros [= <-]. cbn.
  apply typed_put; [done|]. intros ks' Hk'. simplify_eq. destruct (Hagree t ks Hk) as (d' & Hd' & Hm). simplify_eq.
  apply Forall_fmap, (Forall_impl _ _ _ (Hty t ks Hk)). intros r Hr. cbn. destruct (p r); [|done].
  eapply set_row_fits; eauto.
Qed.

Lemma insert_row_typed db t d ks oc r n db' :
  db_schema db = sch -> K !! t = Some ks -> sch !! t = Some d -> typed (db_rows db) -> row_fits ks r ->
  match oc with DoUpdate _ sets => sets_have_kinds ps ks [(t, ks); ("excluded", ks)] sets = true | _ => True end ->
  insert_row true x oc t d r db = Ok (n, db') -> typed (db_rows db').
Proof.
  intros Hsch Hk Hd Hty Hr Hoc. unfold insert_row. destruct (negb _).
  { destruct oc; try done. by intros [= _ <-]. }
  assert (forall rs, typed rs -> typed (append_row t r rs)) as Happ.
  { intros rs Hrs. apply typed_put; [done|]. intros ks' Hk'. simplify_eq. apply Forall_app. split; [by apply Hrs|by constructor]. }
  destruct (List.filter _ _) as [|old olds]; [intros [= _ <-]; by apply Happ|].
  destruct oc as [| | |key sets]; try done.
  - by intros [= _ <-].
  - intros [= _ <-]. cbn. apply Happ. eapply typed_sublist; [|done]. intros t'. apply delete_rows_sublist.
  - destruct (forallb _ _); [|done]. intros (db1 & Hu & [= _ <-])%res_bind_Ok.
    eapply update_rows_typed; [done..| |done]. intros r' Hr'. by repeat constructor.
Qed.
End Sound.

(** A statement whose expressions fit the kinds of the columns keeps them. *)
Theorem exec_typed legacy st ps vs now db out db' :
  kinds_agree -> db_schema db = sch -> Forall2 (fun k v => fits k v = true) ps vs ->
  stmt_has_kinds ps st = true -> typed (db_rows db) ->
  exec true legacy st vs now db = Ok (out, db') -> typed (db_rows db').
Proof.
  intros Hagree Hsch Hps Hst Hty. destruct st; try done; cbn [exec stmt_has_kinds] in *.
  - by intros [= _ <-].
  - destruct src as [l|]; [|done]. rewrite Hsch.
    destruct (K !! t) as [ks|] eqn:Hk; [|done]. destruct (sch !! t) as [d|] eqn:Hd; [|done].
    apply andb_true_iff in Hst as [Hnew Hoc]. destruct (Hagree t ks Hk) as (d' & Hd' & Hm). simplify_eq.
    intros ([n db1] & H1 & (db2 & [-> _]%finish_ok & [= _ <-])%res_bind_Ok)%res_bind_Ok.
    cbn [insert_rows] in H1. apply res_bind_Ok in H1 as ([n1 db3] & H1 & [= _ <-]).
    eapply (insert_row_typed Hagree ps (mk_context vs now (db_rows db)) Hps); try done.
    + by eapply new_row_fits.
    + by destruct c.
  - destruct (K !! t) as [ks|] eqn:Hk; [|done]. rewrite Hsch. destruct (sch !! t) as [d|] eqn:Hd; [|done].
    intros (db1 & H1 & (db2 & [-> _]%finish_ok & [= _ <-])%res_bind_Ok)%res_bind_Ok.
    eapply (update_rows_typed Hagree ps (mk_context vs now (db_rows db)) Hps); try done.
    intros r Hr. by repeat constructor.
  - intros (db1 & [-> _]%finish_ok & [= _ <-])%res_bind_Ok. cbn.
    eapply typed_sublist; [|done]. intros t'. apply delete_rows_sublist.
Qed.
(** *** Kinds of what a query returns *)

Definition column_kind (sc : list (string * row_kinds)) (e : expr) : option kind :=
  match e with
  | Col None c => scope_kind sc c
  | Col (Some q) c => ks ← assoc q sc; assoc c ks
  | _ => None
  end.

Fixpoint from_kinds (from : list (string * string)) : option (list (string * row_kinds)) :=
  match from with
  | [] => Some []
  | (t, a) :: from => ks ← K !! t; sc ← from_kinds from; Some ((a, ks) :: sc)
  end.

Definition select_kinds (q : select) : option (list kind) :=
  match sel_what q with
  | Exprs l => sc ← from_kinds (sel_from q); mapM (fun '(e, _) => column_kind sc e) l
  | CountAll => Some [mk_kind BNat false]
  | Star => None
  end.

Lemma product_fits rs from sc s : typed rs -> from_kinds from = Some sc -> s ∈ product rs from -> scope_fits sc s.
Proof.
  intros Hty. revert sc s. induction from as [|[t a] from IH]; intros sc s; cbn.
  - intros [= <-] ->%list_elem_of_singleton. constructor.
  - destruct (K !! t) as [ks|] eqn:Ht; [|done]. cbn. destruct (from_kinds from) as [sc'|] eqn:Ef; [|done]. cbn.
    intros [= <-]. rewrite list_elem_of_In, in_flat_map. intros (r & Hr & (s' & <- & Hs')%in_map_iff).
    constructor; [split; [done|]|by apply IH; [|apply list_elem_of_In]].
    eapply Forall_forall; [by apply Hty|]. by apply list_elem_of_In.
Qed.

Lemma column_kind_sound x sc s e k : scope_fits sc s -> column_kind sc e = Some k -> fits k (eval x s e) = true.
Proof.
  intros Hs. destruct e; try done. cbn. destruct q as [q|].
  - destruct (assoc q sc) as [ks|] eqn:E; [|done]. cbn. intros Hk.
    destruct (scope_fits_assoc _ _ _ _ Hs E) as (r & -> & Hr).
    pose proof (row_fits_assoc ks r c Hr) as H. rewrite Hk in H. destruct H as (v & Hv & Hf). unfold row_get. by rewrite Hv.
  - intros Hk. pose proof (scope_fits_get sc s c Hs) as H. by rewrite Hk in H.
Qed.

Lemma query_kinds x q ks o :
  typed (x_rows x) -> select_kinds q = Some ks -> o ∈ query x q -> Forall2 (fun k v => fits k v = true) ks o.
Proof.
  intros Hty. unfold select_kinds, query. destruct (sel_what q) as [| |l]; [done| |].
  - intros [= <-] ->%list_elem_of_singleton. repeat constructor. cbn. apply Z.leb_le. lia.
  - destruct (from_kinds (sel_from q)) as [sc|] eqn:Ef; [|done]. cbn. intros Hk (s & -> & [Hs _]%elem_of_List_filter)%list_elem_of_fmap.
    assert (scope_fits sc s) as Hfit by (by eapply product_fits).
    cbn. apply mapM_Some_1 in Hk. induction Hk as [|[e n] k l ks He _ IH]; constructor; [|done].
    by eapply column_kind_sound.
Qed.
End Kinds.
