(* ===== verification/Connection.v ===== *)
(** * Connections to the database

    What core/src/library/sqlite/ uses of rusqlite: statements with parameters,
    transactions that roll back unless they are committed, and the conversion of
    columns. The engine is the class [SqliteConnection]; its laws say that a
    statement does what Sql.v says, with its rows in any order, or fails and leaves
    the tables as they are (or, in a transaction, rolls it back, as SQLite does after
    some failures). A connection in memory is an instance, with failures at will. *)

From S2P Require Import Prelude Domain HostController Sql SqlText.
#[local] Open Scope Z_scope.

Class SqliteConnection (C : Type) := {
  conn_run : stmt -> list value -> C -> result output RusqliteError * C;
  conn_begin : C -> result unit RusqliteError * C;
  conn_commit : C -> result unit RusqliteError * C;
  conn_rollback : C -> C;
}.

(** ** Laws *)

Definition agrees (r r0 : result output RusqliteError) : Prop :=
  match r, r0 with
  | Ok o, Ok o0 => out_rows o ≡ₚ out_rows o0 /\ out_changes o = out_changes o0
  | Err e, Err e0 => e = e0
  | _, _ => False
  end.

(** What may be left of a session after a failure of the engine. *)
Definition failed (s s' : session) : Prop := s' = s \/ s' = rollback s.

Class SqliteLaws (C : Type) `{!SqliteConnection C} := {
  conn_session : C -> session;
  conn_run_spec st ps c :
    (exists now, agrees (conn_run st ps c).1 (step st ps now (conn_session c)).1 /\
       conn_session (conn_run st ps c).2 = (step st ps now (conn_session c)).2) \/
    ((conn_run st ps c).1 = Err EngineFailure /\ failed (conn_session c) (conn_session (conn_run st ps c).2));
  conn_begin_spec c :
    ((conn_begin c).1 = Ok tt /\ conn_session (conn_begin c).2 = begin (conn_session c)) \/
    ((conn_begin c).1 = Err EngineFailure /\ conn_session (conn_begin c).2 = conn_session c);
  conn_commit_spec c :
    ((conn_commit c).1 = Ok tt /\ conn_session (conn_commit c).2 = commit (conn_session c)) \/
    ((conn_commit c).1 = Err EngineFailure /\ failed (conn_session c) (conn_session (conn_commit c).2));
  conn_rollback_spec c : conn_session (conn_rollback c) = rollback (conn_session c);
}.

(** ** Columns and parameters *)

Definition value_at (r : list value) (i : nat) : result value RusqliteError :=
  match r !! i with Some v => Ok v | None => Err InvalidColumnType end.

Definition get_text (v : value) : result string RusqliteError :=
  match v with Text s => Ok s | _ => Err InvalidColumnType end.

Definition get_i64 (v : value) : result Z RusqliteError :=
  match v with Integer z => Ok z | _ => Err InvalidColumnType end.

(** u64 and usize *)
Definition get_u64 (v : value) : result Z RusqliteError :=
  match v with
  | Integer z => if 0 <=? z then Ok z else Err IntegralValueOutOfRange
  | _ => Err InvalidColumnType
  end.

Definition get_blob (v : value) : result (list Z) RusqliteError :=
  match v with Blob b => Ok b | _ => Err InvalidColumnType end.

Definition get_option {A} (get : value -> result A RusqliteError) (v : value) : result (option A) RusqliteError :=
  match v with Null => Ok None | _ => let! a := get v in Ok (Some a) end.

Definition get_at {A} (get : value -> result A RusqliteError) (r : list value) (i : nat) : result A RusqliteError :=
  let! v := value_at r i in get v.

Definition from_option {A} (f : A -> value) (o : option A) : value :=
  match o with Some a => f a | None => Null end.

(** [usize] as a parameter *)
Definition usize_to_sql (z : Z) : result value RusqliteError :=
  if z <? i64_modulus then Ok (Integer z) else Err IntegralValueOutOfRange.

(** [collect::<Result<Vec<_>, _>>] *)
Fixpoint collect {A B E} (f : A -> result B E) (l : list A) : result (list B) E :=
  match l with
  | [] => Ok []
  | a :: l => let! b := f a in let! bs := collect f l in Ok (b :: bs)
  end.

Section Calls.
Context {C : Type} `{!SqliteConnection C}.

(** [Connection::execute] *)
Definition execute (st : stmt) (ps : list value) : io C RusqliteError nat :=
  try! out := sys (conn_run st ps) in io_ret (out_changes out).

(** [Connection::execute_batch] *)
Fixpoint execute_batch (l : list stmt) : io C RusqliteError unit :=
  match l with
  | [] => io_ret tt
  | st :: l => try! _ := sys (conn_run st []) in execute_batch l
  end.

(** [Connection::prepare] and [Statement::query_map], for a closure that asks nothing. *)
Definition query_map {A} (st : stmt) (ps : list value) (f : list value -> result A RusqliteError) : io C RusqliteError (list A) :=
  try! out := sys (conn_run st ps) in io_result (collect f (out_rows out)).

(** [Connection::query_row], for a closure that may ask the database *)
Definition query_row_with {A} (st : stmt) (ps : list value) (f : list value -> io C RusqliteError A) : io C RusqliteError A :=
  try! out := sys (conn_run st ps) in
  match out_rows out with r :: _ => f r | [] => io_throw QueryReturnedNoRows end.

Definition query_row {A} (st : stmt) (ps : list value) (f : list value -> result A RusqliteError) : io C RusqliteError A :=
  query_row_with st ps (fun r => io_result (f r)).

(** [OptionalExtension::optional] *)
Definition optional_row {A} (m : io C RusqliteError A) : io C RusqliteError (option A) :=
  fun c => let? (r, c) := m c in
           Ret (match r with
                | Ok a => Ok (Some a)
                | Err QueryReturnedNoRows => Ok None
                | Err e => Err e
                end, c).

(** A transaction that is dropped without a commit is rolled back. *)
Definition transaction {A E} (inj : RusqliteError -> E) (body : io C E A) : io C E A :=
  try! _ := io_map_err inj (sys conn_begin) in
  fun c =>
    let? (r, c) := body c in
    match r with
    | Err e => Ret (Err e, conn_rollback c)
    | Ok a =>
        match conn_commit c with
        | (Ok _, c) => Ret (Ok a, c)
        | (Err e, c) => Ret (Err (inj e), conn_rollback c)
        end
    end.
End Calls.

(** ** A connection in memory

    It does what Sql.v says and never fails otherwise. *)

Record memory := mk_memory { mem_session : session; mem_ids : nat }.

Definition on_session {A} (f : session -> A * session) (m : memory) : A * memory :=
  let (a, s) := f (mem_session m) in (a, mk_memory s (mem_ids m)).

#[export] Instance memory_connection : SqliteConnection memory := {|
  conn_run st ps := on_session (step st ps "now");
  conn_begin := on_session (fun s => (Ok tt, begin s));
  conn_commit := on_session (fun s => (Ok tt, commit s));
  conn_rollback m := mk_memory (rollback (mem_session m)) (mem_ids m);
|}.

#[export] Program Instance memory_laws : SqliteLaws memory := {|
  conn_session := mem_session;
|}.
Next Obligation.
  intros st ps [s n]. left. exists "now"%string. unfold conn_run, memory_connection, on_session. cbn [mem_session].
  by destruct (step st ps "now" s) as [[[rs k]|e] s'].
Qed.
Next Obligation. intros []. by left. Qed.
Next Obligation. intros []. by left. Qed.
Next Obligation. done. Qed.

Definition memory_new : memory := mk_memory (mk_session empty_database None true false) 0.
