(* ===== verification/SqliteActor.v ===== *)
(** * The database actor

    core/src/library/sqlite/actor.rs, util.rs, command.rs: the handlers of all
    messages, with their SQL as in the source, on a connection. The messages of
    library errors leave out the text of the error they wrap. *)

From S2P Require Import Prelude Domain NonceWindow Dencryptor KeyExchange ReceiveManager HostController BrainTypes.
From S2P Require Import NodeKeys Sql SqlText Connection.
#[local] Open Scope string_scope.
#[local] Open Scope Z_scope.

(** Fresh ids (FylesId::new) and the lists of reasons as JSON (serde_json). *)
Class ActorEnv (C : Type) := {
  new_fyles_id : C -> FylesId * C;
}.

Class Json := {
  json_to_string : list string -> option string;
  json_from_str : string -> option (list string);
}.

Class JsonLaws `{!Json} := {
  json_roundtrip l s : json_to_string l = Some s -> json_from_str s = Some l;
  json_empty : json_from_str "[]" = Some [];
}.

(** [DbOperationError] and [db_op] *)
Inductive DbOperationError :=
| Rusqlite (source : RusqliteError)
| Custom (source : DbError).

Definition db_error (e : DbOperationError) : DbError :=
  match e with Rusqlite _ => DbOperation | Custom source => source end.

Definition db_op {C A} (m : io C DbOperationError A) : io C DbError A := io_map_err db_error m.

Section Actor.
Context {W C : Type} `{!Primitives W} `{!KeyBytes W} `{!Bincode DilithiumPublic} `{!Bincode DilithiumSecret}.
Context `{!SqliteConnection C} `{!ActorEnv C} `{!Json}.

Abbreviation dbio := (io C DbOperationError).

(** [?] on results of rusqlite *)
Definition rq {A} (m : io C RusqliteError A) : dbio A := io_map_err Rusqlite m.
Definition custom {A} (e : DbError) : dbio A := io_throw (Custom e).
Definition or_custom {A} (o : option A) (e : DbError) : dbio A :=
  match o with Some a => io_ret a | None => custom e end.
Definition fresh_id {E} : io C E FylesId := sys (fun c => let (id, c) := new_fyles_id c in (Ok id, c)).

(** ** Filerequests *)

Definition read_contact_ids (id : FylesId) : io C RusqliteError (list ContactId) :=
  query_map (sql "SELECT contact_id FROM filerequest_audience WHERE filerequest_id = ?") [Text id]
    (fun r => get_at get_text r 0).

Definition read_access (access_type : string) (id : FylesId) : io C RusqliteError FilerequestAccess :=
  if String.eqb access_type "public" then io_ret Public
  else if String.eqb access_type "audience" then try! contact_ids := read_contact_ids id in io_ret (Audience contact_ids)
  else io_ret (Audience []).

Definition read_filerequest (id : FylesId) (r : list value) (access : FilerequestAccess) : result Filerequest RusqliteError :=
  let! title := get_at get_text r 1 in
  let! description := get_at get_text r 2 in
  let! status := get_at get_text r 3 in
  Ok (mk_filerequest id title description access (String.eqb status "active")).

Definition handle_get_filerequest (id : FylesId) : io C DbError Filerequest :=
  db_op (rq (query_row_with
    (sql "SELECT id, title, description, status, access_type FROM filerequests WHERE id = ?") [Text id]
    (fun r =>
       try! access_type := io_result (get_at get_text r 4) in
       try! access := read_access access_type id in
       try! id := io_result (get_at get_text r 0) in
       io_result (read_filerequest id r access)))).

(** The rows of a query whose closure asks the database, one after the other. *)
Fixpoint for_rows {A B E} (f : A -> io C E B) (l : list A) : io C E (list B) :=
  match l with
  | [] => io_ret []
  | a :: l => try! b := f a in try! bs := for_rows f l in io_ret (b :: bs)
  end.

Definition handle_get_all : io C DbError (list Filerequest) :=
  db_op (rq (
    try! out := sys (conn_run (sql "SELECT id, title, description, status, access_type FROM filerequests") []) in
    for_rows (fun r =>
      try! id := io_result (get_at get_text r 0) in
      try! access_type := io_result (get_at get_text r 4) in
      try! access := read_access access_type id in
      io_result (read_filerequest id r access)) (out_rows out))).

Definition access_columns (access : FilerequestAccess) : string * list ContactId :=
  match access with
  | Public => ("public", [])
  | Audience peer_ids => ("audience", peer_ids)
  end.

Definition status_column (is_active : bool) : string := if is_active then "active" else "paused".

Definition insert_audience (id : FylesId) (contact_ids : list ContactId) : io C RusqliteError (list nat) :=
  for_rows (fun contact_id =>
    execute (sql "INSERT INTO filerequest_audience (filerequest_id, contact_id, created_at)
                         VALUES (?, ?, datetime('now'))") [Text id; Text contact_id]) contact_ids.

Definition handle_create (filerequest : CreateFilerequest) : io C DbError FylesId :=
  db_op (transaction Rusqlite (
    try! id := fresh_id in
    let '(access_type, contact_ids) := access_columns (cfr_access filerequest) in
    try! _ := rq (execute
      (sql "INSERT INTO filerequests (id, title, description, created_at, updated_at, status, access_type)
                     VALUES (?1, ?2, ?3, datetime('now'), datetime('now'), ?4, ?5)")
      [Text id; Text (cfr_title filerequest); Text (cfr_description filerequest);
       Text (status_column (cfr_is_active filerequest)); Text access_type]) in
    try! _ := rq (insert_audience id contact_ids) in
    io_ret id)).

Definition handle_update (filerequest : Filerequest) : io C DbError unit :=
  db_op (transaction Rusqlite (
    let '(access_type, contact_ids) := access_columns (fr_access filerequest) in
    try! _ := rq (execute
      (sql "UPDATE filerequests
                     SET title = ?1, description = ?2, access_type = ?3, updated_at = datetime('now'), status = ?4
                     WHERE id = ?5")
      [Text (fr_title filerequest); Text (fr_description filerequest); Text access_type;
       Text (status_column (fr_is_active filerequest)); Text (fr_id filerequest)]) in
    try! _ := rq (execute (sql "DELETE FROM filerequest_audience WHERE filerequest_id = ?") [Text (fr_id filerequest)]) in
    try! _ := rq (insert_audience (fr_id filerequest) contact_ids) in
    io_ret tt)).

Definition handle_delete (id : FylesId) : io C DbError unit :=
  db_op (rq (try! _ := execute (sql "DELETE FROM filerequests WHERE id = ?") [Text id] in io_ret tt)).

(** ** Contacts *)

Definition handle_get_contact_name (id : ContactId) : io C DbError string :=
  db_op (fun c =>
    let? (res, c) := query_row (sql "SELECT name FROM contacts WHERE id = ?") [Text id] (fun r => get_at get_text r 0) c in
    Ret (match res with
         | Ok x => Ok x
         | Err QueryReturnedNoRows => Err (Custom (DbNotFound ("The contact with id " +:+ id +:+ " could not be found")))
         | Err e => Err (Rusqlite e)
         end, c)).

Definition dilithium_public_error : DbError := DbDataConversion "Failed to deserialize dilithium public key".
Definition ed25519_public_error : DbError := DbDataConversion "Failed to deserialize ed25519 public key".

Definition read_public_keys (dilithium_bytes ed25519_bytes : list Z) (dilithium_err ed25519_err : DbError) : dbio ContactPublicKeys :=
  try! dilithium := or_custom (deserialize_dilithium_public_key dilithium_bytes) dilithium_err in
  try! ed25519 := or_custom (result_ok (deserialize_ed25519_public_key ed25519_bytes)) ed25519_err in
  io_ret (mk_contact_public dilithium ed25519).

Definition handle_get_contact_public_keys (id : ContactId) : io C DbError (option ContactPublicKeys) :=
  db_op (
    try! result := rq (optional_row (query_row
      (sql "SELECT dilithium_public_key, ed25519_public_key FROM contacts WHERE id = ?") [Text id]
      (fun r =>
         let! dilithium_key := get_at (get_option get_blob) r 0 in
         let! ed25519_key := get_at (get_option get_blob) r 1 in
         Ok (dilithium_key, ed25519_key)))) in
    match result with
    | Some (Some dilithium_bytes, Some ed25519_bytes) =>
        try! keys := read_public_keys dilithium_bytes ed25519_bytes dilithium_public_error ed25519_public_error in
        io_ret (Some keys)
    | _ => io_ret None
    end).

(** The statement has a placeholder per id. *)
Definition select_contact_names (n : nat) : stmt :=
  Select (mk_select (Exprs [(Col None "id", "id"); (Col None "name", "name")]) [("contacts", "contacts")]
            (in_any (Col None "id") (Param <$> seq 0 n))).

Definition handle_get_contact_names (ids : list ContactId) : io C DbError (gmap ContactId string) :=
  db_op (
    try! out := rq (sys (conn_run (select_contact_names (length ids)) (Text <$> ids))) in
    try! rows := io_expect (result_ok (collect (fun r =>
      let! id := get_at get_text r 0 in let! name := get_at get_text r 1 in Ok (id, name)) (out_rows out))) in
    io_ret (list_to_map (rev rows))).

Definition handle_get_contact (id : ContactId) : io C DbError Contact :=
  db_op (
    try! (id_str, name, dilithium_key, ed25519_key) := rq (query_row
      (sql "SELECT id, name, dilithium_public_key, ed25519_public_key FROM contacts WHERE id = ?") [Text id]
      (fun r =>
         let! id_str := get_at get_text r 0 in
         let! name := get_at get_text r 1 in
         let! dilithium_key := get_at (get_option get_blob) r 2 in
         let! ed25519_key := get_at (get_option get_blob) r 3 in
         Ok (id_str, name, dilithium_key, ed25519_key))) in
    match dilithium_key, ed25519_key with
    | Some dilithium_bytes, Some ed25519_bytes =>
        try! public_keys := read_public_keys dilithium_bytes ed25519_bytes dilithium_public_error ed25519_public_error in
        io_ret (mk_contact id_str name public_keys)
    | _, _ => custom (DbNotFound ("Contact " +:+ id_str +:+ " missing public keys"))
    end).

Definition read_display_contact (r : list value) : result DisplayContact RusqliteError :=
  let! id := get_at get_text r 0 in
  let! name := get_at get_text r 1 in
  Ok (mk_display_contact id name).

Definition handle_get_contacts : io C DbError (list DisplayContact) :=
  db_op (rq (query_map (sql "SELECT id, name FROM contacts") [] read_display_contact)).

Definition handle_update_contact (contact : DisplayContact) : io C DbError unit :=
  db_op (rq (
    try! _ := execute (sql "UPDATE contacts SET name = ?, updated_at = datetime('now')
                     WHERE id = ?") [Text (dc_name contact); Text (dc_id contact)] in
    io_ret tt)).

Definition handle_delete_contact (id : ContactId) : io C DbError unit :=
  db_op (rq (try! _ := execute (sql "DELETE FROM contacts WHERE id = ?") [Text id] in io_ret tt)).

(** ** The keys of the node *)

Definition handle_store_node_keys (info : NodeInfo) : io C DbError unit :=
  db_op (
    let keys := ni_self_contact_keys info in
    let contact_id := ni_self_contact_id info in
    try! dilithium_private_key := or_custom (encode_to_vec (priv_dilithium (keys_private keys)))
      (DbDataConversion "Failed to serialize dilithium private key") in
    try! dilithium_public_key := or_custom (encode_to_vec (pub_dilithium (KeyExchange.keys_public keys)))
      (DbDataConversion "Failed to serialize dilithium public key") in
    let ed25519_private_key := ed25519_private_as_bytes (priv_ed25519 (keys_private keys)) in
    let ed25519_public_key := ed25519_public_as_bytes (pub_ed25519 (KeyExchange.keys_public keys)) in
    try! _ := rq (execute (sql "INSERT OR REPLACE INTO node_keys (id, key_bytes) VALUES (1, ?)") [Blob (ni_node_key_pair info)]) in
    try! _ := rq (execute
      (sql "INSERT OR REPLACE INTO self_contact (id, contact_id, name, dilithium_private_key, dilithium_public_key, ed25519_private_key, ed25519_public_key) VALUES (1, ?, ?, ?, ?, ?, ?)")
      [Text contact_id; Text contact_id; Blob dilithium_private_key; Blob dilithium_public_key;
       Blob ed25519_private_key; Blob ed25519_public_key]) in
    io_ret tt).

Definition read_contact_keys (dilithium_private dilithium_public ed25519_private ed25519_public : list Z)
    (err : string -> DbError) : dbio ContactKeys :=
  try! dilithium_private := or_custom (deserialize_dilithium_private_key dilithium_private) (err "dilithium private key") in
  try! dilithium_public := or_custom (deserialize_dilithium_public_key dilithium_public) (err "dilithium public key") in
  try! ed25519_private := or_custom (result_ok (deserialize_ed25519_private_key ed25519_private)) (err "ed25519 private key") in
  try! ed25519_public := or_custom (result_ok (deserialize_ed25519_public_key ed25519_public)) (err "ed25519 public key") in
  io_ret (mk_contact_keys (mk_contact_private dilithium_private ed25519_private) (mk_contact_public dilithium_public ed25519_public)).

Definition handle_get_node_keys : io C DbError NodeInfo :=
  db_op (
    try! key_bytes := rq (optional_row (query_row (sql "SELECT key_bytes FROM node_keys WHERE id = 1") []
      (fun r => get_at get_blob r 0))) in
    try! key_bytes := or_custom key_bytes DataNotYetInitialized in
    try! result := rq (optional_row (query_row
      (sql "SELECT contact_id, name, ed25519_private_key, ed25519_public_key, dilithium_private_key, dilithium_public_key
                     FROM self_contact WHERE id = 1") []
      (fun r =>
         let! contact_id := get_at get_text r 0 in
         let! name := get_at get_text r 1 in
         let! ed25519_private_key := get_at get_blob r 2 in
         let! ed25519_public_key := get_at get_blob r 3 in
         let! dilithium_private_key := get_at get_blob r 4 in
         let! dilithium_public_key := get_at get_blob r 5 in
         Ok (contact_id, ed25519_private_key, ed25519_public_key, dilithium_private_key, dilithium_public_key)))) in
    match result with
    | Some (contact_id, ed25519_private_key, ed25519_public_key, dilithium_private_key, dilithium_public_key) =>
        try! keys := read_contact_keys dilithium_private_key dilithium_public_key ed25519_private_key ed25519_public_key
          (fun what => DbDataConversion ("Failed to deserialize " +:+ what)) in
        io_ret (mk_node_info key_bytes contact_id keys)
    | None => custom DataNotYetInitialized
    end).

(** ** Remote filerequests *)

Definition handle_create_remote_filerequest (remote_filerequest : CreateRemoteFilerequest) : io C DbError FylesId :=
  db_op (rq (
    try! id := fresh_id in
    try! _ := execute
      (sql "INSERT INTO remote_filerequests (id, peer_id, filerequest_id, name, created_at, contact_id)
                     VALUES (?, ?, ?, ?, datetime('now'), ?)")
      [Text id; Text (crf_peer_id remote_filerequest); Text (crf_filerequest_id remote_filerequest);
       Text (crf_name remote_filerequest); Text (crf_contact_id remote_filerequest)] in
    io_ret id)).

Definition read_remote_filerequest (r : list value) : result RemoteFilerequest RusqliteError :=
  let! id := get_at get_text r 0 in
  let! peer_id := get_at get_text r 1 in
  let! filerequest_id := get_at get_text r 2 in
  let! name := get_at get_text r 3 in
  let! contact_id := get_at get_text r 4 in
  Ok (mk_remote_filerequest id peer_id filerequest_id contact_id name).

Definition handle_get_remote_filerequest (id : FylesId) : io C DbError RemoteFilerequest :=
  db_op (rq (query_row
    (sql "SELECT id, peer_id, filerequest_id, name, contact_id FROM remote_filerequests WHERE id = ?") [Text id]
    read_remote_filerequest)).

Definition handle_get_remote_filerequests_by_contact (contact_id : ContactId) : io C DbError (list RemoteFilerequest) :=
  db_op (rq (query_map
    (sql "SELECT id, peer_id, filerequest_id, name, contact_id FROM remote_filerequests WHERE contact_id = ?") [Text contact_id]
    read_remote_filerequest)).

Definition handle_get_all_remote_filerequests : io C DbError (list RemoteFilerequest) :=
  db_op (rq (query_map (sql "SELECT id, peer_id, filerequest_id, name, contact_id FROM remote_filerequests") []
    read_remote_filerequest)).

Definition handle_delete_remote_filerequest (id : FylesId) : io C DbError unit :=
  db_op (rq (try! _ := execute (sql "DELETE FROM remote_filerequests WHERE id = ?") [Text id] in io_ret tt)).

Definition handle_update_remote_filerequest (id : FylesId) (name : string) : io C DbError unit :=
  db_op (rq (
    try! _ := execute (sql "UPDATE remote_filerequests
                     SET name = ?
                     WHERE id = ?") [Text name; Text id] in
    io_ret tt)).

(** ** Files to send *)

Record pending_row := mk_pending_row {
  pr_id : string;
  pr_file_path : string;
  pr_target : string;
  pr_status : string;
  pr_retry_count : Z;
  pr_progress_bytes : option Z;
  pr_file_size_bytes : option Z;
  pr_transfer_id : option string;
  pr_display_name : option string;
  pr_reasons : string;
}.

(** The columns but for the last two, which the join has at other places. *)
Definition read_pending_row (display reasons : nat) (r : list value) : result pending_row RusqliteError :=
  let! id := get_at get_text r 0 in
  let! file_path := get_at get_text r 1 in
  let! target := get_at get_text r 2 in
  let! status := get_at get_text r 3 in
  let! retry_count := get_at get_u64 r 4 in
  let! progress := get_at (get_option get_u64) r 5 in
  let! size := get_at (get_option get_u64) r 6 in
  let! transfer_id := get_at (get_option get_text) r 7 in
  let! display_name := get_at (get_option get_text) r display in
  let! reasons := get_at get_text r reasons in
  Ok (mk_pending_row id file_path target status retry_count progress size transfer_id display_name reasons).

Definition pending_file (contact_id : ContactId) (p : pending_row) : dbio PendingFile :=
  match from_db_columns (pr_status p) (pr_progress_bytes p) (pr_file_size_bytes p) (pr_transfer_id p) with
  | Ok status =>
      io_ret (mk_pending_file (pr_id p) contact_id (pr_file_path p) (pr_retry_count p) (pr_target p) status
                (pr_display_name p) (default [] (json_from_str (pr_reasons p))))
  | Err e => custom (DbDataConversion ("Failed to parse send status: " +:+ e))
  end.

Definition read_contact_id (target : FylesId) : dbio ContactId :=
  rq (query_row (sql "SELECT contact_id FROM remote_filerequests WHERE id = ?") [Text target] (fun r => get_at get_text r 0)).

Definition handle_get_pending_file (id : FylesId) : io C DbError PendingFile :=
  db_op (
    try! basic_file := rq (query_row
      (sql "SELECT id, file_path, target_filerequest_id, status, retry_count, progress_bytes, file_size_bytes, transfer_id, display_name, interruption_reasons FROM pending_files WHERE id = ?")
      [Text id] (read_pending_row 8 9)) in
    try! contact_id := read_contact_id (pr_target basic_file) in
    pending_file contact_id basic_file).

Definition handle_get_pending_files (target_filerequest_id : FylesId) : io C DbError (list PendingFile) :=
  db_op (
    try! pending_files := rq (query_map
      (sql "SELECT id, file_path, target_filerequest_id, status, retry_count, progress_bytes, file_size_bytes, transfer_id, display_name, interruption_reasons FROM pending_files WHERE target_filerequest_id = ?")
      [Text target_filerequest_id] (read_pending_row 8 9)) in
    try! contact_id := read_contact_id target_filerequest_id in
    for_rows (pending_file contact_id) pending_files).

Definition handle_get_all_pending_files : io C DbError (list PendingFile) :=
  db_op (
    try! pending_files_data := rq (query_map
      (sql "SELECT p.id, p.file_path, p.target_filerequest_id, p.status, p.retry_count, p.progress_bytes, p.file_size_bytes, p.transfer_id, r.contact_id, p.display_name, p.interruption_reasons
                     FROM pending_files p
                     JOIN remote_filerequests r ON p.target_filerequest_id = r.id")
      [] (fun r =>
            let! p := read_pending_row 9 10 r in
            let! contact_id := get_at get_text r 8 in
            Ok (p, contact_id))) in
    for_rows (fun '(p, contact_id) => pending_file contact_id p) pending_files_data).

Definition handle_create_pending_files (pending_file : CreatePendingFiles) : io C DbError (list FylesId) :=
  db_op (transaction Rusqlite (
    try! id_and_paths := for_rows (fun file_info => try! id := fresh_id in io_ret (id, file_info)) (cp_file_infos pending_file) in
    try! _ := rq (for_rows (fun '(id, file_info) =>
      execute
        (sql "INSERT INTO pending_files (id, file_path, target_filerequest_id, status, display_name, created_at)
                         VALUES (?, ?, ?, ?, ?, datetime('now'))")
        [Text id; Text (fi_path file_info); Text (cp_target_filerequest_id pending_file); Text "Pending";
         from_option Text (fi_display_name file_info)]) id_and_paths) in
    io_ret (fst <$> id_and_paths))).

Definition handle_delete_pending_file (id : FylesId) : io C DbError unit :=
  db_op (rq (try! _ := execute (sql "DELETE FROM pending_files WHERE id = ?") [Text id] in io_ret tt)).

Definition handle_count_non_terminal_pending_files_for_path (id : FylesId) : io C DbError Z :=
  db_op (rq (query_row
    (sql "SELECT COUNT(*) FROM pending_files
                     WHERE file_path = (SELECT file_path FROM pending_files WHERE id = ?1)
                       AND id != ?1
                       AND status IN ('Pending', 'Sending', 'Interrupted')")
    [Text id] (fun r => get_at get_u64 r 0))).

Definition handle_add_interruption_reason (id : FylesId) (reason : string) : io C DbError unit :=
  db_op (
    try! current_json := rq (query_row (sql "SELECT interruption_reasons FROM pending_files WHERE id = ?") [Text id]
      (fun r => get_at get_text r 0)) in
    let reasons := (default [] (json_from_str current_json) ++ [reason])%list in
    let new_json := default "[]" (json_to_string reasons) in
    try! _ := rq (execute (sql "UPDATE pending_files SET interruption_reasons = ? WHERE id = ?") [Text new_json; Text id]) in
    io_ret tt).

Definition handle_update_pending_file_status (id : FylesId) (status : SendStatus) (retry_count : option Z) : io C DbError FylesId :=
  db_op (
    match status_tag status with
    | Err e => custom (DbDataConversion ("Failed to convert status to tag: " +:+ e))
    | Ok tag =>
        match retry_count, status_transfer_data status with
        | Some count, transfer_data =>
            try! count := rq (io_result (usize_to_sql count)) in
            rq (query_row
              (sql "UPDATE pending_files SET status = ?, retry_count = ?, progress_bytes = ?, file_size_bytes = ?, transfer_id = ? WHERE id = ? RETURNING target_filerequest_id")
              [Text tag; count;
               from_option (fun d => Integer (as_i64 (progress_bytes d))) transfer_data;
               from_option (fun d => Integer (as_i64 (file_size_bytes d))) transfer_data;
               from_option (fun d => Text (transfer_id d)) transfer_data;
               Text id]
              (fun r => get_at get_text r 0))
        | None, Some td =>
            rq (query_row
              (sql "UPDATE pending_files SET status = ?, progress_bytes = ?, file_size_bytes = ?, transfer_id = ? WHERE id = ? RETURNING target_filerequest_id")
              [Text tag; Integer (as_i64 (progress_bytes td)); Integer (as_i64 (file_size_bytes td)); Text (transfer_id td); Text id]
              (fun r => get_at get_text r 0))
        | None, None =>
            rq (query_row
              (sql "UPDATE pending_files SET status = ? WHERE id = ? RETURNING target_filerequest_id")
              [Text tag; Text id]
              (fun r => get_at get_text r 0))
        end
    end).

(** ** Received files *)

Definition handle_create_incoming_file (incoming : CreateIncomingFile) : io C DbError FylesId :=
  db_op (rq (
    try! new_id := fresh_id in
    try! _ := execute
      (sql "INSERT INTO received_files
                     (id, contact_id, peer_id, filerequest_id, transfer_id, file_name, file_path, file_size_bytes, progress_bytes, status, started_at_ms, received_at_ms)
                     VALUES (?, ?, ?, ?, ?, ?, NULL, ?, 0, 'Receiving', ?, NULL)")
      [Text new_id; from_option Text (ci_contact_id incoming); Text (ci_peer_id incoming); Text (ci_filerequest_id incoming);
       Text (ci_transfer_id incoming); Text (ci_file_name incoming); Integer (as_i64 (ci_file_size_bytes incoming));
       Integer (ci_started_at_ms incoming)] in
    io_ret new_id)).

Definition handle_update_received_file_status (transfer_id : FylesId) (status : ReceiveStatus) (progress_bytes : Z) : io C DbError unit :=
  db_op (
    match receive_status_tag status with
    | Err e => custom (DbDataConversion ("Failed to convert status to tag: " +:+ e))
    | Ok tag =>
        try! changes := rq (execute (sql "UPDATE received_files SET status = ?, progress_bytes = ? WHERE transfer_id = ?")
          [Text tag; Integer (as_i64 progress_bytes); Text transfer_id]) in
        if (changes =? 0)%nat then custom (DbNotFound ("Received file with transfer_id " +:+ transfer_id +:+ " not found"))
        else io_ret tt
    end).

Definition read_received_file (r : list value) : result ReceivedFile RusqliteError :=
  let! id := get_at get_text r 0 in
  let! contact_id := get_at (get_option get_text) r 1 in
  let! peer_id := get_at get_text r 2 in
  let! filerequest_id := get_at get_text r 3 in
  let! transfer_id := get_at (get_option get_text) r 4 in
  let! file_name := get_at get_text r 5 in
  let! file_path := get_at (get_option get_text) r 6 in
  let! size := get_at get_i64 r 7 in
  let! progress := get_at get_i64 r 8 in
  let! status := get_at get_text r 9 in
  let! started_at_ms := get_at get_i64 r 10 in
  let! received_at_ms := get_at (get_option get_i64) r 11 in
  Ok (mk_received_file id contact_id peer_id filerequest_id transfer_id file_name file_path (as_u64 size) (as_u64 progress)
        (from_db_column status) started_at_ms received_at_ms).

Definition handle_get_received_file_by_transfer_id (transfer_id : FylesId) : io C DbError ReceivedFile :=
  db_op (rq (query_row
    (sql "SELECT id, contact_id, peer_id, filerequest_id, transfer_id, file_name, file_path, file_size_bytes, progress_bytes, status, started_at_ms, received_at_ms
                     FROM received_files WHERE transfer_id = ?")
    [Text transfer_id] read_received_file)).

Definition handle_complete_received_file (completed : CompleteReceivedFile) : io C DbError FylesId :=
  db_op (rq (query_row
    (sql "UPDATE received_files
                         SET file_path = ?, received_at_ms = ?, status = 'Completed'
                         WHERE transfer_id = ?
                         RETURNING id")
    [Text (cf_file_path completed); Integer (cf_received_at_ms completed); Text (cf_transfer_id completed)]
    (fun r => get_at get_text r 0))).

Definition handle_list_received_files (filerequest_id : FylesId) : io C DbError (list ReceivedFile) :=
  db_op (rq (query_map
    (sql "SELECT id, contact_id, peer_id, filerequest_id, transfer_id, file_name, file_path, file_size_bytes, progress_bytes, status, started_at_ms, received_at_ms
                     FROM received_files WHERE filerequest_id = ?")
    [Text filerequest_id] read_received_file)).

Definition handle_delete_received_file (id : FylesId) : io C DbError unit :=
  db_op (
    try! changes := rq (execute (sql "DELETE FROM received_files WHERE id = ?") [Text id]) in
    if (changes =? 0)%nat then custom (DbNotFound ("Received file with id " +:+ id +:+ " not found"))
    else io_ret tt).

Definition handle_get_stale_received_files (older_than_ms : Z) : io C DbError (list ReceivedFile) :=
  db_op (rq (query_map
    (sql "SELECT id, contact_id, peer_id, filerequest_id, transfer_id, file_name, file_path, file_size_bytes, progress_bytes, status, started_at_ms, received_at_ms
                     FROM received_files
                     WHERE status IN ('Receiving', 'Interrupted')
                       AND started_at_ms < ?")
    [Integer older_than_ms] read_received_file)).

(** ** The own contact *)

Definition key_validation_error (what : string) : DbError := DbValidation ("Could not deserialize " +:+ what).

Definition handle_get_self_contact : io C DbError SelfContact :=
  db_op (
    try! (id, ed25519_private, ed25519_public, dilithium_private, dilithium_public, name) := rq (query_row
      (sql "SELECT contact_id, ed25519_private_key, ed25519_public_key, dilithium_private_key, dilithium_public_key, name FROM self_contact WHERE id = 1")
      [] (fun r =>
            let! id := get_at get_text r 0 in
            let! ed25519_private := get_at get_blob r 1 in
            let! ed25519_public := get_at get_blob r 2 in
            let! dilithium_private := get_at get_blob r 3 in
            let! dilithium_public := get_at get_blob r 4 in
            let! name := get_at get_text r 5 in
            Ok (id, ed25519_private, ed25519_public, dilithium_private, dilithium_public, name))) in
    try! keys := read_contact_keys dilithium_private dilithium_public ed25519_private ed25519_public key_validation_error in
    io_ret (mk_self_contact id name keys)).

Definition handle_get_sharable_public_self_contact : io C DbError Contact :=
  db_op (
    try! (id, ed25519_public, dilithium_public, name) := rq (query_row
      (sql "SELECT contact_id, ed25519_public_key, dilithium_public_key, name FROM self_contact WHERE id = 1")
      [] (fun r =>
            let! id := get_at get_text r 0 in
            let! ed25519_public := get_at get_blob r 1 in
            let! dilithium_public := get_at get_blob r 2 in
            let! name := get_at get_text r 3 in
            Ok (id, ed25519_public, dilithium_public, name))) in
    try! public_keys := read_public_keys dilithium_public ed25519_public
      (key_validation_error "dilithium public key") (key_validation_error "ed25519 public key") in
    io_ret (mk_contact id name public_keys)).

Definition handle_get_self_contact_for_display : io C DbError DisplayContact :=
  db_op (rq (query_row (sql "SELECT contact_id, name FROM self_contact WHERE id = 1") [] read_display_contact)).

Definition handle_update_self_contact_name (name : string) : io C DbError unit :=
  db_op (rq (try! _ := execute (sql "UPDATE self_contact SET name = ? WHERE id = 1") [Text name] in io_ret tt)).

Definition handle_update_identity (self_contact : SelfContact) : io C DbError unit :=
  db_op (
    let keys := sc_keys self_contact in
    try! dilithium_private_key := or_custom (serialize_dilithium_private_key (priv_dilithium (keys_private keys)))
      (DbValidation "Could not serialize dilithium private key") in
    try! dilithium_public_key := or_custom (serialize_dilithium_public_key (pub_dilithium (KeyExchange.keys_public keys)))
      (DbValidation "Could not serialize dilithium public key") in
    let ed25519_private_key := serialize_ed25519_private_key (priv_ed25519 (keys_private keys)) in
    let ed25519_public_key := serialize_ed25519_public_key (pub_ed25519 (KeyExchange.keys_public keys)) in
    try! _ := rq (execute
      (sql "UPDATE self_contact
                     SET name = ?,
                         contact_id = ?,
                         ed25519_private_key = ?,
                         ed25519_public_key = ?,
                         dilithium_private_key = ?,
                         dilithium_public_key = ?
                     WHERE id = 1")
      [Text (sc_name self_contact); Text (sc_id self_contact); Blob ed25519_private_key; Blob ed25519_public_key;
       Blob dilithium_private_key; Blob dilithium_public_key]) in
    io_ret tt).

Definition handle_register_contact (self_contact : Contact) : io C DbError unit :=
  db_op (
    let keys := c_public_keys self_contact in
    try! dilithium_public_key := or_custom (serialize_dilithium_public_key (pub_dilithium keys))
      (DbValidation "Could not serialize dilithium public key") in
    let ed25519_public_key := serialize_ed25519_public_key (pub_ed25519 keys) in
    try! _ := rq (execute
      (sql "INSERT INTO contacts (id, name, created_at, updated_at, ed25519_public_key, dilithium_public_key)
                     VALUES (?, ?, datetime('now'), datetime('now'), ?, ?)")
      [Text (c_id self_contact); Text (c_name self_contact); Blob ed25519_public_key; Blob dilithium_public_key]) in
    io_ret tt).

(** ** Settings *)

Definition SETTINGS_VERSION : string := "1.0.0".

Definition handle_get_settings : io C DbError (list Z) :=
  io_map_err (fun _ => DbDatabase) (
    try! result := optional_row (query_row (sql "SELECT data FROM settings WHERE id = 1") [] (fun r => get_at get_blob r 0)) in
    io_ret (default [] result)).

Definition handle_store_settings (data : list Z) : io C DbError unit :=
  io_map_err (fun _ => DbDatabase) (
    try! _ := execute
      (sql "INSERT INTO settings (id, data, version) VALUES (1, ?1, ?2) ON CONFLICT(id) DO UPDATE SET data = excluded.data, version = excluded.version")
      [Blob data; Text SETTINGS_VERSION] in
    io_ret tt).
End Actor.

(** The placeholders of get_contact_names *)
Example contact_names_text :
  select_contact_names 2 = sql "SELECT id, name FROM contacts WHERE id IN (?,?)" /\
  select_contact_names 0 = sql "SELECT id, name FROM contacts WHERE id IN ()".
Proof. split; reflexivity. Qed.
