(* ===== verification/Migrations.v ===== *)
(** * Schema and migrations

    core/src/library/sqlite/schema.rs, migrations.rs and
    migrations/all_migrations.rs: the creation of the tables, the versions of the
    schema and the steps between them, with their SQL as in the source. A step up is
    [up_] and a step down [down_] with the version it leads to, or comes from; steps
    down are not called by the program. The one of 1.11.0 is left out: it depends on
    which row SQLite takes for a column that is not grouped. *)

From S2P Require Import Prelude Domain HostController Sql SqlText Connection SqliteActor.
From stdpp Require Import pretty.
#[local] Open Scope string_scope.
#[local] Open Scope Z_scope.

(** ** Versions

    Versions of the crate semver without labels: ordered by their numbers; their
    text is the class [Semver]. *)
Record Version := mk_version { major : Z; minor : Z; patch : Z }.

#[export] Instance Version_eq_dec : EqDecision Version.
Proof. solve_decision. Defined.

Definition version_leb (a b : Version) : bool :=
  (major a <? major b)
  || ((major a =? major b) && ((minor a <? minor b) || ((minor a =? minor b) && (patch a <=? patch b)))).

Class Semver := {
  version_to_string : Version -> string;
  version_parse : string -> option Version;
}.

Class SemverLaws `{!Semver} := {
  version_roundtrip v : version_parse (version_to_string v) = Some v;
}.

Definition CURRENT_VERSION : Version := mk_version 1 19 1.

(** ** The schema of a new database *)

Definition current_tables : list stmt := batch
"CREATE TABLE IF NOT EXISTS filerequests (
            id TEXT PRIMARY KEY,
            title TEXT NOT NULL,
            description TEXT,
            created_at TEXT NOT NULL,
            updated_at TEXT NOT NULL,
            status TEXT CHECK (status IN ('active', 'paused')) NOT NULL DEFAULT 'active',
            access_type TEXT CHECK (access_type IN ('public', 'audience')) NOT NULL DEFAULT 'audience'
        );

        CREATE TABLE IF NOT EXISTS contacts (
            id TEXT PRIMARY KEY,
            name TEXT NOT NULL,
            created_at TEXT NOT NULL,
            updated_at TEXT NOT NULL,
            dilithium_public_key BLOB,
            ed25519_public_key BLOB
        );

        CREATE TABLE IF NOT EXISTS filerequest_audience (
            filerequest_id TEXT NOT NULL,
            contact_id TEXT NOT NULL,
            created_at TEXT NOT NULL,
            PRIMARY KEY (filerequest_id, contact_id),
            FOREIGN KEY (filerequest_id) REFERENCES filerequests(id) ON DELETE CASCADE,
            FOREIGN KEY (contact_id) REFERENCES contacts(id) ON DELETE CASCADE
        );

        CREATE TABLE IF NOT EXISTS node_keys (
            id INTEGER PRIMARY KEY CHECK (id = 1),
            key_bytes BLOB NOT NULL
        );

        CREATE TABLE IF NOT EXISTS remote_filerequests (
            id TEXT PRIMARY KEY,
            peer_id TEXT NOT NULL,
            filerequest_id TEXT NOT NULL,
            name TEXT NOT NULL,
            created_at TEXT NOT NULL,
            contact_id TEXT NOT NULL
        );

        CREATE TABLE IF NOT EXISTS pending_files (
            id TEXT PRIMARY KEY,
            file_path TEXT NOT NULL,
            target_filerequest_id TEXT NOT NULL,
            status TEXT NOT NULL DEFAULT 'Pending'
                CHECK (status IN ('Pending', 'Sending', 'Interrupted', 'Sent', 'Rejected', 'Failed')),
            retry_count INTEGER NOT NULL DEFAULT 0,
            progress_bytes INTEGER,
            file_size_bytes INTEGER,
            transfer_id TEXT,
            display_name TEXT,
            interruption_reasons TEXT NOT NULL DEFAULT '[]',
            created_at TEXT NOT NULL,
            FOREIGN KEY(target_filerequest_id) REFERENCES remote_filerequests(id) ON DELETE CASCADE,

            CHECK (
                -- Pending: no transfer data
                (status = 'Pending'
                    AND progress_bytes IS NULL AND file_size_bytes IS NULL AND transfer_id IS NULL)
                OR
                -- Sending/Interrupted: transfer data required
                (status IN ('Sending', 'Interrupted')
                    AND progress_bytes IS NOT NULL AND progress_bytes >= 0
                    AND file_size_bytes IS NOT NULL AND file_size_bytes >= 0
                    AND transfer_id IS NOT NULL)
                OR
                -- Terminal states: transfer metadata is optional (preserved for diagnostics)
                (status IN ('Sent', 'Rejected', 'Failed'))
            )
        );

        CREATE TABLE IF NOT EXISTS received_files (
            id              TEXT PRIMARY KEY,
            contact_id      TEXT,
            peer_id         TEXT NOT NULL,
            filerequest_id  TEXT NOT NULL,
            transfer_id     TEXT UNIQUE,
            file_name       TEXT NOT NULL,
            file_path       TEXT,
            file_size_bytes INTEGER NOT NULL,
            progress_bytes  INTEGER NOT NULL DEFAULT 0,
            status          TEXT NOT NULL DEFAULT 'Receiving'
                CHECK (status IN ('Receiving', 'Interrupted', 'Completed', 'Failed')),
            started_at_ms   INTEGER NOT NULL DEFAULT 0,
            received_at_ms  INTEGER,
            FOREIGN KEY(filerequest_id) REFERENCES filerequests(id) ON DELETE CASCADE
        );

        CREATE TABLE IF NOT EXISTS self_contact (
            id INTEGER PRIMARY KEY CHECK (id = 1),
            contact_id TEXT NOT NULL UNIQUE,
            name TEXT NOT NULL,
            dilithium_private_key BLOB,
            dilithium_public_key BLOB,
            ed25519_private_key BLOB,
            ed25519_public_key BLOB
        );

        CREATE TABLE IF NOT EXISTS settings (
            id INTEGER PRIMARY KEY CHECK (id = 1),
            data BLOB NOT NULL DEFAULT X'',
            version TEXT NOT NULL DEFAULT '0.0.0'
        );".

Section Migrations.
Context {C : Type} `{!SqliteConnection C} `{!ActorEnv C} `{!Semver}.

Definition initialize_tables : io C RusqliteError unit :=
  try! _ := execute (sql "CREATE TABLE IF NOT EXISTS schema_version (
            version TEXT NOT NULL
        )") [] in
  try! count := query_row (sql "SELECT COUNT(*) FROM schema_version") [] (fun r => get_at get_i64 r 0) in
  if 0 <? count then io_ret tt
  else
    transaction id (
      try! _ := execute_batch current_tables in
      try! _ := execute (sql "INSERT INTO schema_version (version) VALUES (?)") [Text (version_to_string CURRENT_VERSION)] in
      io_ret tt).

(** ** Steps *)

(** Add name to remote_filerequests *)
Definition up_1_1_0 : io C RusqliteError unit :=
  try! _ := execute (sql "ALTER TABLE remote_filerequests ADD COLUMN name TEXT") [] in
  try! _ := execute (sql "UPDATE remote_filerequests SET name = filerequest_id") [] in
  execute_batch (batch "CREATE TABLE new_remote_filerequests (
                        id TEXT PRIMARY KEY,
                        peer_id TEXT NOT NULL,
                        filerequest_id TEXT NOT NULL,
                        name TEXT NOT NULL,
                        created_at TEXT NOT NULL
                    );
                    INSERT INTO new_remote_filerequests 
                    SELECT id, peer_id, filerequest_id, name, created_at 
                    FROM remote_filerequests;
                    DROP TABLE remote_filerequests;
                    ALTER TABLE new_remote_filerequests RENAME TO remote_filerequests;").

Definition down_1_1_0 : io C RusqliteError unit :=
  execute_batch (batch "CREATE TABLE new_remote_filerequests (
                        id TEXT PRIMARY KEY,
                        peer_id TEXT NOT NULL,
                        filerequest_id TEXT NOT NULL,
                        created_at TEXT NOT NULL
                    );
                    INSERT INTO new_remote_filerequests 
                    SELECT id, peer_id, filerequest_id, created_at 
                    FROM remote_filerequests;
                    DROP TABLE remote_filerequests;
                    ALTER TABLE new_remote_filerequests RENAME TO remote_filerequests;").

(** Replace multiaddr with name in peers table *)
Definition up_1_2_0 : io C RusqliteError unit :=
  execute_batch (batch "CREATE TABLE new_peers (
                        id TEXT NOT NULL,
                        peer_id TEXT NOT NULL,
                        contact_id TEXT NOT NULL,
                        name TEXT NOT NULL,
                        is_active BOOLEAN NOT NULL,
                        created_at TEXT NOT NULL,
                        updated_at TEXT NOT NULL,
                        PRIMARY KEY (id, contact_id),
                        FOREIGN KEY (contact_id) REFERENCES contacts(id) ON DELETE CASCADE
                    );
                    INSERT INTO new_peers 
                    SELECT id, peer_id, contact_id, peer_id as name, is_active, created_at, updated_at 
                    FROM peers;
                    DROP TABLE peers;
                    ALTER TABLE new_peers RENAME TO peers;").

Definition down_1_2_0 : io C RusqliteError unit :=
  execute_batch (batch "CREATE TABLE new_peers (
                        id TEXT NOT NULL,
                        peer_id TEXT NOT NULL,
                        contact_id TEXT NOT NULL,
                        multiaddr TEXT NOT NULL,
                        is_active BOOLEAN NOT NULL,
                        created_at TEXT NOT NULL,
                        updated_at TEXT NOT NULL,
                        PRIMARY KEY (id, contact_id),
                        FOREIGN KEY (contact_id) REFERENCES contacts(id) ON DELETE CASCADE
                    );
                    INSERT INTO new_peers 
                    SELECT id, peer_id, contact_id, 'N/A' as multiaddr, is_active, created_at, updated_at 
                    FROM peers;
                    DROP TABLE peers;
                    ALTER TABLE new_peers RENAME TO peers;").

(** Add received_files table, fix peers primary key, and update remote_filerequests to use internal peer IDs *)
(** [&s[..8]] panics if there are fewer bytes. *)
Definition first_bytes (s : string) : io C RusqliteError string :=
  io_expect (if (String.length s <? 8)%nat then None else Some (String.substring 0 8 s)).

Definition text5 (r : list value) : result (string * string * string * string * string) RusqliteError :=
  let! a := get_at get_text r 0 in let! b := get_at get_text r 1 in let! c := get_at get_text r 2 in
  let! d := get_at get_text r 3 in let! e := get_at get_text r 4 in Ok (a, b, c, d, e).

(** A remote filerequest gets the internal id of its peer; peers that are unknown are
    created, with a contact of their own. *)
Definition convert_remote_filerequest (record : string * string * string * string * string) : io C RusqliteError nat :=
  let '(id, libp2p_peer_id, filerequest_id, name, created_at) := record in
  try! peer_id := optional_row (query_row (sql "SELECT id FROM peers WHERE peer_id = ?") [Text libp2p_peer_id]
    (fun r => get_at get_text r 0)) in
  try! peer_id :=
    match peer_id with
    | Some id => io_ret id
    | None =>
        try! contact_id := fresh_id in
        try! prefix := first_bytes libp2p_peer_id in
        try! _ := execute (sql "INSERT INTO contacts (id, name, created_at, updated_at)
                                 VALUES (?, ?, datetime('now'), datetime('now'))")
          [Text contact_id; Text ("Auto-created for peer " +:+ prefix)] in
        try! new_peer_id := fresh_id in
        try! _ := execute (sql "INSERT INTO peers (id, peer_id, contact_id, name, is_active, created_at, updated_at)
                                 VALUES (?, ?, ?, ?, true, datetime('now'), datetime('now'))")
          [Text new_peer_id; Text libp2p_peer_id; Text contact_id; Text ("Auto-created peer " +:+ prefix)] in
        io_ret new_peer_id
    end in
  execute (sql "INSERT INTO remote_filerequests (id, peer_id, filerequest_id, name, created_at)
                         VALUES (?, ?, ?, ?, ?)") [Text id; Text peer_id; Text filerequest_id; Text name; Text created_at].

Definition up_1_3_0 : io C RusqliteError unit :=
  try! _ := execute_batch (batch "CREATE TABLE new_peers (
                        id TEXT PRIMARY KEY,
                        peer_id TEXT NOT NULL,
                        contact_id TEXT NOT NULL,
                        name TEXT NOT NULL,
                        is_active BOOLEAN NOT NULL,
                        created_at TEXT NOT NULL,
                        updated_at TEXT NOT NULL,
                        FOREIGN KEY (contact_id) REFERENCES contacts(id) ON DELETE CASCADE
                    );
                    INSERT INTO new_peers 
                    SELECT id, peer_id, contact_id, name, is_active, created_at, updated_at 
                    FROM peers;
                    DROP TABLE peers;
                    ALTER TABLE new_peers RENAME TO peers;") in
  try! _ := execute_batch (batch "CREATE TABLE received_files (
                        id               TEXT PRIMARY KEY,
                        peer_id          TEXT NOT NULL,
                        filerequest_id   TEXT NOT NULL,
                        file_name        TEXT NOT NULL,
                        file_path        TEXT NOT NULL,
                        size             INTEGER NOT NULL,
                        received_at_ms   INTEGER NOT NULL,
                        contact_id       TEXT NOT NULL,
                        FOREIGN KEY(contact_id) REFERENCES contacts(id),
                        FOREIGN KEY(peer_id)    REFERENCES peers(id),
                        FOREIGN KEY(filerequest_id) REFERENCES filerequests(id)
                    );") in
  try! _ := execute_batch (batch "CREATE TEMP TABLE remote_fr_temp AS SELECT * FROM remote_filerequests;
                     ALTER TABLE remote_filerequests RENAME TO remote_fr_old;") in
  try! _ := execute_batch (batch "CREATE TABLE remote_filerequests (
                        id TEXT PRIMARY KEY,
                        peer_id TEXT NOT NULL,
                        filerequest_id TEXT NOT NULL,
                        name TEXT NOT NULL,
                        created_at TEXT NOT NULL,
                        FOREIGN KEY(peer_id) REFERENCES peers(id)
                    );") in
  try! old_records := query_map (sql "SELECT id, peer_id, filerequest_id, name, created_at FROM remote_fr_temp") [] text5 in
  try! _ := for_rows convert_remote_filerequest old_records in
  execute_batch (batch "DROP TABLE remote_fr_old; DROP TABLE remote_fr_temp;").

Definition down_1_3_0 : io C RusqliteError unit :=
  try! _ := execute_batch (batch "CREATE TABLE new_peers (
                        id TEXT NOT NULL,
                        peer_id TEXT NOT NULL,
                        contact_id TEXT NOT NULL,
                        name TEXT NOT NULL,
                        is_active BOOLEAN NOT NULL,
                        created_at TEXT NOT NULL,
                        updated_at TEXT NOT NULL,
                        PRIMARY KEY (id, contact_id),
                        FOREIGN KEY (contact_id) REFERENCES contacts(id) ON DELETE CASCADE
                    );
                    INSERT INTO new_peers 
                    SELECT id, peer_id, contact_id, name, is_active, created_at, updated_at 
                    FROM peers;
                    DROP TABLE peers;
                    ALTER TABLE new_peers RENAME TO peers;") in
  try! _ := execute_batch (batch "CREATE TEMP TABLE remote_fr_temp AS SELECT * FROM remote_filerequests;
                     ALTER TABLE remote_filerequests RENAME TO remote_fr_old;") in
  try! _ := execute_batch (batch "CREATE TABLE remote_filerequests (
                        id TEXT PRIMARY KEY,
                        peer_id TEXT NOT NULL,
                        filerequest_id TEXT NOT NULL,
                        name TEXT NOT NULL,
                        created_at TEXT NOT NULL
                    );") in
  try! records := query_map (sql "SELECT r.id, p.peer_id, r.filerequest_id, r.name, r.created_at 
                         FROM remote_fr_temp r
                         JOIN peers p ON r.peer_id = p.id") [] text5 in
  try! _ := for_rows (fun '(id, libp2p_peer_id, filerequest_id, name, created_at) =>
    execute (sql "INSERT INTO remote_filerequests (id, peer_id, filerequest_id, name, created_at)
                         VALUES (?, ?, ?, ?, ?)") [Text id; Text libp2p_peer_id; Text filerequest_id; Text name; Text created_at]) records in
  execute_batch (batch "DROP TABLE remote_fr_old;
                     DROP TABLE remote_fr_temp;
                     DROP TABLE IF EXISTS received_files;").

(** Add index on peer_id column in peers table *)
Definition up_1_4_0 : io C RusqliteError unit :=
  try! _ := execute (sql "CREATE UNIQUE INDEX IF NOT EXISTS idx_peers_peer_id ON peers(peer_id)") [] in
  io_ret tt.

Definition down_1_4_0 : io C RusqliteError unit :=
  try! _ := execute (sql "DROP INDEX IF EXISTS idx_peers_peer_id") [] in
  io_ret tt.

(** Add soft deletion support for contacts and peers *)
Definition up_1_5_0 : io C RusqliteError unit :=
  execute_batch (batch "ALTER TABLE contacts ADD COLUMN deleted_at TEXT;
                     ALTER TABLE peers ADD COLUMN deleted_at TEXT;
                     
                     -- Create indices for better performance on common queries
                     CREATE INDEX idx_contacts_deleted_at ON contacts(deleted_at);
                     CREATE INDEX idx_peers_deleted_at ON peers(deleted_at);").

Definition down_1_5_0 : io C RusqliteError unit :=
  execute_batch (batch "DROP INDEX IF EXISTS idx_peers_deleted_at;
                     DROP INDEX IF EXISTS idx_contacts_deleted_at;
                     
                     CREATE TABLE new_contacts (
                         id TEXT PRIMARY KEY,
                         name TEXT NOT NULL,
                         created_at TEXT NOT NULL,
                         updated_at TEXT NOT NULL
                     );
                     INSERT INTO new_contacts SELECT id, name, created_at, updated_at FROM contacts;
                     DROP TABLE contacts;
                     ALTER TABLE new_contacts RENAME TO contacts;
                     
                     CREATE TABLE new_peers (
                         id TEXT PRIMARY KEY,
                         peer_id TEXT NOT NULL,
                         contact_id TEXT NOT NULL,
                         name TEXT NOT NULL,
                         is_active BOOLEAN NOT NULL,
                         created_at TEXT NOT NULL,
                         updated_at TEXT NOT NULL,
                         FOREIGN KEY (contact_id) REFERENCES contacts(id) ON DELETE CASCADE
                     );
                     INSERT INTO new_peers SELECT id, peer_id, contact_id, name, is_active, created_at, updated_at FROM peers;
                     DROP TABLE peers;
                     ALTER TABLE new_peers RENAME TO peers;
                     CREATE UNIQUE INDEX idx_peers_peer_id ON peers(peer_id);").

(** Update filerequest access_type constraint and modify audience table to use contacts *)
Definition up_1_6_0 : io C RusqliteError unit :=
  try! _ := execute (sql "PRAGMA foreign_keys = OFF") [] in
  try! _ := execute (sql "PRAGMA legacy_alter_table = ON") [] in
  try! _ := execute_batch (batch "CREATE TABLE new_filerequests (
                        id TEXT PRIMARY KEY,
                        title TEXT NOT NULL,
                        description TEXT,
                        created_at TEXT NOT NULL,
                        updated_at TEXT NOT NULL,
                        status TEXT CHECK (status IN ('active', 'paused')) NOT NULL DEFAULT 'active',
                        access_type TEXT CHECK (access_type IN ('public', 'audience')) NOT NULL DEFAULT 'audience'
                    );

                    -- Create new audience table referencing new filerequests table
                    CREATE TABLE new_filerequest_audience (
                        filerequest_id TEXT NOT NULL,
                        contact_id TEXT NOT NULL,
                        created_at TEXT NOT NULL,
                        PRIMARY KEY (filerequest_id, contact_id),
                        FOREIGN KEY (filerequest_id) REFERENCES new_filerequests(id) ON DELETE CASCADE,
                        FOREIGN KEY (contact_id) REFERENCES contacts(id) ON DELETE CASCADE
                    );

                    -- Create new received_files table referencing new filerequests table
                    CREATE TABLE new_received_files (
                        id TEXT PRIMARY KEY,
                        peer_id TEXT NOT NULL,
                        filerequest_id TEXT NOT NULL,
                        file_name TEXT NOT NULL,
                        file_path TEXT NOT NULL,
                        size INTEGER NOT NULL,
                        received_at_ms INTEGER NOT NULL,
                        contact_id TEXT NOT NULL,
                        FOREIGN KEY(contact_id) REFERENCES contacts(id),
                        FOREIGN KEY(peer_id) REFERENCES peers(id),
                        FOREIGN KEY(filerequest_id) REFERENCES new_filerequests(id)
                    );") in
  try! _ := execute_batch (batch "INSERT INTO new_filerequests 
                     SELECT id, title, description, created_at, updated_at, status,
                            CASE WHEN access_type IN ('public', 'audience') 
                                 THEN access_type 
                                 ELSE 'audience' 
                            END
                     FROM filerequests;
                     
                     INSERT INTO new_filerequest_audience 
                     SELECT filerequest_id, peer_id, created_at
                     FROM filerequest_audience;

                     INSERT INTO new_received_files
                     SELECT * FROM received_files;") in
  try! _ := execute_batch (batch "DROP TABLE received_files;
                     DROP TABLE filerequest_audience;
                     DROP TABLE filerequests;
                     
                     ALTER TABLE new_filerequests RENAME TO filerequests;
                     ALTER TABLE new_filerequest_audience RENAME TO filerequest_audience;
                     ALTER TABLE new_received_files RENAME TO received_files;") in
  try! _ := execute (sql "PRAGMA legacy_alter_table = OFF") [] in
  try! _ := execute (sql "PRAGMA foreign_keys = ON") [] in
  io_ret tt.

Definition down_1_6_0 : io C RusqliteError unit :=
  try! _ := execute (sql "PRAGMA foreign_keys = OFF") [] in
  try! _ := execute (sql "PRAGMA legacy_alter_table = ON") [] in
  try! _ := execute_batch (batch "CREATE TABLE new_filerequests (
                        id TEXT PRIMARY KEY,
                        title TEXT NOT NULL,
                        description TEXT,
                        created_at TEXT NOT NULL,
                        updated_at TEXT NOT NULL,
                        status TEXT CHECK (status IN ('active', 'paused')) NOT NULL DEFAULT 'active',
                        access_type TEXT NOT NULL
                    );

                    CREATE TABLE new_filerequest_audience (
                        filerequest_id TEXT NOT NULL,
                        peer_id TEXT NOT NULL,
                        created_at TEXT NOT NULL,
                        PRIMARY KEY (filerequest_id, peer_id),
                        FOREIGN KEY (filerequest_id) REFERENCES new_filerequests(id) ON DELETE CASCADE
                    );

                    CREATE TABLE new_received_files (
                        id TEXT PRIMARY KEY,
                        peer_id TEXT NOT NULL,
                        filerequest_id TEXT NOT NULL,
                        file_name TEXT NOT NULL,
                        file_path TEXT NOT NULL,
                        size INTEGER NOT NULL,
                        received_at_ms INTEGER NOT NULL,
                        contact_id TEXT NOT NULL,
                        FOREIGN KEY(contact_id) REFERENCES contacts(id),
                        FOREIGN KEY(peer_id) REFERENCES peers(id),
                        FOREIGN KEY(filerequest_id) REFERENCES new_filerequests(id)
                    );") in
  try! _ := execute_batch (batch "INSERT INTO new_filerequests SELECT * FROM filerequests;
                     
                     INSERT INTO new_filerequest_audience (filerequest_id, peer_id, created_at)
                     SELECT filerequest_id, contact_id, created_at FROM filerequest_audience;

                     INSERT INTO new_received_files SELECT * FROM received_files;") in
  try! _ := execute_batch (batch "DROP TABLE received_files;
                     DROP TABLE filerequest_audience;
                     DROP TABLE filerequests;
                     
                     ALTER TABLE new_filerequests RENAME TO filerequests;
                     ALTER TABLE new_filerequest_audience RENAME TO filerequest_audience;
                     ALTER TABLE new_received_files RENAME TO received_files;") in
  try! _ := execute (sql "PRAGMA legacy_alter_table = OFF") [] in
  try! _ := execute (sql "PRAGMA foreign_keys = ON") [] in
  io_ret tt.

(** Update received_files to use libp2p peer IDs directly *)
Definition up_1_7_0 : io C RusqliteError unit :=
  execute_batch (batch "CREATE TABLE new_received_files (
                        id TEXT PRIMARY KEY,
                        peer_id TEXT NOT NULL,
                        filerequest_id TEXT NOT NULL,
                        file_name TEXT NOT NULL,
                        file_path TEXT NOT NULL,
                        size INTEGER NOT NULL,
                        received_at_ms INTEGER NOT NULL,
                        FOREIGN KEY(filerequest_id) REFERENCES filerequests(id)
                    );

                    -- Copy existing records, getting original libp2p peer_id from peers table
                    INSERT INTO new_received_files (id, peer_id, filerequest_id, file_name, file_path, size, received_at_ms)
                    SELECT r.id, p.peer_id, r.filerequest_id, r.file_name, r.file_path, r.size, r.received_at_ms
                    FROM received_files r
                    JOIN peers p ON r.peer_id = p.id;

                    -- Drop old table and rename new one
                    DROP TABLE received_files;
                    ALTER TABLE new_received_files RENAME TO received_files;").

Definition down_1_7_0 : io C RusqliteError unit :=
  execute_batch (batch "CREATE TABLE new_received_files (
                        id TEXT PRIMARY KEY,
                        peer_id TEXT NOT NULL,
                        filerequest_id TEXT NOT NULL,
                        file_name TEXT NOT NULL,
                        file_path TEXT NOT NULL,
                        size INTEGER NOT NULL,
                        received_at_ms INTEGER NOT NULL,
                        contact_id TEXT NOT NULL,
                        FOREIGN KEY(contact_id) REFERENCES contacts(id),
                        FOREIGN KEY(peer_id) REFERENCES peers(id),
                        FOREIGN KEY(filerequest_id) REFERENCES filerequests(id)
                    );

                    -- We'll lose some data on downgrade as we can't reliably reconstruct the relationships
                    -- Copy only records where we can find matching peers
                    INSERT INTO new_received_files (id, peer_id, filerequest_id, file_name, file_path, size, received_at_ms, contact_id)
                    SELECT r.id, p.id, r.filerequest_id, r.file_name, r.file_path, r.size, r.received_at_ms, p.contact_id
                    FROM received_files r
                    JOIN peers p ON r.peer_id = p.peer_id;

                    -- Drop old table and rename new one
                    DROP TABLE received_files;
                    ALTER TABLE new_received_files RENAME TO received_files;").

(** Add ON DELETE CASCADE to received_files and pending_files foreign keys *)
Definition up_1_7_1 : io C RusqliteError unit :=
  execute_batch (batch "PRAGMA foreign_keys=OFF;
                     
                     -- Update received_files
                     CREATE TABLE received_files_new (
                         id            TEXT PRIMARY KEY,
                         peer_id       TEXT NOT NULL,
                         filerequest_id TEXT NOT NULL,
                         file_name     TEXT NOT NULL,
                         file_path     TEXT NOT NULL,
                         size          INTEGER NOT NULL,
                         received_at_ms INTEGER NOT NULL,
                         FOREIGN KEY(filerequest_id) REFERENCES filerequests(id) ON DELETE CASCADE
                     );

                     INSERT INTO received_files_new 
                     SELECT id, peer_id, filerequest_id, file_name, file_path, size, received_at_ms
                     FROM received_files;

                     DROP TABLE received_files;
                     ALTER TABLE received_files_new RENAME TO received_files;

                     -- Update pending_files
                     CREATE TABLE pending_files_new (
                         id TEXT PRIMARY KEY,
                         file_path TEXT NOT NULL,
                         target_filerequest_id TEXT NOT NULL,
                         status TEXT CHECK (status IN ('Pending', 'Sending', 'Sent', 'Rejected', 'Failed')) NOT NULL DEFAULT 'Pending',
                         created_at TEXT NOT NULL,
                         FOREIGN KEY(target_filerequest_id) REFERENCES remote_filerequests(id) ON DELETE CASCADE
                     );

                     INSERT INTO pending_files_new 
                     SELECT id, file_path, target_filerequest_id, status, created_at
                     FROM pending_files;

                     DROP TABLE pending_files;
                     ALTER TABLE pending_files_new RENAME TO pending_files;
                     
                     PRAGMA foreign_keys=ON;").

Definition down_1_7_1 : io C RusqliteError unit :=
  execute_batch (batch "PRAGMA foreign_keys=OFF;
                     
                     -- Revert received_files
                     CREATE TABLE received_files_new (
                         id            TEXT PRIMARY KEY,
                         peer_id       TEXT NOT NULL,
                         filerequest_id TEXT NOT NULL,
                         file_name     TEXT NOT NULL,
                         file_path     TEXT NOT NULL,
                         size          INTEGER NOT NULL,
                         received_at_ms INTEGER NOT NULL,
                         FOREIGN KEY(filerequest_id) REFERENCES filerequests(id)
                     );

                     INSERT INTO received_files_new 
                     SELECT id, peer_id, filerequest_id, file_name, file_path, size, received_at_ms
                     FROM received_files;

                     DROP TABLE received_files;
                     ALTER TABLE received_files_new RENAME TO received_files;

                     -- Revert pending_files
                     CREATE TABLE pending_files_new (
                         id TEXT PRIMARY KEY,
                         file_path TEXT NOT NULL,
                         target_filerequest_id TEXT NOT NULL,
                         status TEXT CHECK (status IN ('Pending', 'Sending', 'Sent', 'Rejected', 'Failed')) NOT NULL DEFAULT 'Pending',
                         created_at TEXT NOT NULL,
                         FOREIGN KEY(target_filerequest_id) REFERENCES remote_filerequests(id)
                     );

                     INSERT INTO pending_files_new 
                     SELECT id, file_path, target_filerequest_id, status, created_at
                     FROM pending_files;

                     DROP TABLE pending_files;
                     ALTER TABLE pending_files_new RENAME TO pending_files;
                     
                     PRAGMA foreign_keys=ON;").

(** Remove is_active column from peers table *)
Definition up_1_8_0 : io C RusqliteError unit :=
  execute_batch (batch "PRAGMA foreign_keys=OFF;
                     CREATE TABLE new_peers (
                         id TEXT PRIMARY KEY,
                         peer_id TEXT NOT NULL,
                         contact_id TEXT NOT NULL,
                         name TEXT NOT NULL,
                         created_at TEXT NOT NULL,
                         updated_at TEXT NOT NULL,
                         FOREIGN KEY(contact_id) REFERENCES contacts(id) ON DELETE CASCADE
                     );
                     INSERT INTO new_peers (id, peer_id, contact_id, name, created_at, updated_at)
                     SELECT id, peer_id, contact_id, name, created_at, updated_at FROM peers;
                     DROP TABLE peers;
                     ALTER TABLE new_peers RENAME TO peers;
                     PRAGMA foreign_keys=ON;").

Definition down_1_8_0 : io C RusqliteError unit :=
  execute_batch (batch "PRAGMA foreign_keys=OFF;
                     CREATE TABLE new_peers (
                         id TEXT PRIMARY KEY,
                         peer_id TEXT NOT NULL,
                         contact_id TEXT NOT NULL,
                         name TEXT NOT NULL,
                         is_active BOOLEAN NOT NULL DEFAULT 0,
                         created_at TEXT NOT NULL,
                         updated_at TEXT NOT NULL,
                         FOREIGN KEY(contact_id) REFERENCES contacts(id) ON DELETE CASCADE
                     );
                     INSERT INTO new_peers (id, peer_id, contact_id, name, is_active, created_at, updated_at)
                     SELECT id, peer_id, contact_id, name, 0, created_at, updated_at FROM peers;
                     DROP TABLE peers;
                     ALTER TABLE new_peers RENAME TO peers;
                     PRAGMA foreign_keys=ON;").

(** Add self_contact table for storing CRDT blob *)
Definition up_1_9_0 : io C RusqliteError unit :=
  execute_batch (batch "CREATE TABLE IF NOT EXISTS self_contact (
                        data BLOB NOT NULL,
                        schema_version TEXT NOT NULL
                     );").

Definition down_1_9_0 : io C RusqliteError unit :=
  execute_batch (batch "DROP TABLE IF EXISTS self_contact;").

(** Add post-quantum crypto support: extended node_keys, required contact_id in RemoteFilerequest, contact public keys *)
Definition up_1_10_0 : io C RusqliteError unit :=
  try! _ := execute_batch (batch "DROP TABLE IF EXISTS remote_filerequests;
                     
                     CREATE TABLE remote_filerequests (
                        id TEXT PRIMARY KEY,
                        peer_id TEXT NOT NULL,
                        filerequest_id TEXT NOT NULL,
                        name TEXT NOT NULL,
                        created_at TEXT NOT NULL,
                        requires_authentication BOOLEAN DEFAULT 1,
                        contact_id TEXT NOT NULL
                    );") in
  try! _ := execute_batch (batch "DROP TABLE IF EXISTS self_contact;

                     CREATE TABLE self_contact (
                        id INTEGER PRIMARY KEY CHECK (id = 1),
                        contact_id TEXT NOT NULL,
                        name TEXT NOT NULL,
                        dilithium_private_key BLOB,
                        dilithium_public_key BLOB,
                        ed25519_private_key BLOB,
                        ed25519_public_key BLOB
                     );") in
  execute_batch (batch "ALTER TABLE contacts ADD COLUMN dilithium_public_key BLOB;
                     ALTER TABLE contacts ADD COLUMN ed25519_public_key BLOB;").

Definition down_1_10_0 : io C RusqliteError unit :=
  try! _ := execute_batch (batch "DROP TABLE IF EXISTS remote_filerequests;
                     
                     CREATE TABLE remote_filerequests (
                        id TEXT PRIMARY KEY,
                        peer_id TEXT NOT NULL,
                        filerequest_id TEXT NOT NULL,
                        name TEXT NOT NULL,
                        created_at TEXT NOT NULL
                     );") in
  try! _ := execute_batch (batch "CREATE TABLE node_keys_old AS 
                     SELECT id, key_bytes FROM node_keys;
                     DROP TABLE node_keys;
                     ALTER TABLE node_keys_old RENAME TO node_keys;") in
  try! _ := execute_batch (batch "CREATE TABLE contacts_old AS 
                     SELECT id, name, created_at, updated_at FROM contacts;
                     DROP TABLE contacts;
                     ALTER TABLE contacts_old RENAME TO contacts;") in
  execute_batch (batch "DROP TABLE IF EXISTS self_contact;
                     
                     CREATE TABLE self_contact (
                        data BLOB NOT NULL,
                        schema_version TEXT NOT NULL
                     );").

(** Modify received_files table to replace peer_id with contact_id and add verified_sender *)
Record old_received := mk_old_received {
  or_id : string; or_peer_id : string; or_filerequest_id : string; or_file_name : string;
  or_file_path : string; or_size : Z; or_received_at_ms : Z;
}.

Definition read_old_received (r : list value) : result old_received RusqliteError :=
  let! id := get_at get_text r 0 in let! peer_id := get_at get_text r 1 in
  let! filerequest_id := get_at get_text r 2 in let! file_name := get_at get_text r 3 in
  let! file_path := get_at get_text r 4 in let! size := get_at get_i64 r 5 in
  let! received_at_ms := get_at get_i64 r 6 in
  Ok (mk_old_received id peer_id filerequest_id file_name file_path size received_at_ms).

(** The contact of a peer, or a new one; that the new one could not be stored is ignored. *)
Definition contact_of_peer (peer_to_contact : gmap string string) (peer_id : string) : io C RusqliteError string :=
  match peer_to_contact !! peer_id with
  | Some contact_id => io_ret contact_id
  | None =>
      try! contact_id := fresh_id in
      try! prefix := first_bytes peer_id in
      fun c =>
        let? (_, c) := execute (sql "INSERT INTO contacts (id, name, created_at, updated_at) 
                                 VALUES (?, ?, datetime('now'), datetime('now'))")
          [Text contact_id; Text ("Unknown sender " +:+ prefix)] c in
        Ret (Ok contact_id, c)
  end.

Definition convert_received_file (peer_to_contact : gmap string string) (f : old_received) : io C RusqliteError nat :=
  try! contact_id := contact_of_peer peer_to_contact (or_peer_id f) in
  execute (sql "INSERT INTO received_files_new 
                             (id, contact_id, filerequest_id, file_name, file_path, size, received_at_ms, verified_sender) 
                             VALUES (?, ?, ?, ?, ?, ?, ?, 0)")
    [Text (or_id f); Text contact_id; Text (or_filerequest_id f); Text (or_file_name f); Text (or_file_path f);
     Text (pretty (or_size f)); Text (pretty (or_received_at_ms f))].

Definition up_1_11_0 : io C RusqliteError unit :=
  try! peers := query_map (sql "SELECT peer_id, contact_id FROM peers") [] (fun r =>
    let! peer_id := get_at get_text r 0 in let! contact_id := get_at get_text r 1 in Ok (peer_id, contact_id)) in
  let peer_to_contact := list_to_map (rev peers) in
  try! _ := execute_batch (batch "CREATE TABLE received_files_new (
                        id TEXT PRIMARY KEY,
                        contact_id TEXT NOT NULL,
                        filerequest_id TEXT NOT NULL,
                        file_name TEXT NOT NULL,
                        file_path TEXT NOT NULL,
                        size INTEGER NOT NULL,
                        received_at_ms INTEGER NOT NULL,
                        verified_sender BOOLEAN NOT NULL DEFAULT 0,
                        FOREIGN KEY(filerequest_id) REFERENCES filerequests(id) ON DELETE CASCADE
                    );") in
  try! rows := query_map (sql "SELECT id, peer_id, filerequest_id, file_name, file_path, size, received_at_ms 
                         FROM received_files") [] read_old_received in
  try! _ := for_rows (convert_received_file peer_to_contact) rows in
  try! _ := execute (sql "DROP TABLE received_files") [] in
  try! _ := execute (sql "ALTER TABLE received_files_new RENAME TO received_files") [] in
  io_ret tt.

(** Remove peers table *)
Definition up_1_12_0 : io C RusqliteError unit :=
  try! _ := execute (sql "PRAGMA foreign_keys = OFF") [] in
  try! _ := execute (sql "DROP INDEX IF EXISTS idx_peers_peer_id") [] in
  try! _ := execute (sql "DROP TABLE IF EXISTS peers") [] in
  try! _ := execute (sql "PRAGMA foreign_keys = ON") [] in
  io_ret tt.

Definition down_1_12_0 : io C RusqliteError unit :=
  try! _ := execute (sql "PRAGMA foreign_keys = OFF") [] in
  try! _ := execute_batch (batch "CREATE TABLE IF NOT EXISTS peers (
                        id TEXT PRIMARY KEY,
                        peer_id TEXT NOT NULL,
                        contact_id TEXT NOT NULL,
                        name TEXT NOT NULL,
                        created_at TEXT NOT NULL,
                        updated_at TEXT NOT NULL,
                        FOREIGN KEY (contact_id) REFERENCES contacts(id) ON DELETE CASCADE
                    );
                    
                    CREATE UNIQUE INDEX IF NOT EXISTS idx_peers_peer_id ON peers(peer_id);") in
  try! _ := execute (sql "PRAGMA foreign_keys = ON") [] in
  io_ret tt.

(** Remove requires_authentication from remote_filerequests *)
Definition up_1_13_0 : io C RusqliteError unit :=
  try! _ := execute (sql "PRAGMA foreign_keys = OFF") [] in
  try! _ := execute_batch (batch "CREATE TABLE remote_filerequests_new (
                        id TEXT PRIMARY KEY,
                        peer_id TEXT NOT NULL,
                        filerequest_id TEXT NOT NULL,
                        name TEXT NOT NULL,
                        created_at TEXT NOT NULL,
                        contact_id TEXT NOT NULL
                    );
                    
                    -- Copy data, excluding requires_authentication
                    INSERT INTO remote_filerequests_new (id, peer_id, filerequest_id, name, created_at, contact_id)
                    SELECT id, peer_id, filerequest_id, name, created_at, contact_id
                    FROM remote_filerequests;
                    
                    -- Replace old table
                    DROP TABLE remote_filerequests;
                    ALTER TABLE remote_filerequests_new RENAME TO remote_filerequests;") in
  try! _ := execute (sql "PRAGMA foreign_keys = ON") [] in
  io_ret tt.

Definition down_1_13_0 : io C RusqliteError unit :=
  try! _ := execute (sql "PRAGMA foreign_keys = OFF") [] in
  try! _ := execute_batch (batch "CREATE TABLE remote_filerequests_new (
                        id TEXT PRIMARY KEY,
                        peer_id TEXT NOT NULL,
                        filerequest_id TEXT NOT NULL,
                        name TEXT NOT NULL,
                        created_at TEXT NOT NULL,
                        requires_authentication BOOLEAN DEFAULT 1,
                        contact_id TEXT NOT NULL
                    );
                    
                    -- Copy data, adding default requires_authentication value (1/true)
                    INSERT INTO remote_filerequests_new (id, peer_id, filerequest_id, name, created_at, requires_authentication, contact_id)
                    SELECT id, peer_id, filerequest_id, name, created_at, 1, contact_id
                    FROM remote_filerequests;
                    
                    -- Replace old table
                    DROP TABLE remote_filerequests;
                    ALTER TABLE remote_filerequests_new RENAME TO remote_filerequests;") in
  try! _ := execute (sql "PRAGMA foreign_keys = ON") [] in
  io_ret tt.

(** Make contact_id nullable and remove verified_sender from received_files *)
Definition up_1_15_0 : io C RusqliteError unit :=
  try! _ := execute (sql "CREATE TABLE received_files_new (
                        id            TEXT PRIMARY KEY,
                        contact_id    TEXT,
                        filerequest_id TEXT NOT NULL,
                        file_name     TEXT NOT NULL,
                        file_path     TEXT NOT NULL,
                        size          INTEGER NOT NULL,
                        received_at_ms INTEGER NOT NULL,
                        FOREIGN KEY(filerequest_id) REFERENCES filerequests(id) ON DELETE CASCADE
                    )") [] in
  try! _ := execute (sql "INSERT INTO received_files_new (id, contact_id, filerequest_id, file_name, file_path, size, received_at_ms)
                     SELECT id, contact_id, filerequest_id, file_name, file_path, size, received_at_ms
                     FROM received_files") [] in
  try! _ := execute (sql "DROP TABLE received_files") [] in
  try! _ := execute (sql "ALTER TABLE received_files_new RENAME TO received_files") [] in
  io_ret tt.

Definition down_1_15_0 : io C RusqliteError unit :=
  try! _ := execute (sql "CREATE TABLE received_files_new (
                        id            TEXT PRIMARY KEY,
                        contact_id    TEXT NOT NULL,
                        filerequest_id TEXT NOT NULL,
                        file_name     TEXT NOT NULL,
                        file_path     TEXT NOT NULL,
                        size          INTEGER NOT NULL,
                        received_at_ms INTEGER NOT NULL,
                        verified_sender BOOLEAN NOT NULL DEFAULT 0,
                        FOREIGN KEY(filerequest_id) REFERENCES filerequests(id) ON DELETE CASCADE
                    )") [] in
  try! _ := execute (sql "INSERT INTO received_files_new (id, contact_id, filerequest_id, file_name, file_path, size, received_at_ms, verified_sender)
                     SELECT id, contact_id, filerequest_id, file_name, file_path, size, received_at_ms, 0
                     FROM received_files") [] in
  try! _ := execute (sql "DROP TABLE received_files") [] in
  try! _ := execute (sql "ALTER TABLE received_files_new RENAME TO received_files") [] in
  io_ret tt.

(** Add opaque settings table *)
Definition up_1_16_0 : io C RusqliteError unit :=
  execute_batch (batch "CREATE TABLE IF NOT EXISTS settings (
                        id INTEGER PRIMARY KEY CHECK (id = 1),
                        data BLOB NOT NULL DEFAULT X'',
                        version TEXT NOT NULL DEFAULT '0.0.0'
                    );

                    INSERT OR IGNORE INTO settings (id, data, version) VALUES (1, X'', '0.0.0');").

Definition down_1_16_0 : io C RusqliteError unit :=
  try! _ := execute (sql "DROP TABLE IF EXISTS settings") [] in
  io_ret tt.

(** Expand pending_files status with progress tracking; extend received_files with receive-state tracking *)
Definition up_1_17_0 : io C RusqliteError unit :=
  try! _ := execute (sql "PRAGMA foreign_keys = OFF") [] in
  try! _ := execute_batch (batch "CREATE TABLE pending_files_new (
                        id TEXT PRIMARY KEY,
                        file_path TEXT NOT NULL,
                        target_filerequest_id TEXT NOT NULL,
                        status TEXT NOT NULL DEFAULT 'Pending'
                            CHECK (status IN ('Pending', 'Sending', 'Interrupted', 'Sent', 'Rejected', 'Failed')),
                        retry_count INTEGER NOT NULL DEFAULT 0,
                        progress_bytes INTEGER,
                        file_size_bytes INTEGER,
                        transfer_id TEXT,
                        created_at TEXT NOT NULL,
                        FOREIGN KEY(target_filerequest_id) REFERENCES remote_filerequests(id) ON DELETE CASCADE,

                        CHECK (
                            -- Pending: no transfer data
                            (status = 'Pending'
                                AND progress_bytes IS NULL
                                AND file_size_bytes IS NULL
                                AND transfer_id IS NULL)
                            OR
                            -- Sending/Interrupted: transfer data required
                            (status IN ('Prepared', 'Sending', 'Interrupted')
                                AND progress_bytes IS NOT NULL
                                AND progress_bytes >= 0
                                AND file_size_bytes IS NOT NULL
                                AND file_size_bytes >= 0
                                AND transfer_id IS NOT NULL)
                            OR
                            -- Sent: terminal success, no transfer data needed
                            (status = 'Sent'
                                AND progress_bytes IS NULL
                                AND file_size_bytes IS NULL
                                AND transfer_id IS NULL)
                            OR
                            -- Rejected: terminal, no transfer data needed
                            (status = 'Rejected'
                                AND progress_bytes IS NULL
                                AND file_size_bytes IS NULL
                                AND transfer_id IS NULL)
                            OR
                            -- Failed: terminal, no transfer data needed
                            (status = 'Failed'
                                AND progress_bytes IS NULL
                                AND file_size_bytes IS NULL
                                AND transfer_id IS NULL)
                        )
                    );") in
  try! _ := execute_batch (batch "INSERT INTO pending_files_new (id, file_path, target_filerequest_id, status, retry_count, progress_bytes, file_size_bytes, transfer_id, created_at)
                     SELECT id, file_path, target_filerequest_id,
                            CASE WHEN status = 'Sending' THEN 'Pending' ELSE status END,
                            0,
                            NULL,
                            NULL,
                            NULL,
                            created_at
                     FROM pending_files;

                     DROP TABLE pending_files;
                     ALTER TABLE pending_files_new RENAME TO pending_files;") in
  try! _ := execute_batch (batch "CREATE TABLE received_files_new (
                        id              TEXT PRIMARY KEY,
                        contact_id      TEXT,
                        filerequest_id  TEXT NOT NULL,
                        transfer_id     TEXT UNIQUE,
                        file_name       TEXT NOT NULL,
                        file_path       TEXT,
                        file_size_bytes INTEGER NOT NULL,
                        progress_bytes  INTEGER NOT NULL DEFAULT 0,
                        status          TEXT NOT NULL DEFAULT 'Receiving'
                            CHECK (status IN ('Receiving', 'Interrupted', 'Completed', 'Failed')),
                        received_at_ms  INTEGER,
                        FOREIGN KEY(filerequest_id) REFERENCES filerequests(id) ON DELETE CASCADE
                    );") in
  try! _ := execute_batch (batch "INSERT INTO received_files_new (id, contact_id, filerequest_id, transfer_id, file_name, file_path, file_size_bytes, progress_bytes, status, received_at_ms)
                     SELECT id, contact_id, filerequest_id, NULL, file_name, file_path, size, size, 'Completed', received_at_ms
                     FROM received_files;

                     DROP TABLE received_files;
                     ALTER TABLE received_files_new RENAME TO received_files;") in
  try! _ := execute (sql "PRAGMA foreign_keys = ON") [] in
  io_ret tt.

Definition down_1_17_0 : io C RusqliteError unit :=
  try! _ := execute (sql "PRAGMA foreign_keys = OFF") [] in
  try! _ := execute_batch (batch "CREATE TABLE received_files_old (
                        id            TEXT PRIMARY KEY,
                        contact_id    TEXT,
                        filerequest_id TEXT NOT NULL,
                        file_name     TEXT NOT NULL,
                        file_path     TEXT NOT NULL,
                        size          INTEGER NOT NULL,
                        received_at_ms INTEGER NOT NULL,
                        FOREIGN KEY(filerequest_id) REFERENCES filerequests(id) ON DELETE CASCADE
                    );

                    INSERT INTO received_files_old (id, contact_id, filerequest_id, file_name, file_path, size, received_at_ms)
                    SELECT id, contact_id, filerequest_id, file_name, file_path, file_size_bytes, received_at_ms
                    FROM received_files
                    WHERE status = 'Completed' AND file_path IS NOT NULL AND received_at_ms IS NOT NULL;

                    DROP TABLE received_files;
                    ALTER TABLE received_files_old RENAME TO received_files;") in
  try! _ := execute_batch (batch "CREATE TABLE pending_files_old (
                        id TEXT PRIMARY KEY,
                        file_path TEXT NOT NULL,
                        target_filerequest_id TEXT NOT NULL,
                        status TEXT CHECK (status IN ('Pending', 'Sending', 'Sent', 'Rejected', 'Failed')) NOT NULL DEFAULT 'Pending',
                        created_at TEXT NOT NULL,
                        FOREIGN KEY(target_filerequest_id) REFERENCES remote_filerequests(id) ON DELETE CASCADE
                    );

                    INSERT INTO pending_files_old (id, file_path, target_filerequest_id, status, created_at)
                    SELECT id, file_path, target_filerequest_id,
                           CASE
                               WHEN status IN ('Prepared', 'Interrupted') THEN 'Pending'
                               ELSE status
                           END,
                           created_at
                    FROM pending_files;

                    DROP TABLE pending_files;
                    ALTER TABLE pending_files_old RENAME TO pending_files;") in
  try! _ := execute (sql "PRAGMA foreign_keys = ON") [] in
  io_ret tt.

(** Add display_name column to pending_files *)
Definition up_1_18_0 : io C RusqliteError unit :=
  try! _ := execute (sql "ALTER TABLE pending_files ADD COLUMN display_name TEXT") [] in
  io_ret tt.

Definition down_1_18_0 : io C RusqliteError unit :=
  try! _ := execute (sql "ALTER TABLE pending_files DROP COLUMN display_name") [] in
  io_ret tt.

(** Relax CHECK constraints on pending_files terminal states to preserve transfer metadata for diagnostics *)
Definition up_1_18_1 : io C RusqliteError unit :=
  try! _ := execute (sql "PRAGMA foreign_keys = OFF") [] in
  try! _ := execute_batch (batch "CREATE TABLE pending_files_new (
                        id TEXT PRIMARY KEY,
                        file_path TEXT NOT NULL,
                        target_filerequest_id TEXT NOT NULL,
                        status TEXT NOT NULL DEFAULT 'Pending'
                            CHECK (status IN ('Pending', 'Sending', 'Interrupted', 'Sent', 'Rejected', 'Failed')),
                        retry_count INTEGER NOT NULL DEFAULT 0,
                        progress_bytes INTEGER,
                        file_size_bytes INTEGER,
                        transfer_id TEXT,
                        display_name TEXT,
                        created_at TEXT NOT NULL,
                        FOREIGN KEY(target_filerequest_id) REFERENCES remote_filerequests(id) ON DELETE CASCADE,

                        CHECK (
                            -- Pending: no transfer data
                            (status = 'Pending'
                                AND progress_bytes IS NULL AND file_size_bytes IS NULL AND transfer_id IS NULL)
                            OR
                            -- Sending/Interrupted: transfer data required
                            (status IN ('Sending', 'Interrupted')
                                AND progress_bytes IS NOT NULL AND progress_bytes >= 0
                                AND file_size_bytes IS NOT NULL AND file_size_bytes >= 0
                                AND transfer_id IS NOT NULL)
                            OR
                            -- Terminal states: transfer metadata is optional (preserved for diagnostics)
                            (status IN ('Sent', 'Rejected', 'Failed'))
                        )
                    );

                    INSERT INTO pending_files_new (id, file_path, target_filerequest_id, status, retry_count, progress_bytes, file_size_bytes, transfer_id, display_name, created_at)
                    SELECT id, file_path, target_filerequest_id, status, retry_count, progress_bytes, file_size_bytes, transfer_id, display_name, created_at
                    FROM pending_files;

                    DROP TABLE pending_files;
                    ALTER TABLE pending_files_new RENAME TO pending_files;") in
  try! _ := execute (sql "PRAGMA foreign_keys = ON") [] in
  io_ret tt.

Definition down_1_18_1 : io C RusqliteError unit :=
  try! _ := execute (sql "PRAGMA foreign_keys = OFF") [] in
  try! _ := execute_batch (batch "UPDATE pending_files SET progress_bytes = NULL, file_size_bytes = NULL, transfer_id = NULL
                     WHERE status IN ('Sent', 'Rejected', 'Failed');

                    CREATE TABLE pending_files_old (
                        id TEXT PRIMARY KEY,
                        file_path TEXT NOT NULL,
                        target_filerequest_id TEXT NOT NULL,
                        status TEXT NOT NULL DEFAULT 'Pending'
                            CHECK (status IN ('Pending', 'Sending', 'Interrupted', 'Sent', 'Rejected', 'Failed')),
                        retry_count INTEGER NOT NULL DEFAULT 0,
                        progress_bytes INTEGER,
                        file_size_bytes INTEGER,
                        transfer_id TEXT,
                        display_name TEXT,
                        created_at TEXT NOT NULL,
                        FOREIGN KEY(target_filerequest_id) REFERENCES remote_filerequests(id) ON DELETE CASCADE,

                        CHECK (
                            (status = 'Pending'
                                AND progress_bytes IS NULL AND file_size_bytes IS NULL AND transfer_id IS NULL)
                            OR
                            (status IN ('Sending', 'Interrupted')
                                AND progress_bytes IS NOT NULL AND progress_bytes >= 0
                                AND file_size_bytes IS NOT NULL AND file_size_bytes >= 0
                                AND transfer_id IS NOT NULL)
                            OR
                            (status = 'Sent'
                                AND progress_bytes IS NULL AND file_size_bytes IS NULL AND transfer_id IS NULL)
                            OR
                            (status = 'Rejected'
                                AND progress_bytes IS NULL AND file_size_bytes IS NULL AND transfer_id IS NULL)
                            OR
                            (status = 'Failed'
                                AND progress_bytes IS NULL AND file_size_bytes IS NULL AND transfer_id IS NULL)
                        )
                    );

                    INSERT INTO pending_files_old (id, file_path, target_filerequest_id, status, retry_count, progress_bytes, file_size_bytes, transfer_id, display_name, created_at)
                    SELECT id, file_path, target_filerequest_id, status, retry_count, progress_bytes, file_size_bytes, transfer_id, display_name, created_at
                    FROM pending_files;

                    DROP TABLE pending_files;
                    ALTER TABLE pending_files_old RENAME TO pending_files;") in
  try! _ := execute (sql "PRAGMA foreign_keys = ON") [] in
  io_ret tt.

(** Add interruption_reasons to pending_files *)
Definition up_1_18_2 : io C RusqliteError unit :=
  execute_batch (batch "ALTER TABLE pending_files ADD COLUMN interruption_reasons TEXT NOT NULL DEFAULT '[]';").

Definition down_1_18_2 : io C RusqliteError unit :=
  try! _ := execute (sql "PRAGMA foreign_keys = OFF") [] in
  try! _ := execute_batch (batch "CREATE TABLE pending_files_old (
                        id TEXT PRIMARY KEY,
                        file_path TEXT NOT NULL,
                        target_filerequest_id TEXT NOT NULL,
                        status TEXT NOT NULL DEFAULT 'Pending'
                            CHECK (status IN ('Pending', 'Sending', 'Interrupted', 'Sent', 'Rejected', 'Failed')),
                        retry_count INTEGER NOT NULL DEFAULT 0,
                        progress_bytes INTEGER,
                        file_size_bytes INTEGER,
                        transfer_id TEXT,
                        display_name TEXT,
                        created_at TEXT NOT NULL,
                        FOREIGN KEY(target_filerequest_id) REFERENCES remote_filerequests(id) ON DELETE CASCADE,

                        CHECK (
                            -- Pending: no transfer data
                            (status = 'Pending'
                                AND progress_bytes IS NULL AND file_size_bytes IS NULL AND transfer_id IS NULL)
                            OR
                            -- Sending/Interrupted: transfer data required
                            (status IN ('Sending', 'Interrupted')
                                AND progress_bytes IS NOT NULL AND progress_bytes >= 0
                                AND file_size_bytes IS NOT NULL AND file_size_bytes >= 0
                                AND transfer_id IS NOT NULL)
                            OR
                            -- Terminal states: transfer metadata is optional (preserved for diagnostics)
                            (status IN ('Sent', 'Rejected', 'Failed'))
                        )
                    );

                    INSERT INTO pending_files_old (id, file_path, target_filerequest_id, status, retry_count, progress_bytes, file_size_bytes, transfer_id, display_name, created_at)
                    SELECT id, file_path, target_filerequest_id, status, retry_count, progress_bytes, file_size_bytes, transfer_id, display_name, created_at
                    FROM pending_files;

                    DROP TABLE pending_files;
                    ALTER TABLE pending_files_old RENAME TO pending_files;") in
  try! _ := execute (sql "PRAGMA foreign_keys = ON") [] in
  io_ret tt.

(** Add started_at_ms column to received_files for deterministic .part filenames *)
Definition up_1_19_0 : io C RusqliteError unit :=
  execute_batch (batch "ALTER TABLE received_files ADD COLUMN started_at_ms INTEGER NOT NULL DEFAULT 0;").

Definition down_1_19_0 : io C RusqliteError unit :=
  try! _ := execute (sql "PRAGMA foreign_keys = OFF") [] in
  try! _ := execute_batch (batch "CREATE TABLE received_files_old (
                        id              TEXT PRIMARY KEY,
                        contact_id      TEXT,
                        filerequest_id  TEXT NOT NULL,
                        transfer_id     TEXT UNIQUE,
                        file_name       TEXT NOT NULL,
                        file_path       TEXT,
                        file_size_bytes INTEGER NOT NULL,
                        progress_bytes  INTEGER NOT NULL DEFAULT 0,
                        status          TEXT NOT NULL DEFAULT 'Receiving'
                            CHECK (status IN ('Receiving', 'Interrupted', 'Completed', 'Failed')),
                        received_at_ms  INTEGER,
                        FOREIGN KEY(filerequest_id) REFERENCES filerequests(id) ON DELETE CASCADE
                    );

                    INSERT INTO received_files_old (id, contact_id, filerequest_id, transfer_id, file_name, file_path, file_size_bytes, progress_bytes, status, received_at_ms)
                    SELECT id, contact_id, filerequest_id, transfer_id, file_name, file_path, file_size_bytes, progress_bytes, status, received_at_ms
                    FROM received_files;

                    DROP TABLE received_files;
                    ALTER TABLE received_files_old RENAME TO received_files;") in
  try! _ := execute (sql "PRAGMA foreign_keys = ON") [] in
  io_ret tt.

(** Add peer_id column to received_files for peer-scoped transfer ownership *)
Definition up_1_19_1 : io C RusqliteError unit :=
  execute_batch (batch "ALTER TABLE received_files ADD COLUMN peer_id TEXT NOT NULL DEFAULT '';").

Definition down_1_19_1 : io C RusqliteError unit :=
  try! _ := execute (sql "PRAGMA foreign_keys = OFF") [] in
  try! _ := execute_batch (batch "CREATE TABLE received_files_old (
                        id              TEXT PRIMARY KEY,
                        contact_id      TEXT,
                        filerequest_id  TEXT NOT NULL,
                        transfer_id     TEXT UNIQUE,
                        file_name       TEXT NOT NULL,
                        file_path       TEXT,
                        file_size_bytes INTEGER NOT NULL,
                        progress_bytes  INTEGER NOT NULL DEFAULT 0,
                        status          TEXT NOT NULL DEFAULT 'Receiving'
                            CHECK (status IN ('Receiving', 'Interrupted', 'Completed', 'Failed')),
                        started_at_ms   INTEGER NOT NULL DEFAULT 0,
                        received_at_ms  INTEGER,
                        FOREIGN KEY(filerequest_id) REFERENCES filerequests(id) ON DELETE CASCADE
                    );

                    INSERT INTO received_files_old (id, contact_id, filerequest_id, transfer_id, file_name, file_path, file_size_bytes, progress_bytes, status, started_at_ms, received_at_ms)
                    SELECT id, contact_id, filerequest_id, transfer_id, file_name, file_path, file_size_bytes, progress_bytes, status, started_at_ms, received_at_ms
                    FROM received_files;

                    DROP TABLE received_files;
                    ALTER TABLE received_files_old RENAME TO received_files;") in
  try! _ := execute (sql "PRAGMA foreign_keys = ON") [] in
  io_ret tt.

(** ** The list of steps *)

Record Migration := mk_migration {
  applies_to_version : Version;
  target_version : Version;
  migration_up : io C RusqliteError unit;
}.

Definition get_migrations : list Migration :=
  [mk_migration (mk_version 1 0 0) (mk_version 1 1 0) up_1_1_0;
   mk_migration (mk_version 1 1 0) (mk_version 1 2 0) up_1_2_0;
   mk_migration (mk_version 1 2 0) (mk_version 1 3 0) up_1_3_0;
   mk_migration (mk_version 1 3 0) (mk_version 1 4 0) up_1_4_0;
   mk_migration (mk_version 1 4 0) (mk_version 1 5 0) up_1_5_0;
   mk_migration (mk_version 1 5 0) (mk_version 1 6 0) up_1_6_0;
   mk_migration (mk_version 1 6 0) (mk_version 1 7 0) up_1_7_0;
   mk_migration (mk_version 1 7 0) (mk_version 1 7 1) up_1_7_1;
   mk_migration (mk_version 1 7 1) (mk_version 1 8 0) up_1_8_0;
   mk_migration (mk_version 1 8 0) (mk_version 1 9 0) up_1_9_0;
   mk_migration (mk_version 1 9 0) (mk_version 1 10 0) up_1_10_0;
   mk_migration (mk_version 1 10 0) (mk_version 1 11 0) up_1_11_0;
   mk_migration (mk_version 1 11 0) (mk_version 1 12 0) up_1_12_0;
   mk_migration (mk_version 1 12 0) (mk_version 1 13 0) up_1_13_0;
   mk_migration (mk_version 1 14 0) (mk_version 1 15 0) up_1_15_0;
   mk_migration (mk_version 1 15 0) (mk_version 1 16 0) up_1_16_0;
   mk_migration (mk_version 1 16 0) (mk_version 1 17 0) up_1_17_0;
   mk_migration (mk_version 1 17 0) (mk_version 1 18 0) up_1_18_0;
   mk_migration (mk_version 1 18 0) (mk_version 1 18 1) up_1_18_1;
   mk_migration (mk_version 1 18 1) (mk_version 1 18 2) up_1_18_2;
   mk_migration (mk_version 1 18 2) (mk_version 1 19 0) up_1_19_0;
   mk_migration (mk_version 1 19 0) (mk_version 1 19 1) up_1_19_1].

Definition upgrade (m : Migration) : io C RusqliteError unit :=
  try! _ := migration_up m in
  try! _ := execute (sql "UPDATE schema_version SET version = ?") [Text (version_to_string (target_version m))] in
  io_ret tt.

Definition get_db_version : io C RusqliteError Version :=
  try! version_str := query_row (sql "SELECT version FROM schema_version") [] (fun r => get_at get_text r 0) in
  io_expect (version_parse version_str).

(** The steps that a database of a version needs *)
Definition pending (current_version : Version) : list Migration :=
  List.filter (fun m => version_leb current_version (applies_to_version m)) get_migrations.

Definition run_migrations : io C RusqliteError unit :=
  try! current_version := get_db_version in
  try! _ := for_rows (fun m => transaction id (upgrade m)) (pending current_version) in
  io_ret tt.

(** [SqliteActor::initialize_database] on an opened connection *)
Definition initialize_database : io C RusqliteError unit :=
  try! _ := execute (sql "PRAGMA foreign_keys = ON") [] in
  try! _ := initialize_tables in
  run_migrations.
End Migrations.
