(* ===== verification/Sqlite.v ===== *)
(** * The database behind its trait

    Backup and restoration, the messages of the actor and its loop
    (core/src/library/sqlite/actor.rs, command.rs), and core/src/library/sqlite.rs:
    the client side, which makes the actor an instance of [FilerequestDb]. A message
    carries the type of its answer. *)

From S2P Require Import Prelude Domain NonceWindow Dencryptor KeyExchange ReceiveManager HostPath HostController BrainTypes.
From S2P Require Import Sql SqlText Connection SqliteActor Migrations.
#[local] Open Scope string_scope.
#[local] Open Scope Z_scope.

(** ** What backups use of the host: files, zstd, other connections *)

Class BackupHost (C F : Type) := {
  new_uuid : C -> string * C;
  temp_dir : C -> path;
  open_connection : path -> C -> result C RusqliteError * C;
  copy_pages_out : C -> C -> result unit RusqliteError * C;
  copy_pages_in : C -> C -> result unit RusqliteError * C;
  close_connection : C -> C -> result unit RusqliteError * C;
  zstd_encoder : F -> C -> result unit unit * C;
  compress_file : path -> F -> C -> result unit unit * C;
  finish_encoder : F -> C -> result unit unit * C;
  into_std_file : F -> C -> result unit unit * C;
  zstd_decoder : F -> C -> result unit unit * C;
  create_temp_file : path -> C -> result unit unit * C;
  decompress_into : F -> path -> C -> result unit unit * C;
  remove_path : path -> C -> result unit unit * C;
}.

Section Backup.
Context {C F : Type} `{!SqliteConnection C} `{!ActorEnv C} `{!Semver} `{!BackupHost C F}.

(** [?] of rusqlite and of std::io *)
Definition db {A} (f : C -> result A RusqliteError * C) : io C DbError A := io_map_err (fun _ => DbDatabase) (sys f).
Definition file {A} (f : C -> result A unit * C) : io C DbError A := io_map_err (fun _ => DbIo) (sys f).

Definition backup_database (backup_file : F) (internal_data_dir : path) : io C DbError unit :=
  try! uuid := sys (fun c => let (u, c) := new_uuid c in (Ok u, c)) in
  let full_path := path_join internal_data_dir (path_from (uuid +:+ "_backup.sqlite")) in
  try! backup_conn := db (open_connection full_path) in
  try! _ := db (copy_pages_out backup_conn) in
  try! _ := db (close_connection backup_conn) in
  try! _ := file (zstd_encoder backup_file) in
  try! _ := file (compress_file full_path backup_file) in
  try! _ := file (finish_encoder backup_file) in
  file (remove_path full_path).

(** The migrations of the restored database run on its own connection. *)
Definition migrate_other (backup_conn : C) : io C DbError C :=
  fun c =>
    let? (r, backup_conn) := run_migrations backup_conn in
    Ret (match r with Ok _ => Ok backup_conn | Err _ => Err DbDatabase end, c).

Definition restore_database (backup_file : F) : io C DbError unit :=
  try! _ := io_map_err
    (fun _ => DbGeneric "The file used to restore the backup is used elsewhere which is not allowed")
    (sys (into_std_file backup_file)) in
  try! _ := file (zstd_decoder backup_file) in
  try! uuid := sys (fun c => let (u, c) := new_uuid c in (Ok u, c)) in
  try! dir := ask temp_dir in
  let temp_path := path_join dir (path_from (uuid +:+ "_restore_temp.sqlite")) in
  try! _ := file (create_temp_file temp_path) in
  try! _ := file (decompress_into backup_file temp_path) in
  try! backup_conn := db (open_connection temp_path) in
  try! backup_conn := migrate_other backup_conn in
  try! _ := db (copy_pages_in backup_conn) in
  try! _ := db (close_connection backup_conn) in
  file (remove_path temp_path).
End Backup.

(** ** Messages *)

Inductive SqliteMsg (F : Type) `{!BrainKeys} : Type -> Type :=
| GetFilerequest (id : FylesId) : SqliteMsg F Filerequest
| GetAllFilerequests : SqliteMsg F (list Filerequest)
| CreateFilerequest (fr : CreateFilerequest) : SqliteMsg F FylesId
| UpdateFilerequest (fr : Filerequest) : SqliteMsg F unit
| DeleteFilerequest (id : FylesId) : SqliteMsg F unit
| GetContactName (id : ContactId) : SqliteMsg F string
| GetContactPublicKeys (id : ContactId) : SqliteMsg F (option PublicKeys)
| GetContactNames (ids : list ContactId) : SqliteMsg F (gmap ContactId string)
| GetContact (id : ContactId) : SqliteMsg F Contact
| GetContacts : SqliteMsg F (list DisplayContact)
| UpdateContact (contact : DisplayContact) : SqliteMsg F unit
| DeleteContact (id : ContactId) : SqliteMsg F unit
| StoreNodeKeys (keys : NodeInfo) : SqliteMsg F unit
| GetNodeInfo : SqliteMsg F NodeInfo
| GetRemoteFilerequest (id : FylesId) : SqliteMsg F RemoteFilerequest
| GetRemoteFilerequestsByContact (contact_id : ContactId) : SqliteMsg F (list RemoteFilerequest)
| GetAllRemoteFilerequests : SqliteMsg F (list RemoteFilerequest)
| CreateRemoteFilerequest (remote_fr : CreateRemoteFilerequest) : SqliteMsg F FylesId
| UpdateRemoteFilerequest (id : FylesId) (name : string) : SqliteMsg F unit
| DeleteRemoteFilerequest (id : FylesId) : SqliteMsg F unit
| GetPendingFile (id : FylesId) : SqliteMsg F PendingFile
| GetPendingFiles (target_id : string) : SqliteMsg F (list PendingFile)
| GetAllPendingFiles : SqliteMsg F (list PendingFile)
| CreatePendingFile (pending_file : CreatePendingFiles) : SqliteMsg F (list FylesId)
| UpdatePendingFileStatus (id : FylesId) (status : SendStatus) (retry_count : option Z) : SqliteMsg F FylesId
| AddInterruptionReason (id : FylesId) (reason : string) : SqliteMsg F unit
| DeletePendingFile (id : FylesId) : SqliteMsg F unit
| CountNonTerminalPendingFilesForPath (id : FylesId) : SqliteMsg F Z
| CreateIncomingFile (req : CreateIncomingFile) : SqliteMsg F FylesId
| UpdateReceivedFileStatus (transfer_id : FylesId) (status : ReceiveStatus) (progress_bytes : Z) : SqliteMsg F unit
| GetReceivedFileByTransferId (transfer_id : FylesId) : SqliteMsg F ReceivedFile
| CompleteReceivedFile (req : CompleteReceivedFile) : SqliteMsg F FylesId
| ListReceivedFiles (fr_id : FylesId) : SqliteMsg F (list ReceivedFile)
| DeleteReceivedFile (id : FylesId) : SqliteMsg F unit
| GetStaleReceivedFiles (older_than_ms : Z) : SqliteMsg F (list ReceivedFile)
| GetSelfContact : SqliteMsg F SelfContact
| GetSelfContactForDisplay : SqliteMsg F DisplayContact
| UpdateSelfContactName (name : string) : SqliteMsg F unit
| UpdateIdentity (self_contact : SelfContact) : SqliteMsg F unit
| GetSharablePublicSelfContact : SqliteMsg F Contact
| RegisterContact (contact : Contact) : SqliteMsg F unit
| Backup (backup_file : F) (internal_data_dir : path) : SqliteMsg F unit
| Restore (backup_file : F) : SqliteMsg F unit
| GetSettings : SqliteMsg F (list Z)
| StoreSettings (data : list Z) : SqliteMsg F unit.
Arguments GetFilerequest {F _}.
Arguments GetAllFilerequests {F _}.
Arguments CreateFilerequest {F _}.
Arguments UpdateFilerequest {F _}.
Arguments DeleteFilerequest {F _}.
Arguments GetContactName {F _}.
Arguments GetContactPublicKeys {F _}.
Arguments GetContactNames {F _}.
Arguments GetContact {F _}.
Arguments GetContacts {F _}.
Arguments UpdateContact {F _}.
Arguments DeleteContact {F _}.
Arguments StoreNodeKeys {F _}.
Arguments GetNodeInfo {F _}.
Arguments GetRemoteFilerequest {F _}.
Arguments GetRemoteFilerequestsByContact {F _}.
Arguments GetAllRemoteFilerequests {F _}.
Arguments CreateRemoteFilerequest {F _}.
Arguments UpdateRemoteFilerequest {F _}.
Arguments DeleteRemoteFilerequest {F _}.
Arguments GetPendingFile {F _}.
Arguments GetPendingFiles {F _}.
Arguments GetAllPendingFiles {F _}.
Arguments CreatePendingFile {F _}.
Arguments UpdatePendingFileStatus {F _}.
Arguments AddInterruptionReason {F _}.
Arguments DeletePendingFile {F _}.
Arguments CountNonTerminalPendingFilesForPath {F _}.
Arguments CreateIncomingFile {F _}.
Arguments UpdateReceivedFileStatus {F _}.
Arguments GetReceivedFileByTransferId {F _}.
Arguments CompleteReceivedFile {F _}.
Arguments ListReceivedFiles {F _}.
Arguments DeleteReceivedFile {F _}.
Arguments GetStaleReceivedFiles {F _}.
Arguments GetSelfContact {F _}.
Arguments GetSelfContactForDisplay {F _}.
Arguments UpdateSelfContactName {F _}.
Arguments UpdateIdentity {F _}.
Arguments GetSharablePublicSelfContact {F _}.
Arguments RegisterContact {F _}.
Arguments Backup {F _}.
Arguments Restore {F _}.
Arguments GetSettings {F _}.
Arguments StoreSettings {F _}.

Section Sqlite.
Context {W C F : Type} `{!Primitives W} `{!KeyBytes W} `{!Bincode DilithiumPublic} `{!Bincode DilithiumSecret}.
Context `{!SqliteConnection C} `{!ActorEnv C} `{!Json} `{!Semver} `{!BackupHost C F}.

(** [SqliteActor::run], one message *)
Definition handle_msg {A} (msg : SqliteMsg F A) : io C DbError A :=
  match msg with
  | GetFilerequest id => handle_get_filerequest id
  | GetAllFilerequests => handle_get_all
  | CreateFilerequest fr => handle_create fr
  | UpdateFilerequest fr => handle_update fr
  | DeleteFilerequest id => handle_delete id
  | GetContactName id => handle_get_contact_name id
  | GetContactNames ids => handle_get_contact_names ids
  | GetContact id => handle_get_contact id
  | GetContacts => handle_get_contacts
  | UpdateContact contact => handle_update_contact contact
  | DeleteContact id => handle_delete_contact id
  | StoreNodeKeys keys => handle_store_node_keys keys
  | GetNodeInfo => handle_get_node_keys
  | GetRemoteFilerequest id => handle_get_remote_filerequest id
  | GetRemoteFilerequestsByContact contact_id => handle_get_remote_filerequests_by_contact contact_id
  | GetAllRemoteFilerequests => handle_get_all_remote_filerequests
  | CreateRemoteFilerequest remote_fr => handle_create_remote_filerequest remote_fr
  | DeleteRemoteFilerequest id => handle_delete_remote_filerequest id
  | UpdateRemoteFilerequest id name => handle_update_remote_filerequest id name
  | GetPendingFile id => handle_get_pending_file id
  | GetPendingFiles target_id => handle_get_pending_files target_id
  | GetAllPendingFiles => handle_get_all_pending_files
  | CreatePendingFile pending_file => handle_create_pending_files pending_file
  | UpdatePendingFileStatus id status retry_count => handle_update_pending_file_status id status retry_count
  | AddInterruptionReason id reason => handle_add_interruption_reason id reason
  | DeletePendingFile id => handle_delete_pending_file id
  | CountNonTerminalPendingFilesForPath id => handle_count_non_terminal_pending_files_for_path id
  | CreateIncomingFile req => handle_create_incoming_file req
  | UpdateReceivedFileStatus transfer_id status progress_bytes =>
      handle_update_received_file_status transfer_id status progress_bytes
  | GetReceivedFileByTransferId transfer_id => handle_get_received_file_by_transfer_id transfer_id
  | CompleteReceivedFile req => handle_complete_received_file req
  | ListReceivedFiles fr_id => handle_list_received_files fr_id
  | DeleteReceivedFile id => handle_delete_received_file id
  | GetStaleReceivedFiles older_than_ms => handle_get_stale_received_files older_than_ms
  | GetSelfContact => handle_get_self_contact
  | GetSelfContactForDisplay => handle_get_self_contact_for_display
  | GetContactPublicKeys contact_id => handle_get_contact_public_keys contact_id
  | UpdateSelfContactName name => handle_update_self_contact_name name
  | UpdateIdentity self_contact => handle_update_identity self_contact
  | GetSharablePublicSelfContact => handle_get_sharable_public_self_contact
  | RegisterContact contact => handle_register_contact contact
  | Backup backup_file internal_data_dir => backup_database backup_file internal_data_dir
  | Restore backup_file => restore_database backup_file
  | GetSettings => handle_get_settings
  | StoreSettings data => handle_store_settings data
  end.

(** ** The client

    The actor runs until it panics; then its channel is closed and every call fails. *)
Record Sqlite := mk_sqlite { sq_conn : C; sq_running : bool }.

Definition call {A} (msg : SqliteMsg F A) (w : Sqlite) : result A DbError * Sqlite :=
  if sq_running w
  then match handle_msg msg (sq_conn w) with
       | Ret (r, c) => (r, mk_sqlite c true)
       | _ => (Err DbCommunication, mk_sqlite (sq_conn w) false)
       end
  else (Err DbCommunication, w).

(** [Sqlite::run]: the actor panics if the database cannot be initialized. *)
Definition run_actor (c : C) : Sqlite :=
  match initialize_database c with
  | Ret (Ok _, c) => mk_sqlite c true
  | Ret (Err _, c) => mk_sqlite c false
  | _ => mk_sqlite c false
  end.

(** *** The methods of the trait *)

Definition answer (A : Type) : Type := Sqlite -> result A DbError * Sqlite.

Definition client_get_filerequest (id : FylesId) : answer Filerequest :=
  call (GetFilerequest id).
Definition client_get_filerequests : answer (list Filerequest) :=
  call GetAllFilerequests.
Definition client_create_filerequest (filerequest : BrainTypes.CreateFilerequest) : answer FylesId :=
  call (CreateFilerequest filerequest).
Definition client_update_filerequest (filerequest : Filerequest) : answer unit :=
  call (UpdateFilerequest filerequest).
Definition client_delete_filerequest (id : FylesId) : answer unit :=
  call (DeleteFilerequest id).
Definition client_get_contact_name (id : ContactId) : answer string :=
  call (GetContactName id).
Definition client_get_contact_names (ids : list ContactId) : answer (gmap ContactId string) :=
  call (GetContactNames ids).
Definition client_get_contact (id : ContactId) : answer Contact :=
  call (GetContact id).
Definition client_get_contacts : answer (list DisplayContact) :=
  call GetContacts.
Definition client_update_contact (contact : DisplayContact) : answer unit :=
  call (UpdateContact contact).
Definition client_delete_contact (id : ContactId) : answer unit :=
  call (DeleteContact id).
Definition client_get_contact_public_keys (contact_id : ContactId) : answer (option PublicKeys) :=
  call (GetContactPublicKeys contact_id).
Definition client_store_node_keys (keys : NodeInfo) : answer unit :=
  call (StoreNodeKeys keys).
Definition client_get_node_keys : answer NodeInfo :=
  call GetNodeInfo.
Definition client_get_remote_filerequest (id : FylesId) : answer RemoteFilerequest :=
  call (GetRemoteFilerequest id).
Definition client_get_remote_filerequests_by_contact (contact_id : ContactId) : answer (list RemoteFilerequest) :=
  call (GetRemoteFilerequestsByContact contact_id).
Definition client_get_all_remote_filerequests : answer (list RemoteFilerequest) :=
  call GetAllRemoteFilerequests.
Definition client_create_remote_filerequest (remote_fr : BrainTypes.CreateRemoteFilerequest) : answer FylesId :=
  call (CreateRemoteFilerequest remote_fr).
Definition client_delete_remote_filerequest (id : FylesId) : answer unit :=
  call (DeleteRemoteFilerequest id).
Definition client_update_remote_filerequest (id : FylesId) (name : string) : answer unit :=
  call (UpdateRemoteFilerequest id name).
Definition client_get_pending_file (id : FylesId) : answer PendingFile :=
  call (GetPendingFile id).
Definition client_get_pending_files (target : FylesId) : answer (list PendingFile) :=
  call (GetPendingFiles target).
Definition client_get_all_pending_files : answer (list PendingFile) :=
  call GetAllPendingFiles.
Definition client_create_pending_files (pending_file : CreatePendingFiles) : answer (list FylesId) :=
  call (CreatePendingFile pending_file).
Definition client_update_pending_file_status (id : FylesId) (status : SendStatus) (retry_count : option Z) : answer FylesId :=
  call (UpdatePendingFileStatus id status retry_count).
Definition client_add_interruption_reason (id : FylesId) (reason : string) : answer unit :=
  call (AddInterruptionReason id reason).
Definition client_delete_pending_file (id : FylesId) : answer unit :=
  call (DeletePendingFile id).
Definition client_count_non_terminal_pending_files_for_path (id : FylesId) : answer Z :=
  call (CountNonTerminalPendingFilesForPath id).
Definition client_create_incoming_file (incoming : ReceiveManager.CreateIncomingFile) : answer FylesId :=
  call (CreateIncomingFile incoming).
Definition client_update_received_file_status (transfer_id : FylesId) (status : ReceiveStatus) (progress_bytes : Z) : answer unit :=
  call (UpdateReceivedFileStatus transfer_id status progress_bytes).
Definition client_get_received_file_by_transfer_id (transfer_id : FylesId) : answer ReceivedFile :=
  call (GetReceivedFileByTransferId transfer_id).
Definition client_complete_received_file (completed : ReceiveManager.CompleteReceivedFile) : answer FylesId :=
  call (CompleteReceivedFile completed).
Definition client_list_received_files (filerequest_id : FylesId) : answer (list ReceivedFile) :=
  call (ListReceivedFiles filerequest_id).
Definition client_delete_received_file (id : FylesId) : answer unit :=
  call (DeleteReceivedFile id).
Definition client_get_stale_received_files (older_than_ms : Z) : answer (list ReceivedFile) :=
  call (GetStaleReceivedFiles older_than_ms).
Definition client_get_self_contact : answer SelfContact :=
  call GetSelfContact.
Definition client_get_self_contact_for_display : answer DisplayContact :=
  call GetSelfContactForDisplay.
Definition client_update_self_contact_name (name : string) : answer unit :=
  call (UpdateSelfContactName name).
Definition client_update_identity (self_contact : SelfContact) : answer unit :=
  call (UpdateIdentity self_contact).
Definition client_get_sharable_public_self_contact : answer Contact :=
  call GetSharablePublicSelfContact.
Definition client_register_contact (contact : Contact) : answer unit :=
  call (RegisterContact contact).
Definition client_backup_database (backup_file : F) (internal_data_dir : path) : answer unit :=
  call (Backup backup_file internal_data_dir).
Definition client_restore_database (backup_file : F) : answer unit :=
  call (Restore backup_file).
Definition client_get_settings : answer (list Z) :=
  call GetSettings.
Definition client_store_settings (settings : list Z) : answer unit :=
  call (StoreSettings settings).

#[export] Instance sqlite_filerequest_db : FilerequestDb Sqlite F := {|
  db_get_filerequest := client_get_filerequest;
  db_get_filerequests := client_get_filerequests;
  db_create_filerequest := client_create_filerequest;
  db_update_filerequest := client_update_filerequest;
  db_delete_filerequest := client_delete_filerequest;
  db_get_contact_name := client_get_contact_name;
  db_get_contact_names := client_get_contact_names;
  db_get_contact := client_get_contact;
  db_get_contacts := client_get_contacts;
  db_update_contact := client_update_contact;
  db_delete_contact := client_delete_contact;
  db_get_contact_public_keys := client_get_contact_public_keys;
  db_store_node_keys := client_store_node_keys;
  db_get_node_keys := client_get_node_keys;
  db_get_remote_filerequest := client_get_remote_filerequest;
  db_get_remote_filerequests_by_contact := client_get_remote_filerequests_by_contact;
  db_get_all_remote_filerequests := client_get_all_remote_filerequests;
  db_create_remote_filerequest := client_create_remote_filerequest;
  db_delete_remote_filerequest := client_delete_remote_filerequest;
  db_update_remote_filerequest := client_update_remote_filerequest;
  db_get_pending_file := client_get_pending_file;
  db_get_pending_files := client_get_pending_files;
  db_get_all_pending_files := client_get_all_pending_files;
  db_create_pending_files := client_create_pending_files;
  db_update_pending_file_status := client_update_pending_file_status;
  db_add_interruption_reason := client_add_interruption_reason;
  db_delete_pending_file := client_delete_pending_file;
  db_count_non_terminal_pending_files_for_path := client_count_non_terminal_pending_files_for_path;
  db_create_incoming_file := client_create_incoming_file;
  db_update_received_file_status := client_update_received_file_status;
  db_get_received_file_by_transfer_id := client_get_received_file_by_transfer_id;
  db_complete_received_file := client_complete_received_file;
  db_list_received_files := client_list_received_files;
  db_delete_received_file := client_delete_received_file;
  db_get_stale_received_files := client_get_stale_received_files;
  db_get_self_contact := client_get_self_contact;
  db_get_self_contact_for_display := client_get_self_contact_for_display;
  db_update_self_contact_name := client_update_self_contact_name;
  db_update_identity := client_update_identity;
  db_get_sharable_public_self_contact := client_get_sharable_public_self_contact;
  db_register_contact := client_register_contact;
  db_backup_database := client_backup_database;
  db_restore_database := client_restore_database;
  db_get_settings := client_get_settings;
  db_store_settings := client_store_settings;
|}.
End Sqlite.
