(* ===== verification/SqliteStore.v ===== *)
(** * What the database holds

    The tables of a new database, the kinds of their columns and the invariant of
    the data the actor keeps: the constraints of the schema, and rows that can be
    read. Rules for statements on a connection whose data satisfy it. *)

From S2P Require Import Prelude Domain NonceWindow Dencryptor KeyExchange ReceiveManager HostPath HostController BrainTypes.
From S2P Require Import Sql SqlText SqlTheory Connection SqliteActor Migrations Sqlite.
#[local] Open Scope string_scope.
#[local] Open Scope Z_scope.

Definition current_schema : schema := Eval vm_compute in
  foldl (fun sch st => match st with CreateTable _ t d => <[t := d]> sch | _ => sch end) ∅
    (sql "CREATE TABLE IF NOT EXISTS schema_version (
            version TEXT NOT NULL
        )" :: current_tables).

(** ** Kinds *)

Definition text := mk_kind BText false.
Definition text_or_null := mk_kind BText true.
Definition int := mk_kind BInt false.
Definition int_or_null := mk_kind BInt true.
Definition natural := mk_kind BNat false.
Definition natural_or_null := mk_kind BNat true.
Definition blob := mk_kind BBlob false.
Definition blob_or_null := mk_kind BBlob true.

Definition store_kinds : gmap string row_kinds := list_to_map [
  ("filerequests", [("id", text); ("title", text); ("description", text); ("created_at", text); ("updated_at", text);
     ("status", text); ("access_type", text)]);
  ("contacts", [("id", text); ("name", text); ("created_at", text); ("updated_at", text);
     ("dilithium_public_key", blob_or_null); ("ed25519_public_key", blob_or_null)]);
  ("filerequest_audience", [("filerequest_id", text); ("contact_id", text); ("created_at", text)]);
  ("node_keys", [("id", int); ("key_bytes", blob)]);
  ("remote_filerequests", [("id", text); ("peer_id", text); ("filerequest_id", text); ("name", text); ("created_at", text);
     ("contact_id", text)]);
  ("pending_files", [("id", text); ("file_path", text); ("target_filerequest_id", text); ("status", text);
     ("retry_count", natural); ("progress_bytes", natural_or_null); ("file_size_bytes", natural_or_null);
     ("transfer_id", text_or_null); ("display_name", text_or_null); ("interruption_reasons", text); ("created_at", text)]);
  ("received_files", [("id", text); ("contact_id", text_or_null); ("peer_id", text); ("filerequest_id", text);
     ("transfer_id", text_or_null); ("file_name", text); ("file_path", text_or_null); ("file_size_bytes", int);
     ("progress_bytes", int); ("status", text); ("started_at_ms", int); ("received_at_ms", int_or_null)]);
  ("self_contact", [("id", int); ("contact_id", text); ("name", text); ("dilithium_private_key", blob);
     ("dilithium_public_key", blob); ("ed25519_private_key", blob); ("ed25519_public_key", blob)]);
  ("settings", [("id", int); ("data", blob); ("version", text)])].

Lemma store_kinds_agree : kinds_agree store_kinds current_schema.
Proof.
  assert (forallb (fun '(t, ks) => match current_schema !! t with Some d => kinds_match ks d | None => false end)
            (map_to_list store_kinds) = true) as H by (vm_compute; reflexivity).
  rewrite forallb_elem in H. intros t ks Ht. specialize (H (t, ks) (proj2 (elem_of_map_to_list _ _ _) Ht)). cbn in H.
  destruct (current_schema !! t) as [d|]; [|done]. by exists d.
Qed.

#[global] Opaque current_schema store_kinds.

(** ** The invariant *)

Definition version_row {HV : Semver} : row := [("version", Text (version_to_string CURRENT_VERSION))].

Record data_ok {HV : Semver} (d : database) : Prop := {
  ok_schema : db_schema d = current_schema;
  ok_indexes : db_indexes d = [];
  ok_integrity : integrity d;
  ok_typed : typed store_kinds (db_rows d);
  ok_version : rows_of (db_rows d) "schema_version" = [version_row];
}.

(** Statements that leave the schema and its version alone. *)
Definition edits (st : stmt) : bool :=
  changes_rows st && negb (bool_decide (target st = Some "schema_version")).

Lemma edits_changes_rows st : edits st = true -> changes_rows st = true.
Proof. by intros [? _]%andb_true_iff. Qed.

Lemma edits_version legacy st ps now d out d' :
  edits st = true -> db_schema d = current_schema -> exec true legacy st ps now d = Ok (out, d') ->
  rows_of (db_rows d') "schema_version" = rows_of (db_rows d) "schema_version".
Proof.
  intros [Hc Ht%negb_true_iff%bool_decide_eq_false]%andb_true_iff Hs Hx. eapply exec_other; [done..| |done].
  rewrite Hs. intros tb Htb. vm_compute in Htb. by injection Htb as <-.
Qed.

Definition store_ok {HV : Semver} (s : session) : Prop :=
  s_enforce s = true /\ data_ok (s_db s) /\ (forall d, s_saved s = Some d -> data_ok d).

(** No transaction is open between two messages. *)
Definition ready {HV : Semver} (s : session) : Prop := store_ok s /\ s_saved s = None.

(** The statement keeps the kinds of the columns. *)
Definition keeps_kinds (st : stmt) (vs : list value) : Prop :=
  forall legacy now d out d', db_schema d = current_schema -> typed store_kinds (db_rows d) ->
    exec true legacy st vs now d = Ok (out, d') -> typed store_kinds (db_rows d').

Lemma keeps_kinds_static ps st vs :
  stmt_has_kinds store_kinds current_schema ps st = true -> Forall2 (fun k v => fits k v = true) ps vs -> keeps_kinds st vs.
Proof. intros Hst Hps legacy now d out d' Hs Hty. by eapply exec_typed; [apply store_kinds_agree|..]. Qed.

Lemma exec_data_ok {HV : Semver} legacy st vs now d out d' :
  edits st = true -> keeps_kinds st vs -> data_ok d -> exec true legacy st vs now d = Ok (out, d') -> data_ok d'.
Proof.
  intros Hc Hk [Hs Hi Hin Hty Hv] He.
  destruct (exec_integrity _ _ _ _ _ _ _ (edits_changes_rows _ Hc) Hin He) as [Hin' [Hs' Hi']].
  split; [congruence|congruence|done|by eapply Hk|]. by rewrite (edits_version _ _ _ _ _ _ _ Hc Hs He).
Qed.

Lemma store_ok_with_db {HV : Semver} s d : store_ok s -> data_ok d -> store_ok (with_db s d).
Proof. intros (He & _ & Hs) Hd. by split; [|split]. Qed.

Lemma store_ok_failed {HV : Semver} s s' : store_ok s -> failed s s' -> store_ok s'.
Proof.
  intros (He & Hd & Hs) [->| ->]; [done|]. split; [done|]. split; [|done]. cbn.
  destruct (s_saved s); cbn; [by apply Hs|done].
Qed.

Lemma ready_failed {HV : Semver} s s' : ready s -> failed s s' -> s' = s.
Proof. intros [_ Hs] [->| ->]; [done|]. unfold rollback. destruct s; cbn in *. by subst. Qed.

Lemma with_db_self s : with_db s (s_db s) = s.
Proof. by destruct s. Qed.

Definition is_pragma (st : stmt) : bool := match st with Pragma _ _ => true | _ => false end.

Lemma step_exec st ps now s :
  is_pragma st = false -> stmt_known (db_schema (s_db s)) st = true ->
  step st ps now s = match exec (s_enforce s) (s_legacy s) st ps now (s_db s) with
                     | Ok (out, d) => (Ok out, with_db s d)
                     | Err e => (Err e, s)
                     end.
Proof. intros Hp Hk. unfold step. destruct st; try done; by rewrite Hk. Qed.

(** ** Rules *)

Section Rules.
Context {C : Type} `{!SqliteConnection C} `{!SqliteLaws C} {HV : Semver}.

Lemma iwp_stmt st ps Q c :
  store_ok (conn_session c) -> edits st = true -> stmt_known current_schema st = true ->
  (forall now out0 d out c',
     exec true (s_legacy (conn_session c)) st ps now (s_db (conn_session c)) = Ok (out0, d) ->
     out_rows out ≡ₚ out_rows out0 -> out_changes out = out_changes out0 ->
     conn_session c' = with_db (conn_session c) d -> Q (Ok out) c') ->
  (forall e c',
     (e = EngineFailure /\ failed (conn_session c) (conn_session c')) \/
     (exists now, exec true (s_legacy (conn_session c)) st ps now (s_db (conn_session c)) = Err e /\
        conn_session c' = conn_session c) -> Q (Err e) c') ->
  iwp (sys (conn_run st ps)) Q c.
Proof.
  intros (He & [Hs _ _ _ _] & _) Hc%edits_changes_rows Hk Hok Herr. apply iwp_sys.
  assert (is_pragma st = false) as Hp by (by destruct st).
  pose proof (conn_run_spec st ps c) as H. destruct (conn_run st ps c) as [r c'] eqn:Er. cbn in *.
  destruct H as [(now & Hr & Hs')|[-> Hf]]; [|apply Herr; by left].
  rewrite step_exec in Hr, Hs' by (done || by rewrite Hs). rewrite He in Hr, Hs'.
  destruct (exec true _ st ps now (s_db (conn_session c))) as [[out0 d]|e] eqn:Ee; cbn in Hr, Hs'.
  - destruct r as [out|]; [|done]. destruct Hr as [Hrows Hch]. by eapply Hok.
  - destruct r as [|e']; [done|]. cbn in Hr. subst. apply Herr. right. eauto.
Qed.

(** A query. *)
Lemma iwp_select q ps Q c :
  store_ok (conn_session c) -> select_known current_schema q = true ->
  (forall now out c', out_rows out ≡ₚ query (mk_context ps now (db_rows (s_db (conn_session c)))) q ->
     conn_session c' = conn_session c -> Q (Ok out) c') ->
  (forall c', failed (conn_session c) (conn_session c') -> Q (Err EngineFailure) c') ->
  iwp (sys (conn_run (Select q) ps)) Q c.
Proof.
  intros Hs Hk Hok Herr. apply iwp_stmt; [done..| |].
  - intros now out0 d out c' [= <- <-] Hrows _ Hs'. rewrite with_db_self in Hs'. by eapply Hok.
  - intros e c' [[-> Hf]|(now & ? & _)]; [by apply Herr|done].
Qed.

(** A change of rows. *)
Lemma iwp_write st ps Q c :
  store_ok (conn_session c) -> edits st = true -> stmt_known current_schema st = true -> keeps_kinds st ps ->
  (forall now out0 d out c',
     exec true (s_legacy (conn_session c)) st ps now (s_db (conn_session c)) = Ok (out0, d) ->
     out_rows out ≡ₚ out_rows out0 -> out_changes out = out_changes out0 ->
     conn_session c' = with_db (conn_session c) d -> store_ok (conn_session c') -> Q (Ok out) c') ->
  (forall e c', failed (conn_session c) (conn_session c') -> store_ok (conn_session c') -> Q (Err e) c') ->
  iwp (sys (conn_run st ps)) Q c.
Proof.
  intros Hs Hc Hk Hkinds Hok Herr. apply iwp_stmt; [done..| |].
  - intros now out0 d out c' He Hrows Hch Hs'. apply (Hok now out0 d out c'); try done. rewrite Hs'.
    apply store_ok_with_db; [done|]. eapply exec_data_ok; [done|done| |done]. by destruct Hs as (_ & Hd & _).
  - intros e c' [[_ Hf]|(now & _ & Hs')]; apply Herr; rewrite ?Hs'; try done; [by eapply store_ok_failed|by left].
Qed.
End Rules.

(** ** Readers: computations that leave the session as it is *)

Class ActorEnvLaws (C : Type) `{!SqliteConnection C} `{!SqliteLaws C} `{!ActorEnv C} := {
  new_fyles_id_session c : conn_session (new_fyles_id c).2 = conn_session c;
}.

Section Readers.
Context {C : Type} `{!SqliteConnection C} `{!SqliteLaws C} `{!ActorEnv C} `{!ActorEnvLaws C} {HV : Semver}.

Definition reader {E A} (m : io C E A) : Prop :=
  forall c, ready (conn_session c) -> iwp m (fun _ c' => conn_session c' = conn_session c) c.

Lemma reader_ret {E A} (a : A) : reader (E := E) (io_ret a).
Proof. by intros c _. Qed.
Lemma reader_throw {E A} (e : E) : reader (A := A) (io_throw e).
Proof. by intros c _. Qed.
Lemma reader_result {E A} (r : result A E) : reader (io_result r).
Proof. by intros c _. Qed.

Lemma reader_bind {E A B} (m : io C E A) (k : A -> io C E B) : reader m -> (forall a, reader (k a)) -> reader (io_bind m k).
Proof.
  intros Hm Hk c Hc. apply iwp_bind. eapply iwp_mono; [by apply Hm|]. cbn. intros [a|e] c' Hs; [|done].
  eapply iwp_mono; [apply Hk; by rewrite Hs|]. cbn. intros _ c'' ->. done.
Qed.

Lemma reader_map_err {E E' A} (f : E -> E') (m : io C E A) : reader m -> reader (io_map_err f m).
Proof. intros Hm c Hc. apply iwp_map_err. eapply iwp_mono; [by apply Hm|]. done. Qed.

Lemma reader_optional {A} (m : io C RusqliteError A) : reader m -> reader (optional_row m).
Proof.
  intros Hm c Hc. specialize (Hm c Hc). unfold iwp, optional_row in *. destruct (m c) as [[r c']| | |]; cbn; done.
Qed.

Lemma reader_outcome {E E' A B} (m : io C E A) (f : result A E -> result B E') :
  reader m -> reader (fun c => let? (r, c) := m c in Ret (f r, c)).
Proof. intros Hm c Hc. specialize (Hm c Hc). unfold iwp in *. destruct (m c) as [[r c']| | |]; cbn; done. Qed.

Lemma reader_select q ps : select_known current_schema q = true -> reader (sys (conn_run (Select q) ps)).
Proof.
  intros Hk c Hc. apply iwp_select; [apply Hc|done|done|]. intros c' Hf. by apply ready_failed.
Qed.

Lemma reader_for_rows {E A B} (f : A -> io C E B) l : (forall a, reader (f a)) -> reader (for_rows f l).
Proof.
  intros Hf. induction l as [|a l IH]; cbn; [apply reader_ret|].
  apply reader_bind; [apply Hf|]. intros b. apply reader_bind; [apply IH|]. intros bs. apply reader_ret.
Qed.

Lemma reader_fresh {E} : reader (fresh_id (E := E)).
Proof.
  intros c _. apply iwp_sys. pose proof (new_fyles_id_session c) as H. by destruct (new_fyles_id c).
Qed.
End Readers.

Create HintDb db_reader.
#[export] Hint Resolve reader_ret reader_throw reader_result reader_fresh : db_reader.
#[export] Hint Extern 0 (_ = true) => (vm_compute; reflexivity) : db_reader.

Ltac reader_step :=
  first
    [ solve [eauto with db_reader]
    | match goal with
      | |- reader (sys (conn_run _ _)) => apply reader_select; vm_compute; reflexivity
      | |- reader (io_bind _ _) => apply reader_bind; [|intros ?]
      | |- reader (io_map_err _ _) => apply reader_map_err
      | |- reader (db_op _) => apply reader_map_err
      | |- reader (rq _) => apply reader_map_err
      | |- reader (optional_row _) => apply reader_optional
      | |- reader (fun c => outcome_bind _ _) => apply reader_outcome
      | |- reader (for_rows _ _) => apply reader_for_rows; intros ?
      | |- reader (match ?x with _ => _ end) => destruct x
      | |- reader _ => progress cbv beta
      end ].
Ltac reader_solve := repeat reader_step.

(** The calls and handlers that are compositions of others. *)
Create HintDb db_calls.
#[export] Hint Unfold query_row query_row_with query_map execute read_contact_ids read_access or_custom custom read_public_keys
  read_contact_keys pending_file read_contact_id handle_get_filerequest handle_get_all handle_get_contact_name
  handle_get_contact_public_keys handle_get_contact handle_get_contacts handle_get_node_keys handle_get_remote_filerequest
  handle_get_remote_filerequests_by_contact handle_get_all_remote_filerequests handle_get_pending_file handle_get_pending_files
  handle_get_all_pending_files handle_count_non_terminal_pending_files_for_path handle_get_received_file_by_transfer_id
  handle_list_received_files handle_get_stale_received_files handle_get_self_contact handle_get_self_contact_for_display
  handle_get_sharable_public_self_contact handle_get_settings : db_calls.
