(* ===== verification/SqliteExample.v ===== *)
(** * A database in memory

    Instances of what the actor uses, on the connection of Connection.v: ids,
    versions, lists of reasons and keys as text. They are the concrete inputs of
    the database's properties. *)

From S2P Require Import Prelude Domain NonceWindow Dencryptor KeyExchange ReceiveManager HostPath HostController BrainTypes.
From S2P Require Import Sql SqlText SqlTheory Connection SqliteActor Migrations Sqlite SqliteStore.
From stdpp Require Import pretty.
#[local] Open Scope string_scope.
#[local] Open Scope Z_scope.

(** A connection whose engine does not fail. *)
Definition reliable (C : Type) `{!SqliteConnection C} : Prop :=
  (forall st ps (c : C), (conn_run st ps c).1 <> Err EngineFailure) /\
  (forall c : C, (conn_begin c).1 <> Err EngineFailure) /\
  (forall c : C, (conn_commit c).1 <> Err EngineFailure).

(** Statements fail for their names or for constraints only. *)
Definition sane {A} (r : result A RusqliteError) : Prop := r <> Err EngineFailure.

Lemma sane_bind {A B} (m : result A RusqliteError) (k : A -> result B RusqliteError) :
  sane m -> (forall a, sane (k a)) -> sane (res_bind m k).
Proof. destruct m as [a|e]; cbn; [by auto|]. intros He _ [= ->]. by apply He. Qed.

Lemma finish_sane enforce db : sane (finish enforce db).
Proof. unfold finish. by destruct (_ && _). Qed.

Lemma update_rows_sane x db t d sets sc p : sane (update_rows x db t d sets sc p).
Proof. unfold update_rows. by destruct (_ && _). Qed.

Lemma insert_row_sane enforce x oc t d r db : sane (insert_row enforce x oc t d r db).
Proof.
  unfold insert_row. destruct (negb _); [by destruct oc|]. destruct (List.filter _ _); [done|]. destruct oc; try done.
  destruct (forallb _ _); [|done]. apply sane_bind; [apply update_rows_sane|done].
Qed.

Lemma insert_rows_sane enforce x oc t d l db : sane (insert_rows enforce x oc t d l db).
Proof.
  revert db. induction l as [|r l IH]; intros db; cbn; [done|]. apply sane_bind; [apply insert_row_sane|]. intros [n db1].
  apply sane_bind; [apply IH|]. by intros [].
Qed.

Lemma exec_sane enforce legacy st ps now db : sane (exec enforce legacy st ps now db).
Proof.
  assert (forall db, sane (drop_table enforce (match st with DropTable _ t => t | _ => "" end) db)) as Hdrop.
  { intros db0. apply sane_bind; [apply finish_sane|done]. }
  destruct st; cbn [exec]; try (destruct (db_schema db !! t) as [d|]; [|done]); try done.
  - apply sane_bind; [apply insert_rows_sane|]. intros [n db1]. apply sane_bind; [apply finish_sane|done].
  - apply sane_bind; [apply update_rows_sane|]. intros db1. apply sane_bind; [apply finish_sane|done].
  - apply sane_bind; [apply finish_sane|done].
  - by destruct (table_known _ _), if_not_exists.
  - by destruct (table_known _ _).
  - destruct (table_known _ _); [apply sane_bind; [apply Hdrop|done]|by destruct if_exists].
  - by destruct (table_known _ _).
  - apply sane_bind; [|done]. unfold add_column. cbn zeta. by repeat case_match.
  - by repeat case_match.
  - by destruct (in_list _ _), if_exists.
Qed.

Lemma step_run st ps now s :
  is_pragma st = false ->
  step st ps now s = if negb (stmt_known (db_schema (s_db s)) st) then (Err NoSuchName, s)
                     else match exec (s_enforce s) (s_legacy s) st ps now (s_db s) with
                          | Ok (out, d) => (Ok out, with_db s d)
                          | Err e => (Err e, s)
                          end.
Proof. by destruct st. Qed.

Lemma memory_reliable : reliable memory.
Proof.
  split_and!; try done. intros st ps [s n] H.
  assert ((step st ps "now" s).1 = Err EngineFailure) as E.
  { revert H. unfold conn_run, memory_connection, on_session. cbn [mem_session]. by destruct (step st ps "now" s). }
  destruct (is_pragma st) eqn:Ep.
  - by destruct st.
  - revert E. rewrite step_run by done. destruct (negb _); [done|].
    destruct (exec _ _ _ _ _ _) as [[]|e] eqn:Ee; [done|]. cbn. intros [= ->]. by eapply exec_sane.
Qed.

(** ** Instances *)

Module MemoryDb.
Import Toy ToyKeys.

#[export] Instance memory_ids : ActorEnv memory := {|
  new_fyles_id m := ("id" +:+ pretty (N.of_nat (mem_ids m)), mk_memory (mem_session m) (S (mem_ids m)));
|}.

#[export] Instance memory_ids_laws : ActorEnvLaws memory.
Proof. by split; intros []. Qed.

(** Lists of at most one reason. *)
#[export] Instance reasons_json : Json := {|
  json_to_string l :=
    match l with
    | [] => Some "[]"
    | [s] => if decide (s = "]") then None else Some ("[" +:+ s)
    | _ => None
    end;
  json_from_str s :=
    if decide (s = "[]") then Some []
    else match s with String _ s => Some [s] | EmptyString => None end;
|}.

#[export] Instance reasons_json_laws : JsonLaws.
Proof.
  split; [|done]. intros [|r [|? ?]] t; cbn; [by intros [= <-]| |done]. case_decide; [done|]. intros [= <-].
  rewrite decide_False; [done|]. intros E. by injection E.
Qed.

(** A version as the bits of a number that stands for it. *)
#[local] Instance Version_countable : Countable Version :=
  inj_countable' (fun v => (major v, minor v, patch v)) (fun '(a, b, c) => mk_version a b c) ltac:(by intros []).

Fixpoint bits (p : positive) : string :=
  match p with xH => "" | xO p => String (Ascii.ascii_of_nat 48) (bits p) | xI p => String (Ascii.ascii_of_nat 49) (bits p) end.

Fixpoint from_bits (s : string) : positive :=
  match s with EmptyString => xH | String a s => if Ascii.eqb a (Ascii.ascii_of_nat 48) then xO (from_bits s) else xI (from_bits s) end.

Lemma from_bits_bits p : from_bits (bits p) = p.
Proof. induction p as [p IH|p IH|]; cbn; by rewrite ?IH. Qed.

#[export] Instance bit_versions : Semver := {|
  version_to_string v := bits (encode v);
  version_parse s := decode (from_bits s);
|}.

#[export] Instance bit_versions_laws : SemverLaws.
Proof.
  split. intros v. cbn. rewrite from_bits_bits. apply countable.decode_encode.
Qed.

#[export] Instance toy_key_bytes : KeyBytes Z := {|
  ed25519_public_as_bytes k := k :: replicate 31 0;
  ed25519_public_from_bytes b := head b;
  ed25519_private_as_bytes k := k :: replicate 31 0;
  ed25519_private_from_bytes b := default 0 (head b);
|}.

#[export] Instance toy_key_bytes_laws : KeyBytesLaws Z.
Proof. by split. Qed.

(** No files. *)
Definition no_files (F : Type) : BackupHost memory F := {|
  new_uuid m := ("", m);
  temp_dir _ := path_from "/tmp";
  open_connection _ m := (Err EngineFailure, m);
  copy_pages_out _ m := (Err EngineFailure, m);
  copy_pages_in _ m := (Err EngineFailure, m);
  close_connection _ m := (Err EngineFailure, m);
  zstd_encoder _ m := (Err tt, m);
  compress_file _ _ m := (Err tt, m);
  finish_encoder _ m := (Err tt, m);
  into_std_file _ m := (Err tt, m);
  zstd_decoder _ m := (Err tt, m);
  create_temp_file _ m := (Err tt, m);
  decompress_into _ _ m := (Err tt, m);
  remove_path _ m := (Err tt, m);
|}.
#[export] Instance no_backups : BackupHost memory unit := no_files unit.

(** The actor on a new database *)
Definition started : Sqlite := run_actor (C := memory) memory_new.
End MemoryDb.
