(* ===== verification/SqliteAtomic.v ===== *)
(** * Messages are atomic and keep the data readable

    Every message leaves the database in a state that satisfies the invariant of
    SqliteStore.v, and one that fails leaves its rows unchanged. *)

From S2P Require Import Prelude Domain NonceWindow Dencryptor KeyExchange ReceiveManager HostPath HostController BrainTypes.
From S2P Require Import Sql SqlText SqlTheory Connection SqliteActor Migrations Sqlite SqliteStore.
#[local] Open Scope string_scope.
#[local] Open Scope Z_scope.

Definition unchanged (d d' : database) : Prop :=
  same_schema d d' /\ forall t, rows_of (db_rows d') t = rows_of (db_rows d) t.

Lemma unchanged_refl d : unchanged d d.
Proof. by repeat split. Qed.

(** ** Updates *)

(** What an UPDATE does: rows for which the condition holds are replaced. *)
Lemma exec_update legacy t sets w ret ps now d out d' :
  exec true legacy (Update t sets w ret) ps now d = Ok (out, d') ->
  exists tb, db_schema d !! t = Some tb /\ same_schema d d' /\
    let x := mk_context ps now (db_rows d) in
    let p r := holds x [(t, r)] w in
    let updated r := set_row x tb sets [(t, r)] r in
    let touched := List.filter p (rows_of (db_rows d) t) in
    rows_of (db_rows d') t = ((fun r => if p r then updated r else r) <$> rows_of (db_rows d) t) /\
    (forall t', t <> t' -> rows_of (db_rows d') t' = rows_of (db_rows d) t') /\
    (forall r, r ∈ touched -> checks_ok tb (updated r) = true) /\
    (ret <> [] -> out_rows out = ((fun r => row_get (updated r) <$> ret) <$> touched)) /\
    out_changes out = length touched.
Proof.
  cbn [exec]. destruct (db_schema d !! t) as [tb|] eqn:Ht; [|done].
  intros (d1 & Hu & (d2 & [-> _]%finish_ok & [= <- <-])%res_bind_Ok)%res_bind_Ok.
  unfold update_rows in Hu. destruct (_ && _) eqn:E; [|done]. injection Hu as <-. exists tb. cbn.
  rewrite rows_of_insert_eq. split_and!; try done.
  - intros t' Hne. by rewrite rows_of_insert_ne.
  - intros r Hr. apply andb_true_iff in E as [E _]. rewrite forallb_elem in E. by apply E.
  - by destruct ret.
Qed.

Lemma updates_nothing {A} (p : A -> bool) f l : List.filter p l = [] -> (fun r => if p r then f r else r) <$> l = l.
Proof. induction l as [|a l IH]; cbn; [done|]. destruct (p a); [done|]. intros H. by rewrite IH. Qed.

Lemma untouched_unchanged legacy t sets w ret ps now d out d' :
  exec true legacy (Update t sets w ret) ps now d = Ok (out, d') -> out_changes out = 0%nat -> unchanged d d'.
Proof.
  intros (tb & _ & Hs & Hrows & Hother & _ & _ & Hn)%exec_update H0. split; [done|]. rewrite H0 in Hn.
  symmetry in Hn. apply nil_length_inv in Hn. rewrite updates_nothing in Hrows by done.
  intros t'. destruct (decide (t = t')); [by subst|by apply Hother].
Qed.

(** Kinds that the constraints of the table ensure. *)
Lemma keeps_kinds_checked t sets w ret vs ks tb :
  store_kinds !! t = Some ks -> current_schema !! t = Some tb ->
  (forall x r, x_params x = vs -> row_fits ks r -> checks_ok tb (set_row x tb sets [(t, r)] r) = true ->
     row_fits ks (set_row x tb sets [(t, r)] r)) ->
  keeps_kinds (Update t sets w ret) vs.
Proof.
  intros Hk Ht Hrow legacy now d out d' Hs Hty (tb' & Ht' & _ & Hrows & Hother & Hc & _)%exec_update.
  rewrite Hs in Ht'. simplify_eq. intros t' ks' Hk'. destruct (decide (t = t')) as [<-|Hne]; [|rewrite Hother by done; by apply Hty].
  simplify_eq. rewrite Hrows. apply Forall_fmap, Forall_forall. intros r Hr. cbn.
  assert (row_fits ks r) as Hfit by (eapply Forall_forall; [by apply Hty|done]).
  destruct (holds _ _ _) eqn:Eh; [|done]. apply Hrow; [done..|]. apply Hc, elem_of_List_filter. by split.
Qed.

(** ** Atomic computations *)

Section Atomic.
Context {C : Type} `{!SqliteConnection C} `{!SqliteLaws C} `{!ActorEnv C} `{!ActorEnvLaws C} {HV : Semver}.

Definition atomic {E A} (m : io C E A) : Prop :=
  forall c, ready (conn_session c) ->
    iwp m (fun r c' => ready (conn_session c') /\
                       (is_ok r = false -> unchanged (s_db (conn_session c)) (s_db (conn_session c')))) c.

Lemma atomic_reader {E A} (m : io C E A) : reader m -> atomic m.
Proof.
  intros Hm c Hc. eapply iwp_mono; [by apply Hm|]. cbn. intros r c' ->. split; [done|]. intros _. apply unchanged_refl.
Qed.

Lemma atomic_bind_reader {E A B} (m : io C E A) (k : A -> io C E B) :
  reader m -> (forall a, atomic (k a)) -> atomic (io_bind m k).
Proof.
  intros Hm Hk c Hc. apply iwp_bind. eapply iwp_mono; [by apply Hm|]. cbn. intros [a|e] c' Hs.
  - eapply iwp_mono; [apply Hk; by rewrite Hs|]. cbn. by rewrite Hs.
  - rewrite Hs. split; [done|]. intros _. apply unchanged_refl.
Qed.

Lemma atomic_map_err {E E' A} (f : E -> E') (m : io C E A) : atomic m -> atomic (io_map_err f m).
Proof. intros Hm c Hc. apply iwp_map_err. eapply iwp_mono; [by apply Hm|]. cbn. by intros [] c'. Qed.

Lemma atomic_then_ret {E A B} (m : io C E A) (b : B) : atomic m -> atomic (io_bind m (fun _ => io_ret b)).
Proof.
  intros Hm c Hc. apply iwp_bind. eapply iwp_mono; [by apply Hm|]. cbn. intros [a|e] c' [Hr Hu]; by split.
Qed.

Lemma atomic_bind_value {A B} (a : A) (k : A -> io C DbOperationError B) :
  atomic (k a) -> atomic (io_bind (rq (io_result (Ok a))) k).
Proof. done. Qed.

Lemma atomic_bind_error {A B} e (k : A -> io C DbOperationError B) : atomic (io_bind (rq (io_result (Err e))) k).
Proof. intros c Hc. split; [done|]. intros _. apply unchanged_refl. Qed.

Lemma ready_with_db s d : store_ok (with_db s d) -> ready s -> ready (with_db s d).
Proof. intros Hok [_ Hs]. by split. Qed.

Lemma atomic_write st ps :
  edits st = true -> stmt_known current_schema st = true -> keeps_kinds st ps -> atomic (execute st ps).
Proof.
  intros Hc Hk Hkinds c Hr. apply iwp_bind, iwp_write; [apply Hr|exact Hc|exact Hk|exact Hkinds| |].
  - intros now out0 d out c' _ _ _ Hs Hok. apply iwp_ret. rewrite Hs in Hok |- *. split; [by apply ready_with_db|done].
  - intros e c' Hf _. rewrite (ready_failed _ _ Hr Hf). split; [done|]. intros _. apply unchanged_refl.
Qed.

(** An UPDATE with RETURNING finds no row and changes nothing, or its column can be
    read. *)
Lemma atomic_returning t sets w col ps ks :
  edits (Update t sets w [col]) = true -> stmt_known current_schema (Update t sets w [col]) = true -> keeps_kinds (Update t sets w [col]) ps ->
  store_kinds !! t = Some ks -> assoc col ks = Some text ->
  atomic (query_row (Update t sets w [col]) ps (fun r => get_at get_text r 0)).
Proof.
  intros Hc Hk Hkinds Hks Hcol c Hr. apply iwp_bind, iwp_write; [apply Hr|exact Hc|exact Hk|exact Hkinds| |].
  - intros now out0 d out c' He Hrows Hch Hs Hok.
    assert (ready (conn_session c')) as Hr' by (rewrite Hs in Hok |- *; by apply ready_with_db).
    assert (typed store_kinds (db_rows d)) as Hty by (rewrite Hs in Hok; by destruct Hok as (_ & [_ _ _ Hty _] & _)).
    pose proof He as (tb & _ & _ & Hnew & _ & _ & Hret & Hn)%exec_update. rewrite Hret in Hrows by done.
    destruct (out_rows out) as [|o os] eqn:Eo.
    + apply iwp_throw. split; [done|]. intros _. rewrite Hs. eapply untouched_unchanged; [done|].
      rewrite Hn. apply Permutation_nil_l in Hrows. apply (f_equal length) in Hrows. by rewrite length_fmap in Hrows.
    + apply iwp_result. split; [done|]. intros Herr. exfalso.
      assert (o ∈ o :: os) as Ho by (by left). rewrite Hrows in Ho. apply list_elem_of_fmap in Ho as (r & -> & Hrt).
      apply elem_of_List_filter in Hrt as [Hrt Hp].
      assert (row_fits ks (set_row (mk_context ps now (db_rows (s_db (conn_session c)))) tb sets [(t, r)] r)) as Hfit.
      { eapply Forall_forall; [by apply Hty|]. rewrite Hnew. apply list_elem_of_fmap. exists r. by rewrite Hp. }
      pose proof (row_fits_assoc ks _ col Hfit) as H. rewrite Hcol in H. destruct H as (v & Hv & Hf).
      cbn in Herr. unfold get_at, value_at, row_get in Herr. cbn in Herr. rewrite Hv in Herr. by destruct v.
  - intros e c' Hf _. rewrite (ready_failed _ _ Hr Hf). split; [done|]. intros _. apply unchanged_refl.
Qed.

(** An error for a statement that touched no rows. *)
Definition counts_changes (st : stmt) : Prop :=
  forall legacy ps now d out d', exec true legacy st ps now d = Ok (out, d') -> out_changes out = 0%nat -> unchanged d d'.

Lemma atomic_counted {A} st ps (e : DbOperationError) (a : A) :
  edits st = true -> stmt_known current_schema st = true -> keeps_kinds st ps -> counts_changes st ->
  atomic (try! changes := rq (execute st ps) in if (changes =? 0)%nat then io_throw e else io_ret a).
Proof.
  intros Hc Hk Hkinds Hcnt c Hr. apply iwp_bind, iwp_map_err, iwp_bind, iwp_write; [apply Hr|exact Hc|exact Hk|exact Hkinds| |].
  - intros now out0 d out c' He _ Hch Hs Hok. apply iwp_ret.
    assert (ready (conn_session c')) as Hr' by (rewrite Hs in Hok |- *; by apply ready_with_db).
    destruct (Nat.eqb_spec (out_changes out) 0) as [E0|E0].
    + apply iwp_throw. split; [done|]. intros _. rewrite Hs. eapply Hcnt; [done|congruence].
    + by apply iwp_ret.
  - intros e' c' Hf _. rewrite (ready_failed _ _ Hr Hf). split; [done|]. intros _. apply unchanged_refl.
Qed.

(** ** Transactions *)

(** Within a transaction that began with [d]. *)
Definition in_tx (d : database) {E A} (m : io C E A) : Prop :=
  forall c, store_ok (conn_session c) -> s_saved (conn_session c) = Some d ->
    iwp m (fun r c' => store_ok (conn_session c') /\
      (s_saved (conn_session c') = Some d \/
       is_ok r = false /\ s_saved (conn_session c') = None /\ s_db (conn_session c') = d)) c.

Lemma in_tx_ret d {E A} (a : A) : in_tx d (E := E) (io_ret a).
Proof. intros c Hc Hs. apply iwp_ret. by auto. Qed.

Lemma in_tx_bind d {E A B} (m : io C E A) (k : A -> io C E B) : in_tx d m -> (forall a, in_tx d (k a)) -> in_tx d (io_bind m k).
Proof.
  intros Hm Hk c Hc Hs. apply iwp_bind. eapply iwp_mono; [by apply Hm|]. cbn. intros [a|e] c' [Hc' Hs']; [|by split].
  destruct Hs' as [Hs'|[? _]]; [|done]. by apply Hk.
Qed.

Lemma in_tx_map_err d {E E' A} (f : E -> E') (m : io C E A) : in_tx d m -> in_tx d (io_map_err f m).
Proof. intros Hm c Hc Hs. apply iwp_map_err. eapply iwp_mono; [by apply Hm|]. cbn. by intros [] c'. Qed.

Lemma in_tx_write d st ps :
  edits st = true -> stmt_known current_schema st = true -> keeps_kinds st ps -> in_tx d (execute st ps).
Proof.
  intros Hc Hk Hkinds c Hok Hs. apply iwp_bind, iwp_write; [exact Hok|exact Hc|exact Hk|exact Hkinds| |].
  - intros now out0 d' out c' _ _ _ Hs' Hok'. apply iwp_ret. split; [done|]. left. by rewrite Hs'.
  - intros e c' [Hf|Hf] Hok'; rewrite Hf in *; split; [done|by left|done|]. right. cbn. by rewrite Hs.
Qed.

Lemma in_tx_for_rows d {E A B} (f : A -> io C E B) l : (forall a, a ∈ l -> in_tx d (f a)) -> in_tx d (for_rows f l).
Proof.
  induction l as [|a l IH]; intros Hf; cbn; [apply in_tx_ret|]. apply in_tx_bind; [apply Hf; by left|]. intros b.
  apply in_tx_bind; [apply IH; intros a' Ha'; apply Hf; by right|]. intros bs. apply in_tx_ret.
Qed.

Lemma in_tx_fresh d {E} : in_tx d (fresh_id (E := E)).
Proof.
  intros c Hok Hs. apply iwp_sys. pose proof (new_fyles_id_session c) as H. destruct (new_fyles_id c). cbn in *.
  rewrite H. by auto.
Qed.

Lemma rollback_idem s : rollback (rollback s) = rollback s.
Proof. by destruct s. Qed.

Lemma atomic_transaction {E A} inj (body : io C E A) : (forall d, in_tx d body) -> atomic (transaction inj body).
Proof.
  intros Hb c [Hok Hs]. unfold transaction. apply iwp_bind, iwp_map_err, iwp_sys.
  destruct (conn_begin_spec c) as [[-> Hs1]|[-> Hs1]]; cbn.
  2: { rewrite Hs1. split; [by split|]. intros _. apply unchanged_refl. }
  set (c1 := (conn_begin c).2) in *. set (d := s_db (conn_session c)).
  assert (store_ok (conn_session c1)) as Hok1.
  { rewrite Hs1. destruct Hok as (He & Hd & _). split; [done|]. split; [done|]. by intros d' [= <-]. }
  assert (s_saved (conn_session c1) = Some d) as Hsv1 by (by rewrite Hs1).
  pose proof (iwp_run _ _ _ (Hb d c1 Hok1 Hsv1)) as (r & c2 & E2 & Hok2 & Hsv2). unfold iwp. rewrite E2. cbn.
  assert (forall s, store_ok s -> (s_saved s = Some d \/ s_saved s = None /\ s_db s = d) ->
    ready (rollback s) /\ s_db (rollback s) = d) as Hback.
  { intros s Hoks Hsv. split; [split; [|done]; eapply store_ok_failed; [done|by right]|].
    cbn. destruct Hsv as [->|[-> <-]]; done. }
  destruct r as [a|e].
  - destruct Hsv2 as [Hsv2|[? _]]; [|done].
    destruct (conn_commit_spec c2) as [[Ec Hs3]|[Ec Hs3]]; destruct (conn_commit c2) as [rc c3]; cbn in Ec, Hs3; subst rc.
    + rewrite Hs3. split; [|done]. split; [|done]. destruct Hok2 as (He & Hd & _). by split; [|split].
    + rewrite conn_rollback_spec. assert (rollback (conn_session c3) = rollback (conn_session c2)) as ->
        by (destruct Hs3 as [->| ->]; [done|apply rollback_idem]).
      destruct (Hback _ Hok2 (or_introl Hsv2)) as [Hr Hd]. split; [done|]. intros _. rewrite Hd. apply unchanged_refl.
  - rewrite conn_rollback_spec. destruct (Hback _ Hok2 ltac:(tauto)) as [Hr Hd].
    split; [done|]. intros _. rewrite Hd. apply unchanged_refl.
Qed.
End Atomic.

(** ** Deletions *)

Lemma delete_nothing fuel sch t p rs t' :
  List.filter p (rows_of rs t) = [] -> rows_of (delete_rows fuel sch t p rs) t' = rows_of rs t'.
Proof.
  revert t p rs t'. induction fuel as [|fuel IH]; intros t p rs t' Hp; cbn [delete_rows];
    assert (forall t', rows_of (<[t := List.filter (fun r => negb (p r)) (rows_of rs t)]> rs) t' = rows_of rs t') as Hsame;
    try (intros t''; rewrite rows_of_insert; case_decide; [subst|done]; clear - Hp; induction (rows_of rs t'') as [|r l IH]; cbn in *;
         [done|]; destruct (p r); [done|]; cbn; by rewrite IH).
  - apply Hsame.
  - rewrite Hp. revert Hsame. generalize (<[t := List.filter (fun r => negb (p r)) (rows_of rs t)]> rs) as rs1.
    induction (cascades sch t) as [|[c fk] l IHl]; intros rs1 Hsame; cbn; [done|].
    apply IHl. intros t''. rewrite IH; [done|]. apply filter_none_iff. intros r _. by rewrite andb_false_r.
Qed.

Lemma counts_changes_delete t w : counts_changes (Delete t w).
Proof.
  intros legacy ps now d out d' He H0. cbn [exec] in He.
  apply res_bind_Ok in He as (d1 & [-> _]%finish_ok & [= <- <-]). cbn in H0. apply nil_length_inv in H0.
  split; [by split|]. intros t'. cbn. by apply delete_nothing.
Qed.

Lemma counts_changes_update t sets w ret : counts_changes (Update t sets w ret).
Proof. intros legacy ps now d out d'. apply untouched_unchanged. Qed.

(** ** Readings that succeed *)

Lemma collect_ok {A B E} (f : A -> result B E) l : (forall a, a ∈ l -> is_ok (f a) = true) -> exists bs, collect f l = Ok bs.
Proof.
  induction l as [|a l IH]; cbn; intros H; [by eexists|].
  destruct (f a) as [b|e] eqn:Ef; [|specialize (H a ltac:(by left)); by rewrite Ef in H]. cbn.
  destruct IH as (bs & ->); [intros a' Ha'; apply H; by right|]. by eexists.
Qed.

(** The values of a row, by their kinds. *)
Ltac kinds_inv :=
  repeat match goal with
  | H : Forall2 _ (_ :: _) ?l |- _ => apply Forall2_cons_inv_l in H as (? & ? & ? & H & ->)
  | H : Forall2 _ [] ?l |- _ => apply Forall2_nil_inv_l in H as ->
  end;
  repeat match goal with
  | H : fits ?k ?v = true |- _ => is_var v; destruct v; try discriminate H; cbn in H
  end.

Section Messages.
Context {W C F : Type} `{!Primitives W} `{!KeyBytes W} `{!Bincode DilithiumPublic} `{!Bincode DilithiumSecret}.
Context `{!SqliteConnection C} `{!ActorEnv C} {HJ : Json} {HV : Semver} `{!BackupHost C F}.
Context `{!SqliteLaws C} `{!ActorEnvLaws C}.

Lemma contact_names_known n : select_known current_schema
  (mk_select (Exprs [(Col None "id", "id"); (Col None "name", "name")]) [("contacts", "contacts")]
     (in_any (Col None "id") (Param <$> seq 0 n))) = true.
Proof.
  unfold select_known. cbn [sel_from sel_where sel_what forallb fmap list_fmap].
  apply andb_true_iff. split; [apply andb_true_iff; split; [by vm_compute|]|by vm_compute].
  generalize (seq 0 n) as l. unfold in_any. intros [|a l]; [done|]. cbn [fmap list_fmap].
  assert (forall e0, expr_known current_schema [("contacts", columns_of current_schema "contacts")] e0 = true ->
    expr_known current_schema [("contacts", columns_of current_schema "contacts")]
      (foldl (fun c b => Or c (Eq (Col None "id") b)) e0 (Param <$> l)) = true) as H.
  { induction l as [|b l IH]; intros e0 He; cbn [fmap list_fmap foldl]; [done|]. apply IH. cbn [expr_known]. rewrite He. by vm_compute. }
  apply H. by vm_compute.
Qed.

Lemma contact_names_reader ids : reader (C := C) (handle_get_contact_names ids).
Proof.
  intros c Hc. unfold handle_get_contact_names. apply iwp_map_err, iwp_bind, iwp_map_err.
  apply iwp_select; [apply Hc|apply contact_names_known| |].
  - intros now out c' Hrows Hs. apply iwp_bind.
    edestruct (collect_ok (fun r => let! id := get_at get_text r 0 in let! name := get_at get_text r 1 in Ok (id, name)) (out_rows out))
      as (bs & ->); [|by cbn].
    intros o. rewrite Hrows. intros Ho. eapply (query_kinds store_kinds) in Ho; [|by destruct Hc as [(_ & [_ _ _ Hty _] & _) _]|by vm_compute].
    kinds_inv. done.
  - intros c' Hf. by apply ready_failed.
Qed.

(** *** The status of a file to send

    The check of the table refuses a progress or a size that does not fit in 63
    bits, and transfer data that do not go with the status. *)

Definition update_full : stmt :=
  sql "UPDATE pending_files SET status = ?, retry_count = ?, progress_bytes = ?, file_size_bytes = ?, transfer_id = ? WHERE id = ? RETURNING target_filerequest_id".
Definition update_progress : stmt :=
  sql "UPDATE pending_files SET status = ?, progress_bytes = ?, file_size_bytes = ?, transfer_id = ? WHERE id = ? RETURNING target_filerequest_id".
Definition update_status : stmt := sql "UPDATE pending_files SET status = ? WHERE id = ? RETURNING target_filerequest_id".

Definition in_transfer (tag : string) : Prop := tag = "Sending" \/ tag = "Interrupted".

Lemma pending_check tb r tag p f :
  current_schema !! "pending_files" = Some tb -> checks_ok tb r = true -> in_transfer tag ->
  row_get r "status" = Text tag -> row_get r "progress_bytes" = Integer p -> row_get r "file_size_bytes" = Integer f ->
  0 <= p /\ 0 <= f.
Proof.
  intros Htb Hc Htag Hs Hp Hf. assert (current_schema !! "pending_files" = Some tb) as Htb' by done.
  vm_compute in Htb'. injection Htb' as Htb'. unfold checks_ok in Hc. apply andb_true_iff in Hc as [_ Hc].
  rewrite <- Htb' in Hc. cbn [t_checks forallb] in Hc. rewrite !andb_true_iff in Hc. destruct Hc as (_ & Hc & _).
  clear Htb Htb'. unfold violated in Hc. cbn [eval] in Hc. rewrite !scope_get_one, Hs, Hp, Hf in Hc. clear Hs Hp Hf.
  destruct Htag as [-> | ->]; destruct (row_get r "transfer_id"), p, f; vm_compute in Hc; try discriminate Hc; lia.
Qed.

(** A row that passes the check has kinds of its own. *)
Lemma keeps_kinds_pending sets w ret vs ps tag p f :
  in_transfer tag ->
  (0 <= p /\ 0 <= f -> values_fit ps vs) ->
  sets_have_kinds ps (default [] (store_kinds !! "pending_files")) [("pending_files", default [] (store_kinds !! "pending_files"))] sets = true ->
  (forall x tb r, x_params x = vs -> row_fits (default [] (store_kinds !! "pending_files")) r ->
     current_schema !! "pending_files" = Some tb ->
     let r' := set_row x tb sets [("pending_files", r)] r in
     row_get r' "status" = Text tag /\ row_get r' "progress_bytes" = Integer p /\ row_get r' "file_size_bytes" = Integer f) ->
  keeps_kinds (Update "pending_files" sets w ret) vs.
Proof.
  intros Htag Hvs Hsets Hget. destruct (store_kinds !! "pending_files") as [ks|] eqn:Hk; [|by vm_compute in Hk].
  destruct (store_kinds_agree _ _ Hk) as (tb & Htb & Hm). cbn [default] in *.
  eapply keeps_kinds_checked; [done..|]. intros x r Hx Hfit Hc. destruct (Hget x tb r Hx Hfit Htb) as (Hs & Hp & Hf).
  eapply set_row_fits; [done| | |done|done]; [|by repeat constructor]. rewrite Hx. apply Hvs.
  by eapply pending_check.
Qed.

Ltac pending_gets :=
  intros x tb r Hx Hfit Htb; vm_compute in Htb; injection Htb as <-;
  assert (forall c, in_list c (map fst (default [] (store_kinds !! "pending_files"))) = true -> is_Some (assoc c r)) as Hhas;
  [ intros c Hc; pose proof (row_fits_assoc _ _ c Hfit) as H; clear - H Hc;
    induction (default [] (store_kinds !! "pending_files")) as [|[c1 k] ks IH]; cbn in *; [done|];
    destruct (String.eqb c c1); [destruct H as (v & -> & _); eauto|by apply IH] |];
  cbn zeta; unfold set_row; cbn [foldl eval]; rewrite Hx; cbn -[row_get row_set];
  split_and!; repeat first
    [ rewrite row_get_set_ne by done
    | rewrite row_get_set_eq by (repeat apply row_set_has; apply Hhas; vm_compute; reflexivity) ]; reflexivity.

Lemma update_full_kinds tag count p f t id :
  0 <= count -> in_transfer tag -> keeps_kinds update_full [Text tag; Integer count; Integer p; Integer f; Text t; Text id].
Proof.
  intros Hcount Htag. eapply (keeps_kinds_pending _ _ _ _ [text; natural; natural; natural; text; text] tag p f Htag).
  - intros [Hp Hf]. repeat constructor; by apply Z.leb_le.
  - by vm_compute.
  - pending_gets.
Qed.

Lemma update_progress_kinds tag p f t id :
  in_transfer tag -> keeps_kinds update_progress [Text tag; Integer p; Integer f; Text t; Text id].
Proof.
  intros Htag. eapply (keeps_kinds_pending _ _ _ _ [text; natural; natural; text; text] tag p f Htag).
  - intros [Hp Hf]. repeat constructor; by apply Z.leb_le.
  - by vm_compute.
  - pending_gets.
Qed.

Ltac returning := eapply atomic_returning; [reflexivity|vm_compute; reflexivity| |vm_compute; reflexivity|vm_compute; reflexivity].

Lemma update_pending_status_atomic id status retry_count :
  match retry_count with Some n => 0 <= n | None => True end ->
  atomic (C := C) (handle_update_pending_file_status id status retry_count).
Proof.
  intros Hn. unfold handle_update_pending_file_status. apply atomic_map_err.
  destruct (status_tag status) as [tag|e] eqn:Et; [|apply atomic_reader; reader_solve].
  assert (forall td, status_transfer_data status = Some td -> in_transfer tag) as Htag.
  { destruct status as [|[[] ?]| | | |]; try done; injection Et as <-; intros _ _; [by left|by right]. }
  destruct retry_count as [n|].
  - unfold usize_to_sql. destruct (n <? i64_modulus); [|apply atomic_bind_error].
    apply atomic_bind_value, atomic_map_err. returning.
    destruct (status_transfer_data status) as [td|]; cbn [from_option].
    + by apply update_full_kinds, (Htag td).
    + apply (keeps_kinds_static [text; natural; natural_or_null; natural_or_null; text_or_null; text]); [by vm_compute|].
      repeat constructor. by apply Z.leb_le.
  - destruct (status_transfer_data status) as [td|]; apply atomic_map_err; returning.
    + by apply update_progress_kinds, (Htag td).
    + apply (keeps_kinds_static [text; text]); [by vm_compute|]. by repeat constructor.
Qed.

(** *** All messages *)

(** A statement with parameters of the kinds [ks]. *)
Ltac kinds ks := apply (keeps_kinds_static ks); [vm_compute; reflexivity|repeat constructor; try (by destruct_or!)].
Ltac write ks := apply atomic_write; [reflexivity|vm_compute; reflexivity|kinds ks].
Ltac tx_write ks := apply in_tx_write; [reflexivity|vm_compute; reflexivity|kinds ks].

Lemma insert_audience_tx d id contact_ids : in_tx (C := C) d (insert_audience id contact_ids).
Proof. apply in_tx_for_rows. intros contact_id _. tx_write [text; text]. Qed.

Lemma create_atomic fr : atomic (C := C) (handle_create fr).
Proof.
  apply atomic_map_err, atomic_transaction. intros d. apply in_tx_bind; [apply in_tx_fresh|]. intros id.
  destruct (access_columns (cfr_access fr)) as [access_type contact_ids].
  apply in_tx_bind; [apply in_tx_map_err; tx_write [text; text; text; text; text]|]. intros _.
  apply in_tx_bind; [apply in_tx_map_err, insert_audience_tx|]. intros _. apply in_tx_ret.
Qed.

Lemma update_atomic fr : atomic (C := C) (handle_update fr).
Proof.
  apply atomic_map_err, atomic_transaction. intros d. destruct (access_columns (fr_access fr)) as [access_type contact_ids].
  apply in_tx_bind; [apply in_tx_map_err; tx_write [text; text; text; text; text]|]. intros _.
  apply in_tx_bind; [apply in_tx_map_err; tx_write [text]|]. intros _.
  apply in_tx_bind; [apply in_tx_map_err, insert_audience_tx|]. intros _. apply in_tx_ret.
Qed.

Lemma create_pending_atomic files : atomic (C := C) (handle_create_pending_files files).
Proof.
  apply atomic_map_err, atomic_transaction. intros d. apply in_tx_bind.
  { apply in_tx_for_rows. intros f _. apply in_tx_bind; [apply in_tx_fresh|]. intros id. apply in_tx_ret. }
  intros ids. apply in_tx_bind; [|intros _; apply in_tx_ret]. apply in_tx_map_err, in_tx_for_rows. intros [id f] _.
  apply in_tx_write; [reflexivity|vm_compute; reflexivity|].
  apply (keeps_kinds_static [text; text; text; text; text_or_null]); [by vm_compute|]. repeat constructor.
  by destruct (fi_display_name f).
Qed.

(** Messages other than those that replace or copy the whole database, and
    StoreNodeKeys, which changes two tables without a transaction. *)
Definition single_change {A} (msg : SqliteMsg F A) : bool :=
  match msg with StoreNodeKeys _ | Backup _ _ | Restore _ => false | _ => true end.

(** Numbers of type usize are not negative. *)
Definition msg_wf {A} (msg : SqliteMsg F A) : Prop :=
  match msg with UpdatePendingFileStatus _ _ (Some n) => 0 <= n | _ => True end.

Ltac simple_write ks := apply atomic_map_err, atomic_map_err, atomic_then_ret; write ks.

(** Messages that only read. *)
Definition reads {A} (msg : SqliteMsg F A) : bool :=
  match msg with
  | GetFilerequest _ | GetAllFilerequests | GetContactName _ | GetContactPublicKeys _ | GetContactNames _ | GetContact _
  | GetContacts | GetNodeInfo | GetRemoteFilerequest _ | GetRemoteFilerequestsByContact _ | GetAllRemoteFilerequests
  | GetPendingFile _ | GetPendingFiles _ | GetAllPendingFiles | CountNonTerminalPendingFilesForPath _
  | GetReceivedFileByTransferId _ | ListReceivedFiles _ | GetStaleReceivedFiles _ | GetSelfContact
  | GetSelfContactForDisplay | GetSharablePublicSelfContact | GetSettings => true
  | _ => false
  end.

Lemma reads_reader {A} (msg : SqliteMsg F A) : reads msg = true -> reader (C := C) (handle_msg msg).
Proof.
  intros Hr. destruct msg; try discriminate Hr; cbn [handle_msg]; try apply contact_names_reader;
    repeat autounfold with db_calls; reader_solve.
Qed.

Lemma message_atomic {A} (msg : SqliteMsg F A) : single_change msg = true -> msg_wf msg -> atomic (C := C) (handle_msg msg).
Proof.
  intros Hs Hwf. destruct (reads msg) eqn:Hr; [by apply atomic_reader, reads_reader|].
  destruct msg; try discriminate Hs; try discriminate Hr; cbn [handle_msg].
  - apply create_atomic.
  - apply update_atomic.
  - simple_write [text].
  - simple_write [text; text].
  - simple_write [text].
  - apply atomic_map_err, atomic_map_err, atomic_bind_reader; [reader_solve|]. intros id. apply atomic_then_ret.
    write [text; text; text; text; text].
  - simple_write [text; text].
  - simple_write [text].
  - apply create_pending_atomic.
  - apply update_pending_status_atomic. by destruct retry_count.
  - apply atomic_map_err, atomic_bind_reader; [repeat autounfold with db_calls; reader_solve|]. intros json.
    apply atomic_then_ret, atomic_map_err. write [text; text].
  - simple_write [text].
  - apply atomic_map_err, atomic_map_err, atomic_bind_reader; [reader_solve|]. intros id. apply atomic_then_ret.
    apply atomic_write; [reflexivity|vm_compute; reflexivity|].
    apply (keeps_kinds_static [text; text_or_null; text; text; text; text; int; int]); [by vm_compute|].
    repeat constructor. by destruct (ci_contact_id req).
  - apply atomic_map_err. destruct (receive_status_tag status); [|apply atomic_reader; reader_solve].
    apply atomic_counted; [reflexivity|vm_compute; reflexivity|kinds [text; int; text]|apply counts_changes_update].
  - apply atomic_map_err, atomic_map_err. returning. kinds [text; int; text].
  - apply atomic_map_err, atomic_counted; [reflexivity|vm_compute; reflexivity|kinds [text]|apply counts_changes_delete].
  - simple_write [text].
  - apply atomic_map_err, atomic_bind_reader; [unfold or_custom; reader_solve|]. intros k1.
    apply atomic_bind_reader; [unfold or_custom; reader_solve|]. intros k2. apply atomic_then_ret, atomic_map_err.
    write [text; text; blob; blob; blob; blob].
  - apply atomic_map_err, atomic_bind_reader; [unfold or_custom; reader_solve|]. intros k1.
    apply atomic_then_ret, atomic_map_err. write [text; text; blob; blob].
  - apply atomic_map_err, atomic_then_ret. write [blob; text].
Qed.
End Messages.
