(* ===== verification/SqliteReads.v ===== *)
(** * What is stored can be read

    A new database is initialized with its tables; every run of messages keeps the
    invariant of the data; and the messages that list data succeed on a connection
    that does not fail, whatever was stored before, but for the files to send for a
    filerequest that does not exist. *)

From S2P Require Import Prelude Domain NonceWindow Dencryptor KeyExchange ReceiveManager HostPath HostController BrainTypes.
From S2P Require Import Sql SqlText SqlTheory Connection SqliteActor Migrations Sqlite SqliteStore SqliteExample SqliteAtomic.
#[local] Open Scope string_scope.
#[local] Open Scope Z_scope.

(** ** Rows by key *)

Lemma surely_of_bool b : surely (truth (of_bool b)) = b.
Proof. by destruct b. Qed.

Lemma holds_eq x a r c e v :
  eval x [(a, r)] e = v -> v <> Null -> holds x [(a, r)] (Eq (Col None c) e) = value_eqb (row_get r c) v.
Proof.
  intros He Hv. unfold holds. cbn [eval]. rewrite scope_get_one, He.
  destruct (row_get r c), v; try done; apply surely_of_bool.
Qed.

Lemma holds_key x a r c n v :
  x_params x !! n = Some v -> v <> Null -> holds x [(a, r)] (Eq (Col None c) (Param n)) = value_eqb (row_get r c) v.
Proof. intros Hp. apply holds_eq. cbn. by rewrite Hp. Qed.

Lemma query_one x t a l w :
  query x (mk_select (Exprs l) [(t, a)] w) =
    (fun r => (fun '(e, _) => eval x [(a, r)] e) <$> l) <$> List.filter (fun r => holds x [(a, r)] w) (rows_of (x_rows x) t).
Proof.
  unfold query. cbn [sel_what sel_from sel_where product]. induction (rows_of (x_rows x) t) as [|r rs IH]; [done|].
  cbn in *. destruct (holds x [(a, r)] w); cbn; by rewrite IH.
Qed.

Section Init.
Context {C : Type} `{!SqliteConnection C} `{!ActorEnv C} {HV : Semver}.
Context `{!SqliteLaws C} `{!ActorEnvLaws C} {HVL : SemverLaws}.

(** ** Initialization *)

(** The outcome is [P], unless the engine fails. *)
Definition unless_failure {E A} (P : A -> C -> Prop) (r : result A E) (c : C) : Prop :=
  match r with Ok a => P a c | Err _ => ~ reliable C end.

(** A statement whose effect is known. *)
Lemma iwp_known st ps c s' rows (Q : result output RusqliteError -> C -> Prop) :
  (forall now, exists n, step st ps now (conn_session c) = (Ok (mk_output rows n), s')) ->
  (length rows <= 1)%nat ->
  (forall out c', out_rows out = rows -> conn_session c' = s' -> Q (Ok out) c') ->
  (forall e c', ~ reliable C -> Q (Err e) c') ->
  iwp (sys (conn_run st ps)) Q c.
Proof.
  intros Hst Hlen Hok Herr. apply iwp_sys. pose proof (conn_run_spec st ps c) as H.
  destruct (conn_run st ps c) as [r c'] eqn:Er. cbn in *. destruct H as [(now & Hr & Hs)|[-> _]].
  - destruct (Hst now) as (n & E). rewrite E in *. destruct r as [out|]; [|done]. apply Hok; [|done].
    destruct Hr as [Hp _]. cbn in Hp. destruct rows as [|v [|]]; [by apply Permutation_nil_r|by apply Permutation_singleton_r|cbn in Hlen; lia].
  - apply Herr. intros [Hrel _]. by apply (Hrel st ps c); rewrite Er.
Qed.

Definition creates (st : stmt) : bool := match st with CreateTable _ _ _ => true | _ => false end.

Lemma creates_now st now now' s : creates st = true -> step st [] now s = step st [] now' s.
Proof. by destruct st. Qed.

Lemma iwp_batch_known l c s' Q :
  (forall s now, conn_session c = s -> foldl (fun s st => match s with
      | Some s => match step st [] now s with (Ok (mk_output [] _), s) => Some s | _ => None end
      | None => None end) (Some s) l = Some s') ->
  forallb creates l = true ->
  (forall c', conn_session c' = s' -> Q (Ok tt) c') ->
  (forall e c', ~ reliable C -> Q (Err e) c') ->
  iwp (execute_batch l) Q c.
Proof.
  revert c. induction l as [|st l IH]; intros c Hf Hnow Hok Herr; cbn.
  { apply iwp_ret, Hok. specialize (Hf _ "" eq_refl). cbn in Hf. congruence. }
  apply andb_true_iff in Hnow as [Hnow Hl]. pose proof (Hf _ "" eq_refl) as H0. cbn in H0. destruct (step st [] "" (conn_session c)) as [[[[|] n]|] s1] eqn:E1;
    try (exfalso; clear - H0; induction l; [done|by apply IHl]).
  apply iwp_bind. apply (iwp_known _ _ _ s1 []); [|cbn; lia| |done].
  - intros now. exists n. by rewrite (creates_now st now "").
  - intros out c' _ Hs'. apply IH; [|done..].
    intros s now <-. specialize (Hf _ now eq_refl). cbn in Hf. rewrite (creates_now st now ""), E1 in Hf by done. by rewrite Hs'.
Qed.

Lemma iwp_transaction {E A} inj (body : io C E A) c Q :
  (forall c1, conn_session c1 = begin (conn_session c) ->
     iwp body (fun r c2 => match r with
                           | Ok a => forall c3, conn_session c3 = commit (conn_session c2) -> Q (Ok a) c3
                           | Err e => forall c3, conn_session c3 = rollback (conn_session c2) -> Q (Err e) c3
                           end) c1) ->
  (forall e c', ~ reliable C -> Q (Err e) c') ->
  iwp (transaction inj body) Q c.
Proof.
  intros Hbody Herr. unfold transaction. apply iwp_bind, iwp_map_err, iwp_sys.
  destruct (conn_begin_spec c) as [[-> Hs]|[Hb _]].
  2: { rewrite Hb. apply Herr. intros (_ & Hrel & _). by apply (Hrel c). }
  destruct (iwp_run _ _ _ (Hbody _ Hs)) as (r & c2 & E2 & HQ). unfold iwp. rewrite E2. cbn. destruct r as [a|e].
  - pose proof (conn_commit_spec c2) as Hc. destruct (conn_commit c2) as [rc c3] eqn:Ec.
    destruct Hc as [[Hrc Hs3]|[Hrc _]]; cbn in Hrc; subst rc; [by apply HQ|].
    apply Herr. intros (_ & _ & Hrel). by apply (Hrel c2); rewrite Ec.
  - apply HQ, conn_rollback_spec.
Qed.

Definition new_database (c : C) : Prop :=
  s_db (conn_session c) = empty_database /\ s_saved (conn_session c) = None.

(** All tables are there and empty but for the version. *)
Definition created_rows (version : list row) : contents :=
  foldr (fun st rs => match st with CreateTable _ t _ => <[t := []]> rs | _ => rs end) {["schema_version" := version]} current_tables.

Definition created (version : list row) : database := mk_database current_schema [] (created_rows version).

(** The database of the first statement *)
Definition versioned : database :=
  mk_database {["schema_version" := default (mk_table [] [] [] []) (current_schema !! "schema_version")]} []
    {["schema_version" := []]}.

Lemma created_empty version t : t <> "schema_version" -> rows_of (db_rows (created version)) t = [].
Proof.
  intros Hne. cbn [created db_rows]. unfold created_rows. induction current_tables as [|[] l IH]; cbn [foldr]; try done.
  - unfold rows_of. by rewrite lookup_singleton_ne.
  - rewrite rows_of_insert. by case_decide.
Qed.

Lemma created_version version : rows_of (db_rows (created version)) "schema_version" = version.
Proof. reflexivity. Qed.

Lemma created_ok : data_ok (created [version_row]).
Proof.
  split; [done|done| |intros t ks Hk; destruct (decide (t = "schema_version")) as [->|Hne]; [by vm_compute in Hk|by rewrite created_empty]|done].
  split; [|by vm_compute]. intros t d Hd. unfold table_ok. destruct (decide (t = "schema_version")) as [->|Hne].
  - rewrite created_version. assert (current_schema !! "schema_version" = Some d) as H by done. vm_compute in H.
    injection H as <-. split; [|done]. by intros r ->%list_elem_of_singleton.
  - rewrite created_empty by done. split; [|done]. by intros r ?%not_elem_of_nil.
Qed.

Lemma run_migrations_current c :
  store_ok (conn_session c) -> iwp run_migrations (unless_failure (fun _ c' => conn_session c' = conn_session c)) c.
Proof.
  intros (He & [Hs _ _ _ Hv] & _). apply iwp_bind, iwp_bind, iwp_bind.
  apply (iwp_known _ _ _ (conn_session c) [[Text (version_to_string CURRENT_VERSION)]]); [|done| |done].
  - intros now. exists 0%nat. rewrite step_exec; [|done|rewrite Hs; by vm_compute]. cbn [exec]. rewrite with_db_self.
    unfold query. cbn [sel_what sel_from sel_where product x_rows]. by rewrite Hv.
  - intros out c1 -> Hs1. apply iwp_result. eapply iwp_expect; [apply version_roundtrip|]. by apply iwp_bind, iwp_ret.
Qed.

Lemma initialize_new c :
  new_database c -> iwp initialize_database (unless_failure (fun _ c' => ready (conn_session c') /\
    s_db (conn_session c') = created [version_row])) c.
Proof.
  intros [Hdb Hsv]. destruct (conn_session c) as [db sv enf leg] eqn:Es. cbn in Hdb, Hsv. subst db sv.
  unfold initialize_database, initialize_tables. apply iwp_bind, iwp_bind.
  apply (iwp_known _ _ _ (mk_session empty_database None true leg) []); [by rewrite Es; eexists|cbn; lia| |done].
  intros o1 c1 _ Es1. apply iwp_ret. apply iwp_bind, iwp_bind, iwp_bind.
  apply (iwp_known _ _ _ (mk_session versioned None true leg) []);
    [intros now; rewrite Es1; eexists; vm_compute; reflexivity|cbn; lia| |done].
  intros o2 c2 _ Es2. apply iwp_ret, iwp_bind, iwp_bind.
  apply (iwp_known _ _ _ (mk_session versioned None true leg) [[Integer 0]]);
    [intros now; rewrite Es2; eexists; vm_compute; reflexivity|cbn; lia| |done].
  intros o3 c3 -> Es3. apply iwp_transaction; [|done]. intros c4 Es4. rewrite Es3 in Es4. apply iwp_bind.
  apply (iwp_batch_known _ _ (mk_session (created []) (Some versioned) true leg)); [| | |done].
  { intros s now <-. rewrite Es4. vm_compute. reflexivity. }
  { by vm_compute. }
  intros c5 Es5. apply iwp_bind, iwp_bind. 
  apply (iwp_known _ _ _ (mk_session (created [version_row]) (Some versioned) true leg) []);
    [intros now; rewrite Es5; eexists; vm_compute; reflexivity|cbn; lia| |done].
  intros o6 c6 _ Es6. apply iwp_ret. apply iwp_ret. intros c7 Es7. rewrite Es6 in Es7.
  assert (ready (conn_session c7)) as Hr.
  { rewrite Es7. split; [split; [done|split; [apply created_ok|done]]|done]. }
  eapply iwp_mono; [apply run_migrations_current, Hr|]. intros [[]|] c8; [|done]. cbn. intros ->. split; [done|]. by rewrite Es7.
Qed.

(** A restart with the tables of the current version, on any connection to them. *)
Lemma initialize_again c :
  data_ok (s_db (conn_session c)) -> s_saved (conn_session c) = None ->
  iwp initialize_database (unless_failure (fun _ c' => ready (conn_session c') /\ s_db (conn_session c') = s_db (conn_session c))) c.
Proof.
  intros Hd Hsv. pose proof Hd as [Hs _ _ _ Hv]. destruct (conn_session c) as [d sv enf leg] eqn:Es. cbn in *. subst sv.
  set (s := mk_session d None true leg).
  unfold initialize_database, initialize_tables. apply iwp_bind, iwp_bind.
  apply (iwp_known _ _ _ s []); [intros now; rewrite Es; by eexists|cbn; lia| |done].
  intros o1 c1 _ Es1. apply iwp_ret. apply iwp_bind, iwp_bind, iwp_bind.
  apply (iwp_known _ _ _ s []); [|cbn; lia| |done].
  { intros now. exists 0%nat. rewrite Es1, step_exec by (done || (cbn [s s_db]; rewrite Hs; by vm_compute)).
    cbn [exec s s_db]. rewrite Hs. by change (table_known _ _) with true. }
  intros o2 c2 _ Es2. apply iwp_ret, iwp_bind, iwp_bind.
  apply (iwp_known _ _ _ s [[Integer 1]]); [|cbn; lia| |done].
  { intros now. exists 0%nat. rewrite Es2, step_exec by (done || (cbn [s s_db]; rewrite Hs; by vm_compute)). cbn [exec].
    rewrite with_db_self. unfold query. cbn [sel_what sel_from sel_where product x_rows s s_db]. by rewrite Hv. }
  intros o3 c3 -> Es3. apply iwp_result, iwp_ret.
  assert (ready (conn_session c3)) as Hr by (rewrite Es3; by split; [split; [done|split]|]).
  eapply iwp_mono; [apply run_migrations_current, Hr|]. intros [[]|] c4; [|done]. cbn. intros ->. split; [done|]. by rewrite Es3.
Qed.
End Init.

Section Reads.
Context {W C F : Type} `{!Primitives W} `{!KeyBytes W} `{!Bincode DilithiumPublic} `{!Bincode DilithiumSecret}.
Context `{!SqliteConnection C} `{!ActorEnv C} {HJ : Json} {HV : Semver} `{!BackupHost C F}.
Context `{!SqliteLaws C} `{!ActorEnvLaws C} {HVL : SemverLaws}.

(** ** Runs of the database *)

(** Messages that stay in this database. *)
Definition local_msg {A} (msg : SqliteMsg F A) : bool :=
  match msg with Backup _ _ | Restore _ => false | _ => true end.

Lemma store_node_keys_ready info c :
  ready (conn_session c) -> iwp (handle_store_node_keys info) (fun _ c' => ready (conn_session c')) c.
Proof.
  intros Hr. unfold handle_store_node_keys, or_custom. apply iwp_map_err.
  apply iwp_bind. destruct (encode_to_vec _) as [k1|]; [apply iwp_ret|by apply iwp_throw].
  apply iwp_bind. destruct (encode_to_vec _) as [k2|]; [apply iwp_ret|by apply iwp_throw].
  apply iwp_bind, iwp_map_err. eapply iwp_mono; [apply atomic_write; [reflexivity|by vm_compute| |exact Hr]|].
  { apply (keeps_kinds_static [blob]); [by vm_compute|by repeat constructor]. }
  intros [n|e] c1 [Hr1 _]; [|done].
  apply iwp_bind, iwp_map_err. eapply iwp_mono; [apply atomic_write; [reflexivity|by vm_compute| |exact Hr1]|].
  { apply (keeps_kinds_static [text; text; blob; blob; blob; blob]); [by vm_compute|by repeat constructor]. }
  by intros [n'|e] c2 [Hr2 _].
Qed.

Lemma local_ready {A} (msg : SqliteMsg F A) c :
  local_msg msg = true -> msg_wf msg -> ready (conn_session c) -> iwp (handle_msg msg) (fun _ c' => ready (conn_session c')) c.
Proof.
  intros Hl Hwf Hr. destruct (single_change msg) eqn:Hs.
  - eapply iwp_mono; [by apply message_atomic|]. by intros r c' [? _].
  - destruct msg; try done. by apply store_node_keys_ready.
Qed.

(** The actor runs and its data satisfy the invariant. *)
Definition sound (w : Sqlite (C := C)) : Prop := sq_running w = true /\ ready (conn_session (sq_conn w)).

Lemma call_spec {A} (msg : SqliteMsg F A) w Q :
  sq_running w = true -> iwp (handle_msg msg) Q (sq_conn w) ->
  Q (call msg w).1 (sq_conn (call msg w).2) /\ sq_running (call msg w).2 = true.
Proof.
  intros Hrun (r & c & E & HQ)%iwp_run. unfold call. by rewrite Hrun, E.
Qed.

Definition stored (w : Sqlite (C := C)) : database := s_db (conn_session (sq_conn w)).

Lemma run_actor_sound c :
  new_database c \/ data_ok (s_db (conn_session c)) /\ s_saved (conn_session c) = None ->
  (reliable C -> sq_running (run_actor c) = true) /\ (sq_running (run_actor c) = true -> sound (run_actor c)).
Proof.
  intros Hc. assert (iwp initialize_database (unless_failure (fun _ c' => ready (conn_session c'))) c) as H.
  { destruct Hc as [Hc|[Hd Hs]]; [eapply iwp_mono; [by apply initialize_new|]|eapply iwp_mono; [by apply initialize_again|]];
      intros [] c'; cbn; try done; by intros [? _]. }
  apply iwp_run in H as (r & c' & E & H). unfold sound, run_actor. rewrite E. by destruct r as [[]|e].
Qed.

Lemma run_actor_keeps c :
  reliable C -> data_ok (s_db (conn_session c)) -> s_saved (conn_session c) = None ->
  sound (run_actor c) /\ stored (run_actor c) = s_db (conn_session c).
Proof.
  intros Hrel Hd Hs. destruct (iwp_run _ _ _ (initialize_again c Hd Hs)) as (r & c' & E & H). unfold sound, stored, run_actor.
  rewrite E. destruct r as [[]|e]; [|by destruct (H Hrel)]. cbn in *. by destruct H.
Qed.

(** The states the database and its client get to: a new database, messages, and
    restarts with another connection to the data of a client that was running. *)
Inductive reached : Sqlite (C := C) -> Prop :=
| reached_new c : new_database c -> reached (run_actor c)
| reached_call {A} (msg : SqliteMsg F A) w : reached w -> local_msg msg = true -> msg_wf msg -> reached (call msg w).2
| reached_restart w c : reached w -> sq_running w = true -> s_db (conn_session c) = stored w ->
    s_saved (conn_session c) = None -> reached (run_actor c).

Lemma reached_sound w : reached w -> (reliable C -> sq_running w = true) /\ (sq_running w = true -> sound w).
Proof.
  induction 1 as [c Hc|A msg w _ [IHr IHs] Hl Hwf|w c _ [_ IH] Hr Hd Hs].
  - apply run_actor_sound. by left.
  - destruct (sq_running w) eqn:Hrun; [|unfold call; rewrite Hrun; cbn; by rewrite Hrun]. destruct (IHs eq_refl) as [_ Hready].
    destruct (call_spec msg w _ Hrun (local_ready _ _ Hl Hwf Hready)) as [Hr' Hrun']. by split; [|split].
  - apply run_actor_sound. right. split; [|done]. rewrite Hd. by destruct (IH Hr) as [_ [(_ & ? & _) _]].
Qed.

(** ** Queries *)

Definition reads_ok {E A} (m : io C E A) : Prop :=
  forall c, ready (conn_session c) -> iwp m (fun r c' => conn_session c' = conn_session c /\ (reliable C -> is_ok r = true)) c.

Lemma reads_ok_map_err {E E' A} (f : E -> E') (m : io C E A) : reads_ok m -> reads_ok (io_map_err f m).
Proof. intros Hm c Hc. apply iwp_map_err. eapply iwp_mono; [by apply Hm|]. by intros [] c'. Qed.

Lemma reads_ok_ret {E A} (a : A) : reads_ok (E := E) (io_ret a).
Proof. by intros c Hc. Qed.

Lemma reads_ok_bind {E A B} (m : io C E A) (k : A -> io C E B) :
  reads_ok m -> (forall a, reads_ok (k a)) -> reads_ok (io_bind m k).
Proof.
  intros Hm Hk c Hc. apply iwp_bind. eapply iwp_mono; [by apply Hm|]. intros [a|e] c' [Hs Hok]; [|done].
  eapply iwp_mono; [apply Hk; by rewrite Hs|]. cbn. intros r c'' [-> ?]. done.
Qed.

Lemma reads_ok_for_rows {E A B} (f : A -> io C E B) l : (forall a, a ∈ l -> reads_ok (f a)) -> reads_ok (for_rows f l).
Proof.
  induction l as [|a l IH]; intros Hf; cbn; [apply reads_ok_ret|]. apply reads_ok_bind; [apply Hf; by left|]. intros b.
  apply reads_ok_bind; [apply IH; intros a' Ha'; apply Hf; by right|]. intros bs. apply reads_ok_ret.
Qed.

(** The rows of a query have the kinds of its columns, and come from the tables. *)
Definition row_of_query (d : database) (q : select) (ks : list kind) (o : list value) : Prop :=
  Forall2 (fun k v => fits k v = true) ks o /\ exists ps now, o ∈ query (mk_context ps now (db_rows d)) q.

Definition rows_of_query (q : select) (ks : list kind) (out : output) : Prop :=
  exists d, data_ok d /\ (forall o, o ∈ out_rows out -> row_of_query d q ks o) /\ (sel_what q = CountAll -> out_rows out <> []).

(** The rows of a query, with the parameters of the query. *)
Lemma iwp_query_rows q ps ks c :
  ready (conn_session c) -> select_known current_schema q = true -> select_kinds store_kinds q = Some ks ->
  iwp (sys (conn_run (Select q) ps)) (fun r c' =>
    conn_session c' = conn_session c /\
    match r with
    | Ok out => exists now, out_rows out ≡ₚ query (mk_context ps now (db_rows (s_db (conn_session c)))) q /\
        Forall (Forall2 (fun k v => fits k v = true) ks) (out_rows out)
    | Err _ => ~ reliable C
    end) c.
Proof.
  intros Hc Hk Hks. apply iwp_sys. pose proof (conn_run_spec (Select q) ps c) as H.
  destruct (conn_run (Select q) ps c) as [r c'] eqn:Er. cbn [fst snd] in *. pose proof Hc as [(He & Hd & _) _].
  pose proof Hd as [Hs _ _ Hty _]. destruct H as [(now & Hr & Hs')|[-> Hf']].
  - rewrite step_exec in Hr, Hs' by (done || by rewrite Hs). cbn in Hr, Hs'. rewrite with_db_self in Hs'.
    destruct r as [out|]; [|done]. destruct Hr as [Hrows _]. cbn in Hrows. split; [done|]. exists now. split; [done|].
    apply Forall_forall. intros o Ho. rewrite Hrows in Ho. by eapply (query_kinds store_kinds) in Ho.
  - split; [by apply ready_failed|]. intros [Hrel _]. by destruct (Hrel (Select q) ps c); rewrite Er.
Qed.

Lemma iwp_query q ps ks c :
  ready (conn_session c) -> select_known current_schema q = true -> select_kinds store_kinds q = Some ks ->
  iwp (sys (conn_run (Select q) ps)) (fun r c' =>
    conn_session c' = conn_session c /\ match r with Ok out => rows_of_query q ks out | Err _ => ~ reliable C end) c.
Proof.
  intros Hc Hk Hks. eapply iwp_mono; [by apply (iwp_query_rows q ps ks)|]. intros [out|e] c' [Hs Hout]; [|done]. split; [done|].
  destruct Hout as (now & Hrows & Hfit). exists (s_db (conn_session c)). split; [by destruct Hc as [(_ & ? & _) _]|split].
  - intros o Ho. split; [by rewrite Forall_forall in Hfit; apply Hfit|]. exists ps, now. by rewrite <- Hrows.
  - intros Hcount Hn. unfold query in Hrows. rewrite Hcount, Hn in Hrows. by apply Permutation_nil_l in Hrows.
Qed.

Lemma reads_ok_select {B E} (f : RusqliteError -> E) q ps ks (k : output -> io C E B) :
  select_known current_schema q = true -> select_kinds store_kinds q = Some ks ->
  (forall out, rows_of_query q ks out -> reads_ok (k out)) ->
  reads_ok (try! out := io_map_err f (sys (conn_run (Select q) ps)) in k out).
Proof.
  intros Hk Hks Hf c Hc. apply iwp_bind, iwp_map_err. eapply iwp_mono; [by apply iwp_query|].
  intros [out|e] c' [Hs Hout]; [|done]. eapply iwp_mono; [apply Hf; [done|by rewrite Hs]|]. cbn. by rewrite Hs.
Qed.

Lemma reads_ok_result {E A} (r : result A E) : is_ok r = true -> reads_ok (io_result r).
Proof. by intros H c Hc. Qed.

Lemma reads_ok_run {B} q ps ks (k : output -> io C RusqliteError B) :
  select_known current_schema q = true -> select_kinds store_kinds q = Some ks ->
  (forall out, rows_of_query q ks out -> reads_ok (k out)) ->
  reads_ok (try! out := sys (conn_run (Select q) ps) in k out).
Proof.
  intros Hk Hks Hf c Hc. apply iwp_bind. eapply iwp_mono; [by apply iwp_query|].
  intros [out|e] c' [Hs Hout]; [|done]. eapply iwp_mono; [apply Hf; [done|by rewrite Hs]|]. cbn. by rewrite Hs.
Qed.

Lemma reads_ok_query_map {A} q ps ks (f : list value -> result A RusqliteError) :
  select_known current_schema q = true -> select_kinds store_kinds q = Some ks ->
  (forall o, Forall2 (fun k v => fits k v = true) ks o -> is_ok (f o) = true) -> reads_ok (query_map (Select q) ps f).
Proof.
  intros Hk Hks Hf. apply reads_ok_run with ks; [done..|]. intros out (d & _ & Ho & _). apply reads_ok_result.
  destruct (collect_ok f (out_rows out)) as (bs & ->); [|done]. intros o Hin. by apply Hf, Ho.
Qed.

(** *** Filerequests *)

Lemma contact_ids_ok id : reads_ok (read_contact_ids (C := C) id).
Proof. eapply reads_ok_query_map; [by vm_compute..|]. intros o Ho. by kinds_inv. Qed.

Lemma access_ok access_type id : reads_ok (read_access (C := C) access_type id).
Proof.
  unfold read_access. destruct (String.eqb _ _); [apply reads_ok_ret|]. destruct (String.eqb _ _); [|apply reads_ok_ret].
  apply reads_ok_bind; [apply contact_ids_ok|]. intros l. apply reads_ok_ret.
Qed.

Lemma get_all_ok : reads_ok (handle_get_all (C := C)).
Proof.
  apply reads_ok_map_err, reads_ok_map_err. eapply reads_ok_run; [by vm_compute..|]. intros out (d & _ & Ho & _).
  apply reads_ok_for_rows. intros o [Hk _]%Ho. kinds_inv.
  apply reads_ok_bind; [by apply reads_ok_result|]. intros id. apply reads_ok_bind; [by apply reads_ok_result|]. intros ty.
  apply reads_ok_bind; [apply access_ok|]. intros access. by apply reads_ok_result.
Qed.

(** *** Files to send *)

Lemma pending_row_checks d r :
  data_ok d -> r ∈ rows_of (db_rows d) "pending_files" -> row_get r "status" <> Text "Prepared" /\
  forall tag, row_get r "status" = Text tag -> in_transfer tag ->
    row_get r "progress_bytes" <> Null /\ row_get r "file_size_bytes" <> Null /\ row_get r "transfer_id" <> Null.
Proof.
  intros [Hs _ [Ht _] _ _] Hr. destruct (current_schema !! "pending_files") as [tb|] eqn:Etb; [|by vm_compute in Etb].
  assert (checks_ok tb r = true) as Hc by (eapply Ht; [by rewrite Hs|done]).
  vm_compute in Etb. injection Etb as <-. unfold checks_ok in Hc. apply andb_true_iff in Hc as [_ Hc].
  cbn [t_checks forallb] in Hc. rewrite !andb_true_iff in Hc. destruct Hc as (Hst & Hc & _).
  unfold violated in Hc, Hst. cbn [eval] in Hc, Hst. rewrite !scope_get_one in Hc. rewrite scope_get_one in Hst.
  split; [intros E; by rewrite E in Hst|]. intros tag Htag Hin. rewrite Htag in Hc.
  revert Hc. generalize (row_get r "progress_bytes") (row_get r "file_size_bytes") (row_get r "transfer_id").
  intros [|[]| |] [|[]| |] [|[]| |] Hc; try done; destruct Hin as [-> | ->]; vm_compute in Hc; done.
Qed.

Lemma from_db_columns_ok tag p f t :
  tag <> "Prepared" -> (in_transfer tag -> is_Some p /\ is_Some f /\ is_Some t) -> is_ok (from_db_columns tag p f t) = true.
Proof.
  intros Hp Htd. unfold from_db_columns, in_transfer in *. repeat case_decide; subst; try done.
  - by destruct Htd as ([? ->] & [? ->] & [? ->]); [left|].
  - by destruct Htd as ([? ->] & [? ->] & [? ->]); [right|].
Qed.

Lemma get_option_some {A} (get : value -> result A RusqliteError) v a : get_option get v = Ok a -> v <> Null -> is_Some a.
Proof. unfold get_option. destruct v; [done|..]; intros (? & _ & [= <-])%res_bind_Ok _; done. Qed.

Lemma get_at_some {A} (get : value -> result A RusqliteError) o i v a : get_at get o i = Ok a -> o !! i = Some v -> get v = Ok a.
Proof. unfold get_at, value_at. intros H E. by rewrite E in H. Qed.

Definition pending_join : select :=
  match sql "SELECT p.id, p.file_path, p.target_filerequest_id, p.status, p.retry_count, p.progress_bytes, p.file_size_bytes, p.transfer_id, r.contact_id, p.display_name, p.interruption_reasons
                     FROM pending_files p
                     JOIN remote_filerequests r ON p.target_filerequest_id = r.id" with
  | Select q => q
  | _ => mk_select Star [] Now
  end.

(** The columns of a row of pending_files that describe its status. *)
Definition pending_columns (d : database) (o : list value) : Prop :=
  exists r, r ∈ rows_of (db_rows d) "pending_files" /\ o !! 3%nat = Some (row_get r "status") /\
    o !! 5%nat = Some (row_get r "progress_bytes") /\ o !! 6%nat = Some (row_get r "file_size_bytes") /\
    o !! 7%nat = Some (row_get r "transfer_id").

Lemma pending_join_row d ks o : row_of_query d pending_join ks o -> pending_columns d o.
Proof.
  intros [_ (ps & now & (s & -> & [Hs _]%elem_of_List_filter)%list_elem_of_fmap)].
  cbn [pending_join sel_from product x_rows] in Hs.
  apply list_elem_of_In, in_flat_map in Hs as (r & Hr%list_elem_of_In & Hs). apply in_map_iff in Hs as (s' & <- & _).
  exists r. by split.
Qed.

Definition pending_of_target : select :=
  match sql "SELECT id, file_path, target_filerequest_id, status, retry_count, progress_bytes, file_size_bytes, transfer_id, display_name, interruption_reasons FROM pending_files WHERE target_filerequest_id = ?" with
  | Select q => q
  | _ => mk_select Star [] Now
  end.

Lemma pending_of_target_row d ks o : row_of_query d pending_of_target ks o -> pending_columns d o.
Proof.
  intros [_ (ps & now & (s & -> & [Hs _]%elem_of_List_filter)%list_elem_of_fmap)].
  cbn [pending_of_target sel_from product x_rows] in Hs.
  apply list_elem_of_In, in_flat_map in Hs as (r & Hr%list_elem_of_In & Hs). apply in_map_iff in Hs as (s' & <- & Hs').
  cbn in Hs'. destruct Hs' as [<-|[]]. exists r. split; [done|]. unfold pending_of_target. cbn. unfold row_get. by destruct (assoc _ r).
Qed.

Lemma collect_no_err {A B E} (f : A -> result B E) l e : (forall a, a ∈ l -> is_ok (f a) = true) -> collect f l <> Err e.
Proof. intros (bs & ->)%collect_ok. done. Qed.

Lemma collect_elem {A B E} (f : A -> result B E) l bs b : collect f l = Ok bs -> b ∈ bs -> exists a, a ∈ l /\ f a = Ok b.
Proof.
  revert bs. induction l as [|a l IH]; intros bs; cbn; [by intros [= <-] ?%not_elem_of_nil|].
  intros (b0 & Hb0 & (bs' & Hbs & [= <-])%res_bind_Ok)%res_bind_Ok [->|Hb]%elem_of_cons; [exists a; split; [by left|done]|].
  destruct (IH _ Hbs Hb) as (a' & Ha' & Hf). exists a'. split; [by right|done].
Qed.

Lemma pending_row_status d display reasons o p :
  data_ok d -> pending_columns d o -> read_pending_row display reasons o = Ok p ->
  is_ok (from_db_columns (pr_status p) (pr_progress_bytes p) (pr_file_size_bytes p) (pr_transfer_id p)) = true.
Proof.
  intros Hd (r & Hr & H3 & H5 & H6 & H7) Hp.
  destruct (pending_row_checks _ _ Hd Hr) as [Hne Hin]. unfold read_pending_row in Hp.
  repeat match goal with H : res_bind _ _ = Ok _ |- _ => apply res_bind_Ok in H as (? & ? & ?) end. simplify_eq. cbn.
  repeat match goal with H : get_at _ o ?i = Ok _, H' : o !! ?i = Some _ |- _ => apply (get_at_some _ _ _ _ _) with (1 := H) in H' end.
  destruct (row_get r "status") as [| |tag|]; try done. cbn in H3. simplify_eq. apply from_db_columns_ok; [congruence|].
  intros Htag. destruct (Hin _ eq_refl Htag) as (Hn5 & Hn6 & Hn7). split_and!; by eapply get_option_some.
Qed.

Lemma all_pending_ok : reads_ok (handle_get_all_pending_files (C := C)).
Proof.
  apply reads_ok_map_err. intros c Hc. apply iwp_bind, iwp_map_err, iwp_bind.
  eapply iwp_mono; [by apply (iwp_query pending_join); [|vm_compute..]|].
  intros [out|e] c' [Hs Hout]; [|done]. destruct Hout as (d & Hd & Ho & _). apply iwp_result.
  destruct (collect _ _) as [bs|e] eqn:Ec.
  - eapply iwp_mono; [apply reads_ok_for_rows; [|by rewrite Hs]|cbn; by rewrite Hs]. intros [p contact_id] Hb.
    destruct (collect_elem _ _ _ _ Ec Hb) as (o & Hin & Hf). apply res_bind_Ok in Hf as (p' & Hp & (ct & _ & [= -> ->])%res_bind_Ok).
    pose proof (pending_row_status _ _ _ _ _ Hd (pending_join_row _ _ _ (Ho _ Hin)) Hp) as Hok. unfold pending_file.
    destruct (from_db_columns _ _ _ _); [apply reads_ok_ret|done].
  - exfalso. eapply collect_no_err; [|exact Ec]. intros o [Hk _]%Ho. kinds_inv; by cbn; repeat (destruct (_ <=? _); cbn).
Qed.

(** A remote filerequest has this identifier. *)
Definition known_target (d : database) (target : FylesId) : bool :=
  existsb (fun r => value_eqb (row_get r "id") (Text target)) (rows_of (db_rows d) "remote_filerequests").

Definition contact_of_target : select :=
  mk_select (Exprs [(Col None "contact_id", "contact_id")]) [("remote_filerequests", "remote_filerequests")] (Eq (Col None "id") (Param 0)).

Lemma contact_of_target_sql : sql "SELECT contact_id FROM remote_filerequests WHERE id = ?" = Select contact_of_target.
Proof. by vm_compute. Qed.

Lemma existsb_some_row {A B} (f : A -> bool) (g : A -> B) l rows :
  rows ≡ₚ g <$> List.filter f l -> existsb f l = match rows with [] => false | _ => true end.
Proof.
  intros Hrows. destruct rows as [|b rows].
  - apply Permutation_nil_l in Hrows. symmetry in Hrows. apply fmap_nil_inv in Hrows. apply not_true_iff_false. intros (x & Hx)%existsb_exists.
    apply filter_In in Hx. by rewrite Hrows in Hx.
  - apply existsb_exists. assert (b ∈ g <$> List.filter f l) as (x & _ & Hx)%list_elem_of_fmap by (rewrite <- Hrows; by left).
    exists x. by apply filter_In, list_elem_of_In.
Qed.

Lemma read_contact_id_ok target c :
  ready (conn_session c) ->
  iwp (read_contact_id (C := C) target) (fun r c' => conn_session c' = conn_session c /\
    (reliable C -> is_ok r = known_target (s_db (conn_session c)) target)) c.
Proof.
  intros Hc. unfold read_contact_id, query_row, query_row_with. rewrite contact_of_target_sql. apply iwp_map_err, iwp_bind.
  eapply iwp_mono; [by apply (iwp_query_rows contact_of_target _ [text]); [|vm_compute..]|].
  intros [out|e] c' [Hs Hout]; [|done]. destruct Hout as (now & Hrows & Hk). unfold contact_of_target in Hrows. rewrite query_one in Hrows.
  cbn [x_rows] in Hrows. rewrite (List.filter_ext _ (fun r => value_eqb (row_get r "id") (Text target))) in Hrows
    by (intros r; by apply holds_key).
  apply existsb_some_row in Hrows. unfold known_target. rewrite Hrows.
  destruct (out_rows out) as [|o l]; [by apply iwp_throw|].
  apply iwp_result. apply Forall_cons_1 in Hk as [Hk _]. split; [done|]. intros _. by kinds_inv.
Qed.

Lemma pending_of_target_ok target c :
  ready (conn_session c) ->
  iwp (handle_get_pending_files (C := C) target) (fun r c' => conn_session c' = conn_session c /\
    (reliable C -> is_ok r = known_target (s_db (conn_session c)) target)) c.
Proof.
  intros Hc. apply iwp_map_err, iwp_bind, iwp_map_err, iwp_bind.
  eapply iwp_mono; [by apply (iwp_query pending_of_target); [|vm_compute..]|].
  intros [out|e] c1 [Hs Hout]; [|done]. destruct Hout as (d & Hd & Ho & _). apply iwp_result.
  destruct (collect _ _) as [bs|e] eqn:Ec.
  - apply iwp_bind. eapply iwp_mono; [apply read_contact_id_ok; by rewrite Hs|]. rewrite Hs.
    intros [contact_id|e] c2 [Hs2 Hk]; [|by split; [|intros ?%Hk]].
    eapply iwp_mono; [apply reads_ok_for_rows; [|by rewrite Hs2]|].
    + intros p Hb. destruct (collect_elem _ _ _ _ Ec Hb) as (o & Hin & Hp).
      pose proof (pending_row_status _ _ _ _ _ Hd (pending_of_target_row _ _ _ (Ho _ Hin)) Hp) as Hok. unfold pending_file.
      destruct (from_db_columns _ _ _ _); [apply reads_ok_ret|done].
    + cbn. intros r c3 [-> Hok]. split; [done|]. intros Hrel. rewrite <- (Hk Hrel). specialize (Hok Hrel). by destruct r.
  - exfalso. eapply collect_no_err; [|exact Ec]. intros o [Hk _]%Ho. kinds_inv; by cbn; repeat (destruct (_ <=? _); cbn).
Qed.

Lemma contact_names_ok ids : reads_ok (handle_get_contact_names (C := C) ids).
Proof.
  apply reads_ok_map_err. eapply reads_ok_select; [apply contact_names_known|by vm_compute|]. intros out (d & _ & Ho & _) c Hc.
  apply iwp_bind. edestruct (collect_ok (fun r => let! id := get_at get_text r 0 in let! name := get_at get_text r 1 in Ok (id, name)) (out_rows out))
      as (bs & ->); [|by cbn].
  intros o [Hk _]%Ho. by kinds_inv.
Qed.

(** Messages that list what is stored. *)
Definition lists {A} (msg : SqliteMsg F A) : bool :=
  match msg with
  | GetAllFilerequests | GetContacts | GetContactNames _ | GetRemoteFilerequestsByContact _ | GetAllRemoteFilerequests
  | GetPendingFiles _ | GetAllPendingFiles | CountNonTerminalPendingFilesForPath _ | ListReceivedFiles _ | GetStaleReceivedFiles _ => true
  | _ => false
  end.

(** The files to send are listed for a remote filerequest, which has to exist. *)
Definition target_exists {A} (msg : SqliteMsg F A) (d : database) : bool :=
  match msg with GetPendingFiles target => known_target d target | _ => true end.

Ltac list_query := apply reads_ok_map_err, reads_ok_map_err; eapply reads_ok_query_map; [by vm_compute..|]; intros o Ho; by kinds_inv.

Lemma lists_ok {A} (msg : SqliteMsg F A) c :
  lists msg = true -> ready (conn_session c) ->
  iwp (handle_msg msg) (fun r c' => conn_session c' = conn_session c /\
    (reliable C -> is_ok r = target_exists msg (s_db (conn_session c)))) c.
Proof.
  intros Hl. destruct msg; try discriminate Hl; cbn [handle_msg target_exists].
  all: try (by apply pending_of_target_ok). all: revert c; match goal with |- forall c, _ -> iwp ?m _ _ => change (reads_ok m) end.
  - apply get_all_ok.
  - apply contact_names_ok.
  - list_query.
  - list_query.
  - list_query.
  - apply all_pending_ok.
  - apply reads_ok_map_err, reads_ok_map_err. eapply reads_ok_run; [by vm_compute..|]. intros out (d & _ & Ho & Hc).
    destruct (out_rows out) as [|o l]; [by destruct Hc|]. destruct (Ho o) as [Hk _]; [by left|]. apply reads_ok_result. kinds_inv.
    by cbn; rewrite H.
  - list_query.
  - list_query.
Qed.

(** ** Properties *)

(** C13 (type). What is stored can be read back: from a new database, whatever messages
    other than backups and their restoration were handled and however often the
    database was closed and opened again, every message that lists data answers with
    data and changes nothing, as long as the engine does not fail; only the list of the
    files to send for a remote filerequest that does not exist is answered with an
    error. In particular no row has a column of the wrong type, and every stored status
    of a file to send is one that can be parsed. *)
Theorem stored_data_readable w {A} (msg : SqliteMsg F A) :
  reliable C -> reached w -> lists msg = true ->
  is_ok (call msg w).1 = target_exists msg (stored w) /\ stored (call msg w).2 = stored w /\ sq_running (call msg w).2 = true.
Proof.
  intros Hrel [Hrun Hs]%reached_sound Hl. destruct (Hs (Hrun Hrel)) as [Hr Hready].
  destruct (call_spec msg w _ Hr (lists_ok msg _ Hl Hready)) as [[Heq Hok] Hr']. unfold stored. rewrite Heq. by split; [apply Hok|].
Qed.

(** C12 (error). A message other than StoreNodeKeys, Backup and Restore is done
    completely or not at all: when it is answered with an error, all tables hold the
    rows they held before and the actor goes on, wherever in the handling the failure
    was and also when the engine fails. *)
Theorem failed_message_changes_nothing w {A} (msg : SqliteMsg F A) e :
  reached w -> sq_running w = true -> single_change msg = true -> msg_wf msg -> (call msg w).1 = Err e ->
  unchanged (stored w) (stored (call msg w).2) /\ sq_running (call msg w).2 = true.
Proof.
  intros [_ Hs]%reached_sound Hrun Hone Hwf He. destruct (Hs Hrun) as [_ Hready].
  destruct (call_spec msg w _ Hrun (message_atomic msg Hone Hwf _ Hready)) as [[_ Hun] Hr']. rewrite He in Hun. by split; [apply Hun|].
Qed.
End Reads.

Section Witnesses.
Import Toy ToyKeys MemoryDb.

Definition sample_filerequest : BrainTypes.CreateFilerequest := mk_create_filerequest "t" "d" Public true.

Lemma stored_data_readable_witness :
  is_ok (call (F := unit) GetAllPendingFiles (call (CreateFilerequest sample_filerequest) started).2).1 = true /\
  is_ok (call (F := unit) (GetPendingFiles "nothing") (call (CreateFilerequest sample_filerequest) started).2).1 = false.
Proof.
  assert (reached (F := unit) (call (CreateFilerequest sample_filerequest) started).2) as Hr
    by (apply reached_call; [apply reached_new; done|done|done]).
  split.
  - exact (proj1 (stored_data_readable (F := unit) _ GetAllPendingFiles memory_reliable Hr eq_refl)).
  - rewrite (proj1 (stored_data_readable (F := unit) _ (GetPendingFiles "nothing") memory_reliable Hr eq_refl)). vm_compute. reflexivity.
Defined.

Lemma failed_message_changes_nothing_witness :
  (call (F := unit) (CreateFilerequest (mk_create_filerequest "t" "d" (Audience ["nobody"]) true)) started).1 = Err DbOperation /\
  unchanged (stored started)
    (stored (call (F := unit) (CreateFilerequest (mk_create_filerequest "t" "d" (Audience ["nobody"]) true)) started).2).
Proof.
  split; [by vm_compute|].
  apply (failed_message_changes_nothing (F := unit) started (CreateFilerequest (mk_create_filerequest "t" "d" (Audience ["nobody"]) true)) DbOperation);
    [apply reached_new; done|by vm_compute|done|done|by vm_compute].
Defined.
End Witnesses.
