(* ===== verification/SqliteRoundtrip.v ===== *)
(** * What is stored is what is read

    The messages that store filerequests, contacts, keys, settings and the status of
    files, followed by those that read them: the answers are what was stored. *)

From S2P Require Import Prelude Domain NonceWindow Dencryptor KeyExchange ReceiveManager HostPath HostController BrainTypes.
From S2P Require Import Sql SqlText SqlTheory Connection SqliteActor Migrations Sqlite SqliteStore SqliteExample SqliteAtomic SqliteReads.
#[local] Open Scope string_scope.
#[local] Open Scope Z_scope.

(** ** Rows by key *)

Lemma conflicts_key k ks r r' : k ∈ ks -> conflict k r r' = true -> conflicts ks r r' = true.
Proof. intros Hk Hc. apply existsb_exists. exists k. split; [by apply list_elem_of_In|done]. Qed.

Lemma filter_key ks c rs r v :
  unique_ok ks rs = true -> [c] ∈ ks -> r ∈ rs -> row_get r c = v -> v <> Null ->
  List.filter (fun r' => value_eqb (row_get r' c) v) rs = [r].
Proof.
  intros Hu Hk Hr Hv Hn. revert Hu Hr. induction rs as [|q rs IH]; [by intros _ ?%not_elem_of_nil|].
  cbn [unique_ok List.filter]. intros [Hq%negb_true_iff Hu]%andb_true_iff Hr. rewrite existsb_false_forall in Hq.
  assert (forall r', r' ∈ rs -> row_get r' c = v -> row_get q c = v -> False) as Hdisj.
  { intros r' Hr' H1 H2. specialize (Hq r' Hr'). rewrite (conflicts_key [c]) in Hq; [done..|]. unfold conflict. cbn.
    rewrite H1, H2, value_eqb_refl. by destruct v. }
  apply elem_of_cons in Hr as [<-|Hr].
  - rewrite Hv, value_eqb_refl. f_equal. apply filter_none_iff. intros r' Hr'. apply not_true_is_false.
    intros E%value_eqb_eq. by eapply Hdisj.
  - destruct (value_eqb (row_get q c) v) eqn:E; [|by apply IH]. apply value_eqb_eq in E. by destruct (Hdisj r).
Qed.

(** ** Rules for outcomes *)

Section Rules.
Context {C : Type} `{!SqliteConnection C} `{!SqliteLaws C} `{!ActorEnv C} `{!ActorEnvLaws C} {HV : Semver}.

(** The computation answers; if without error, then with [P]. *)
Definition okp {E A} (m : io C E A) (P : A -> C -> Prop) (c : C) : Prop :=
  iwp m (fun r c' => match r with Ok a => P a c' | Err _ => True end) c.

Lemma okp_mono {E A} (m : io C E A) (P P' : A -> C -> Prop) c : okp m P c -> (forall a c', P a c' -> P' a c') -> okp m P' c.
Proof. intros Hm HP. eapply iwp_mono; [exact Hm|]. intros [a|] c'; [apply HP|done]. Qed.

Lemma okp_ret {E A} (a : A) P c : P a c -> okp (E := E) (io_ret a) P c.
Proof. done. Qed.

Lemma okp_bind {E A B} (m : io C E A) (k : A -> io C E B) P c : okp m (fun a => okp (k a) P) c -> okp (io_bind m k) P c.
Proof. intros Hm. apply iwp_bind. eapply iwp_mono; [exact Hm|]. by intros []. Qed.

Lemma okp_result {E A} (r : result A E) P c : (forall a, r = Ok a -> P a c) -> okp (io_result r) P c.
Proof. intros HP. apply iwp_result. destruct r; [by apply HP|done]. Qed.

Lemma okp_map_err {E E' A} (f : E -> E') (m : io C E A) P c : okp m P c -> okp (io_map_err f m) P c.
Proof. intros Hm. apply iwp_map_err. eapply iwp_mono; [exact Hm|]. by intros []. Qed.

(** A statement on data of the current schema. *)
Definition current (s : session) : Prop := s_enforce s = true /\ db_schema (s_db s) = current_schema.

Lemma okp_run st ps P c :
  current (conn_session c) -> is_pragma st = false -> stmt_known current_schema st = true ->
  (forall legacy now out0 out d c', exec true legacy st ps now (s_db (conn_session c)) = Ok (out0, d) ->
     out_rows out ≡ₚ out_rows out0 -> conn_session c' = with_db (conn_session c) d -> P out c') ->
  okp (sys (conn_run st ps)) P c.
Proof.
  intros [He Hs] Hp Hk HP. apply iwp_sys. pose proof (conn_run_spec st ps c) as H.
  destruct (conn_run st ps c) as [r c']. cbn in *. destruct H as [(now & Hr & Hs')|[-> _]]; [|done].
  rewrite step_exec in Hr, Hs' by (done || by rewrite Hs). rewrite He in Hr, Hs'.
  destruct (exec _ _ _ _ _ _) as [[out0 d]|] eqn:Ee; cbn in Hr, Hs'; destruct r; try done. destruct Hr. by eapply HP.
Qed.

Lemma okp_execute st ps P c :
  current (conn_session c) -> is_pragma st = false -> stmt_known current_schema st = true ->
  (forall legacy now out d n c', exec true legacy st ps now (s_db (conn_session c)) = Ok (out, d) ->
     conn_session c' = with_db (conn_session c) d -> P n c') ->
  okp (execute st ps) P c.
Proof.
  intros Hc Hp Hk HP. apply okp_bind, okp_run; [done..|]. intros legacy now out0 out d c' He _ Hs. by eapply okp_ret, HP.
Qed.

Lemma okp_transaction {E A} inj (body : io C E A) P c :
  (forall c1, conn_session c1 = begin (conn_session c) ->
     okp body (fun a c2 => forall c3, conn_session c3 = commit (conn_session c2) -> P a c3) c1) ->
  okp (transaction inj body) P c.
Proof.
  intros Hbody. apply iwp_transaction; [|done]. intros c1 Hs. eapply iwp_mono; [by apply Hbody|]. by intros [].
Qed.

Lemma okp_fresh {E} P c : (forall id c', conn_session c' = conn_session c -> P id c') -> okp (E := E) fresh_id P c.
Proof.
  intros HP. apply iwp_sys. pose proof (new_fyles_id_session c) as H. destruct (new_fyles_id c). by apply HP.
Qed.

Lemma okp_reader {E A} (m : io C E A) P c : reader m -> ready (conn_session c) -> (forall a c', P a c') -> okp m P c.
Proof. intros Hm Hr HP. eapply iwp_mono; [by apply Hm|]. by intros [] c' _. Qed.

Lemma okp_query_row {A} q ps (f : list value -> io C RusqliteError A) P c :
  current (conn_session c) -> select_known current_schema q = true ->
  (forall now o c', o ∈ query (mk_context ps now (db_rows (s_db (conn_session c)))) q -> conn_session c' = conn_session c ->
     okp (f o) P c') ->
  okp (query_row_with (Select q) ps f) P c.
Proof.
  intros Hc Hk Hf. apply okp_bind, okp_run; [done..|]. intros legacy now out0 out d c' [= <- <-] Hrows Hs.
  rewrite with_db_self in Hs. cbn in Hrows. destruct (out_rows out) as [|o l]; [done|]. apply (Hf now); [|done].
  rewrite <- Hrows. by left.
Qed.

(** A query, and one with one answer. *)
Lemma iwp_rows q ps Q c :
  current (conn_session c) -> select_known current_schema q = true ->
  (forall now out c', out_rows out ≡ₚ query (mk_context ps now (db_rows (s_db (conn_session c)))) q ->
     conn_session c' = conn_session c -> Q (Ok out) c') -> (forall e c', ~ reliable C -> Q (Err e) c') ->
  iwp (sys (conn_run (Select q) ps)) Q c.
Proof.
  intros [He Hs] Hk HQ Herr. apply iwp_sys. pose proof (conn_run_spec (Select q) ps c) as H.
  destruct (conn_run (Select q) ps c) as [r c'] eqn:Er. cbn [fst snd] in *. destruct H as [(now & Hr & Hs')|[-> _]].
  - rewrite step_exec in Hr, Hs' by (done || by rewrite Hs). cbn in Hr, Hs'. rewrite with_db_self in Hs'.
    destruct r as [out|]; [|done]. destruct Hr as [Hr _]. by eapply HQ.
  - apply Herr. intros [Hrel _]. by apply (Hrel (Select q) ps c); rewrite Er.
Qed.

Lemma iwp_one {A} q ps o (f : list value -> io C RusqliteError A) Q c :
  current (conn_session c) -> select_known current_schema q = true ->
  (forall now, query (mk_context ps now (db_rows (s_db (conn_session c)))) q = [o]) ->
  (forall c', conn_session c' = conn_session c -> iwp (f o) Q c') -> (forall e c', ~ reliable C -> Q (Err e) c') ->
  iwp (query_row_with (Select q) ps f) Q c.
Proof.
  intros [He Hs] Hk Hq Hf Herr. apply iwp_bind. apply (iwp_known _ _ _ (conn_session c) [o]); [|cbn; lia| |done].
  - intros now. exists 0%nat. rewrite step_exec by (done || by rewrite Hs). cbn [exec]. by rewrite with_db_self, Hq.
  - intros out c' -> Hs'. by apply Hf.
Qed.
End Rules.

(** ** Statements *)

(** An INSERT of one row *)
Lemma exec_insert legacy t cols l ps now d out d' :
  exec true legacy (Insert OrAbort t (Some cols) (Values l)) ps now d = Ok (out, d') ->
  exists tb, db_schema d !! t = Some tb /\ same_schema d d' /\
    let r := new_row tb cols (eval (mk_context ps now (db_rows d)) [] <$> l) in
    rows_of (db_rows d') t = (rows_of (db_rows d) t ++ [r])%list /\
    (forall k q, k ∈ t_keys tb -> q ∈ rows_of (db_rows d) t -> conflict k r q = false) /\
    (forall t', t <> t' -> rows_of (db_rows d') t' = rows_of (db_rows d) t').
Proof.
  cbn [exec]. destruct (db_schema d !! t) as [tb|] eqn:Ht; [|done].
  intros ([n d1] & Hi & (d2 & [-> _]%finish_ok & [= <- <-])%res_bind_Ok)%res_bind_Ok. exists tb. split; [done|].
  cbn [fmap list_fmap insert_rows] in Hi. apply res_bind_Ok in Hi as ([n1 d3] & Hi & [= <- <-]).
  unfold insert_row in Hi. destruct (negb _); [done|]. destruct (List.filter _ _) eqn:Ef; [|done]. injection Hi as <- <-.
  split; [done|]. cbn. unfold append_row. split_and!; [apply rows_of_insert_eq| |intros t' Hne; by apply rows_of_insert_ne].
  intros k q Hk Hq. apply not_true_is_false. intros Hc. eapply elem_of_nil. rewrite <- Ef. apply elem_of_List_filter.
  split; [exact Hq|]. apply (conflicts_key k); [|done]. unfold table_keys. apply elem_of_app. by left.
Qed.

(** The definition of a table of the schema. *)
Ltac table_def H := vm_compute in H; injection H as <-.

Lemma update_by_key legacy t k n sets ret ps now d out d' r v :
  exec true legacy (Update t sets (Eq (Col None k) (Param n)) ret) ps now d = Ok (out, d') ->
  r ∈ rows_of (db_rows d) t -> ps !! n = Some v -> v <> Null -> row_get r k = v ->
  exists tb, db_schema d !! t = Some tb /\ set_row (mk_context ps now (db_rows d)) tb sets [(t, r)] r ∈ rows_of (db_rows d') t /\
    same_schema d d' /\ forall t', t <> t' -> rows_of (db_rows d') t' = rows_of (db_rows d) t'.
Proof.
  intros (tb & Htb & Hs & Hrows & Hother & _)%exec_update Hr Hp Hn Hv. exists tb. split_and!; try done.
  rewrite Hrows. apply list_elem_of_fmap. exists r. rewrite holds_key with (v := v) by done. by rewrite Hv, value_eqb_refl.
Qed.

(** The columns of a row. *)
Lemma row_fits_zip ks r : row_fits ks r -> exists vs, length vs = length ks /\ r = zip (fst <$> ks) vs.
Proof.
  induction 1 as [|[c k] [c' v] ks r [Hc _] _ (vs & Hlen & ->)]; [by exists []|]. cbn in Hc. subst c'. exists (v :: vs). cbn. by rewrite Hlen.
Qed.

Ltac row_shape H :=
  let vs := fresh "vs" in let Hlen := fresh "Hlen" in
  apply row_fits_zip in H as (vs & Hlen & ->); cbn in Hlen;
  repeat (destruct vs as [|? vs]; [discriminate Hlen|apply eq_add_S in Hlen]); destruct vs; [|discriminate Hlen]; clear Hlen.

Lemma row_typed {HV : Semver} d t ks r : data_ok d -> store_kinds !! t = Some ks -> r ∈ rows_of (db_rows d) t -> row_fits ks r.
Proof. intros [_ _ _ Hty _] Hk Hr. eapply Forall_forall; [by apply Hty|done]. Qed.

Lemma row_kind ks r c k : row_fits ks r -> assoc c ks = Some k -> fits k (row_get r c) = true.
Proof.
  intros Hfit Hk. pose proof (row_fits_assoc ks r c Hfit) as H. rewrite Hk in H. destruct H as (v & Hv & Hf).
  unfold row_get. by rewrite Hv.
Qed.

(** A reference of the schema leads to a row. *)
Definition refers (t c t' c' : string) : bool :=
  match current_schema !! t with
  | Some tb => existsb (fun fk => String.eqb (fk_column fk) c && String.eqb (fk_table fk) t' && String.eqb (fk_parent fk) c') (t_foreign_keys tb)
  | None => false
  end.

Lemma row_refers {HV : Semver} d t c t' c' q :
  data_ok d -> refers t c t' c' = true -> q ∈ rows_of (db_rows d) t -> row_get q c <> Null ->
  exists p, p ∈ rows_of (db_rows d) t' /\ row_get p c' = row_get q c.
Proof.
  intros [Hs _ [_ Hfk] _ _] Hr Hq Hn. unfold refers in Hr. destruct (current_schema !! t) as [tb|] eqn:Etb; [|done].
  apply existsb_exists in Hr as (fk & Hin & [[<-%String.eqb_eq <-%String.eqb_eq]%andb_true_iff <-%String.eqb_eq]%andb_true_iff).
  unfold foreign_keys_ok in Hfk. rewrite forallb_elem in Hfk. specialize (Hfk (t, tb)).
  rewrite elem_of_map_to_list, Hs in Hfk. specialize (Hfk Etb). cbn in Hfk. rewrite forallb_elem in Hfk.
  apply list_elem_of_In in Hin. specialize (Hfk fk Hin). rewrite forallb_elem in Hfk. specialize (Hfk q Hq). unfold references in Hfk.
  destruct (value_eqb (row_get q (fk_column fk)) Null) eqn:En; [by apply value_eqb_eq in En|]. cbn in Hfk.
  apply existsb_exists in Hfk as (p & Hp%list_elem_of_In & Ep%value_eqb_eq). by exists p.
Qed.

(** ** Filerequests *)

Section Filerequests.
Context {W C F : Type} `{!Primitives W} `{!KeyBytes W} `{!Bincode DilithiumPublic} `{!Bincode DilithiumSecret}.
Context `{!SqliteConnection C} `{!ActorEnv C} {HJ : Json} {HV : Semver} `{!BackupHost C F}.
Context `{!SqliteLaws C} `{!ActorEnvLaws C} {HVL : SemverLaws}.

Definition audience_rows (d : database) (id : FylesId) : list row :=
  List.filter (fun r => value_eqb (row_get r "filerequest_id") (Text id)) (rows_of (db_rows d) "filerequest_audience").

Record filerequest_stored (d : database) (fr : Filerequest) : Prop := {
  stored_row : exists r, r ∈ rows_of (db_rows d) "filerequests" /\ row_get r "id" = Text (fr_id fr) /\
    row_get r "title" = Text (fr_title fr) /\ row_get r "description" = Text (fr_description fr) /\
    row_get r "status" = Text (status_column (fr_is_active fr)) /\
    row_get r "access_type" = Text (access_columns (fr_access fr)).1;
  stored_audience : (fun r => row_get r "contact_id") <$> audience_rows d (fr_id fr) = Text <$> (access_columns (fr_access fr)).2;
}.

Lemma insert_audience_stores id contact_ids c P :
  current (conn_session c) ->
  (forall a c', current (conn_session c') ->
     rows_of (db_rows (s_db (conn_session c'))) "filerequests" = rows_of (db_rows (s_db (conn_session c))) "filerequests" ->
     ((fun r => row_get r "contact_id") <$> audience_rows (s_db (conn_session c')) id =
        ((fun r => row_get r "contact_id") <$> audience_rows (s_db (conn_session c)) id) ++ (Text <$> contact_ids))%list ->
     P a c') ->
  okp (insert_audience id contact_ids) P c.
Proof.
  revert c P. induction contact_ids as [|contact_id l IH]; intros c P Hc HP; unfold insert_audience in *; cbn [for_rows].
  { apply okp_ret, HP; [done..|]. by rewrite app_nil_r. }
  apply okp_bind, okp_execute; [done|done|by vm_compute|]. intros legacy now out d n c1 He Hs1.
  apply exec_insert in He as (tb & Htb & [Hsch _] & Hrows & _ & Hother). destruct Hc as [He Hsc]. rewrite Hsc in Htb. table_def Htb.
  assert (current (conn_session c1)) as Hc1 by (rewrite Hs1; split; [done|cbn; congruence]).
  apply okp_bind, IH; [done|]. intros a c2 Hc2 Hfr2 Haud2. apply okp_ret, HP; [done| |].
  - rewrite Hfr2, Hs1. by apply Hother.
  - rewrite Haud2, Hs1. unfold audience_rows. cbn [with_db s_db]. rewrite Hrows, List.filter_app, fmap_app, <- app_assoc. f_equal.
    cbn. by rewrite String.eqb_refl.
Qed.

(** No audience of a filerequest that is not there. *)
Lemma no_audience d id :
  data_ok d -> (forall r, r ∈ rows_of (db_rows d) "filerequests" -> row_get r "id" <> Text id) -> audience_rows d id = [].
Proof.
  intros Hd Hno. apply filter_none_iff. intros q Hq. apply not_true_is_false. intros E%value_eqb_eq.
  destruct (row_refers d "filerequest_audience" "filerequest_id" "filerequests" "id" q) as (p & Hp & Ep);
    [done|by vm_compute|done|by rewrite E|]. apply (Hno p Hp). by rewrite Ep.
Qed.

Lemma create_stores fr c :
  ready (conn_session c) ->
  okp (handle_create fr) (fun id c' => filerequest_stored (s_db (conn_session c'))
    (mk_filerequest id (cfr_title fr) (cfr_description fr) (cfr_access fr) (cfr_is_active fr))) c.
Proof.
  intros Hr. pose proof Hr as [(He & Hd & _) _]. apply okp_map_err, okp_transaction. intros c1 Hs1. apply okp_bind, okp_fresh.
  intros id c2 Hs2. rewrite Hs1 in Hs2. destruct (access_columns (cfr_access fr)) as [access_type contact_ids] eqn:Ea.
  assert (current (conn_session c2)) as Hc2 by (rewrite Hs2; split; [done|apply Hd]).
  apply okp_bind, okp_map_err, okp_execute; [done|done|by vm_compute|]. intros legacy now out d n c3 Hx Hs3.
  rewrite Hs2 in Hx. apply exec_insert in Hx as (tb & Htb & [Hsch _] & Hrows & Hkeys & Hother). cbn [begin s_db] in *.
  rewrite (ok_schema _ Hd) in Htb. table_def Htb.
  assert (current (conn_session c3)) as Hc3 by (rewrite Hs3; split; [by rewrite Hs2|cbn; rewrite Hsch; apply Hd]).
  apply okp_bind, okp_map_err, insert_audience_stores; [done|]. intros a c4 Hc4 Hfr4 Haud4. apply okp_ret. intros c5 Hs5.
  rewrite Hs5. cbn [commit s_db]. split; cbn [fr_id fr_title fr_description fr_access fr_is_active]; rewrite ?Ea.
  - eexists. rewrite Hfr4, Hs3. cbn [with_db s_db]. rewrite Hrows. split; [apply elem_of_app; right; by left|]. by split_and!.
  - rewrite Haud4, Hs3. cbn [with_db s_db]. unfold audience_rows. rewrite Hother by done.
    change (List.filter _ _) with (audience_rows (s_db (conn_session c)) id). rewrite no_audience; [done|done|].
    intros r Hr' Hid. specialize (Hkeys ["id"] r ltac:(by left) Hr'). cbn in Hkeys. rewrite Hid in Hkeys. cbn in Hkeys.
    by rewrite String.eqb_refl in Hkeys.
Qed.

(** An audience is a set of contacts. *)
Definition same_access (a b : FilerequestAccess) : Prop :=
  match a, b with
  | Public, Public => True
  | Audience l, Audience l' => l ≡ₚ l'
  | _, _ => False
  end.

Definition same_filerequest (a b : Filerequest) : Prop :=
  fr_id a = fr_id b /\ fr_title a = fr_title b /\ fr_description a = fr_description b /\
  fr_is_active a = fr_is_active b /\ same_access (fr_access a) (fr_access b).

Lemma collect_texts l vs : l ≡ₚ ((fun s => [Text s]) <$> vs) -> exists vs', collect (fun r => get_at get_text r 0) l = Ok vs' /\ vs' ≡ₚ vs.
Proof.
  intros Hl. destruct (Permutation.Permutation_map_inv _ _ Hl) as (vs' & -> & Hp). exists vs'. split; [|by symmetry]. clear Hl Hp.
  induction vs' as [|v vs' IH]; [done|]. cbn in *. by rewrite IH.
Qed.

(** The answer, unless the engine fails. *)
Definition answers {E A} (P : A -> Prop) (r : result A E) : Prop := match r with Ok a => P a | Err _ => ~ reliable C end.

Lemma read_contact_ids_stored d id l c :
  current (conn_session c) -> s_db (conn_session c) = d -> (fun r => row_get r "contact_id") <$> audience_rows d id = Text <$> l ->
  iwp (read_contact_ids (C := C) id) (fun r _ => answers (fun l' => l' ≡ₚ l) r) c.
Proof.
  intros Hc Hd Hl. apply iwp_bind, iwp_rows; [done|by vm_compute| |done]. intros now out c' Hrows _. apply iwp_result.
  rewrite query_one in Hrows. cbn [x_rows] in Hrows. rewrite Hd in Hrows.
  rewrite (filter_ext _ (fun r => value_eqb (row_get r "filerequest_id") (Text id))) in Hrows by (intros r; by apply holds_key).
  destruct (collect_texts (out_rows out) l) as (l' & -> & Hp); [|done]. rewrite Hrows.
  rewrite (list_fmap_compose Text (fun v => [v])), <- Hl, <- list_fmap_compose. apply reflexive_eq, list_fmap_ext. intros i r _.
  cbn [compose fmap list_fmap eval]. by rewrite scope_get_one.
Qed.

Lemma table_unique d t tb : data_ok d -> current_schema !! t = Some tb -> unique_ok (t_keys tb) (rows_of (db_rows d) t) = true.
Proof.
  intros [Hs Hi [Ht _] _ _] Htb. destruct (Ht t tb ltac:(by rewrite Hs)) as [_ Hu]. unfold table_keys in Hu.
  rewrite Hi in Hu. cbn in Hu. by rewrite app_nil_r in Hu.
Qed.

(** The columns [cs] of the row with a key, which is given by [e]. *)
Definition select_by (e : expr) (t c : string) (cs : list string) : select :=
  mk_select (Exprs ((fun c => (Col None c, c)) <$> cs)) [(t, t)] (Eq (Col None c) e).

Definition select_by_key : string -> string -> list string -> select := select_by (Param 0).

Lemma query_by d e t tb c cs ps now r v :
  data_ok d -> current_schema !! t = Some tb -> [c] ∈ t_keys tb ->
  (forall r, eval (mk_context ps now (db_rows d)) [(t, r)] e = v) -> v <> Null ->
  r ∈ rows_of (db_rows d) t -> row_get r c = v ->
  query (mk_context ps now (db_rows d)) (select_by e t c cs) = [row_get r <$> cs].
Proof.
  intros Hd Htb Hk Hp Hn Hr Hv. unfold select_by. rewrite query_one. cbn [x_rows].
  rewrite (filter_ext _ (fun r => value_eqb (row_get r c) v)) by (intros r'; by apply holds_eq).
  rewrite (filter_key (t_keys tb) c _ r v) by (done || by apply table_unique). cbn [fmap list_fmap]. f_equal.
  rewrite <- list_fmap_compose. apply list_fmap_ext. intros i c' _. cbn [compose eval]. apply scope_get_one.
Qed.

Lemma iwp_by e ps t tb k cs v r {A} (f : list value -> io C RusqliteError A) Q c :
  ready (conn_session c) -> select_known current_schema (select_by e t k cs) = true ->
  current_schema !! t = Some tb -> [k] ∈ t_keys tb ->
  (forall now rs r, eval (mk_context ps now rs) [(t, r)] e = v) -> v <> Null ->
  r ∈ rows_of (db_rows (s_db (conn_session c))) t -> row_get r k = v ->
  (forall c', conn_session c' = conn_session c -> iwp (f (row_get r <$> cs)) Q c') -> (forall e c', ~ reliable C -> Q (Err e) c') ->
  iwp (query_row_with (Select (select_by e t k cs)) ps f) Q c.
Proof.
  intros [(He & Hd & _) _] Hk Htb Hkey Hev Hn Hr Hv Hf Herr. eapply iwp_one; [by split; [|apply Hd]|done| |done..].
  intros now. by eapply query_by.
Qed.

Lemma iwp_by_key t tb k cs v r {A} (f : list value -> io C RusqliteError A) Q c :
  ready (conn_session c) -> select_known current_schema (select_by_key t k cs) = true ->
  current_schema !! t = Some tb -> [k] ∈ t_keys tb -> v <> Null ->
  r ∈ rows_of (db_rows (s_db (conn_session c))) t -> row_get r k = v ->
  (forall c', conn_session c' = conn_session c -> iwp (f (row_get r <$> cs)) Q c') -> (forall e c', ~ reliable C -> Q (Err e) c') ->
  iwp (query_row_with (Select (select_by_key t k cs)) [v] f) Q c.
Proof. intros Hr Hk Htb Hkey. by apply (iwp_by (Param 0) [v] t tb). Qed.

Lemma get_stored fr c :
  ready (conn_session c) -> filerequest_stored (s_db (conn_session c)) fr ->
  iwp (handle_get_filerequest (C := C) (fr_id fr)) (fun r _ => answers (fun fr' => same_filerequest fr' fr) r) c.
Proof.
  intros Hready [(r & Hr & Hid & Htitle & Hdesc & Hst & Hacc) Haud]. pose proof Hready as [(He & Hd & _) _].
  assert (current (conn_session c)) as Hc by (split; [done|apply Hd]).
  assert (is_Some (current_schema !! "filerequests")) as [tb Htb] by (vm_compute; by eexists).
  apply iwp_map_err, iwp_map_err.
  apply (iwp_by_key "filerequests" tb "id" ["id"; "title"; "description"; "status"; "access_type"] (Text (fr_id fr)) r);
    [done|by vm_compute|done|table_def Htb; by left|done|done|done| |by intros].
  - intros c' Hs'. cbn [fmap list_fmap]. rewrite Hid, Htitle, Hdesc, Hst, Hacc.
    apply iwp_bind, iwp_result, iwp_bind. unfold read_access.
    destruct fr as [id title desc access active]; cbn [fr_id fr_title fr_description fr_access fr_is_active] in *.
    destruct access as [|l]; cbn [access_columns fst snd String.eqb Ascii.eqb Bool.eqb] in *.
    + apply iwp_ret. cbn. split_and!; try done. by destruct active.
    + apply iwp_bind. eapply iwp_mono; [eapply read_contact_ids_stored; [by rewrite Hs'|by rewrite Hs'|exact Haud]|].
      intros [l'|e] c'' Hl; [|done]. apply iwp_ret. cbn. split_and!; try done. by destruct active.
Qed.

(** A message that stores something, and one that reads it: at once, or after a
    restart on another connection to the same data. *)
Lemma stored_message {A} (store : SqliteMsg F A) w a w1 P :
  reliable C -> reached w -> local_msg store = true -> msg_wf store -> call store w = (Ok a, w1) ->
  (forall c, ready (conn_session c) -> s_db (conn_session c) = stored w ->
     okp (handle_msg store) (fun a c' => P a (s_db (conn_session c'))) c) ->
  sound w1 /\ P a (stored w1).
Proof.
  intros Hrel Hw Hl Hwf Hcall Hstore. destruct (reached_sound _ Hw) as [Hrun Hs]. destruct (Hs (Hrun Hrel)) as [Hr Hready].
  assert (reached w1) as Hw1 by (replace w1 with (call store w).2 by (by rewrite Hcall); by apply reached_call).
  destruct (reached_sound _ Hw1) as [Hrun1 Hs1]. split; [by apply Hs1, Hrun1|].
  destruct (call_spec store w _ Hr (Hstore _ Hready eq_refl)) as [Hst _]. by rewrite Hcall in Hst.
Qed.

Lemma read_message {B} (get : SqliteMsg F B) w Q :
  reliable C -> sound w -> (forall c, ready (conn_session c) -> s_db (conn_session c) = stored w ->
    iwp (handle_msg get) (fun r _ => answers Q r) c) ->
  exists b, (call get w).1 = Ok b /\ Q b.
Proof.
  intros Hrel [Hr Hready] Hget. destruct (call_spec get w _ Hr (Hget _ Hready eq_refl)) as [Hq _].
  destruct (call get w) as [[b|e] w2]; [|by destruct (Hq Hrel)]. by exists b.
Qed.

Lemma store_then_get {A B} (store : SqliteMsg F A) (get : SqliteMsg F B) w a w1 P Q :
  reliable C -> reached w -> local_msg store = true -> msg_wf store -> call store w = (Ok a, w1) ->
  (forall c, ready (conn_session c) -> s_db (conn_session c) = stored w ->
     okp (handle_msg store) (fun a c' => P a (s_db (conn_session c'))) c) ->
  (forall c, ready (conn_session c) -> P a (s_db (conn_session c)) -> iwp (handle_msg get) (fun r _ => answers Q r) c) ->
  exists b, (call get w1).1 = Ok b /\ Q b.
Proof.
  intros Hrel Hw Hl Hwf Hcall Hstore Hget. destruct (stored_message store w a w1 P) as [Hs1 HP]; [done..|].
  apply read_message; [done|done|]. intros c Hready Hc. apply Hget; [done|]. by rewrite Hc.
Qed.

(** *** Updates *)

Lemma found_exists w id fr w0 :
  reliable C -> reached (F := F) w -> call (F := F) (GetFilerequest id) w = (Ok fr, w0) ->
  exists r, r ∈ rows_of (db_rows (stored w0)) "filerequests" /\ row_get r "id" = Text id.
Proof.
  intros Hrel Hw Hcall. destruct (reached_sound _ Hw) as [Hrun Hs]. destruct (Hs (Hrun Hrel)) as [Hr Hready].
  destruct (call_spec (GetFilerequest id) w _ Hr (reads_reader (GetFilerequest id) eq_refl _ Hready)) as [Heq _].
  rewrite Hcall in Heq. cbn in Heq. unfold stored. rewrite Heq.
  assert (okp (handle_get_filerequest id) (fun _ _ => exists r,
    r ∈ rows_of (db_rows (s_db (conn_session (sq_conn w)))) "filerequests" /\ row_get r "id" = Text id) (sq_conn w)) as H.
  { pose proof Hready as [(He & Hd & _) _]. apply okp_map_err, okp_map_err, okp_query_row; [by split; [|apply Hd]|by vm_compute|].
    intros now o c' Ho Hs'. rewrite query_one in Ho. apply list_elem_of_fmap in Ho as (r & -> & [Hin Hh]%elem_of_List_filter).
    rewrite holds_key with (v := Text id), value_eqb_eq in Hh by done. 
    apply okp_reader; [repeat autounfold with db_calls; reader_solve|by rewrite Hs'|by eauto]. }
  destruct (call_spec (GetFilerequest id) w _ Hr H) as [H' _]. by rewrite Hcall in H'.
Qed.

Lemma update_stores fr c :
  ready (conn_session c) ->
  (exists r, r ∈ rows_of (db_rows (s_db (conn_session c))) "filerequests" /\ row_get r "id" = Text (fr_id fr)) ->
  okp (handle_update fr) (fun _ c' => filerequest_stored (s_db (conn_session c')) fr) c.
Proof.
  intros [(He & Hd & _) _] (r & Hr & Hid). apply okp_map_err, okp_transaction. intros c1 Hs1.
  destruct (access_columns (fr_access fr)) as [access_type contact_ids] eqn:Ea.
  assert (current (conn_session c1)) as Hc1 by (rewrite Hs1; split; [done|apply Hd]).
  apply okp_bind, okp_map_err, okp_execute; [done|done|by vm_compute|]. intros legacy now out d n c2 Hx Hs2.
  rewrite Hs1 in Hx. cbn [begin s_db] in Hx. eapply update_by_key in Hx as (tb & Htb & Hrow & [Hsch _] & Hother); [|done..].
  rewrite (ok_schema _ Hd) in Htb, Hsch. table_def Htb.
  assert (exists r', r' ∈ rows_of (db_rows d) "filerequests" /\ row_get r' "id" = Text (fr_id fr) /\
    row_get r' "title" = Text (fr_title fr) /\ row_get r' "description" = Text (fr_description fr) /\
    row_get r' "status" = Text (status_column (fr_is_active fr)) /\ row_get r' "access_type" = Text access_type) as Hrow'.
  { eexists. split; [exact Hrow|]. clear Hrow. pose proof (row_typed _ "filerequests" _ _ Hd eq_refl Hr) as Hfit.
    row_shape Hfit. by split_and!. }
  clear Hrow. assert (current (conn_session c2)) as Hc2 by (rewrite Hs2; split; [by rewrite Hs1|done]).
  apply okp_bind, okp_map_err, okp_execute; [done|done|by vm_compute|]. intros legacy' now' out' d' n' c3 Hx Hs3.
  rewrite Hs2 in Hx. cbn [with_db s_db] in Hx. apply res_bind_Ok in Hx as (d2 & [-> _]%finish_ok & [= <- <-]).
  assert (current (conn_session c3)) as Hc3 by (rewrite Hs3; split; [by rewrite Hs2, Hs1|done]).
  apply okp_bind, okp_map_err, insert_audience_stores; [done|]. intros a c4 Hc4 Hfr4 Haud4. apply okp_ret. intros c5 Hs5.
  rewrite Hs5. cbn [commit s_db]. split; rewrite ?Ea.
  - rewrite Hfr4, Hs3. cbn [with_db s_db with_rows db_rows]. unfold delete_all. rewrite delete_rows_standalone; [done|done|].
    rewrite Hsch. intros tb Htb. by table_def Htb.
  - rewrite Haud4, Hs3. cbn [with_db s_db]. unfold audience_rows. cbn [with_rows db_rows].
    rewrite filter_none_iff; [done|]. intros q Hq. unfold delete_all in Hq.
    apply (fun H => elem_of_sublist _ _ _ H (delete_rows_first _ _ _ _ _)), elem_of_List_filter in Hq as [_ Hq].
    by rewrite holds_key with (v := Text (fr_id fr)), negb_true_iff in Hq by done.
Qed.

Lemma created_filerequest_is_read w fr id w1 :
  reliable C -> reached (F := F) w -> call (F := F) (CreateFilerequest fr) w = (Ok id, w1) ->
  exists fr', (call (F := F) (GetFilerequest id) w1).1 = Ok fr' /\
    same_filerequest fr' (mk_filerequest id (cfr_title fr) (cfr_description fr) (cfr_access fr) (cfr_is_active fr)).
Proof.
  intros Hrel Hw Hcall. apply (store_then_get (CreateFilerequest fr) (GetFilerequest id) w id w1 (fun id d => filerequest_stored d
    (mk_filerequest id (cfr_title fr) (cfr_description fr) (cfr_access fr) (cfr_is_active fr)))); [done|done|done|done|exact Hcall| |].
  - intros c Hready _. by apply create_stores.
  - intros c Hready Hst. by apply (get_stored (mk_filerequest id _ _ _ _)).
Qed.

Lemma updated_filerequest_is_read w fr old w0 w1 :
  reliable C -> reached (F := F) w ->
  call (F := F) (GetFilerequest (fr_id fr)) w = (Ok old, w0) -> call (F := F) (UpdateFilerequest fr) w0 = (Ok tt, w1) ->
  exists fr', (call (F := F) (GetFilerequest (fr_id fr)) w1).1 = Ok fr' /\ same_filerequest fr' fr.
Proof.
  intros Hrel Hw Hget Hcall. assert (reached (F := F) w0) as Hw0.
  { replace w0 with (call (F := F) (GetFilerequest (fr_id fr)) w).2 by (by rewrite Hget). by apply reached_call. }
  apply (store_then_get (UpdateFilerequest fr) (GetFilerequest (fr_id fr)) w0 tt w1 (fun _ d => filerequest_stored d fr)); [done|done|done|done|exact Hcall| |].
  - intros c Hready Hc. apply update_stores; [done|]. rewrite Hc. by apply (found_exists w _ old).
  - intros c Hready Hst. by apply get_stored.
Qed.

(** A filerequest is read as it was stored, whatever else the
    database holds: after CreateFilerequest answered with an id, or UpdateFilerequest
    succeeded for a filerequest that GetFilerequest finds, GetFilerequest answers
    with the stored title, description, activity and access. The audience is the same
    up to its order; in particular members that an update leaves out are gone. *)
Theorem filerequest_is_read_as_stored w :
  reliable C -> reached (F := F) w ->
  (forall new id w1, call (F := F) (CreateFilerequest new) w = (Ok id, w1) ->
     exists fr, (call (F := F) (GetFilerequest id) w1).1 = Ok fr /\
       same_filerequest fr (mk_filerequest id (cfr_title new) (cfr_description new) (cfr_access new) (cfr_is_active new))) /\
  (forall changed old w0 w1, call (F := F) (GetFilerequest (fr_id changed)) w = (Ok old, w0) ->
     call (F := F) (UpdateFilerequest changed) w0 = (Ok tt, w1) ->
     exists fr, (call (F := F) (GetFilerequest (fr_id changed)) w1).1 = Ok fr /\ same_filerequest fr changed).
Proof.
  intros Hrel Hw. split.
  - intros new id w1. by apply created_filerequest_is_read.
  - intros changed old w0 w1. by apply updated_filerequest_is_read.
Qed.

(** *** Members of an audience *)

Lemma get_audience id c :
  ready (conn_session c) ->
  okp (handle_get_filerequest id) (fun fr _ => forall l x, fr_access fr = Audience l -> x ∈ l ->
    exists q, q ∈ rows_of (db_rows (s_db (conn_session c))) "filerequest_audience" /\ row_get q "contact_id" = Text x) c.
Proof.
  intros [(He & Hd & _) _]. assert (current (conn_session c)) as Hc by (split; [done|apply Hd]).
  apply okp_map_err, okp_map_err, okp_query_row; [done|by vm_compute|]. intros now o c1 _ Hs1.
  apply okp_bind, okp_result. intros ty _. apply okp_bind.
  assert (okp (read_access ty id) (fun a c' => forall l x, a = Audience l -> x ∈ l ->
    exists q, q ∈ rows_of (db_rows (s_db (conn_session c))) "filerequest_audience" /\ row_get q "contact_id" = Text x) c1) as Ha.
  { unfold read_access. destruct (String.eqb _ _); [by apply okp_ret|]. destruct (String.eqb _ _).
    2: { apply okp_ret. by intros l x [= <-] ?%not_elem_of_nil. }
    apply okp_bind, okp_bind, okp_run; [by rewrite Hs1|done|by vm_compute|]. intros legacy now' out0 out d c2 [= <- <-] Hrows _.
    apply okp_result. intros l El. apply okp_ret. intros l' x [= <-] Hx.
    destruct (collect_elem _ _ _ _ El Hx) as (o' & Ho' & Et). cbn [out_rows] in Hrows. rewrite Hrows, query_one in Ho'.
    apply list_elem_of_fmap in Ho' as (q & -> & [Hq _]%elem_of_List_filter). rewrite Hs1 in Hq. exists q. split; [done|].
    revert Et. unfold get_at. cbn [fmap list_fmap eval value_at lookup list_lookup res_bind]. rewrite scope_get_one.
    destruct (row_get q "contact_id"); try done. by intros [= <-]. }
  eapply okp_mono; [exact Ha|]. cbn. intros access c2 Hacc. apply okp_bind, okp_result. intros id' _. apply okp_result.
  intros fr Hfr. unfold read_filerequest in Hfr.
  repeat (apply res_bind_Ok in Hfr as (? & _ & Hfr)). by injection Hfr as <-.
Qed.

Lemma delete_contact_gone id c :
  ready (conn_session c) ->
  okp (handle_delete_contact id) (fun _ c' => forall r, r ∈ rows_of (db_rows (s_db (conn_session c'))) "contacts" ->
    row_get r "id" <> Text id) c.
Proof.
  intros [(He & Hd & _) _]. assert (current (conn_session c)) as Hc by (split; [done|apply Hd]).
  apply okp_map_err, okp_map_err, okp_bind, okp_execute; [done|done|by vm_compute|]. intros legacy now out d n c1 Hx Hs1.
  apply okp_ret. rewrite Hs1. apply res_bind_Ok in Hx as (d2 & [-> _]%finish_ok & [= <- <-]). intros r Hr Hid.
  cbn [with_db s_db with_rows db_rows] in Hr. unfold delete_all in Hr.
  apply (fun H => elem_of_sublist _ _ _ H (delete_rows_first _ _ _ _ _)), elem_of_List_filter in Hr as [_ Hr].
  rewrite holds_key with (v := Text id), Hid, value_eqb_refl in Hr by done. done.
Qed.

(** C14 (safety). A deleted contact is in no audience: after DeleteContact
    succeeded, every filerequest that is not public refuses the contact, without the
    filerequests having been updated. *)
Theorem deleted_contact_loses_access w id w1 request fr w2 :
  reached (F := F) w -> sq_running w = true -> call (F := F) (DeleteContact id) w = (Ok tt, w1) ->
  call (F := F) (GetFilerequest request) w1 = (Ok fr, w2) -> fr_access fr <> Public ->
  is_accessible_by (fr_access fr) (Some id) = false.
Proof.
  intros Hw Hrun Hdel Hget Hpub. destruct (reached_sound _ Hw) as [_ Hs]. destruct (Hs Hrun) as [_ Hready].
  destruct (call_spec (DeleteContact id) w _ Hrun (delete_contact_gone id _ Hready)) as [Hgone Hr1]. rewrite Hdel in Hgone, Hr1. cbn in Hgone, Hr1.
  assert (reached (F := F) w1) as Hw1 by (replace w1 with (call (F := F) (DeleteContact id) w).2 by (by rewrite Hdel); by apply reached_call).
  destruct (reached_sound _ Hw1) as [_ Hs1]. destruct (Hs1 Hr1) as [_ Hready1]. pose proof Hready1 as [(_ & Hd1 & _) _].
  destruct (call_spec (GetFilerequest request) w1 _ Hr1 (get_audience request _ Hready1)) as [Haud _]. rewrite Hget in Haud. cbn in Haud.
  destruct (fr_access fr) as [|l]; [done|]. cbn. apply bool_decide_eq_false. intros Hin.
  destruct (Haud l id eq_refl Hin) as (q & Hq & Eq).
  destruct (row_refers _ "filerequest_audience" "contact_id" "contacts" "id" q Hd1) as (p & Hp & Ep); [by vm_compute|done|by rewrite Eq|].
  apply (Hgone p Hp). by rewrite Ep.
Qed.

End Filerequests.

Section Witnesses.
Import Toy ToyKeys MemoryDb.

Definition alice : Contact := mk_contact "alice" "Alice" (mk_contact_public 1 2).
Definition bob : Contact := mk_contact "bob" "Bob" (mk_contact_public 3 4).

(** Two contacts *)
Definition with_contacts : Sqlite :=
  (call (F := unit) (RegisterContact bob) (call (F := unit) (RegisterContact alice) started).2).2.

Lemma with_contacts_reached : reached (F := unit) with_contacts.
Proof. apply reached_call; [apply reached_call; [by apply reached_new|done|done]|done|done]. Qed.

Definition for_both : BrainTypes.CreateFilerequest := mk_create_filerequest "title" "text" (Audience ["alice"; "bob"]) true.
Definition with_request : Sqlite := (call (F := unit) (CreateFilerequest for_both) with_contacts).2.

Definition for_bob : Filerequest := mk_filerequest "id0" "new title" "text" (Audience ["bob"]) false.

Lemma filerequest_is_read_as_stored_witness :
  (exists fr, (call (F := unit) (GetFilerequest "id0") with_request).1 = Ok fr /\
    same_filerequest fr (mk_filerequest "id0" "title" "text" (Audience ["alice"; "bob"]) true)) /\
  (exists fr, (call (F := unit) (GetFilerequest "id0") (call (F := unit) (UpdateFilerequest for_bob) with_request).2).1 = Ok fr /\
    same_filerequest fr for_bob).
Proof.
  split.
  - apply (proj1 (filerequest_is_read_as_stored (F := unit) with_contacts memory_reliable with_contacts_reached) for_both "id0" with_request).
    vm_compute. reflexivity.
  - assert (reached (F := unit) with_request) as Hr by (apply reached_call; [apply with_contacts_reached|done|done]).
    apply (proj2 (filerequest_is_read_as_stored (F := unit) with_request memory_reliable Hr) for_bob
      (mk_filerequest "id0" "title" "text" (Audience ["alice"; "bob"]) true) with_request); vm_compute; reflexivity.
Defined.

Lemma deleted_contact_loses_access_witness : is_accessible_by (Audience ["bob"]) (Some "alice") = false.
Proof.
  apply (deleted_contact_loses_access (F := unit) with_request "alice" (call (F := unit) (DeleteContact "alice") with_request).2 "id0"
    (mk_filerequest "id0" "title" "text" (Audience ["bob"]) true)
    (call (F := unit) (GetFilerequest "id0") (call (F := unit) (DeleteContact "alice") with_request).2).2);
    [apply reached_call; [apply with_contacts_reached|done|done]|by vm_compute|vm_compute; reflexivity|vm_compute; reflexivity|done].
Defined.
End Witnesses.
