(* ===== verification/SqlitePending.v ===== *)
(** * The status of files to send, stored and read

    UpdatePendingFileStatus followed by GetPendingFile. *)

From S2P Require Import Prelude Domain NonceWindow Dencryptor KeyExchange ReceiveManager HostPath HostController BrainTypes.
From S2P Require Import Sql SqlText SqlTheory Connection SqliteActor Migrations Sqlite SqliteStore SqliteExample SqliteAtomic SqliteReads SqliteRoundtrip.
#[local] Open Scope string_scope.
#[local] Open Scope Z_scope.

Section Pending.
Context {W C F : Type} `{!Primitives W} `{!KeyBytes W} `{!Bincode DilithiumPublic} `{!Bincode DilithiumSecret}.
Context `{!SqliteConnection C} `{!ActorEnv C} {HJ : Json} {HV : Semver} `{!BackupHost C F}.
Context `{!SqliteLaws C} `{!ActorEnvLaws C} {HVL : SemverLaws}.

(** The status, and the number of attempts if it was given, are in the row. *)
Definition status_stored (d : database) (id : FylesId) (status : SendStatus) (retry_count : option Z) (target : FylesId) : Prop :=
  exists r, r ∈ rows_of (db_rows d) "pending_files" /\ row_get r "id" = Text id /\
    row_get r "target_filerequest_id" = Text target /\
    (forall n, retry_count = Some n -> row_get r "retry_count" = Integer n) /\
    (forall tag, status_tag status = Ok tag -> row_get r "status" = Text tag) /\
    (forall td, status_transfer_data status = Some td ->
       row_get r "progress_bytes" = Integer (as_i64 (progress_bytes td)) /\
       row_get r "file_size_bytes" = Integer (as_i64 (file_size_bytes td)) /\ row_get r "transfer_id" = Text (transfer_id td)).

Lemma okp_update_returning t sets k n col ps v c :
  current (conn_session c) -> stmt_known current_schema (Update t sets (Eq (Col None k) (Param n)) [col]) = true ->
  ps !! n = Some v -> v <> Null ->
  okp (query_row (Update t sets (Eq (Col None k) (Param n)) [col]) ps (fun r => get_at get_text r 0)) (fun a c' =>
    exists tb r r' now, current_schema !! t = Some tb /\ r ∈ rows_of (db_rows (s_db (conn_session c))) t /\ row_get r k = v /\
      r' = set_row (mk_context ps now (db_rows (s_db (conn_session c)))) tb sets [(t, r)] r /\
      r' ∈ rows_of (db_rows (s_db (conn_session c'))) t /\ row_get r' col = Text a) c.
Proof.
  intros Hc Hk Hp Hn. apply okp_bind, okp_run; [done..|]. intros legacy now out0 out d c1 Hx Hrows Hs1.
  apply exec_update in Hx as (tb & Htb & _ & Hnew & _ & _ & Hret & _). rewrite Hret in Hrows by done.
  rewrite (proj2 Hc) in Htb. destruct (out_rows out) as [|o os]; [done|].
  assert (o ∈ o :: os) as Ho by (by left). rewrite Hrows in Ho. apply list_elem_of_fmap in Ho as (r & -> & [Hr Hh]%elem_of_List_filter).
  apply okp_result. intros a Ha. pose proof Hh as Hv. rewrite holds_key with (v := v), value_eqb_eq in Hv by done.
  exists tb, r, (set_row (mk_context ps now (db_rows (s_db (conn_session c)))) tb sets [(t, r)] r), now. split_and!; try done.
  - rewrite Hs1. cbn [with_db s_db]. rewrite Hnew. apply list_elem_of_fmap. exists r. by rewrite Hh.
  - revert Ha. unfold get_at. cbn [fmap list_fmap value_at lookup list_lookup res_bind]. destruct (row_get _ col); try done. by intros [= <-].
Qed.

Lemma update_status_stores id status retry_count c :
  ready (conn_session c) ->
  okp (handle_update_pending_file_status id status retry_count) (fun target c' =>
    status_stored (s_db (conn_session c')) id status retry_count target) c.
Proof.
  intros [(He & Hd & _) _]. assert (current (conn_session c)) as Hc by (split; [done|apply Hd]).
  assert (forall t r, r ∈ rows_of (db_rows (s_db (conn_session c))) t -> forall ks, store_kinds !! t = Some ks -> row_fits ks r) as Hfit.
  { intros t r Hr ks Hk. by eapply row_typed. }
  unfold handle_update_pending_file_status. apply okp_map_err. destruct (status_tag status) as [tag|] eqn:Et; [|by apply iwp_throw].
  destruct retry_count as [n|].
  - unfold usize_to_sql. destruct (n <? i64_modulus); [|done]. apply okp_bind, okp_ret, okp_map_err.
    eapply okp_mono; [eapply okp_update_returning; [done|by vm_compute|done|done]|].
    intros target c' (tb & r & r' & now & Htb & Hr & Hid & -> & Hr' & Hcol). eexists. split; [exact Hr'|].
    table_def Htb. specialize (Hfit _ _ Hr _ eq_refl). row_shape Hfit. rewrite Et.
    split_and!; [done|done|intros ? ?; by simplify_eq..|]. by intros td ->.
  - destruct (status_transfer_data status) as [td|] eqn:Etd; apply okp_map_err;
    (eapply okp_mono; [eapply okp_update_returning; [done|by vm_compute|done|done]|]);
    intros target c' (tb & r & r' & now & Htb & Hr & Hid & -> & Hr' & Hcol); (eexists; split; [exact Hr'|]);
    table_def Htb; specialize (Hfit _ _ Hr _ eq_refl); row_shape Hfit; rewrite Et;
    (split_and!; [done|done|intros ? ?; by simplify_eq..]).
Qed.

Definition pending_columns : list string :=
  ["id"; "file_path"; "target_filerequest_id"; "status"; "retry_count"; "progress_bytes"; "file_size_bytes"; "transfer_id";
   "display_name"; "interruption_reasons"].

Lemma read_pending_ok o :
  values_fit [text; text; text; text; natural; natural_or_null; natural_or_null; text_or_null; text_or_null; text] o ->
  exists p, read_pending_row 8 9 o = Ok p.
Proof.
  intros Hk. kinds_inv; cbn;
    repeat match goal with H : (0 <=? _) = true |- _ => rewrite H; clear H end; by eexists.
Qed.

Lemma pending_columns_fit d r :
  data_ok d -> r ∈ rows_of (db_rows d) "pending_files" ->
  values_fit [text; text; text; text; natural; natural_or_null; natural_or_null; text_or_null; text_or_null; text] (row_get r <$> pending_columns).
Proof.
  intros Hd Hr. pose proof (row_typed _ "pending_files" _ _ Hd eq_refl Hr) as Hfit.
  repeat (constructor; [by eapply row_kind; [exact Hfit|]|]). constructor.
Qed.

Lemma read_pending_inv display reasons o p :
  read_pending_row display reasons o = Ok p ->
  get_at get_text o 0 = Ok (pr_id p) /\ get_at get_text o 1 = Ok (pr_file_path p) /\ get_at get_text o 2 = Ok (pr_target p) /\
  get_at get_text o 3 = Ok (pr_status p) /\ get_at get_u64 o 4 = Ok (pr_retry_count p) /\
  get_at (get_option get_u64) o 5 = Ok (pr_progress_bytes p) /\ get_at (get_option get_u64) o 6 = Ok (pr_file_size_bytes p) /\
  get_at (get_option get_text) o 7 = Ok (pr_transfer_id p).
Proof.
  intros Hp. unfold read_pending_row in Hp.
  repeat match goal with H : res_bind _ _ = Ok _ |- _ => apply res_bind_Ok in H as (? & ? & ?) end. by simplify_eq.
Qed.

Lemma get_at_columns {A} (get : value -> result A RusqliteError) r (cs : list string) i :
  get_at get (row_get r <$> cs) i = match cs !! i with Some c => get (row_get r c) | None => Err InvalidColumnType end.
Proof. unfold get_at, value_at. rewrite list_lookup_fmap. by destruct (cs !! i). Qed.

Lemma as_i64_small z : 0 <= z < u64_modulus -> 0 <= as_i64 z -> as_i64 z = z.
Proof. unfold as_i64, u64_modulus, i64_modulus. intros Hz. destruct (Z.ltb_spec z (2 ^ 63)); lia. Qed.

(** What is in the columns is the status. *)
Lemma stored_status_parses d r status tag p f t :
  data_ok d -> r ∈ rows_of (db_rows d) "pending_files" -> status_tag status = Ok tag -> row_get r "status" = Text tag ->
  (forall td, status_transfer_data status = Some td ->
     0 <= progress_bytes td < u64_modulus /\ 0 <= file_size_bytes td < u64_modulus /\
     row_get r "progress_bytes" = Integer (as_i64 (progress_bytes td)) /\
     row_get r "file_size_bytes" = Integer (as_i64 (file_size_bytes td)) /\ row_get r "transfer_id" = Text (transfer_id td)) ->
  get_option get_u64 (row_get r "progress_bytes") = Ok p -> get_option get_u64 (row_get r "file_size_bytes") = Ok f ->
  get_option get_text (row_get r "transfer_id") = Ok t ->
  from_db_columns tag p f t = Ok status.
Proof.
  intros Hd Hr Htag Hs Htd Hp Hf Ht. destruct (status_transfer_data status) as [td|] eqn:Etd.
  - destruct (Htd td eq_refl) as (Hbp & Hbf & Ep & Ef & Et). rewrite Ep in Hp. rewrite Ef in Hf. rewrite Et in Ht.
    cbn in Hp, Hf, Ht. injection Ht as <-.
    destruct (Z.leb_spec 0 (as_i64 (progress_bytes td))) as [Hp0|]; [|done].
    destruct (Z.leb_spec 0 (as_i64 (file_size_bytes td))) as [Hf0|]; [|done]. injection Hp as <-. injection Hf as <-.
    rewrite !as_i64_small by done. destruct status as [|[[] []]| | | |]; cbn in Etd; simplify_eq; cbn in Htag; simplify_eq; by vm_compute.
  - destruct status as [| | | | |]; cbn in Etd; simplify_eq; cbn in Htag; simplify_eq; unfold from_db_columns; by repeat case_decide.
Qed.

Definition u64_data (status : SendStatus) : Prop :=
  forall td, status_transfer_data status = Some td -> 0 <= progress_bytes td < u64_modulus /\ 0 <= file_size_bytes td < u64_modulus.

Lemma get_pending_stored id status retry_count target c :
  ready (conn_session c) -> status_stored (s_db (conn_session c)) id status retry_count target ->
  is_ok (status_tag status) = true -> u64_data status ->
  iwp (handle_get_pending_file id) (fun r _ => answers (fun f =>
    pf_id f = id /\ pf_target_filerequest_id f = target /\ pf_status f = status /\
    forall n, retry_count = Some n -> pf_retry_count f = n) r) c.
Proof.
  intros Hready (r & Hr & Hid & Htarget & Hretry & Htag & Htd) Hok Hb. destruct (status_tag status) as [tag|] eqn:Et; [|done].
  specialize (Htag tag eq_refl). pose proof Hready as [(He & Hd & _) _].
  assert (is_Some (current_schema !! "pending_files")) as [tb Htb] by (vm_compute; by eexists).
  assert (is_Some (current_schema !! "remote_filerequests")) as [tb' Htb'] by (vm_compute; by eexists).
  destruct (row_refers _ "pending_files" "target_filerequest_id" "remote_filerequests" "id" r Hd) as (q & Hq & Hqid);
    [by vm_compute|done|by rewrite Htarget|].
  apply iwp_map_err, iwp_bind, iwp_map_err.
  apply (iwp_by_key "pending_files" tb "id" pending_columns (Text id) r); [done|by vm_compute|done|table_def Htb; by left|done|done|done| |by intros].
  intros c1 Hs1. apply iwp_result. destruct (read_pending_ok _ (pending_columns_fit _ _ Hd Hr)) as (p & Ep). rewrite Ep.
  apply read_pending_inv in Ep as (E0 & _ & E2 & E3 & E4 & E5 & E6 & E7).
  rewrite (get_at_columns get_text) in E0, E2, E3. rewrite (get_at_columns get_u64) in E4.
  rewrite (get_at_columns (get_option get_u64)) in E5, E6. rewrite (get_at_columns (get_option get_text)) in E7. cbn [pending_columns lookup list_lookup] in *.
  rewrite Hid in E0. rewrite Htarget in E2. rewrite Htag in E3. injection E0 as E0. injection E2 as E2. injection E3 as E3.
  apply iwp_bind, iwp_map_err. rewrite <- E2.
  apply (iwp_by_key "remote_filerequests" tb' "id" ["contact_id"] (Text target) q);
    [by rewrite Hs1|by vm_compute|done|table_def Htb'; by left|done|by rewrite Hs1|congruence| |by intros].
  intros c2 _. pose proof (row_typed _ "remote_filerequests" _ _ Hd eq_refl Hq) as Hfit.
  pose proof (row_kind _ _ "contact_id" _ Hfit eq_refl) as Hk. cbn [fmap list_fmap].
  destruct (row_get q "contact_id") as [| |contact_id|]; try done. apply iwp_result. unfold pending_file. rewrite <- E3.
  erewrite (stored_status_parses _ r status tag); [|done..| |done|done|done].
  2: { intros td Et'. destruct (Htd td Et') as (? & ? & ?), (Hb td Et') as [? ?]. done. }
  apply iwp_ret. cbn. split_and!; try done. intros n ->. rewrite (Hretry n eq_refl) in E4. cbn in E4.
  destruct (0 <=? n); congruence.
Qed.

(** The status of a file to send is the one that is read back:
    after UpdatePendingFileStatus succeeded, GetPendingFile answers with this status
    and its progress, with the number of attempts if one was given, and with the
    target the update reported. Statuses that must not be persisted are refused. *)
Theorem pending_status_is_read w id status retry_count target w1 :
  reliable C -> reached (F := F) w -> u64_data status -> (forall n, retry_count = Some n -> 0 <= n) ->
  call (F := F) (UpdatePendingFileStatus id status retry_count) w = (Ok target, w1) ->
  exists f, (call (F := F) (GetPendingFile id) w1).1 = Ok f /\
    pf_id f = id /\ pf_target_filerequest_id f = target /\ pf_status f = status /\
    forall n, retry_count = Some n -> pf_retry_count f = n.
Proof.
  intros Hrel Hw Hb Hn Hcall.
  assert (is_ok (status_tag status) = true) as Hok.
  { unfold call in Hcall. destruct (sq_running w); [|done]. cbn [handle_msg] in Hcall. unfold handle_update_pending_file_status in Hcall.
    by destruct (status_tag status). }
  apply (store_then_get (UpdatePendingFileStatus id status retry_count) (GetPendingFile id) w target w1
    (fun target d => status_stored d id status retry_count target)); [done|done|done| |exact Hcall| |].
  - destruct retry_count as [n|]; [by apply Hn|done].
  - intros c Hready _. by apply update_status_stores.
  - intros c Hready Hst. by eapply get_pending_stored.
Qed.
End Pending.

Section Witnesses.
Import Toy ToyKeys MemoryDb.

(** A contact, a filerequest of it, and a file to send. *)
Definition with_pending : Sqlite :=
  (call (F := unit) (CreatePendingFile (mk_create_pending [mk_file_info "/f" None] "id0"))
    (call (F := unit) (CreateRemoteFilerequest (mk_create_remote "peer" "request" "name" "alice")) started).2).2.

Definition half_sent : SendStatus := SInProgress (mk_in_progress Sending (mk_transfer_data 5 10 "t")).

Lemma pending_status_is_read_witness :
  exists f, (call (F := unit) (GetPendingFile "id1") (call (F := unit) (UpdatePendingFileStatus "id1" half_sent (Some 2)) with_pending).2).1 = Ok f /\
    pf_status f = half_sent /\ pf_retry_count f = 2.
Proof.
  edestruct (pending_status_is_read (F := unit) with_pending "id1" half_sent (Some 2) "id0") as (f & E & _ & _ & Hst & Hn);
    [apply memory_reliable| | | | |].
  - apply reached_call; [apply reached_call; [by apply reached_new|done|done]|done|done].
  - intros td [= <-]. by vm_compute.
  - by intros n [= <-].
  - vm_compute. reflexivity.
  - exists f. split; [exact E|]. split; [exact Hst|by apply Hn].
Defined.
End Witnesses.
