(* ===== verification/SqliteKeys.v ===== *)
(** * Keys and contacts, stored and read

    RegisterContact followed by GetContact, and StoreNodeKeys followed by
    GetNodeInfo: the keys that are read are the keys that were stored. *)

From S2P Require Import Prelude Domain NonceWindow Dencryptor KeyExchange ReceiveManager HostPath HostController BrainTypes.
From S2P Require Import Sql SqlText SqlTheory Connection SqliteActor Migrations Sqlite SqliteStore SqliteExample SqliteAtomic SqliteReads SqliteRoundtrip.
#[local] Open Scope string_scope.
#[local] Open Scope Z_scope.

(** The row of an INSERT OR REPLACE is there. *)
Lemma exec_replace legacy t cols l ps now d out d' :
  exec true legacy (Insert OrReplace t (Some cols) (Values l)) ps now d = Ok (out, d') ->
  exists tb, db_schema d !! t = Some tb /\ db_schema d' = db_schema d /\
    new_row tb cols (eval (mk_context ps now (db_rows d)) [] <$> l) ∈ rows_of (db_rows d') t /\
    forall t', t <> t' -> standalone (db_schema d) t' -> rows_of (db_rows d') t' = rows_of (db_rows d) t'.
Proof.
  intros Hx. assert (forall t', t <> t' -> standalone (db_schema d) t' -> rows_of (db_rows d') t' = rows_of (db_rows d) t') as Hother.
  { intros t' Hne Hst. apply (exec_other _ _ _ _ _ _ _ _ t') in Hx; [by destruct Hx|done|cbn; congruence|done]. }
  cbn [exec] in Hx. destruct (db_schema d !! t) as [tb|] eqn:Ht; [|done]. exists tb. split; [done|].
  apply res_bind_Ok in Hx as ([n d1] & Hi & (d2 & [-> _]%finish_ok & [= <- <-])%res_bind_Ok).
  cbn [fmap list_fmap insert_rows] in Hi. apply res_bind_Ok in Hi as ([n1 d3] & Hi & [= <- <-]).
  assert (forall r rs, r ∈ rows_of (append_row t r rs) t) as Happ.
  { intros r rs. unfold append_row. rewrite rows_of_insert_eq. apply elem_of_app. right. by left. }
  unfold insert_row in Hi. destruct (negb _); [done|]. destruct (List.filter _ _); injection Hi as <- <-; split_and!; try done; apply Happ.
Qed.

Section Optional.
Context {C : Type} `{!SqliteConnection C}.

Lemma iwp_optional {A} (m : io C RusqliteError A) Q c :
  iwp m (fun r c' => Q (match r with
                        | Ok a => Ok (Some a)
                        | Err QueryReturnedNoRows => Ok None
                        | Err e => Err e
                        end) c') c ->
  iwp (optional_row m) Q c.
Proof. unfold iwp, optional_row. by destruct (m c) as [[]| | |]. Qed.
End Optional.

Section Keys.
Context {W C F : Type} `{!Primitives W} `{!KeyBytes W} `{!Bincode DilithiumPublic} `{!Bincode DilithiumSecret}.
Context `{!SqliteConnection C} `{!ActorEnv C} {HJ : Json} {HV : Semver} `{!BackupHost C F}.
Context `{!SqliteLaws C} `{!ActorEnvLaws C} {HVL : SemverLaws}.
Context `{!KeyBytesLaws W} `{!BincodeLaws DilithiumPublic} `{!BincodeLaws DilithiumSecret}.

(** ** Contacts *)

Definition contact_stored (d : database) (contact : Contact) : Prop :=
  exists r b, r ∈ rows_of (db_rows d) "contacts" /\ serialize_dilithium_public_key (pub_dilithium (c_public_keys contact)) = Some b /\
    row_get r "id" = Text (c_id contact) /\ row_get r "name" = Text (c_name contact) /\ row_get r "dilithium_public_key" = Blob b /\
    row_get r "ed25519_public_key" = Blob (serialize_ed25519_public_key (pub_ed25519 (c_public_keys contact))).

Lemma register_stores contact c :
  ready (conn_session c) -> okp (handle_register_contact contact) (fun _ c' => contact_stored (s_db (conn_session c')) contact) c.
Proof.
  intros [(He & Hd & _) _]. assert (current (conn_session c)) as Hc by (split; [done|apply Hd]).
  apply okp_map_err, okp_bind. unfold or_custom. destruct (serialize_dilithium_public_key _) as [b|] eqn:Eb; [|by apply iwp_throw].
  apply okp_ret, okp_bind, okp_map_err, okp_execute; [done|done|by vm_compute|]. intros legacy now out d n c1 Hx Hs1. apply okp_ret.
  apply exec_insert in Hx as (tb & Htb & _ & Hrows & _). rewrite (ok_schema _ Hd) in Htb. table_def Htb.
  rewrite Hs1. eexists _, b. cbn [with_db s_db]. rewrite Hrows. split; [apply elem_of_app; right; by left|]. by split_and!.
Qed.

Lemma read_public_keys_ok (k : ContactPublicKeys) b e1 e2 c :
  serialize_dilithium_public_key (pub_dilithium k) = Some b ->
  iwp (read_public_keys (C := C) b (serialize_ed25519_public_key (pub_ed25519 k)) e1 e2) (fun r _ => r = Ok k) c.
Proof.
  intros (n & Hb)%decode_encode. unfold read_public_keys, deserialize_dilithium_public_key, deserialize_ed25519_public_key.
  unfold serialize_ed25519_public_key, PUBLIC_KEY_LENGTH. rewrite Hb, ed25519_public_length, ed25519_public_bytes_roundtrip.
  cbn. by destruct k.
Qed.

Lemma get_contact_stored contact c :
  ready (conn_session c) -> contact_stored (s_db (conn_session c)) contact ->
  iwp (handle_get_contact (c_id contact)) (fun r _ => answers (C := C) (fun contact' => contact' = contact) r) c.
Proof.
  intros Hready (r & b & Hr & Hb & Hid & Hname & Hdil & Hed).
  assert (is_Some (current_schema !! "contacts")) as [tb Htb] by (vm_compute; by eexists).
  apply iwp_map_err, iwp_bind, iwp_map_err.
  apply (iwp_by_key "contacts" tb "id" ["id"; "name"; "dilithium_public_key"; "ed25519_public_key"] (Text (c_id contact)) r);
    [done|by vm_compute|done|table_def Htb; by left|done|done|done| |by intros].
  intros c1 _. cbn [fmap list_fmap]. rewrite Hid, Hname, Hdil, Hed. apply iwp_result, iwp_bind.
  eapply iwp_mono; [by apply (read_public_keys_ok (c_public_keys contact))|]. intros ? ? ->. apply iwp_ret. by destruct contact.
Qed.

(** A registered contact is the one that is read back, with the same
    keys, so that a session with it can be authenticated by what was registered. *)
Theorem registered_contact_is_read w contact w1 :
  reliable C -> reached (F := F) w -> call (F := F) (RegisterContact contact) w = (Ok tt, w1) ->
  (call (F := F) (GetContact (c_id contact)) w1).1 = Ok contact.
Proof.
  intros Hrel Hw Hcall.
  destruct (store_then_get (RegisterContact contact) (GetContact (c_id contact)) w tt w1 (fun _ d => contact_stored d contact)
    (fun contact' => contact' = contact)) as (? & ? & ->); [done|done|done|done|exact Hcall| | |done].
  - intros c Hready _. by apply register_stores.
  - intros c Hready Hst. by apply get_contact_stored.
Qed.

(** ** The keys of the node *)

Definition node_keys_stored (d : database) (info : NodeInfo) : Prop :=
  exists rn rs pb sb, let keys := ni_self_contact_keys info in
    encode_to_vec (pub_dilithium (KeyExchange.keys_public keys)) = Some pb /\ encode_to_vec (priv_dilithium (keys_private keys)) = Some sb /\
    rn ∈ rows_of (db_rows d) "node_keys" /\ row_get rn "id" = Integer 1 /\ row_get rn "key_bytes" = Blob (ni_node_key_pair info) /\
    rs ∈ rows_of (db_rows d) "self_contact" /\ row_get rs "id" = Integer 1 /\ row_get rs "contact_id" = Text (ni_self_contact_id info) /\
    row_get rs "name" = Text (ni_self_contact_id info) /\
    row_get rs "dilithium_private_key" = Blob sb /\ row_get rs "dilithium_public_key" = Blob pb /\
    row_get rs "ed25519_private_key" = Blob (serialize_ed25519_private_key (priv_ed25519 (keys_private keys))) /\
    row_get rs "ed25519_public_key" = Blob (serialize_ed25519_public_key (pub_ed25519 (KeyExchange.keys_public keys))).

Lemma store_node_keys_stores info c :
  ready (conn_session c) -> okp (handle_store_node_keys info) (fun _ c' => node_keys_stored (s_db (conn_session c')) info) c.
Proof.
  intros [(He & Hd & _) _]. assert (current (conn_session c)) as Hc by (split; [done|apply Hd]).
  apply okp_map_err, okp_bind. unfold or_custom. destruct (encode_to_vec (priv_dilithium _)) as [sb|] eqn:Esb; [|by apply iwp_throw].
  apply okp_ret, okp_bind. destruct (encode_to_vec (pub_dilithium _)) as [pb|] eqn:Epb; [|by apply iwp_throw].
  apply okp_ret, okp_bind, okp_map_err, okp_execute; [done|done|by vm_compute|]. intros legacy now out d n c1 Hx Hs1.
  apply exec_replace in Hx as (tb & Htb & Hsch & Hrow & _). rewrite (ok_schema _ Hd) in Htb, Hsch. table_def Htb.
  assert (current (conn_session c1)) as Hc1 by (rewrite Hs1; by split).
  apply okp_bind, okp_map_err, okp_execute; [done|done|by vm_compute|]. intros legacy' now' out' d' n' c2 Hx Hs2. apply okp_ret.
  rewrite Hs1 in Hx. cbn [with_db s_db] in Hx. apply exec_replace in Hx as (tb & Htb & _ & Hrow' & Hother). rewrite Hsch in Htb. table_def Htb.
  rewrite Hs2. cbn [with_db s_db]. eexists _, _, pb, sb. cbn zeta. rewrite Hother; [|done|rewrite Hsch; intros tb Htb; by table_def Htb].
  split_and!; try exact Hrow; try exact Hrow'; done.
Qed.

Lemma get_node_keys_stored info c :
  ready (conn_session c) -> node_keys_stored (s_db (conn_session c)) info ->
  iwp handle_get_node_keys (fun r _ => answers (C := C) (fun info' => info' = info) r) c.
Proof.
  intros Hready (rn & rs & pb & sb & Hpb & Hsb & Hrn & Hrnid & Hkb & Hrs & Hrsid & Hcid & Hname & Hds & Hdp & Hes & Hep).
  assert (is_Some (current_schema !! "node_keys")) as [tb Htb] by (vm_compute; by eexists).
  assert (is_Some (current_schema !! "self_contact")) as [tb' Htb'] by (vm_compute; by eexists).
  apply iwp_map_err, iwp_bind, iwp_map_err, iwp_optional.
  apply (iwp_by (Lit (Integer 1)) [] "node_keys" tb "id" ["key_bytes"] (Integer 1) rn);
    [done|by vm_compute|done|table_def Htb; by left|done|done|done|done| |intros e ? ?; by destruct e].
  intros c1 Hs1. cbn [fmap list_fmap]. rewrite Hkb. apply iwp_result. apply iwp_bind, iwp_ret, iwp_bind, iwp_map_err, iwp_optional.
  apply (iwp_by (Lit (Integer 1)) [] "self_contact" tb' "id"
    ["contact_id"; "name"; "ed25519_private_key"; "ed25519_public_key"; "dilithium_private_key"; "dilithium_public_key"] (Integer 1) rs);
    [by rewrite Hs1|by vm_compute|done|table_def Htb'; by left|done|done|by rewrite Hs1|done| |intros e ? ?; by destruct e].
  intros c2 Hs2. cbn [fmap list_fmap]. rewrite Hcid, Hname, Hes, Hep, Hds, Hdp. apply iwp_result, iwp_bind.
  destruct (stored_keys_roundtrip (ni_self_contact_keys info) pb sb Hpb Hsb) as (Edp & Eds & Eep & Ees & _).
  unfold read_contact_keys. rewrite Edp, Eds, Eep, Ees. cbn. by destruct info as [? ? [[] []]].
Qed.

(** The keys of the node survive a restart: what StoreNodeKeys wrote,
    over whatever keys were stored before, GetNodeInfo reads back from the database
    when it is opened again on any connection to the same data. *)
Theorem node_keys_survive_restart w info w1 c :
  reliable C -> reached (F := F) w -> call (F := F) (StoreNodeKeys info) w = (Ok tt, w1) ->
  s_db (conn_session c) = stored w1 -> s_saved (conn_session c) = None ->
  (call (F := F) GetNodeInfo (run_actor c)).1 = Ok info.
Proof.
  intros Hrel Hw Hcall Hc Hsv.
  destruct (stored_message (StoreNodeKeys info) w tt w1 (fun _ d => node_keys_stored d info)) as [[_ [(_ & Hd & _) _]] HP]; try done.
  { intros c0 Hready _. by apply store_node_keys_stores. }
  destruct (run_actor_keeps c Hrel) as [Hs Hst]; [by rewrite Hc|done|].
  destruct (read_message GetNodeInfo (run_actor c) (fun info' => info' = info)) as (? & ? & ->); [done|done| |done].
  intros c1 Hready Hc1. apply get_node_keys_stored; [done|]. by rewrite Hc1, Hst, Hc.
Qed.
End Keys.

Section Witnesses.
Import Toy ToyKeys MemoryDb.

Lemma registered_contact_is_read_witness :
  (call (F := unit) (GetContact "alice") (call (F := unit) (RegisterContact alice) started).2).1 = Ok alice.
Proof.
  apply (registered_contact_is_read (F := unit) started alice); [apply memory_reliable|by apply reached_new|vm_compute; reflexivity].
Defined.

Definition own_info : NodeInfo := mk_node_info [7; 8; 9] "me" (toy_keys 5).

Definition with_keys : Sqlite := (call (F := unit) (StoreNodeKeys own_info) started).2.

Lemma node_keys_survive_restart_witness : (call (F := unit) GetNodeInfo (run_actor (sq_conn with_keys))).1 = Ok own_info.
Proof.
  apply (node_keys_survive_restart (F := unit) started own_info with_keys);
    [apply memory_reliable|by apply reached_new|vm_compute; reflexivity|reflexivity|vm_compute; reflexivity].
Defined.
End Witnesses.
