(* ===== verification/MigrationRuns.v ===== *)
(** * Runs of migrations

    A database is never left in the middle of a step: whatever fails, and wherever,
    it is as after a whole number of steps, the version it records is the one of the
    last of them, and a restart goes on with the next. And what one of the steps
    does to the files that wait to be sent. *)

From S2P Require Import Prelude Domain NonceWindow Dencryptor KeyExchange ReceiveManager HostPath HostController BrainTypes.
From S2P Require Import Sql SqlText SqlTheory Connection SqliteActor Migrations Sqlite SqliteStore SqliteExample SqliteAtomic.
From Stdlib Require Import Sorting.Sorted.
#[local] Open Scope string_scope.
#[local] Open Scope Z_scope.

(** ** The recorded version *)

Definition version_table : table := mk_table [mk_column "version" "TEXT" true None] [] [] [].

Record records (v : string) (d : database) : Prop := {
  rec_schema : db_schema d !! "schema_version" = Some version_table;
  rec_rows : rows_of (db_rows d) "schema_version" = [[("version", Text v)]];
}.

Example version_table_current : current_schema !! "schema_version" = Some version_table.
Proof. by vm_compute. Qed.

(** Statements that leave the table of the version alone. *)
Definition spares (st : stmt) : bool :=
  let other t := negb (String.eqb t "schema_version") in
  match st with
  | Select _ | CreateIndex _ _ | DropIndex _ _ | Pragma _ _ => true
  | Insert _ t _ _ | Update t _ _ _ | Delete t _ | CreateTable _ t _ | CreateTableAs t _ | DropTable _ t | AddColumn t _ | DropColumn t _ =>
      other t
  | RenameTable t t' => other t && other t'
  end.

Lemma rows_of_delete_ne rs t t' : t <> t' -> rows_of (delete t rs) t' = rows_of rs t'.
Proof. intros Hne. unfold rows_of. by rewrite lookup_delete_ne. Qed.

Lemma move_other {A} (m : gmap string A) t t' s : t <> s -> t' <> s -> move t t' m !! s = m !! s.
Proof.
  intros H1 H2. unfold move. destruct (m !! t); [|done]. by rewrite lookup_insert_ne, lookup_delete_ne by done.
Qed.

Lemma spares_ne t : negb (String.eqb t "schema_version") = true -> t <> "schema_version".
Proof. by intros H%negb_true_iff%String.eqb_neq. Qed.

Lemma exec_records enforce legacy st ps now d out d' v :
  spares st = true -> records v d -> exec enforce legacy st ps now d = Ok (out, d') -> records v d'.
Proof.
  intros Hsp [Hs Hr] Hx.
  assert (standalone (db_schema d) "schema_version") as Hst by (intros tb Htb; rewrite Hs in Htb; by injection Htb as <-).
  destruct (changes_rows st) eqn:Hc.
  { assert (target st <> Some "schema_version") as Ht by (destruct st; try done; cbn; intros [= ->]; done).
    destruct (exec_other _ _ _ _ _ _ _ _ "schema_version" Hc Ht Hst Hx) as [Er Es]. split; [by rewrite Es|by rewrite Er]. }
  destruct st; try done; cbn [exec] in Hx; cbn [spares] in Hsp.
  - apply spares_ne in Hsp. destruct (table_known _ _).
    + destruct if_not_exists; [|done]. by injection Hx as <- <-.
    + injection Hx as <- <-. split; cbn; [by rewrite lookup_insert_ne|by rewrite rows_of_insert_ne].
  - apply spares_ne in Hsp. destruct (table_known _ _); [done|]. injection Hx as <- <-.
    split; cbn; [by rewrite lookup_insert_ne|by rewrite rows_of_insert_ne].
  - apply spares_ne in Hsp. destruct (table_known _ _).
    + apply res_bind_Ok in Hx as (d1 & (d2 & ->%finish_same & [= <-])%res_bind_Ok & [= <- <-]).
      split; cbn; rewrite ?lookup_delete_ne, ?rows_of_delete_ne by done; [by destruct enforce|].
      destruct enforce; [|done]. cbn. by rewrite delete_rows_standalone.
    + destruct if_exists; [|done]. by injection Hx as <- <-.
  - apply andb_true_iff in Hsp as [H1%spares_ne H2%spares_ne]. destruct (table_known _ _); [done|]. injection Hx as <- <-. split; cbn.
    + destruct (_ || _); rewrite ?lookup_fmap, move_other by done; by rewrite Hs.
    + unfold rows_of. by rewrite move_other by done.
  - apply spares_ne in Hsp. destruct (db_schema d !! t); [|done]. apply res_bind_Ok in Hx as (d1 & Ha & [= <- <-]).
    unfold add_column in Ha. destruct (in_list _ _); [done|]. destruct (_ && _); [done|]. injection Ha as <-.
    split; cbn; [by rewrite lookup_insert_ne|by rewrite rows_of_insert_ne].
  - apply spares_ne in Hsp. destruct (db_schema d !! t); [|done]. injection Hx as <- <-.
    split; cbn; [by rewrite lookup_insert_ne|by rewrite rows_of_insert_ne].
  - destruct (in_list _ _); [destruct if_not_exists; [|done]; by injection Hx as <- <-|].
    destruct (_ && _); [done|]. by injection Hx as <- <-.
  - destruct (in_list _ _); [by injection Hx as <- <-|]. destruct if_exists; [|done]. by injection Hx as <- <-.
  - by injection Hx as <- <-.
Qed.

Section Runs.
Context {C : Type} `{!SqliteConnection C} `{!SqliteLaws C} `{!ActorEnv C} `{!ActorEnvLaws C} {HV : Semver}.

(** If the computation answers, then with [Q]. *)
Definition safe {E A} (m : io C E A) (Q : result A E -> C -> Prop) (c : C) : Prop :=
  match m c with Ret (r, c') => Q r c' | _ => True end.

Lemma safe_bind {E A B} (m : io C E A) (k : A -> io C E B) Q c :
  safe m (fun r c' => match r with Ok a => safe (k a) Q c' | Err e => Q (Err e) c' end) c -> safe (io_bind m k) Q c.
Proof. unfold safe, io_bind. by destruct (m c) as [[[a|e] c']| | |]. Qed.

Lemma safe_mono {E A} (m : io C E A) (Q Q' : result A E -> C -> Prop) c :
  safe m Q c -> (forall r c', Q r c' -> Q' r c') -> safe m Q' c.
Proof. unfold safe. destruct (m c) as [[]| | |]; auto. Qed.

(** Within a transaction that began with [d], which may have been rolled back; the
    version stays [v]. *)
Definition within (d : database) (v : string) {E A} (m : io C E A) : Prop :=
  forall c, s_saved (conn_session c) = Some d -> records v (s_db (conn_session c)) ->
    safe m (fun r c' =>
      s_saved (conn_session c') = Some d /\ records v (s_db (conn_session c')) \/
      is_ok r = false /\ s_saved (conn_session c') = None /\ s_db (conn_session c') = d) c.

Lemma within_ret d v {E A} (a : A) : within d v (E := E) (io_ret a).
Proof. intros c Hs Hr. by left. Qed.

Lemma within_bind d v {E A B} (m : io C E A) (k : A -> io C E B) : within d v m -> (forall a, within d v (k a)) -> within d v (io_bind m k).
Proof.
  intros Hm Hk c Hs Hr. apply safe_bind. eapply safe_mono; [by apply Hm|]. cbn. intros [a|e] c' H; [|done].
  destruct H as [[? ?]|[? _]]; [by apply Hk|done].
Qed.

(** What a statement leaves of the session. *)
Lemma step_keeps st ps now s d v :
  spares st = true -> s_saved s = Some d -> records v (s_db s) ->
  s_saved (step st ps now s).2 = Some d /\ records v (s_db (step st ps now s).2).
Proof.
  intros Hsp Hs Hr. destruct (is_pragma st) eqn:Ep.
  - destruct st; try done. cbn. rewrite Hs. by repeat case_match.
  - rewrite step_run by done. destruct (negb _); [done|]. destruct (exec _ _ _ _ _ _) as [[out d']|] eqn:Ee; [|done].
    split; [done|]. by eapply exec_records.
Qed.

Lemma within_run d v st ps : spares st = true -> within d v (sys (conn_run st ps)).
Proof.
  intros Hsp c Hs Hr. unfold safe, sys. pose proof (conn_run_spec st ps c) as H. destruct (conn_run st ps c) as [r c']. cbn in *.
  destruct H as [(now & _ & ->)|[-> [->| ->]]]; [left; by apply step_keeps|by left|right]. cbn. by rewrite Hs.
Qed.

Lemma within_batch d v l : forallb spares l = true -> within d v (execute_batch l).
Proof.
  induction l as [|st l IH]; cbn [execute_batch forallb]; [intros _; apply within_ret|]. intros [Hst Hl]%andb_true_iff.
  apply within_bind; [by apply within_run|]. intros _. by apply IH.
Qed.

Lemma within_execute d v st ps : spares st = true -> within d v (execute st ps).
Proof. intros Hst. apply within_bind; [by apply within_run|]. intros out. apply within_ret. Qed.

(** Steps from version 1.11.0 on. The one to 1.11.0 goes on after a statement failed,
    so that it may run without the transaction it began in. *)
Definition since_1_11_0 (m : Migration (C := C)) : bool := version_leb (mk_version 1 11 0) (applies_to_version m).

Lemma ups_within d v : Forall (fun m => since_1_11_0 m = true -> within d v (migration_up m)) get_migrations.
Proof.
  repeat (constructor; [intros Hv; first [discriminate Hv|clear Hv; cbn [migration_up];
    unfold up_1_12_0, up_1_13_0, up_1_15_0, up_1_16_0, up_1_17_0, up_1_18_0, up_1_18_1, up_1_18_2, up_1_19_0, up_1_19_1;
    repeat first [apply within_ret|apply within_batch; reflexivity|apply within_execute; reflexivity|apply within_bind; [|intros _]]]|]).
  constructor.
Qed.

(** ** Steps *)

Lemma exec_version enforce legacy ps now d out d' v v' :
  exec enforce legacy (sql "UPDATE schema_version SET version = ?") ps now d = Ok (out, d') -> ps = [Text v'] -> records v d -> records v' d'.
Proof.
  intros Hx -> [Hs Hr]. cbn [exec] in Hx. rewrite Hs in Hx.
  apply res_bind_Ok in Hx as (d1 & Hu & (d2 & ->%finish_same & [= <- <-])%res_bind_Ok).
  unfold update_rows in Hu. rewrite Hr in Hu. destruct (_ && _); [|done]. injection Hu as <-. split; [done|]. cbn. apply rows_of_insert_eq.
Qed.

Definition version_text (m : Migration (C := C)) : string := version_to_string (target_version m).

Lemma upgrade_within d v m c :
  m ∈ get_migrations -> since_1_11_0 m = true -> s_saved (conn_session c) = Some d -> records v (s_db (conn_session c)) ->
  safe (upgrade m) (fun r c' =>
    s_saved (conn_session c') = Some d /\ (is_ok r = true -> records (version_text m) (s_db (conn_session c'))) \/
    is_ok r = false /\ s_saved (conn_session c') = None /\ s_db (conn_session c') = d) c.
Proof.
  intros Hm Hv Hs Hr. pose proof (ups_within d v) as Hup. rewrite Forall_forall in Hup. apply safe_bind.
  eapply safe_mono; [by apply Hup|]. cbn. intros [[]|e] c1 H1.
  2: { destruct H1 as [[? _]|?]; [by left|by right]. }
  destruct H1 as [[Hs1 Hr1]|[? _]]; [|done]. apply safe_bind, safe_bind. unfold safe at 1, sys.
  pose proof (conn_run_spec (sql "UPDATE schema_version SET version = ?") [Text (version_text m)] c1) as H.
  unfold version_text in *. destruct (conn_run _ _ c1) as [r c2]. cbn [fst snd] in H.
  destruct H as [(now & Ha & Hs2)|[-> [Hs2|Hs2]]].
  - rewrite step_run in Ha, Hs2 by done. destruct (negb _); cbn [fst snd] in Ha, Hs2.
    { destruct r; [done|]. left. by rewrite Hs2. }
    destruct (exec _ _ _ _ _ _) as [[out d']|] eqn:Ee; cbn in Ha, Hs2; destruct r; try done; left; rewrite Hs2; [|done].
    split; [done|]. intros _. by eapply exec_version.
  - left. by rewrite Hs2.
  - right. rewrite Hs2. cbn. by rewrite Hs1.
Qed.

(** A step is done, or nothing of it. *)
Definition step_outcome (m : Migration (C := C)) (c : C) (r : result unit RusqliteError) (c' : C) : Prop :=
  s_saved (conn_session c') = None /\
  match r with
  | Ok _ => records (version_text m) (s_db (conn_session c'))
  | Err _ => s_db (conn_session c') = s_db (conn_session c)
  end.

Lemma step_all_or_nothing v m c :
  m ∈ get_migrations -> since_1_11_0 m = true -> s_saved (conn_session c) = None -> records v (s_db (conn_session c)) ->
  safe (transaction id (upgrade m)) (step_outcome m c) c.
Proof.
  intros Hm Hv Hs Hr. unfold transaction. apply safe_bind. unfold safe at 1, io_map_err, sys. cbn.
  pose proof (conn_begin_spec c) as Hb. destruct (conn_begin c) as [r c1]. cbn in *.
  destruct Hb as [[-> Hs1]|[-> Hs1]]; cbn; [|split; by rewrite Hs1].
  pose proof (upgrade_within (s_db (conn_session c)) v m c1 Hm Hv ltac:(by rewrite Hs1) ltac:(by rewrite Hs1)) as Hup.
  unfold safe in *. destruct (upgrade m c1) as [[r c2]| | |]; try done. cbn in *.
  assert (forall s, (s_saved s = Some (s_db (conn_session c)) \/ s_saved s = None /\ s_db s = s_db (conn_session c)) ->
    s_db (rollback s) = s_db (conn_session c)) as Hback by (intros s [Hx|[Hx Hy]]; cbn; by rewrite Hx).
  destruct r as [[]|e].
  - destruct Hup as [[Hs2 Hr2]|[? _]]; [|done]. pose proof (conn_commit_spec c2) as Hc. destruct (conn_commit c2) as [rc c3].
    destruct Hc as [[Hrc Hs3]|[Hrc Hs3]]; cbn in Hrc, Hs3; subst rc; split; rewrite ?conn_rollback_spec, ?Hs3; try done; [by apply Hr2|].
    apply Hback. destruct Hs3 as [->| ->]; [by left|right]. cbn. by rewrite Hs2.
  - split; rewrite conn_rollback_spec; [done|]. apply Hback. destruct Hup as [[? _]|(_ & ? & ?)]; auto.
Qed.

(** The states after some steps: each was run on a connection to the state before,
    and committed. *)
Inductive after : list (Migration (C := C)) -> database -> database -> Prop :=
| after_none d : after [] d d
| after_step l m c c' d : after l d (s_db (conn_session c)) -> transaction id (upgrade m) c = Ret (Ok tt, c') ->
    after (l ++ [m]) d (s_db (conn_session c')).

Definition recorded (l : list (Migration (C := C))) (v : string) : string :=
  match last l with Some m => version_text m | None => v end.

Lemma steps_prefix v l0 l d c :
  Forall (fun m => m ∈ get_migrations /\ since_1_11_0 m = true) l -> s_saved (conn_session c) = None ->
  records (recorded l0 v) (s_db (conn_session c)) -> after l0 d (s_db (conn_session c)) ->
  safe (for_rows (fun m => transaction id (upgrade m)) l) (fun r c' =>
    s_saved (conn_session c') = None /\ exists l1 l2, l = (l1 ++ l2)%list /\ after (l0 ++ l1) d (s_db (conn_session c')) /\
      records (recorded (l0 ++ l1) v) (s_db (conn_session c')) /\ (is_ok r = true -> l2 = [])) c.
Proof.
  intros Hl. revert l0 c. induction Hl as [|m l [Hm Hv] _ IH]; intros l0 c Hs Hr Ha; cbn [for_rows].
  { split; [done|]. exists [], []. rewrite !app_nil_r. by split_and!. }
  apply safe_bind. pose proof (step_all_or_nothing _ m c Hm Hv Hs Hr) as Hstep. unfold safe at 1.
  destruct (transaction id (upgrade m) c) as [[r c1]| | |] eqn:Et; try done. unfold safe in Hstep. rewrite Et in Hstep.
  destruct Hstep as [Hs1 H1]. destruct r as [[]|e].
  - apply safe_bind. eapply safe_mono; [apply (IH (l0 ++ [m])%list c1 Hs1)|].
    + unfold recorded. by rewrite last_snoc.
    + by eapply after_step.
    + intros r c2 (Hs2 & l1 & l2 & -> & Ha2 & Hr2 & Hok).
      assert (forall r', (is_ok r' = true -> is_ok r = true) -> s_saved (conn_session c2) = None /\
        exists l1' l2', m :: (l1 ++ l2) = (l1' ++ l2')%list /\ after (l0 ++ l1') d (s_db (conn_session c2)) /\
          records (recorded (l0 ++ l1') v) (s_db (conn_session c2)) /\ (is_ok (A := list unit) (E := RusqliteError) r' = true -> l2' = [])) as Hend.
      { intros r' Hr'. split; [done|]. exists (m :: l1), l2. rewrite <- app_assoc in Ha2, Hr2. split_and!; [done..|auto]. }
      destruct r as [bs|e]; apply Hend; done.
  - split; [done|]. exists [], (m :: l). rewrite !app_nil_r, H1. by split_and!.
Qed.

(** ** Which steps are next *)

Lemma version_leb_trans a b c : version_leb a b = true -> version_leb b c = true -> version_leb a c = true.
Proof. destruct a, b, c. unfold version_leb. cbn. lia. Qed.

Lemma filter_suffix {A} (R : A -> A -> Prop) (p : A -> bool) l :
  StronglySorted R l -> (forall a b, R a b -> p a = true -> p b = true) -> exists k, List.filter p l = drop k l.
Proof.
  intros Hl Hp. induction Hl as [|a l _ (k & IH) Ha]; [by exists 0%nat|]. cbn. destruct (p a) eqn:Ea.
  - exists 0%nat. cbn. f_equal. clear - Ha Ea Hp. induction Ha as [|b l Hb _ IH]; [done|]. cbn. rewrite (Hp a b Hb Ea). by f_equal.
  - by exists (S k).
Qed.

Lemma migrations_sorted : StronglySorted (fun a b => version_leb (applies_to_version a) (applies_to_version b) = true) (get_migrations (C := C)).
Proof. repeat (constructor; [|repeat (constructor; [reflexivity|]); constructor]). constructor. Qed.

Lemma pending_suffix v : exists k, pending v = drop k get_migrations.
Proof.
  apply (filter_suffix _ _ _ migrations_sorted). intros a b Hab Ha. by eapply version_leb_trans.
Qed.

(** After the step [m] the ones behind it in the list are next; the last one leads to
    the current version. *)
Lemma pending_after k m : get_migrations !! k = Some m -> pending (target_version m) = drop (S k) get_migrations.
Proof.
  do 22 (destruct k as [|k]; [intros H; injection H as <-; reflexivity|]). done.
Qed.

Lemma last_migration m : last get_migrations = Some m -> target_version m = CURRENT_VERSION.
Proof. intros H. by injection H as <-. Qed.

Lemma pending_rest v l m l' : pending v = (l ++ m :: l')%list ->
  pending (target_version m) = l' /\ (l' = [] -> target_version m = CURRENT_VERSION).
Proof.
  intros H. destruct (pending_suffix v) as (k & Hk). rewrite Hk in H.
  assert (get_migrations !! (k + length l)%nat = Some m) as Hm.
  { rewrite <- lookup_drop, H. by rewrite list_lookup_middle. }
  rewrite (pending_after _ _ Hm). replace (S (k + length l)) with (k + S (length l))%nat by lia. rewrite <- drop_drop, H.
  rewrite cons_middle, app_assoc, drop_app_length' by (rewrite length_app; cbn; lia). split; [done|]. intros ->.
  apply last_migration. rewrite <- (take_drop k get_migrations), H. change (m :: []) with [m]. by rewrite app_assoc, last_snoc.
Qed.

#[local] Strategy expand [pending].

Lemma pending_elem v m : m ∈ pending v -> m ∈ get_migrations /\ version_leb v (applies_to_version m) = true.
Proof. by intros Hm%elem_of_List_filter. Qed.

#[local] Opaque pending get_migrations.

Context {HVL : SemverLaws}.

Lemma get_db_version_safe v c :
  records (version_to_string v) (s_db (conn_session c)) -> s_saved (conn_session c) = None ->
  safe get_db_version (fun r c' => conn_session c' = conn_session c /\ match r with Ok v' => v' = v | Err _ => True end) c.
Proof.
  intros [Hs Hr] Hsv. unfold get_db_version. apply safe_bind, safe_bind. unfold safe at 1, sys.
  pose proof (conn_run_spec (sql "SELECT version FROM schema_version") [] c) as H.
  destruct (conn_run _ _ c) as [r c1]. cbn [fst snd] in H. destruct H as [(now & Ha & Hs1)|[-> Hf]].
  - rewrite step_run in Ha, Hs1 by done. unfold stmt_known, select_known, table_known, columns_of in Ha, Hs1. cbn in Ha, Hs1.
    rewrite Hs in Ha, Hs1. cbn in Ha, Hs1. unfold query in Ha. cbn in Ha. rewrite Hr in Ha. cbn in Ha. rewrite with_db_self in Hs1.
    destruct r as [out|]; [|done]. destruct Ha as [Ha _]. cbn in Ha. apply Permutation_singleton_r in Ha. rewrite Ha. cbn.
    rewrite version_roundtrip. by split.
  - split; [|done]. destruct Hf as [->| ->]; [done|]. destruct (conn_session c). cbn in *. by subst.
Qed.

(** C15 (safety). Migrations stop between steps only: from a database that records a
    version of at least 1.11.0, whatever fails, the database is as after some of the
    steps it needs, each of them completely done and committed, in their order. The
    version it records is the one of the last step, so that the next start goes on
    with the steps that are left. Without an error none is left, and if there was a
    step the database is of the current version. *)
Theorem migrations_stop_between_steps v c r c' :
  s_saved (conn_session c) = None -> records (version_to_string v) (s_db (conn_session c)) ->
  version_leb (mk_version 1 11 0) v = true -> run_migrations c = Ret (r, c') ->
  s_saved (conn_session c') = None /\
  exists l1 l2 v', pending v = (l1 ++ l2)%list /\ after l1 (s_db (conn_session c)) (s_db (conn_session c')) /\
    records (version_to_string v') (s_db (conn_session c')) /\ pending v' = l2 /\
    (r = Ok tt -> l2 = [] /\ (l1 <> [] -> v' = CURRENT_VERSION)).
Proof.
  intros Hs Hr Hv Hrun.
  assert (safe run_migrations (fun r c' => s_saved (conn_session c') = None /\
    exists l1 l2, pending v = (l1 ++ l2)%list /\ after l1 (s_db (conn_session c)) (s_db (conn_session c')) /\
      records (recorded l1 (version_to_string v)) (s_db (conn_session c')) /\ (is_ok r = true -> l2 = [])) c) as H.
  { unfold run_migrations. apply safe_bind. eapply safe_mono; [exact (get_db_version_safe v c Hr Hs)|]. intros [v0|e] c1 [Hs1 ?].
    2: { rewrite Hs1. split; [done|]. exists [], (pending v).
         split; [reflexivity|]. split; [apply after_none|]. split; [exact Hr|]. discriminate. }
    subst v0. apply safe_bind. eapply safe_mono; [apply (steps_prefix (version_to_string v) [] (pending v) (s_db (conn_session c)) c1)|].
    - apply Forall_forall. intros m [Hm Hle]%pending_elem. split; [done|]. by eapply version_leb_trans.
    - rewrite Hs1. exact Hs.
    - rewrite Hs1. exact Hr.
    - rewrite Hs1. apply after_none.
    - intros [bs|e] c2 Hend; exact Hend. }
  unfold safe in H. rewrite Hrun in H. destruct H as (Hs' & l1 & l2 & Hp & Ha & Hrec & Hok). split; [done|].
  destruct (last l1) as [m|] eqn:El; unfold recorded in Hrec; rewrite El in Hrec.
  - apply last_Some in El as (l1' & ->). rewrite <- app_assoc in Hp. destruct (pending_rest _ _ _ _ Hp) as [Hrest Hcur].
    exists (l1' ++ [m])%list, l2, (target_version m). rewrite <- app_assoc.
    split; [exact Hp|]. split; [exact Ha|]. split; [exact Hrec|]. split; [exact Hrest|]. intros ->.
    specialize (Hok eq_refl). split; [done|]. intros _. by apply Hcur.
  - apply last_None in El as ->. exists [], l2, v. split; [exact Hp|]. split; [exact Ha|]. split; [exact Hrec|]. split; [exact Hp|].
    intros ->. split; [by apply Hok|]. by intros [].
Qed.
End Runs.

(** ** A database of version 1.12.0 *)

Module Old.
Import Toy ToyKeys MemoryDb.

(** The steps down lead to the tables of that version. *)
Definition to_1_12_0 : io memory RusqliteError unit :=
  try! _ := down_1_19_1 in try! _ := down_1_19_0 in try! _ := down_1_18_2 in try! _ := down_1_18_1 in
  try! _ := down_1_18_0 in try! _ := down_1_17_0 in try! _ := down_1_16_0 in try! _ := down_1_15_0 in
  try! _ := down_1_13_0 in
  try! _ := execute (sql "UPDATE schema_version SET version = ?") [Text (version_to_string (mk_version 1 12 0))] in
  io_ret tt.

(** A filerequest of another node, and a file that waits to be sent to it. *)
Definition filled : io memory RusqliteError unit :=
  try! _ := to_1_12_0 in
  try! _ := execute (sql "INSERT INTO remote_filerequests (id, peer_id, filerequest_id, name, created_at, requires_authentication, contact_id)
                          VALUES ('r', 'p', 'f', 'n', 'now', 1, 'alice')") [] in
  try! _ := execute (sql "INSERT INTO pending_files (id, file_path, target_filerequest_id, status, created_at)
                          VALUES ('w', '/file', 'r', 'Pending', 'now')") [] in
  io_ret tt.

Definition final {A} (m : outcome (A * memory)) : memory := match m with Ret (_, c) => c | _ => memory_new end.

Definition old : memory := final (filled (sq_conn started)).
Definition migrated : memory := final (run_migrations old).

Definition count (t : string) (c : memory) : nat := length (rows_of (db_rows (s_db (mem_session c))) t).
End Old.

Section Example_1_12_0.
Import MemoryDb.

Lemma migrations_stop_between_steps_witness :
  records (version_to_string (mk_version 1 12 0)) (s_db (conn_session Old.old)) /\ s_saved (conn_session Old.migrated) = None.
Proof.
  assert (records (version_to_string (mk_version 1 12 0)) (s_db (conn_session Old.old))) as Hr by (split; vm_compute; reflexivity).
  split; [exact Hr|].
  destruct (migrations_stop_between_steps (mk_version 1 12 0) Old.old (Ok tt) Old.migrated) as [H _];
    [vm_compute; reflexivity|exact Hr|reflexivity|vm_compute; reflexivity|exact H].
Defined.

(** Migrating a database of version 1.12.0 loses the files that wait
    to be sent: the steps succeed and keep the filerequests of other nodes, but the
    step to 1.13.0 replaces their table, and as foreign keys cannot be switched off
    in the transaction of the step, dropping the old table deletes the files that
    refer to it. *)
Theorem migration_1_13_0_loses_pending_files :
  (Old.count "remote_filerequests" Old.old, Old.count "pending_files" Old.old) = (1%nat, 1%nat) /\
  (exists c, run_migrations Old.old = Ret (Ok tt, c)) /\
  (Old.count "remote_filerequests" Old.migrated, Old.count "pending_files" Old.migrated) = (1%nat, 0%nat).
Proof. split; [|split]; [|eexists|]; vm_compute; reflexivity. Qed.
End Example_1_12_0.
