(* ===== verification/StreamRegistry.v ===== *)
(** * The streams to the frontends

    core/src/core/api_server/stream_registry.rs, and the task of [ApiServer::new]
    that forwards the messages of the brain. Tasks meet in the mutex of the registry
    and in two kinds of channels of capacity 5: the one for the commands of the loop,
    and one per connection for the messages to its client. A step of [step] is what a
    task does between two points where it may wait; a task that waits for space in a
    channel holds the mutex meanwhile. [timeout_lock] is that of the release profile,
    which waits without a limit. *)

From S2P Require Import Prelude.
From stdpp Require Import relations.

Definition channel_capacity : nat := 5.

Section Registry.
Context {StreamId S C : Type} `{!EqDecision StreamId, !Countable StreamId}.

(** ** State *)

(** [enum StreamCommand]; the incoming stream goes by its id. *)
Inductive StreamCommand :=
| Add (id : StreamId)
| Remove (id : StreamId).

(** The life of a connection: [new_connection] before and after it has sent the
    command, the DroppableStream with its client, [unregister_stream] before and with
    the mutex, and its end. *)
Inductive phase := Connecting | Registering | Live | Closing | Removing | Closed.

#[global] Instance phase_eq_dec : EqDecision phase.
Proof. solve_decision. Defined.

(** A connection with its channel: what is in the channel, what the client has
    received, and the number of messages broadcast before it was inserted. *)
Record connection := mk_connection {
  conn_phase : phase;
  buffer : list S;
  received : list S;
  joined : nat;
}.

(** Who holds the mutex: [register_stream], [unregister_stream], or [send] with the
    connections it has not sent to yet. *)
Inductive holder :=
| Adding (id : StreamId)
| Unregistering (id : StreamId)
| Broadcasting (message : S) (todo : list StreamId).

(** [StreamRegistryInner], the loop and the forwarding task. [outbox] is the channel
    from the brain, [log] what has been broadcast, [handled] what the message handler
    was given. *)
Record registry := mk_registry {
  connections : gmap StreamId connection;
  out_streams : gset StreamId;
  commands : list StreamCommand;
  in_streams : gset StreamId;
  mutex : option holder;
  outbox : list S;
  log : list S;
  handled : list (StreamId * C);
}.

Definition registry_new : registry := mk_registry ∅ ∅ [] ∅ None [] [] [].

Definition with_phase (c : connection) (p : phase) : connection := mk_connection p (buffer c) (received c) (joined c).

(** [handle_command] of the loop *)
Definition handle_command (cmd : StreamCommand) (in_streams : gset StreamId) : gset StreamId :=
  match cmd with
  | Add stream_id => {[stream_id]} ∪ in_streams
  | Remove stream_id => in_streams ∖ {[stream_id]}
  end.

(** The receiver lives as long as the DroppableStream, which [new_connection] has not
    built yet in the first two phases. *)
Definition is_open (c : connection) : bool :=
  match conn_phase c with Connecting | Registering | Live => true | _ => false end.

(** [connection.send(message).await]: it waits while the channel is full; it fails,
    which is only logged, when the receiver is gone. *)
Definition channel_send (message : S) (c : connection) : option connection :=
  if is_open c
  then if (length (buffer c) <? channel_capacity)%nat
       then Some (mk_connection (conn_phase c) (buffer c ++ [message]) (received c) (joined c))
       else None
  else Some c.

Definition set_connection (id : StreamId) (c : connection) (r : registry) : registry :=
  mk_registry (<[id := c]> (connections r)) (out_streams r) (commands r) (in_streams r) (mutex r) (outbox r) (log r) (handled r).
Definition set_mutex (h : option holder) (r : registry) : registry :=
  mk_registry (connections r) (out_streams r) (commands r) (in_streams r) h (outbox r) (log r) (handled r).
Definition set_out (o : gset StreamId) (r : registry) : registry :=
  mk_registry (connections r) o (commands r) (in_streams r) (mutex r) (outbox r) (log r) (handled r).
Definition set_commands (l : list StreamCommand) (r : registry) : registry :=
  mk_registry (connections r) (out_streams r) l (in_streams r) (mutex r) (outbox r) (log r) (handled r).

(** ** Steps *)

Inductive label :=
| Connect (id : StreamId)
| Poll (id : StreamId)
| Drop (id : StreamId)
| Push (message : S)
| Incoming (id : StreamId) (message : C)
| End (id : StreamId)
| Internal.

Inductive step : registry -> label -> registry -> Prop :=
(** [new_connection] is called; the id is new. *)
| step_connect r id :
    connections r !! id = None ->
    step r (Connect id) (set_connection id (mk_connection Connecting [] [] 0) r)
(** [register_stream]: the lock, then the command. *)
| step_add_lock r id c :
    connections r !! id = Some c -> conn_phase c = Connecting -> mutex r = None ->
    step r Internal (set_mutex (Some (Adding id)) r)
| step_add r id c :
    connections r !! id = Some c -> mutex r = Some (Adding id) -> (length (commands r) < channel_capacity)%nat ->
    step r Internal
      (set_connection id (with_phase c Registering) (set_mutex None (set_commands (commands r ++ [Add id]) r)))
(** [out_streams.insert], and the DroppableStream is given to the client. *)
| step_insert r id c :
    connections r !! id = Some c -> conn_phase c = Registering -> mutex r = None ->
    step r Internal
      (set_connection id (mk_connection Live (buffer c) (received c) (length (log r))) (set_out ({[id]} ∪ out_streams r) r))
(** The client reads, and goes. *)
| step_poll r id c m rest :
    connections r !! id = Some c -> conn_phase c = Live -> buffer c = m :: rest ->
    step r (Poll id) (set_connection id (mk_connection Live rest (received c ++ [m]) (joined c)) r)
| step_drop r id c :
    connections r !! id = Some c -> conn_phase c = Live ->
    step r (Drop id) (set_connection id (with_phase c Closing) r)
(** [unregister_stream]: the lock and the removal, then the command. *)
| step_unregister r id c :
    connections r !! id = Some c -> conn_phase c = Closing -> mutex r = None ->
    step r Internal
      (set_connection id (with_phase c Removing) (set_out (out_streams r ∖ {[id]}) (set_mutex (Some (Unregistering id)) r)))
| step_remove r id c :
    connections r !! id = Some c -> mutex r = Some (Unregistering id) -> (length (commands r) < channel_capacity)%nat ->
    step r Internal
      (set_connection id (with_phase c Closed) (set_mutex None (set_commands (commands r ++ [Remove id]) r)))
(** The loop takes a command, or a message of a client, or a stream ends. *)
| step_command r cmd rest :
    commands r = cmd :: rest ->
    step r Internal
      (mk_registry (connections r) (out_streams r) rest (handle_command cmd (in_streams r)) (mutex r) (outbox r) (log r) (handled r))
| step_incoming r id m :
    id ∈ in_streams r ->
    step r (Incoming id m)
      (mk_registry (connections r) (out_streams r) (commands r) (in_streams r) (mutex r) (outbox r) (log r) (handled r ++ [(id, m)]))
| step_end r id :
    id ∈ in_streams r ->
    step r (End id)
      (mk_registry (connections r) (out_streams r) (commands r) (in_streams r ∖ {[id]}) (mutex r) (outbox r) (log r) (handled r))
(** The brain sends a message; the forwarding task takes it and calls [send], which
    visits the connections in the order of the hash map. *)
| step_push r m :
    step r (Push m)
      (mk_registry (connections r) (out_streams r) (commands r) (in_streams r) (mutex r) (outbox r ++ [m]) (log r) (handled r))
| step_broadcast r m rest todo :
    outbox r = m :: rest -> mutex r = None -> todo ≡ₚ elements (out_streams r) ->
    step r Internal
      (mk_registry (connections r) (out_streams r) (commands r) (in_streams r) (Some (Broadcasting m todo)) rest (log r ++ [m]) (handled r))
| step_send r m id todo c c' :
    mutex r = Some (Broadcasting m (id :: todo)) -> connections r !! id = Some c -> channel_send m c = Some c' ->
    step r Internal (set_connection id c' (set_mutex (Some (Broadcasting m todo)) r))
| step_sent r m :
    mutex r = Some (Broadcasting m []) -> step r Internal (set_mutex None r).

(** Runs from the start, and what the brain sent in them *)
Inductive run : list label -> registry -> Prop :=
| run_new : run [] registry_new
| run_step tr r l r' : run tr r -> step r l r' -> run (tr ++ [l]) r'.

Definition pushed (tr : list label) : list S := omap (fun l => match l with Push m => Some m | _ => None end) tr.

(** ** The invariant *)

Definition about (id : StreamId) (cmd : StreamCommand) : bool :=
  match cmd with Add i | Remove i => bool_decide (i = id) end.

Definition commands_of (id : StreamId) (r : registry) : list StreamCommand := List.filter (about id) (commands r).

(** The command to add the stream is under way, or has been carried out; then the
    stream may have ended. *)
Definition adding (id : StreamId) (r : registry) : Prop :=
  (commands_of id r = [Add id] /\ id ∉ in_streams r) \/ commands_of id r = [].

Definition absent (id : StreamId) (r : registry) : Prop := commands_of id r = [] /\ id ∉ in_streams r.

Definition coherent (id : StreamId) (p : phase) (r : registry) : Prop :=
  match p with
  | Connecting => (id ∉ out_streams r) /\ absent id r
  | Registering => (id ∉ out_streams r) /\ adding id r
  | Live | Closing => id ∈ out_streams r /\ adding id r
  | Removing => (id ∉ out_streams r) /\ mutex r = Some (Unregistering id) /\ adding id r
  | Closed => (id ∉ out_streams r) /\
      ((commands_of id r = [Add id; Remove id] /\ id ∉ in_streams r) \/ commands_of id r = [Remove id] \/ absent id r)
  end.

(** The message that the broadcast under way still has to send to a connection. *)
Definition pending (id : StreamId) (r : registry) : list S :=
  match mutex r with
  | Some (Broadcasting m todo) => if decide (id ∈ todo) then [m] else []
  | _ => []
  end.

Definition delivered (id : StreamId) (c : connection) (r : registry) : Prop :=
  conn_phase c = Live -> (joined c <= length (log r))%nat /\
    drop (joined c) (log r) = (received c ++ buffer c ++ pending id r)%list.

Definition connection_ok (r : registry) (id : StreamId) : Prop :=
  match connections r !! id with
  | None => (id ∉ out_streams r) /\ absent id r
  | Some c => coherent id (conn_phase c) r /\ (length (buffer c) <= channel_capacity)%nat /\ delivered id c r /\
      (conn_phase c = Connecting \/ conn_phase c = Registering -> buffer c = [] /\ received c = [])
  end.

Definition mutex_ok (r : registry) : Prop :=
  match mutex r with
  | None => True
  | Some (Adding id) => exists c, connections r !! id = Some c /\ conn_phase c = Connecting
  | Some (Unregistering id) => exists c, connections r !! id = Some c /\ conn_phase c = Removing
  | Some (Broadcasting m todo) => NoDup todo /\ (forall id, id ∈ todo -> id ∈ out_streams r) /\ exists l, log r = (l ++ [m])%list
  end.

Record registry_ok (r : registry) : Prop := {
  ok_commands : (length (commands r) <= channel_capacity)%nat;
  ok_connections : forall id, connection_ok r id;
  ok_mutex : mutex_ok r;
}.

Lemma about_self id : about id (Add id) = true /\ about id (Remove id) = true.
Proof. cbn. by rewrite bool_decide_true. Qed.

Lemma commands_of_app id r cmd :
  commands_of id (set_commands (commands r ++ [cmd]) r) = (commands_of id r ++ if about id cmd then [cmd] else [])%list.
Proof. unfold commands_of. cbn. rewrite List.filter_app. cbn. by destruct (about id cmd). Qed.

Lemma new_ok : registry_ok registry_new.
Proof. split; [cbn; lia| |done]. intros id. unfold connection_ok, absent. cbn. rewrite lookup_empty. set_solver. Qed.

(** What a connection does not notice. *)
Record unnoticed (id : StreamId) (r r' : registry) : Prop := {
  same_connection : connections r' !! id = connections r !! id;
  same_out : id ∈ out_streams r' <-> id ∈ out_streams r;
  same_commands : commands_of id r' = commands_of id r;
  same_in : id ∈ in_streams r' -> id ∈ in_streams r;
  same_pending : pending id r' = pending id r;
  same_mutex : mutex r = Some (Unregistering id) -> mutex r' = Some (Unregistering id);
  same_log : log r' = log r;
}.

Lemma unnoticed_ok id r r' : unnoticed id r r' -> connection_ok r id -> connection_ok r' id.
Proof.
  intros [H1 H2 H3 H4 H5 H6 H7]. unfold connection_ok. rewrite H1. destruct (connections r !! id) as [c|].
  - intros (Hc & Hb & Hd & He). split; [|split_and!; [done| |done]].
    + revert Hc. unfold coherent, adding, absent. destruct (conn_phase c); rewrite H3; naive_solver.
    + revert Hd. unfold delivered. by rewrite H5, H7.
  - unfold absent. rewrite H3. naive_solver.
Qed.

Lemma pending_idle id r : (forall m todo, mutex r <> Some (Broadcasting m todo)) -> pending id r = [].
Proof. intros H. unfold pending. destruct (mutex r) as [[]|]; naive_solver. Qed.

(** The tactic closes what follows from the maps and sets alone. *)
Ltac other H :=
  eapply unnoticed_ok; [|exact H]; split; cbn; rewrite ?lookup_insert_ne by done; try done; try set_solver.

Lemma connect_ok r id :
  registry_ok r -> connections r !! id = None -> registry_ok (set_connection id (mk_connection Connecting [] [] 0) r).
Proof.
  intros [Hc Hs Hm] Hid. split; [done| |].
  - intros id'. specialize (Hs id'). destruct (decide (id' = id)) as [->|]; [|by other Hs].
    revert Hs. unfold connection_ok. cbn. rewrite lookup_insert_eq, Hid. intros [Ho Ha]. cbn. split_and!; [done|done|lia|done|done].
  - revert Hm. unfold mutex_ok. cbn. destruct (mutex r) as [[]|]; [| |done|done];
      intros (c & Hl & Hp); exists c; (split; [|done]); rewrite lookup_insert_ne; [done|congruence|done|congruence].
Qed.

Lemma add_lock_ok r id c :
  registry_ok r -> connections r !! id = Some c -> conn_phase c = Connecting -> mutex r = None ->
  registry_ok (set_mutex (Some (Adding id)) r).
Proof.
  intros [Hc Hs Hm] Hid Hp Hn. split; [done| |by exists c]. intros id'. specialize (Hs id'). other Hs.
  unfold pending. by rewrite Hn.
Qed.

Lemma add_ok r id c :
  registry_ok r -> connections r !! id = Some c -> mutex r = Some (Adding id) -> (length (commands r) < channel_capacity)%nat ->
  registry_ok (set_connection id (with_phase c Registering) (set_mutex None (set_commands (commands r ++ [Add id]) r))).
Proof.
  intros [Hc Hs Hm] Hid Hmx Hlen. unfold mutex_ok in Hm. rewrite Hmx in Hm. destruct Hm as (c' & Hc' & Hp). assert (c' = c) as -> by congruence.
  split; [cbn; rewrite length_app; cbn; lia| |done]. intros id'. specialize (Hs id').
  destruct (decide (id' = id)) as [->|].
  - revert Hs. unfold connection_ok. cbn. rewrite lookup_insert_eq, Hid, Hp. cbn. intros ((Ho & Ha1 & Ha2) & Hb & Hd & He).
    split_and!; [done| |done|done|by intros _; apply He; left]. left. split; [|done]. unfold commands_of in *. cbn.
    rewrite List.filter_app, Ha1. cbn. by rewrite bool_decide_true.
  - other Hs.
    + unfold commands_of. cbn. rewrite List.filter_app. cbn. rewrite bool_decide_false by congruence. by rewrite app_nil_r.
    + unfold pending. by rewrite Hmx.
Qed.

(** The own connection of a step: open the invariant for it. *)
Ltac own Hs Hid :=
  revert Hs; unfold connection_ok; cbn; rewrite lookup_insert_eq, Hid; cbn.

(** The holder of the mutex is another connection, or finds what it needs. *)
Lemma mutex_ok_insert r id c c' :
  mutex_ok r -> connections r !! id = Some c ->
  (mutex r = Some (Adding id) -> conn_phase c' = Connecting) -> (mutex r = Some (Unregistering id) -> conn_phase c' = Removing) ->
  mutex_ok (set_connection id c' r).
Proof.
  unfold mutex_ok. cbn. intros Hm Hid Ha Hu. destruct (mutex r) as [[i|i|m todo]|]; try done; destruct Hm as (d & Hd & Hp);
    (destruct (decide (i = id)) as [->|]; [exists c'; rewrite lookup_insert_eq; auto|exists d; by rewrite lookup_insert_ne]).
Qed.

Lemma insert_ok r id c :
  registry_ok r -> connections r !! id = Some c -> conn_phase c = Registering -> mutex r = None ->
  registry_ok (set_connection id (mk_connection Live (buffer c) (received c) (length (log r))) (set_out ({[id]} ∪ out_streams r) r)).
Proof.
  intros [Hc Hs Hm] Hid Hp Hn. split; [done| |unfold mutex_ok; cbn; by rewrite Hn]. intros id'. specialize (Hs id').
  destruct (decide (id' = id)) as [->|]; [|by other Hs].
  own Hs Hid. rewrite Hp. cbn. intros ((Ho & Ha) & Hb & _ & He). destruct (He (or_intror eq_refl)) as [Eb Er].
  split_and!; [set_solver|done|done| |by intros []]. intros _. cbn. split; [done|]. unfold pending. cbn.
  by rewrite Hn, drop_all, Eb, Er.
Qed.

Lemma poll_ok r id c m rest :
  registry_ok r -> connections r !! id = Some c -> conn_phase c = Live -> buffer c = m :: rest ->
  registry_ok (set_connection id (mk_connection Live rest (received c ++ [m]) (joined c)) r).
Proof.
  intros [Hc Hs Hm] Hid Hp Eb. split; [done| |].
  - intros id'. specialize (Hs id'). destruct (decide (id' = id)) as [->|]; [|by other Hs].
    own Hs Hid. rewrite Hp, Eb. cbn. intros (Hco & Hb & Hd & _). split_and!; [apply Hco..|lia| |by intros []].
    intros _. destruct (Hd Hp) as [Hj Hd']. split; [done|]. cbn. by rewrite Hd', Eb, <- app_assoc.
  - apply (mutex_ok_insert _ _ c); [done|done|..]; intros Hx; unfold mutex_ok in Hm; rewrite Hx in Hm;
      destruct Hm as (c' & Hc' & ?); congruence.
Qed.

Lemma drop_ok r id c :
  registry_ok r -> connections r !! id = Some c -> conn_phase c = Live -> registry_ok (set_connection id (with_phase c Closing) r).
Proof.
  intros [Hc Hs Hm] Hid Hp. split; [done| |].
  - intros id'. specialize (Hs id'). destruct (decide (id' = id)) as [->|]; [|by other Hs].
    own Hs Hid. rewrite Hp. cbn. intros (Hco & Hb & _ & _). split_and!; [apply Hco..|done|done|by intros []].
  - apply (mutex_ok_insert _ _ c); [done|done|..]; intros Hx; unfold mutex_ok in Hm; rewrite Hx in Hm;
      destruct Hm as (c' & Hc' & ?); congruence.
Qed.

Lemma unregister_ok r id c :
  registry_ok r -> connections r !! id = Some c -> conn_phase c = Closing -> mutex r = None ->
  registry_ok (set_connection id (with_phase c Removing) (set_out (out_streams r ∖ {[id]}) (set_mutex (Some (Unregistering id)) r))).
Proof.
  intros [Hc Hs Hm] Hid Hp Hn. split; [done| |].
  - intros id'. specialize (Hs id'). destruct (decide (id' = id)) as [->|].
    + own Hs Hid. rewrite Hp. cbn. intros (Hco & Hb & _ & _). split_and!; [set_solver|done|apply Hco|done|done|by intros []].
    + other Hs. unfold pending. by rewrite Hn.
  - unfold mutex_ok. cbn. eexists. by rewrite lookup_insert_eq.
Qed.

Lemma remove_ok r id c :
  registry_ok r -> connections r !! id = Some c -> mutex r = Some (Unregistering id) -> (length (commands r) < channel_capacity)%nat ->
  registry_ok (set_connection id (with_phase c Closed) (set_mutex None (set_commands (commands r ++ [Remove id]) r))).
Proof.
  intros [Hc Hs Hm] Hid Hmx Hlen. unfold mutex_ok in Hm. rewrite Hmx in Hm. destruct Hm as (c' & Hc' & Hp). assert (c' = c) as -> by congruence.
  split; [cbn; rewrite length_app; cbn; lia| |done]. intros id'. specialize (Hs id').
  destruct (decide (id' = id)) as [->|].
  - own Hs Hid. rewrite Hp. cbn. intros ((Ho & _ & Ha) & Hb & _ & _). split_and!; [done| |done|done|by intros []].
    unfold adding, absent, commands_of in *. cbn. rewrite List.filter_app. cbn. rewrite bool_decide_true by done.
    destruct Ha as [[-> ?]| ->]; [by left|by right; left].
  - other Hs.
    + unfold commands_of. cbn. rewrite List.filter_app. cbn. rewrite bool_decide_false by congruence. by rewrite app_nil_r.
    + unfold pending. by rewrite Hmx.
Qed.

Lemma command_ok r cmd rest :
  registry_ok r -> commands r = cmd :: rest ->
  registry_ok (mk_registry (connections r) (out_streams r) rest (handle_command cmd (in_streams r)) (mutex r) (outbox r) (log r) (handled r)).
Proof.
  intros [Hc Hs Hm] Ecmd. split; [rewrite Ecmd in Hc; cbn in *; lia| |done]. intros id'. specialize (Hs id').
  assert (commands_of id' r = (if about id' cmd then [cmd] else []) ++ List.filter (about id') rest)%list as Hco
    by (unfold commands_of; rewrite Ecmd; cbn; by destruct (about id' cmd)).
  destruct (about id' cmd) eqn:Ea.
  - revert Hs. unfold connection_ok. cbn. unfold coherent, adding, absent. rewrite Hco. unfold commands_of. cbn.
    destruct cmd as [i|i]; cbn in Ea; apply bool_decide_eq_true in Ea as ->; cbn [handle_command].
    + destruct (connections r !! id') as [c|]; [|naive_solver]. intros (Hph & Hb & Hd & He). split_and!; [|done|done|done].
      destruct (conn_phase c); naive_solver.
    + destruct (connections r !! id') as [c|]; [|naive_solver]. intros (Hph & Hb & Hd & He). split_and!; [|done|done|done].
      destruct (conn_phase c); try naive_solver. split; [naive_solver|]. right. right. split; [naive_solver|set_solver].
  - other Hs. destruct cmd as [i|i]; cbn in *; apply bool_decide_eq_false in Ea; set_solver.
Qed.

Lemma in_streams_ok r ins handled' outbox' :
  registry_ok r -> ins ⊆ in_streams r ->
  registry_ok (mk_registry (connections r) (out_streams r) (commands r) ins (mutex r) outbox' (log r) handled').
Proof. intros [Hc Hs Hm] Hin. split; [done| |done]. intros id. specialize (Hs id). other Hs. Qed.

Lemma broadcast_ok r m rest todo :
  registry_ok r -> mutex r = None -> todo ≡ₚ elements (out_streams r) ->
  registry_ok (mk_registry (connections r) (out_streams r) (commands r) (in_streams r) (Some (Broadcasting m todo)) rest (log r ++ [m]) (handled r)).
Proof.
  intros [Hc Hs Hm] Hn Ht. split; [done| |].
  - intros id. specialize (Hs id). revert Hs. unfold connection_ok. cbn. destruct (connections r !! id) as [c|]; [|done].
    intros (Hco & Hb & Hd & He). split_and!; [|done| |done].
    + revert Hco. unfold coherent. destruct (conn_phase c); cbn; try done. intros (_ & ? & _). congruence.
    + intros Hp. destruct (Hd Hp) as [Hj Hd']. cbn. rewrite length_app. split; [lia|]. rewrite drop_app_le, Hd' by lia.
      unfold pending. cbn. rewrite Hn, decide_True; [by rewrite app_nil_r, <- app_assoc|].
      rewrite Ht. apply elem_of_elements. rewrite Hp in Hco. apply Hco.
  - cbn. split_and!; [rewrite Ht; apply NoDup_elements|intros id; rewrite Ht; apply elem_of_elements|by eexists].
Qed.

Lemma send_ok r m id todo c c' :
  registry_ok r -> mutex r = Some (Broadcasting m (id :: todo)) -> connections r !! id = Some c -> channel_send m c = Some c' ->
  registry_ok (set_connection id c' (set_mutex (Some (Broadcasting m todo)) r)).
Proof.
  intros [Hc Hs Hm] Hmx Hid Hsend. unfold mutex_ok in Hm. rewrite Hmx in Hm. destruct Hm as (Hnd & Hin & Hl).
  apply NoDup_cons in Hnd as [Hni Hnd]. split; [done| |].
  - intros id'. specialize (Hs id'). destruct (decide (id' = id)) as [->|].
    + own Hs Hid. unfold channel_send in Hsend. intros (Hco & Hb & Hd & He). pose proof (Hin id ltac:(by left)) as Hout.
      assert (conn_phase c = Live \/ conn_phase c = Closing) as Hph.
      { revert Hco. unfold coherent. destruct (conn_phase c); naive_solver. }
      destruct (is_open c) eqn:Eo.
      * assert (conn_phase c = Live) as Hp by (destruct Hph as [?|Hp]; [done|]; unfold is_open in Eo; by rewrite Hp in Eo).
        destruct (Nat.ltb_spec (length (buffer c)) channel_capacity); [|done]. injection Hsend as <-. rewrite Hp in *. cbn.
        split_and!; [apply Hco..|rewrite length_app; cbn; lia| |by intros []]. intros _. destruct (Hd Hp) as [Hj Hd'].
        split; [done|]. cbn. rewrite Hd'. unfold pending. cbn. rewrite Hmx, decide_True by (by left). rewrite decide_False by done.
        by rewrite app_nil_r.
      * injection Hsend as <-. assert (conn_phase c = Closing) as Hp by (destruct Hph as [Hp|?]; [|done]; unfold is_open in Eo; by rewrite Hp in Eo).
        rewrite Hp in *. split_and!; [apply Hco..|done|by unfold delivered; rewrite Hp|done].
    + other Hs. unfold pending. cbn. rewrite Hmx. repeat case_decide; set_solver.
  - unfold mutex_ok. cbn. split_and!; [done|set_solver|done].
Qed.

Lemma sent_ok r m : registry_ok r -> mutex r = Some (Broadcasting m []) -> registry_ok (set_mutex None r).
Proof.
  intros [Hc Hs Hm] Hmx. split; [done| |done]. intros id. specialize (Hs id). other Hs. unfold pending. cbn. rewrite Hmx.
  rewrite decide_False; [done|]. by apply not_elem_of_nil.
Qed.

Lemma step_ok r l r' : registry_ok r -> step r l r' -> registry_ok r'.
Proof.
  intros Hr Hstep. destruct Hstep.
  - by apply connect_ok.
  - by eapply add_lock_ok.
  - by apply add_ok.
  - by apply insert_ok.
  - by apply (poll_ok r id c m rest).
  - by apply drop_ok.
  - by apply unregister_ok.
  - by apply remove_ok.
  - by apply command_ok.
  - by apply in_streams_ok.
  - apply in_streams_ok; [done|set_solver].
  - by apply in_streams_ok.
  - by apply broadcast_ok.
  - by eapply send_ok.
  - by eapply sent_ok.
Qed.

Lemma run_ok tr r : run tr r -> registry_ok r.
Proof. induction 1; [apply new_ok|by eapply step_ok]. Qed.

(** ** What the clients get *)

Lemma run_pushed tr r : run tr r -> pushed tr = (log r ++ outbox r)%list.
Proof.
  induction 1 as [|tr r l r' _ IH Hstep]; [done|]. unfold pushed in *. rewrite omap_app, IH.
  destruct Hstep; cbn; rewrite ?app_nil_r; try done; [by rewrite app_assoc|].
  match goal with H : outbox _ = _ |- _ => rewrite H end. by rewrite <- app_assoc.
Qed.

(** C19 (refinement). A connection is a queue of the messages that the brain sends: at
    any time the client has received, and finds in its channel, exactly the messages
    sent since its stream was inserted, in their order and each once, but for at most
    one, which the broadcast under way is about to send to it, and those that wait to
    be broadcast. The channel never holds more than five. *)
Theorem streams_deliver_in_order tr r id c :
  run tr r -> connections r !! id = Some c -> conn_phase c = Live ->
  exists before missing,
    pushed tr = (before ++ received c ++ buffer c ++ missing ++ outbox r)%list /\ length before = joined c /\
    (length (buffer c) <= channel_capacity)%nat /\ (length missing <= 1)%nat /\
    ((forall m todo, mutex r <> Some (Broadcasting m todo)) -> missing = []).
Proof.
  intros Hrun Hid Hp. pose proof (ok_connections _ (run_ok _ _ Hrun) id) as Hok. unfold connection_ok in Hok. rewrite Hid in Hok.
  destruct Hok as (_ & Hb & Hd & _). destruct (Hd Hp) as [Hj Hd']. exists (take (joined c) (log r)), (pending id r). split_and!.
  - rewrite (run_pushed _ _ Hrun), <- (take_drop (joined c) (log r)) at 1. by rewrite Hd', <- !app_assoc.
  - by rewrite length_take_le.
  - done.
  - unfold pending. destruct (mutex r) as [[]|]; cbn; try lia. case_decide; cbn; lia.
  - by apply pending_idle.
Qed.

(** (safety). The registry forgets whoever is gone: while the mutex is free, the loop
    has no command to carry out and no connection is being made or taken down,
    broadcasts go to the connections of the living clients and to no other, and the
    loop listens to living clients only. *)
Theorem registry_forgets_closed_streams tr r id :
  run tr r -> commands r = [] -> (forall id c, connections r !! id = Some c -> conn_phase c = Live \/ conn_phase c = Closed) ->
  (id ∈ out_streams r <-> exists c, connections r !! id = Some c /\ conn_phase c = Live) /\
  (id ∈ in_streams r -> exists c, connections r !! id = Some c /\ conn_phase c = Live).
Proof.
  intros Hrun Hcmd Hph. pose proof (ok_connections _ (run_ok _ _ Hrun) id) as Hok. unfold connection_ok in Hok.
  destruct (connections r !! id) as [c|] eqn:Hid.
  - destruct Hok as [Hco _]. destruct (Hph _ _ Hid) as [Hp|Hp]; rewrite Hp in Hco.
    + destruct Hco as [Hout _]. split; [split|]; eauto.
    + destruct Hco as [Hout Hcl]. unfold absent, commands_of in Hcl. rewrite Hcmd in Hcl. cbn in Hcl.
      assert (id ∉ in_streams r) as Hin by (destruct Hcl as [[? _]|[?|[_ ?]]]; done).
      split; [split; [done|]|done]. intros (c' & [= <-] & Hl). congruence.
  - destruct Hok as (Hout & _ & Hin). split; [split; [done|naive_solver]|done].
Qed.

(** ** Waiting *)

Definition waits_for (r : registry) (m : S) (id : StreamId) (todo : list StreamId) : Prop :=
  mutex r = Some (Broadcasting m (id :: todo)) /\
  exists c, connections r !! id = Some c /\ conn_phase c = Live /\ length (buffer c) = channel_capacity.

Inductive steps : registry -> list label -> registry -> Prop :=
| steps_nil r : steps r [] r
| steps_cons r l r1 ls r2 : step r l r1 -> steps r1 ls r2 -> steps r (l :: ls) r2.

Lemma waits_step r m id todo l r' :
  waits_for r m id todo -> l <> Poll id -> l <> Drop id -> step r l r' ->
  waits_for r' m id todo /\ out_streams r' = out_streams r /\
  (forall i c, connections r !! i = Some c -> exists c', connections r' !! i = Some c' /\
     (received c' ++ buffer c' = received c ++ buffer c)%list).
Proof.
  intros [Hmx (c & Hid & Hp & Hb)] Hl1 Hl2 Hstep. unfold waits_for.
  assert (forall i c', i <> id -> connections (set_connection i c' r) !! id = Some c) as Hne
    by (intros i c' Hi; cbn; by rewrite lookup_insert_ne).
  assert (forall i (d d' : connection), connections r !! i = Some d -> (received d' ++ buffer d' = received d ++ buffer d)%list ->
    forall j e, connections r !! j = Some e -> exists e', <[i := d']> (connections r) !! j = Some e' /\
      (received e' ++ buffer e' = received e ++ buffer e)%list) as Hins.
  { intros i d d' Hd He j e Hj. destruct (decide (j = i)) as [->|]; [exists d'; rewrite lookup_insert_eq; split; congruence|].
    exists e. by rewrite lookup_insert_ne. }
  destruct Hstep as [r i|r i d|r i d|r i d|r i d m' rest Hd Hdp Hdb|r i d Hd Hdp|r i d|r i d|r cmd rest|r i m'|r i|r m'|r m' rest todo'
    |r m' i todo' d d' Hx Hd Hsend|r m' Hx]; try congruence.
  - assert (i <> id) by congruence. split; [split; [done|exists c; auto]|]. split; [done|]. intros j e Hj.
    exists e. cbn. rewrite lookup_insert_ne; [done|congruence].
  - assert (i <> id) by congruence. split; [split; [done|exists c; auto]|]. split; [done|]. eapply Hins; [done|].
    cbn. by rewrite Hdb, <- app_assoc.
  - assert (i <> id) by congruence. split; [split; [done|exists c; auto]|]. split; [done|]. by eapply Hins.
  - split; [eauto 6|]. split; [done|eauto].
  - split; [eauto 6|]. split; [done|eauto].
  - split; [eauto 6|]. split; [done|eauto].
  - split; [eauto 6|]. split; [done|eauto].
  - exfalso. rewrite Hmx in Hx. injection Hx as <- <- <-. rewrite Hid in Hd. injection Hd as <-. unfold channel_send, is_open in Hsend.
    rewrite Hp, Hb in Hsend. done.
Qed.

Lemma command_or_space r : (length (commands r) < channel_capacity)%nat \/ exists cmd rest, commands r = cmd :: rest.
Proof. destruct (commands r) as [|cmd rest]; [left; cbn; unfold channel_capacity; lia|right; eauto]. Qed.

Lemma registered_connection r id :
  registry_ok r -> id ∈ out_streams r -> exists c, connections r !! id = Some c /\ (conn_phase c = Live \/ conn_phase c = Closing) /\
    (length (buffer c) <= channel_capacity)%nat.
Proof.
  intros Hr Hout. pose proof (ok_connections _ Hr id) as Hok. unfold connection_ok in Hok.
  destruct (connections r !! id) as [c|]; [|by destruct Hok]. exists c. destruct Hok as (Hco & Hb & _). split_and!; [done| |done].
  revert Hco. unfold coherent. destruct (conn_phase c); auto; intros [? _]; done.
Qed.

Lemma holder_moves_on r :
  registry_ok r -> mutex r <> None -> (exists r', step r Internal r') \/ exists m id todo, waits_for r m id todo.
Proof.
  intros Hr Hne. pose proof (ok_mutex _ Hr) as Hm. unfold mutex_ok in Hm. destruct (mutex r) as [[id|id|m [|id todo]]|] eqn:Hmx; [..|done].
  - left. destruct Hm as (c & Hc & _). destruct (command_or_space r) as [?|(cmd & rest & ?)]; eexists; [by eapply step_add|by eapply step_command].
  - left. destruct Hm as (c & Hc & _). destruct (command_or_space r) as [?|(cmd & rest & ?)]; eexists; [by eapply step_remove|by eapply step_command].
  - left. eexists. by eapply step_sent.
  - destruct Hm as (_ & Hin & _). destruct (registered_connection r id Hr) as (c & Hc & Hp & Hb); [apply Hin; by left|].
    destruct (channel_send m c) as [c'|] eqn:Es; [left; eexists; by eapply step_send|right]. exists m, id, todo. split; [done|].
    exists c. split; [done|]. unfold channel_send in Es. destruct (is_open c) eqn:Eo; [|done].
    destruct (Nat.ltb_spec (length (buffer c)) channel_capacity); [done|]. split; [|lia].
    destruct Hp as [?|Hp]; [done|]. unfold is_open in Eo. by rewrite Hp in Eo.
Qed.

(** C20 (liveness). The registry waits for nobody but its clients: whoever holds the mutex
    can take a next step, except a broadcast that comes to a living client whose
    channel is full. And that client holds everybody up: until it reads or goes,
    whatever else happens, no connection is inserted or taken out and nobody gets
    another message. *)
Theorem registry_waits_only_for_slow_clients tr r :
  run tr r ->
  (mutex r <> None -> (exists r', step r Internal r') \/ exists m id todo, waits_for r m id todo) /\
  (forall m id todo ls r', waits_for r m id todo -> steps r ls r' -> Poll id ∉ ls -> Drop id ∉ ls ->
     waits_for r' m id todo /\ out_streams r' = out_streams r /\
     forall i c, connections r !! i = Some c -> exists c', connections r' !! i = Some c' /\
       (received c' ++ buffer c' = received c ++ buffer c)%list).
Proof.
  intros Hrun. split; [apply holder_moves_on, (run_ok _ _ Hrun)|]. clear Hrun. intros m id todo ls r' Hw Hsteps.
  induction Hsteps as [r|r l r1 ls r2 Hstep _ IH]; intros Hp Hd; [eauto|].
  apply not_elem_of_cons in Hp as [Hp1 Hp2]. apply not_elem_of_cons in Hd as [Hd1 Hd2].
  destruct (waits_step _ _ _ _ _ _ Hw (not_eq_sym Hp1) (not_eq_sym Hd1) Hstep) as (Hw1 & Ho1 & Hc1).
  destruct (IH Hw1 Hp2 Hd2) as (Hw2 & Ho2 & Hc2). split; [done|]. split; [congruence|]. intros i c Hc.
  destruct (Hc1 i c Hc) as (c1 & Hi1 & E1). destruct (Hc2 i c1 Hi1) as (c2 & Hi2 & E2). exists c2. split; [done|congruence].
Qed.

(** ** Running the registry

    A task to move on, or an event, as a choice, and the step it makes. *)
Inductive choice :=
| DoConnect (id : StreamId) | DoAddLock (id : StreamId) | DoAdd | DoInsert (id : StreamId) | DoPoll (id : StreamId)
| DoDrop (id : StreamId) | DoUnregister (id : StreamId) | DoRemove | DoCommand | DoIncoming (id : StreamId) (m : C)
| DoPush (m : S) | DoBroadcast | DoSend | DoSent.

Definition in_phase (r : registry) (id : StreamId) (p : phase) : option connection :=
  c ← connections r !! id; if decide (conn_phase c = p) then Some c else None.
Definition has_space (r : registry) : bool := (length (commands r) <? channel_capacity)%nat.
#[local] Arguments has_space : simpl never.

Definition fire (x : choice) (r : registry) : option (label * registry) :=
  match x with
  | DoConnect id =>
      match connections r !! id with
      | None => Some (Connect id, set_connection id (mk_connection Connecting [] [] 0) r)
      | Some _ => None
      end
  | DoAddLock id => match in_phase r id Connecting, mutex r with Some _, None => Some (Internal, set_mutex (Some (Adding id)) r) | _, _ => None end
  | DoAdd =>
      match mutex r with
      | Some (Adding id) =>
          c ← connections r !! id;
          if has_space r
          then Some (Internal, set_connection id (with_phase c Registering) (set_mutex None (set_commands (commands r ++ [Add id]) r)))
          else None
      | _ => None
      end
  | DoInsert id =>
      match in_phase r id Registering, mutex r with
      | Some c, None => Some (Internal, set_connection id (mk_connection Live (buffer c) (received c) (length (log r)))
                                          (set_out ({[id]} ∪ out_streams r) r))
      | _, _ => None
      end
  | DoPoll id =>
      c ← in_phase r id Live;
      match buffer c with
      | m :: rest => Some (Poll id, set_connection id (mk_connection Live rest (received c ++ [m]) (joined c)) r)
      | [] => None
      end
  | DoDrop id => c ← in_phase r id Live; Some (Drop id, set_connection id (with_phase c Closing) r)
  | DoUnregister id =>
      match in_phase r id Closing, mutex r with
      | Some c, None => Some (Internal, set_connection id (with_phase c Removing)
                                          (set_out (out_streams r ∖ {[id]}) (set_mutex (Some (Unregistering id)) r)))
      | _, _ => None
      end
  | DoRemove =>
      match mutex r with
      | Some (Unregistering id) =>
          c ← connections r !! id;
          if has_space r
          then Some (Internal, set_connection id (with_phase c Closed) (set_mutex None (set_commands (commands r ++ [Remove id]) r)))
          else None
      | _ => None
      end
  | DoCommand =>
      match commands r with
      | cmd :: rest => Some (Internal, mk_registry (connections r) (out_streams r) rest (handle_command cmd (in_streams r)) (mutex r)
                                         (outbox r) (log r) (handled r))
      | [] => None
      end
  | DoIncoming id m =>
      if decide (id ∈ in_streams r)
      then Some (Incoming id m, mk_registry (connections r) (out_streams r) (commands r) (in_streams r) (mutex r) (outbox r) (log r)
                                  (handled r ++ [(id, m)]))
      else None
  | DoPush m => Some (Push m, mk_registry (connections r) (out_streams r) (commands r) (in_streams r) (mutex r) (outbox r ++ [m]) (log r) (handled r))
  | DoBroadcast =>
      match outbox r, mutex r with
      | m :: rest, None => Some (Internal, mk_registry (connections r) (out_streams r) (commands r) (in_streams r)
                                             (Some (Broadcasting m (elements (out_streams r)))) rest (log r ++ [m]) (handled r))
      | _, _ => None
      end
  | DoSend =>
      match mutex r with
      | Some (Broadcasting m (id :: todo)) =>
          c ← connections r !! id; c' ← channel_send m c;
          Some (Internal, set_connection id c' (set_mutex (Some (Broadcasting m todo)) r))
      | _ => None
      end
  | DoSent => match mutex r with Some (Broadcasting _ []) => Some (Internal, set_mutex None r) | _ => None end
  end.

Lemma in_phase_Some r id p c : in_phase r id p = Some c -> connections r !! id = Some c /\ conn_phase c = p.
Proof. unfold in_phase. destruct (connections r !! id) as [d|]; cbn; [|done]. case_decide; [|done]. by intros [= <-]. Qed.

Lemma has_space_lt r : has_space r = true -> (length (commands r) < channel_capacity)%nat.
Proof. apply Nat.ltb_lt. Qed.

Lemma fire_step x r l r' : fire x r = Some (l, r') -> step r l r'.
Proof.
  destruct x; cbn;
    repeat (match goal with
      | |- context [match in_phase r ?i ?p with _ => _ end] => destruct (in_phase r i p) eqn:Ep; [apply in_phase_Some in Ep as [? ?]|]
      | |- context [in_phase r ?i ?p ≫= _] => destruct (in_phase r i p) eqn:Ep; [apply in_phase_Some in Ep as [? ?]|]
      | |- context [has_space r] => destruct (has_space r) eqn:Es; [apply has_space_lt in Es|]
      | |- context [connections r !! ?i] => destruct (connections r !! i) eqn:?
      | |- context [match ?t with _ => _ end] => destruct t eqn:?
      | |- context [channel_send ?m ?c] => destruct (channel_send m c) eqn:?
      end; cbn; try done); intros [= <- <-].
  all: first [by eapply step_connect|by eapply step_add_lock|by eapply step_add|by eapply step_insert|by eapply step_poll
    |by eapply step_drop|by eapply step_unregister|by eapply step_remove|by eapply step_command|by eapply step_incoming
    |by eapply step_push|by eapply step_broadcast|by eapply step_send|by eapply step_sent].
Qed.

Fixpoint fire_all (xs : list choice) (tr : list label) (r : registry) : option (list label * registry) :=
  match xs with
  | [] => Some (tr, r)
  | x :: xs => match fire x r with Some (l, r) => fire_all xs (tr ++ [l]) r | None => None end
  end.

Lemma fire_all_run xs tr r tr' r' : run tr r -> fire_all xs tr r = Some (tr', r') -> run tr' r'.
Proof.
  revert tr r. induction xs as [|x xs IH]; intros tr r Hr; cbn; [by intros [= <- <-]|]. destruct (fire x r) as [[l r1]|] eqn:Ef; [|done].
  apply IH. by apply (run_step _ r), (fire_step x).
Qed.
End Registry.

Module StreamExample.
(** Streams and messages are numbers. *)
Abbreviation reg := (registry (StreamId := nat) (S := nat) (C := unit)).
Abbreviation choices := (list (choice (StreamId := nat) (S := nat) (C := unit))).

Definition connect (id : nat) : choices := [DoConnect id; DoAddLock id; DoAdd; DoCommand; DoInsert id].
Definition broadcast (m : nat) : choices := [DoPush m; DoBroadcast; DoSend; DoSend; DoSent].

Definition run_of (xs : choices) : list label * reg :=
  match fire_all xs [] registry_new with Some x => x | None => ([], registry_new) end.

Definition two_clients : choices := connect 1 ++ connect 2.

(** Client 1 reads, client 2 does not. *)
Definition reading : choices := two_clients ++ broadcast 7 ++ [DoPoll 1%nat] ++ broadcast 8.
Definition read : list label * reg := Eval vm_compute in run_of reading.

Lemma read_runs : run read.1 read.2.
Proof. apply (fire_all_run reading [] registry_new); [constructor|]. vm_compute. reflexivity. Qed.

Lemma streams_deliver_in_order_witness :
  exists before missing, pushed read.1 = (before ++ [7] ++ [8] ++ missing ++ [])%nat%list /\ length before = 0%nat.
Proof.
  destruct (streams_deliver_in_order read.1 read.2 1%nat (mk_connection Live [8] [7] 0)%nat read_runs eq_refl eq_refl)
    as (before & missing & Hp & Hb & _). exists before, missing. split; [exact Hp|exact Hb].
Defined.

(** Client 2 goes. *)
Definition closing : choices := reading ++ [DoDrop 2; DoUnregister 2; DoRemove; DoCommand]%nat.
Definition closed : list label * reg := Eval vm_compute in run_of closing.

Lemma closed_runs : run closed.1 closed.2.
Proof. apply (fire_all_run closing [] registry_new); [constructor|]. vm_compute. reflexivity. Qed.

Lemma closed_phases id c : connections closed.2 !! id = Some c -> conn_phase c = Live \/ conn_phase c = Closed.
Proof.
  intros H. assert (map_Forall (fun _ c => conn_phase c = Live \/ conn_phase c = Closed) (connections closed.2)) as Hall.
  { refine (bool_decide_eq_true_1 _ _). vm_compute. reflexivity. }
  exact (Hall id c H).
Qed.

Lemma registry_forgets_closed_streams_witness :
  ((2%nat ∈ out_streams closed.2) <-> exists c, connections closed.2 !! 2%nat = Some c /\ conn_phase c = Live) /\
  ((2%nat ∈ in_streams closed.2) -> exists c, connections closed.2 !! 2%nat = Some c /\ conn_phase c = Live).
Proof. exact (registry_forgets_closed_streams closed.1 closed.2 2%nat closed_runs eq_refl closed_phases). Defined.

(** Five messages wait for client 2, and a sixth comes. *)
Definition stuck : choices :=
  two_clients ++ broadcast 1 ++ broadcast 2 ++ [DoPoll 1; DoPoll 1]%nat ++ broadcast 3 ++ broadcast 4 ++ broadcast 5 ++
  [DoPush 6; DoBroadcast]%nat.
Definition full : list label * reg := Eval vm_compute in run_of stuck.

Lemma full_runs : run full.1 full.2.
Proof. apply (fire_all_run stuck [] registry_new); [constructor|]. vm_compute. reflexivity. Qed.

Lemma full_waits : waits_for full.2 6%nat 2%nat [1%nat].
Proof. split; [reflexivity|]. eexists. split; [reflexivity|]. done. Qed.

Lemma registry_waits_only_for_slow_clients_witness :
  waits_for (set_connection 3%nat (mk_connection Connecting [] [] 0) full.2) 6%nat 2%nat [1%nat].
Proof.
  apply (proj2 (registry_waits_only_for_slow_clients full.1 full.2 full_runs) 6%nat 2%nat [1%nat] [Connect 3%nat] _ full_waits).
  - eapply steps_cons; [|apply steps_nil]. by apply step_connect.
  - set_solver.
  - set_solver.
Defined.
End StreamExample.
