(* ===== verification/Wire.v ===== *)
(** * The messages of the API

    src/wire/filerequest.proto and nodestatus.proto as prost generates them: a record
    per message, a sum per oneof, a numbered enum per enum. A field with a message is
    optional in proto3; a field with an enum holds its number; integers are given as
    [Z], and so is the one double, which the program only sets to 0. The services are
    [Rpc], a request with the type of its response. *)

From S2P Require Import Prelude.

Module Api.

Inductive SendStatusProto :=
| SendStatusProto_PENDING
| SendStatusProto_SENDING
| SendStatusProto_SUCCESS
| SendStatusProto_REJECTED
| SendStatusProto_FAILED
| SendStatusProto_PREPARED
| SendStatusProto_INTERRUPTED
| SendStatusProto_PENDING_SENT.

Definition SendStatusProto_number (e : SendStatusProto) : Z :=
  match e with
  | SendStatusProto_PENDING => 0
  | SendStatusProto_SENDING => 1
  | SendStatusProto_SUCCESS => 2
  | SendStatusProto_REJECTED => 3
  | SendStatusProto_FAILED => 4
  | SendStatusProto_PREPARED => 5
  | SendStatusProto_INTERRUPTED => 6
  | SendStatusProto_PENDING_SENT => 7
  end.

Inductive ReceiveStatusProto :=
| ReceiveStatusProto_RECEIVE_STATUS_RECEIVING
| ReceiveStatusProto_RECEIVE_STATUS_INTERRUPTED
| ReceiveStatusProto_RECEIVE_STATUS_COMPLETED
| ReceiveStatusProto_RECEIVE_STATUS_FAILED.

Definition ReceiveStatusProto_number (e : ReceiveStatusProto) : Z :=
  match e with
  | ReceiveStatusProto_RECEIVE_STATUS_RECEIVING => 0
  | ReceiveStatusProto_RECEIVE_STATUS_INTERRUPTED => 1
  | ReceiveStatusProto_RECEIVE_STATUS_COMPLETED => 2
  | ReceiveStatusProto_RECEIVE_STATUS_FAILED => 3
  end.

Inductive NodeStatus_State :=
| NodeStatus_State_UNKNOWN
| NodeStatus_State_STARTING
| NodeStatus_State_RUNNING
| NodeStatus_State_STOPPING
| NodeStatus_State_STOPPED
| NodeStatus_State_ERROR.

Definition NodeStatus_State_number (e : NodeStatus_State) : Z :=
  match e with
  | NodeStatus_State_UNKNOWN => 0
  | NodeStatus_State_STARTING => 1
  | NodeStatus_State_RUNNING => 2
  | NodeStatus_State_STOPPING => 3
  | NodeStatus_State_STOPPED => 4
  | NodeStatus_State_ERROR => 5
  end.

Record GetVersionRequest := mk_GetVersionRequest {}.

Record GetVersionResponse := mk_GetVersionResponse { GetVersionResponse_version : string }.

Record PublicProto := mk_PublicProto {}.

Record SpecificUsersProto := mk_SpecificUsersProto { SpecificUsersProto_contact_ids : list string }.

Inductive AccessProto_access :=
| AccessProto_Public (m : PublicProto)
| AccessProto_Audience (m : SpecificUsersProto).

Record AccessProto := mk_AccessProto { AccessProto_oneof : option AccessProto_access }.

Record FileRequestProto := mk_FileRequestProto {
  FileRequestProto_id : string;
  FileRequestProto_title : string;
  FileRequestProto_description : string;
  FileRequestProto_access : option AccessProto;
  FileRequestProto_is_active : bool;
}.

Record ContactProto := mk_ContactProto {
  ContactProto_id : string;
  ContactProto_name : string;
}.

Record ContactPublicKeysProto := mk_ContactPublicKeysProto {
  ContactPublicKeysProto_dilithium : list Z;
  ContactPublicKeysProto_ed25519 : list Z;
}.

Record ContactPrivateKeysProto := mk_ContactPrivateKeysProto {
  ContactPrivateKeysProto_dilithium : list Z;
  ContactPrivateKeysProto_ed25519 : list Z;
}.

Record ContactKeysProto := mk_ContactKeysProto {
  ContactKeysProto_public_keys : option ContactPublicKeysProto;
  ContactKeysProto_private_keys : option ContactPrivateKeysProto;
}.

Record SelfContactProto := mk_SelfContactProto {
  SelfContactProto_id : string;
  SelfContactProto_name : string;
  SelfContactProto_keys : option ContactKeysProto;
}.

Record RemoteFileRequestProto := mk_RemoteFileRequestProto {
  RemoteFileRequestProto_id : string;
  RemoteFileRequestProto_peer_id : string;
  RemoteFileRequestProto_file_request_id : string;
  RemoteFileRequestProto_name : string;
  RemoteFileRequestProto_contact_id : string;
}.

Record CreateRemoteFileRequestProto := mk_CreateRemoteFileRequestProto {
  CreateRemoteFileRequestProto_peer_id : string;
  CreateRemoteFileRequestProto_file_request_id : string;
  CreateRemoteFileRequestProto_name : string;
  CreateRemoteFileRequestProto_contact_id : string;
}.

Record TransferDataProto := mk_TransferDataProto {
  TransferDataProto_progress_bytes : Z;
  TransferDataProto_transfer_id : string;
  TransferDataProto_file_size_bytes : Z;
}.

Record PendingFileProto := mk_PendingFileProto {
  PendingFileProto_id : string;
  PendingFileProto_file_path : string;
  PendingFileProto_target_file_request_id : string;
  PendingFileProto_send_status : Z;
  PendingFileProto_transfer_data : option TransferDataProto;
  PendingFileProto_display_name : option string;
  PendingFileProto_interruption_reasons : list string;
}.

Record FileInfoProto := mk_FileInfoProto {
  FileInfoProto_path : string;
  FileInfoProto_display_name : option string;
}.

Record CreatePendingFilesProto := mk_CreatePendingFilesProto {
  CreatePendingFilesProto_file_infos : list FileInfoProto;
  CreatePendingFilesProto_target_file_request_id : string;
  CreatePendingFilesProto_send_status : Z;
}.

Record StoreRemoteFileRequestRequest := mk_StoreRemoteFileRequestRequest { StoreRemoteFileRequestRequest_remote_file_request : option CreateRemoteFileRequestProto }.

Record UpdateRemoteFileRequestRequest := mk_UpdateRemoteFileRequestRequest { UpdateRemoteFileRequestRequest_remote_file_request : option RemoteFileRequestProto }.

Record StoreRemoteFileRequestResponse := mk_StoreRemoteFileRequestResponse { StoreRemoteFileRequestResponse_id : string }.

Record GetRemoteFileRequestRequest := mk_GetRemoteFileRequestRequest { GetRemoteFileRequestRequest_id : string }.

Record GetRemoteFileRequestResponse := mk_GetRemoteFileRequestResponse { GetRemoteFileRequestResponse_remote_file_request : option RemoteFileRequestProto }.

Record ListRemoteFileRequestsRequest := mk_ListRemoteFileRequestsRequest { ListRemoteFileRequestsRequest_contact_id : string }.

Record ListRemoteFileRequestsResponse := mk_ListRemoteFileRequestsResponse { ListRemoteFileRequestsResponse_remote_file_requests : list RemoteFileRequestProto }.

Record GetAllRemoteFileRequestsRequest := mk_GetAllRemoteFileRequestsRequest {}.

Record GetAllRemoteFileRequestsResponse := mk_GetAllRemoteFileRequestsResponse { GetAllRemoteFileRequestsResponse_remote_file_requests : list RemoteFileRequestProto }.

Record DeleteRemoteFileRequestRequest := mk_DeleteRemoteFileRequestRequest { DeleteRemoteFileRequestRequest_id : string }.

Record DeleteRemoteFileRequestResponse := mk_DeleteRemoteFileRequestResponse { DeleteRemoteFileRequestResponse_success : bool }.

Record StorePendingFileRequest := mk_StorePendingFileRequest { StorePendingFileRequest_pending_files : option CreatePendingFilesProto }.

Record StorePendingFileResponse := mk_StorePendingFileResponse { StorePendingFileResponse_ids : list string }.

Record GetPendingFileRequest := mk_GetPendingFileRequest { GetPendingFileRequest_id : string }.

Record GetPendingFileResponse := mk_GetPendingFileResponse { GetPendingFileResponse_pending_file : option PendingFileProto }.

Record ListPendingFilesRequest := mk_ListPendingFilesRequest { ListPendingFilesRequest_target_file_request_id : string }.

Record ListPendingFilesResponse := mk_ListPendingFilesResponse { ListPendingFilesResponse_pending_files : list PendingFileProto }.

Record GetAllPendingFilesRequest := mk_GetAllPendingFilesRequest {}.

Record GetAllPendingFilesResponse := mk_GetAllPendingFilesResponse { GetAllPendingFilesResponse_pending_files : list PendingFileProto }.

Record DeletePendingFileRequest := mk_DeletePendingFileRequest { DeletePendingFileRequest_id : string }.

Record DeletePendingFileResponse := mk_DeletePendingFileResponse { DeletePendingFileResponse_success : bool }.

Record ShutdownRequest := mk_ShutdownRequest {}.

Record ShutdownResponse := mk_ShutdownResponse { ShutdownResponse_success : bool }.

Record GetContactNameRequest := mk_GetContactNameRequest { GetContactNameRequest_id : string }.

Record GetContactNameResponse := mk_GetContactNameResponse { GetContactNameResponse_name : string }.

Record GetContactNamesRequest := mk_GetContactNamesRequest { GetContactNamesRequest_ids : list string }.

Record GetContactNamesResponse := mk_GetContactNamesResponse { GetContactNamesResponse_names : gmap string string }.

Record GetNodePeerIdRequest := mk_GetNodePeerIdRequest {}.

Record GetNodePeerIdResponse := mk_GetNodePeerIdResponse { GetNodePeerIdResponse_peer_id : string }.

Record ReceivedFileProto := mk_ReceivedFileProto {
  ReceivedFileProto_id : string;
  ReceivedFileProto_contact_id : option string;
  ReceivedFileProto_filerequest_id : string;
  ReceivedFileProto_file_name : string;
  ReceivedFileProto_file_path : string;
  ReceivedFileProto_size : Z;
  ReceivedFileProto_received_at_ms : Z;
}.

Record ListReceivedFilesRequest := mk_ListReceivedFilesRequest { ListReceivedFilesRequest_remote_file_request_id : string }.

Record ListReceivedFilesResponse := mk_ListReceivedFilesResponse { ListReceivedFilesResponse_received_files : list ReceivedFileProto }.

Record DeleteReceivedFileRequest := mk_DeleteReceivedFileRequest { DeleteReceivedFileRequest_id : string }.

Record DeleteReceivedFileResponse := mk_DeleteReceivedFileResponse { DeleteReceivedFileResponse_success : bool }.

Record UpdateSelfContactNameRequest := mk_UpdateSelfContactNameRequest { UpdateSelfContactNameRequest_name : string }.

Record UpdateSelfContactNameResponse := mk_UpdateSelfContactNameResponse { UpdateSelfContactNameResponse_success : bool }.

Record WaitForReadyRequest := mk_WaitForReadyRequest {}.

Record WaitForReadyResponse := mk_WaitForReadyResponse { WaitForReadyResponse_successfully_started : bool }.

Record UpdateSettingsRequest := mk_UpdateSettingsRequest { UpdateSettingsRequest_settings : list Z }.

Record UpdateSettingsResponse := mk_UpdateSettingsResponse { UpdateSettingsResponse_success : bool }.

Record GetSettingsRequest := mk_GetSettingsRequest {}.

Record GetSettingsResponse := mk_GetSettingsResponse { GetSettingsResponse_settings : list Z }.

Record BackupDataRequest := mk_BackupDataRequest {}.

Record BackupDataResponse := mk_BackupDataResponse { BackupDataResponse_success : bool }.

Record RestoreDataRequest := mk_RestoreDataRequest { RestoreDataRequest_backup_file_path : string }.

Record RestoreDataResponse := mk_RestoreDataResponse { RestoreDataResponse_success : bool }.

Inductive ClientMessage_message :=
| ClientMessage_StoreRemoteFileRequest (m : StoreRemoteFileRequestRequest).

Record ClientMessage := mk_ClientMessage { ClientMessage_oneof : option ClientMessage_message }.

Record ReceivedSelfContactInviteOverNetwork := mk_ReceivedSelfContactInviteOverNetwork {}.

Record SelfContactInviteAcceptedOverNetwork := mk_SelfContactInviteAcceptedOverNetwork {}.

Record ReceivedContactShareOverNetwork := mk_ReceivedContactShareOverNetwork {}.

Record DatabaseRestoredFromBackup := mk_DatabaseRestoredFromBackup {}.

Record PendingFileStatusChanged := mk_PendingFileStatusChanged {
  PendingFileStatusChanged_pending_file_id : string;
  PendingFileStatusChanged_new_status : Z;
  PendingFileStatusChanged_progress_bytes : option Z;
  PendingFileStatusChanged_transfer_id : option string;
  PendingFileStatusChanged_file_size_bytes : option Z;
  PendingFileStatusChanged_target_file_request_id : string;
  PendingFileStatusChanged_interruption_reasons : list string;
}.

Record ReceivedFileStatusChanged := mk_ReceivedFileStatusChanged {
  ReceivedFileStatusChanged_transfer_id : option string;
  ReceivedFileStatusChanged_filerequest_id : string;
  ReceivedFileStatusChanged_new_status : Z;
  ReceivedFileStatusChanged_progress_bytes : Z;
  ReceivedFileStatusChanged_file_size_bytes : Z;
  ReceivedFileStatusChanged_file_name : string;
}.

Inductive ServerMessage_message :=
| ServerMessage_ReceivedSelfContactInviteOverNetwork (m : ReceivedSelfContactInviteOverNetwork)
| ServerMessage_SelfContactInviteAcceptedOverNetwork (m : SelfContactInviteAcceptedOverNetwork)
| ServerMessage_ReceivedContactShareOverNetwork (m : ReceivedContactShareOverNetwork)
| ServerMessage_DatabaseRestoredFromBackup (m : DatabaseRestoredFromBackup)
| ServerMessage_PendingFileStatusChanged (m : PendingFileStatusChanged)
| ServerMessage_ReceivedFileStatusChanged (m : ReceivedFileStatusChanged).

Record ServerMessage := mk_ServerMessage { ServerMessage_oneof : option ServerMessage_message }.

Record GetSelfContactInviteChallengeRequest := mk_GetSelfContactInviteChallengeRequest {}.

Record GetSelfContactInviteChallengeResponse := mk_GetSelfContactInviteChallengeResponse { GetSelfContactInviteChallengeResponse_challenge : list Z }.

Record UnregisterSelfContactInviteChallengeRequest := mk_UnregisterSelfContactInviteChallengeRequest { UnregisterSelfContactInviteChallengeRequest_challenge : list Z }.

Record UnregisterSelfContactInviteChallengeResponse := mk_UnregisterSelfContactInviteChallengeResponse {}.

Record GetContactShareChallengeRequest := mk_GetContactShareChallengeRequest {}.

Record GetContactShareChallengeResponse := mk_GetContactShareChallengeResponse { GetContactShareChallengeResponse_challenge : list Z }.

Record UnregisterContactShareChallengeRequest := mk_UnregisterContactShareChallengeRequest { UnregisterContactShareChallengeRequest_challenge : list Z }.

Record UnregisterContactShareChallengeResponse := mk_UnregisterContactShareChallengeResponse {}.

Record UseContactShareChallengeRequest := mk_UseContactShareChallengeRequest {
  UseContactShareChallengeRequest_challenge : list Z;
  UseContactShareChallengeRequest_peer_id : string;
}.

Record UseContactShareChallengeResponse := mk_UseContactShareChallengeResponse {}.

Record UseSelfContactInviteRequest := mk_UseSelfContactInviteRequest {
  UseSelfContactInviteRequest_challenge : list Z;
  UseSelfContactInviteRequest_peer_id : string;
}.

Record UseSelfContactInviteResponse := mk_UseSelfContactInviteResponse {}.

Record FileRequestRequest := mk_FileRequestRequest { FileRequestRequest_id : string }.

Record FileRequestResponse := mk_FileRequestResponse { FileRequestResponse_file_request : option FileRequestProto }.

Record GetAllFileRequestsRequest := mk_GetAllFileRequestsRequest {}.

Record GetAllFileRequestsResponse := mk_GetAllFileRequestsResponse { GetAllFileRequestsResponse_file_requests : list FileRequestProto }.

Record CreateFileRequestRequest := mk_CreateFileRequestRequest {
  CreateFileRequestRequest_title : string;
  CreateFileRequestRequest_description : string;
  CreateFileRequestRequest_access : option AccessProto;
}.

Record CreateFileRequestResponse := mk_CreateFileRequestResponse { CreateFileRequestResponse_file_request : option FileRequestProto }.

Record UpdateFileRequestRequest := mk_UpdateFileRequestRequest { UpdateFileRequestRequest_file_request : option FileRequestProto }.

Record UpdateFileRequestResponse := mk_UpdateFileRequestResponse { UpdateFileRequestResponse_file_request : option FileRequestProto }.

Record DeleteFileRequestRequest := mk_DeleteFileRequestRequest { DeleteFileRequestRequest_id : string }.

Record DeleteFileRequestResponse := mk_DeleteFileRequestResponse { DeleteFileRequestResponse_success : bool }.

Record GetContactRequest := mk_GetContactRequest { GetContactRequest_id : string }.

Record GetContactResponse := mk_GetContactResponse { GetContactResponse_contact : option ContactProto }.

Record GetAllContactsRequest := mk_GetAllContactsRequest {}.

Record GetAllContactsResponse := mk_GetAllContactsResponse { GetAllContactsResponse_contacts : list ContactProto }.

Record UpdateContactRequest := mk_UpdateContactRequest { UpdateContactRequest_contact : option ContactProto }.

Record UpdateContactResponse := mk_UpdateContactResponse { UpdateContactResponse_success : bool }.

Record DeleteContactRequest := mk_DeleteContactRequest { DeleteContactRequest_id : string }.

Record DeleteContactResponse := mk_DeleteContactResponse { DeleteContactResponse_success : bool }.

Record UpdateRemoteFileRequestResponse := mk_UpdateRemoteFileRequestResponse { UpdateRemoteFileRequestResponse_success : bool }.

Record GetFullSelfContactRequest := mk_GetFullSelfContactRequest {}.

Record GetFullSelfContactResponse := mk_GetFullSelfContactResponse { GetFullSelfContactResponse_contact : option SelfContactProto }.

Record UpdateIdentityRequest := mk_UpdateIdentityRequest { UpdateIdentityRequest_self_contact : option SelfContactProto }.

Record UpdateIdentityResponse := mk_UpdateIdentityResponse { UpdateIdentityResponse_success : bool }.

Record GetSelfContactDisplayRequest := mk_GetSelfContactDisplayRequest {}.

Record GetSelfContactDisplayResponse := mk_GetSelfContactDisplayResponse { GetSelfContactDisplayResponse_self_contact : option ContactProto }.

Record SharePublicSelfContactRequest := mk_SharePublicSelfContactRequest {}.

Record SelfContactPublicProto := mk_SelfContactPublicProto {
  SelfContactPublicProto_name : string;
  SelfContactPublicProto_contact_id : string;
  SelfContactPublicProto_public_keys : option ContactPublicKeysProto;
}.

Record SharePublicSelfContactResponse := mk_SharePublicSelfContactResponse { SharePublicSelfContactResponse_sharable_contact : option SelfContactPublicProto }.

Record RegisterContactRequest := mk_RegisterContactRequest { RegisterContactRequest_sharable_contact : option SelfContactPublicProto }.

Record RegisterContactResponse := mk_RegisterContactResponse { RegisterContactResponse_success : bool }.

Record NodeInfo := mk_NodeInfo {
  NodeInfo_peer_id : string;
  NodeInfo_multiaddrs : list string;
  NodeInfo_version : string;
  NodeInfo_metadata : gmap string string;
  NodeInfo_start_timestamp : Z;
}.

Record NodeStats := mk_NodeStats {
  NodeStats_uptime_seconds : Z;
  NodeStats_connected_peers : Z;
  NodeStats_known_peers : Z;
  NodeStats_bandwidth_in_bytes : Z;
  NodeStats_bandwidth_out_bytes : Z;
  NodeStats_cpu_usage : Z;
  NodeStats_memory_usage_bytes : Z;
}.

Record NodeStatus := mk_NodeStatus {
  NodeStatus_state : Z;
  NodeStatus_error_message : string;
  NodeStatus_info : option NodeInfo;
  NodeStatus_stats : option NodeStats;
  NodeStatus_timestamp : Z;
}.

Record GetNodeStatusRequest := mk_GetNodeStatusRequest {}.

Record GetNodeStatusResponse := mk_GetNodeStatusResponse { GetNodeStatusResponse_status : option NodeStatus }.

Record HealthCheckRequest := mk_HealthCheckRequest {}.

Record HealthCheckResponse := mk_HealthCheckResponse {
  HealthCheckResponse_is_healthy : bool;
  HealthCheckResponse_message : string;
}.

(** The calls of FileRequestService and NodeStatusService, but Stream. *)
Inductive Rpc : Type -> Type :=
| WaitForReady (r : WaitForReadyRequest) : Rpc WaitForReadyResponse
| GetFullSelfContact (r : GetFullSelfContactRequest) : Rpc GetFullSelfContactResponse
| UpdateIdentity (r : UpdateIdentityRequest) : Rpc UpdateIdentityResponse
| SharePublicSelfContact (r : SharePublicSelfContactRequest) : Rpc SharePublicSelfContactResponse
| RegisterContact (r : RegisterContactRequest) : Rpc RegisterContactResponse
| GetContactName (r : GetContactNameRequest) : Rpc GetContactNameResponse
| GetContactNames (r : GetContactNamesRequest) : Rpc GetContactNamesResponse
| GetVersion (r : GetVersionRequest) : Rpc GetVersionResponse
| Shutdown (r : ShutdownRequest) : Rpc ShutdownResponse
| GetFileRequest (r : FileRequestRequest) : Rpc FileRequestResponse
| CreateFileRequest (r : CreateFileRequestRequest) : Rpc CreateFileRequestResponse
| UpdateFileRequest (r : UpdateFileRequestRequest) : Rpc UpdateFileRequestResponse
| DeleteFileRequest (r : DeleteFileRequestRequest) : Rpc DeleteFileRequestResponse
| GetAllFileRequests (r : GetAllFileRequestsRequest) : Rpc GetAllFileRequestsResponse
| GetContact (r : GetContactRequest) : Rpc GetContactResponse
| GetAllContacts (r : GetAllContactsRequest) : Rpc GetAllContactsResponse
| UpdateContact (r : UpdateContactRequest) : Rpc UpdateContactResponse
| DeleteContact (r : DeleteContactRequest) : Rpc DeleteContactResponse
| UpdateSelfContactName (r : UpdateSelfContactNameRequest) : Rpc UpdateSelfContactNameResponse
| GetSelfContactDisplay (r : GetSelfContactDisplayRequest) : Rpc GetSelfContactDisplayResponse
| GetNodePeerId (r : GetNodePeerIdRequest) : Rpc GetNodePeerIdResponse
| StoreRemoteFileRequest (r : StoreRemoteFileRequestRequest) : Rpc StoreRemoteFileRequestResponse
| UpdateRemoteFileRequest (r : UpdateRemoteFileRequestRequest) : Rpc UpdateRemoteFileRequestResponse
| GetRemoteFileRequest (r : GetRemoteFileRequestRequest) : Rpc GetRemoteFileRequestResponse
| ListRemoteFileRequests (r : ListRemoteFileRequestsRequest) : Rpc ListRemoteFileRequestsResponse
| GetAllRemoteFileRequests (r : GetAllRemoteFileRequestsRequest) : Rpc GetAllRemoteFileRequestsResponse
| DeleteRemoteFileRequest (r : DeleteRemoteFileRequestRequest) : Rpc DeleteRemoteFileRequestResponse
| StorePendingFile (r : StorePendingFileRequest) : Rpc StorePendingFileResponse
| GetPendingFile (r : GetPendingFileRequest) : Rpc GetPendingFileResponse
| ListPendingFiles (r : ListPendingFilesRequest) : Rpc ListPendingFilesResponse
| GetAllPendingFiles (r : GetAllPendingFilesRequest) : Rpc GetAllPendingFilesResponse
| DeletePendingFile (r : DeletePendingFileRequest) : Rpc DeletePendingFileResponse
| ListReceivedFiles (r : ListReceivedFilesRequest) : Rpc ListReceivedFilesResponse
| DeleteReceivedFile (r : DeleteReceivedFileRequest) : Rpc DeleteReceivedFileResponse
| GetSelfContactInviteChallenge (r : GetSelfContactInviteChallengeRequest) : Rpc GetSelfContactInviteChallengeResponse
| UnregisterSelfContactInviteChallenge (r : UnregisterSelfContactInviteChallengeRequest) : Rpc UnregisterSelfContactInviteChallengeResponse
| UseSelfContactInvite (r : UseSelfContactInviteRequest) : Rpc UseSelfContactInviteResponse
| GetContactShareChallenge (r : GetContactShareChallengeRequest) : Rpc GetContactShareChallengeResponse
| UnregisterContactShareChallenge (r : UnregisterContactShareChallengeRequest) : Rpc UnregisterContactShareChallengeResponse
| UseContactShareChallenge (r : UseContactShareChallengeRequest) : Rpc UseContactShareChallengeResponse
| BackupData (r : BackupDataRequest) : Rpc BackupDataResponse
| RestoreData (r : RestoreDataRequest) : Rpc RestoreDataResponse
| UpdateSettings (r : UpdateSettingsRequest) : Rpc UpdateSettingsResponse
| GetSettings (r : GetSettingsRequest) : Rpc GetSettingsResponse
| GetNodeStatus (r : GetNodeStatusRequest) : Rpc GetNodeStatusResponse
| HealthCheck (r : HealthCheckRequest) : Rpc HealthCheckResponse.

End Api.
