(* ===== verification/Conversions.v ===== *)
(** * Domain data and messages of the API

    core/src/core/domain_proto_conversion.rs: one definition per conversion, in the
    direction the program uses. A conversion that can fail returns a result; the one
    with an [unwrap] returns an outcome. *)

From S2P Require Import Prelude Domain NonceWindow Dencryptor KeyExchange BrainTypes NodeKeys Wire.
#[local] Open Scope string_scope.
#[local] Open Scope Z_scope.

(** ** Errors *)

Inductive PublicKeyDeserializationError :=
| PublicDilithium
| PublicEd25519 (e : PublicEd25519DeserializationError).

Inductive PublicKeySerializationError := PublicDilithiumEncoding.

Inductive PrivateKeyDeserializationError :=
| PrivateDilithium
| PrivateEd25519 (e : PrivateEd25519DeserializationError).

Inductive PrivateKeySerializationError := PrivateDilithiumEncoding.

(** The first constructor is Proto3FuckMissingKey in the source. *)
Inductive SelfContactDeserializationError :=
| Proto3MissingKey (key : string)
| PrivateKeyDeserialization (e : PrivateKeyDeserializationError)
| PublicKeyDeserialization (e : PublicKeyDeserializationError).

Inductive SelfContactSerializationError :=
| PrivateKeySerialization (e : PrivateKeySerializationError)
| PublicKeySerialization (e : PublicKeySerializationError).

(** [tonic::Status]: the codes that are used, and the message: a literal, or the text
    of an error. *)
Inductive StatusCode := Internal | InvalidArgument | ResourceExhausted | Unauthenticated.

Inductive StatusMessage (E : Type) :=
| Literal (s : string)
| TextOfError (e : FilerequestError E)
| TextOfContactError (e : SelfContactDeserializationError).
Arguments Literal {E}.
Arguments TextOfError {E}.
Arguments TextOfContactError {E}.

Record Status (E : Type) := mk_status { status_code : StatusCode; status_message : StatusMessage E }.
Arguments mk_status {E}.
Arguments status_code {E}.
Arguments status_message {E}.

Definition status_internal {E} (s : string) : Status E := mk_status Internal (Literal s).
Definition status_invalid_argument {E} (s : string) : Status E := mk_status InvalidArgument (Literal s).
Definition status_unauthenticated {E} (s : string) : Status E := mk_status Unauthenticated (Literal s).

(** ** Filerequests *)

Definition access_to_proto (access : FilerequestAccess) : Api.AccessProto :=
  Api.mk_AccessProto (Some (match access with
    | Public => Api.AccessProto_Public Api.mk_PublicProto
    | Audience contact_ids => Api.AccessProto_Audience (Api.mk_SpecificUsersProto contact_ids)
    end)).

Definition filerequest_to_proto (fr : Filerequest) : Api.FileRequestProto :=
  Api.mk_FileRequestProto (fr_id fr) (fr_title fr) (fr_description fr) (Some (access_to_proto (fr_access fr)))
    (fr_is_active fr).

Definition access_of_proto {E} (proto : Api.AccessProto) : result FilerequestAccess (Status E) :=
  match Api.AccessProto_oneof proto with
  | Some (Api.AccessProto_Public _) => Ok Public
  | Some (Api.AccessProto_Audience users) => Ok (Audience (Api.SpecificUsersProto_contact_ids users))
  | None => Err (status_invalid_argument "Missing access type")
  end.

Definition access_of_optional_proto {E} (proto : option Api.AccessProto) : result FilerequestAccess (Status E) :=
  match proto with
  | Some proto => access_of_proto proto
  | None => Err (status_invalid_argument "Missing access type")
  end.

Definition filerequest_of_proto {E} (proto : Api.FileRequestProto) : result Filerequest (Status E) :=
  let! access := access_of_optional_proto (Api.FileRequestProto_access proto) in
  Ok (mk_filerequest (Api.FileRequestProto_id proto) (Api.FileRequestProto_title proto)
    (Api.FileRequestProto_description proto) access (Api.FileRequestProto_is_active proto)).

Definition remote_filerequest_to_proto (r : RemoteFilerequest) : Api.RemoteFileRequestProto :=
  Api.mk_RemoteFileRequestProto (rfr_id r) (rfr_peer_id r) (rfr_filerequest_id r) (rfr_name r) (rfr_contact_id r).

Definition remote_filerequest_of_proto (proto : Api.RemoteFileRequestProto) : RemoteFilerequest :=
  mk_remote_filerequest (Api.RemoteFileRequestProto_id proto) (Api.RemoteFileRequestProto_peer_id proto)
    (Api.RemoteFileRequestProto_file_request_id proto) (Api.RemoteFileRequestProto_contact_id proto)
    (Api.RemoteFileRequestProto_name proto).

Definition create_remote_to_proto (r : CreateRemoteFilerequest) : Api.CreateRemoteFileRequestProto :=
  Api.mk_CreateRemoteFileRequestProto (crf_peer_id r) (crf_filerequest_id r) (crf_name r) (crf_contact_id r).

Definition create_remote_of_proto (proto : Api.CreateRemoteFileRequestProto) : CreateRemoteFilerequest :=
  mk_create_remote (Api.CreateRemoteFileRequestProto_peer_id proto) (Api.CreateRemoteFileRequestProto_file_request_id proto)
    (Api.CreateRemoteFileRequestProto_name proto) (Api.CreateRemoteFileRequestProto_contact_id proto).

(** ** Files *)

Definition send_status_to_proto (stat : SendStatus) : Api.SendStatusProto :=
  match stat with
  | SPending => Api.SendStatusProto_PENDING
  | SInProgress in_progress =>
      match ip_status in_progress with
      | Prepared => Api.SendStatusProto_PREPARED
      | Sending => Api.SendStatusProto_SENDING
      | Interrupted => Api.SendStatusProto_INTERRUPTED
      | PendingSent => Api.SendStatusProto_PENDING_SENT
      end
  | SSent => Api.SendStatusProto_SUCCESS
  | SRejected => Api.SendStatusProto_REJECTED
  | SFailed => Api.SendStatusProto_FAILED
  | SUnknown _ => Api.SendStatusProto_PENDING
  end.

Definition pending_file_to_proto (p : PendingFile) : Api.PendingFileProto :=
  let transfer_data := status_transfer_data (pf_status p) in
  Api.mk_PendingFileProto (pf_id p) (pf_file_path p) (pf_target_filerequest_id p)
    (Api.SendStatusProto_number (send_status_to_proto (pf_status p)))
    ((fun it => Api.mk_TransferDataProto (progress_bytes it) (transfer_id it) (file_size_bytes it)) <$> transfer_data)
    (pf_display_name p) (pf_interruption_reasons p).

Definition create_pending_of_proto (p : Api.StorePendingFileRequest) : outcome CreatePendingFiles :=
  let? pending_files := unwrap_panic (Api.StorePendingFileRequest_pending_files p) in
  Ret (mk_create_pending
    ((fun it => mk_file_info (Api.FileInfoProto_path it) (Api.FileInfoProto_display_name it)) <$>
       Api.CreatePendingFilesProto_file_infos pending_files)
    (Api.CreatePendingFilesProto_target_file_request_id pending_files)).

Definition received_file_to_proto (r : ReceivedFile) : Api.ReceivedFileProto :=
  Api.mk_ReceivedFileProto (rf_id r) (rf_contact_id r) (rf_filerequest_id r) (rf_file_name r)
    (default "" (rf_file_path r)) (as_i64 (rf_file_size_bytes r)) (default 0 (rf_received_at_ms r)).

Definition receive_status_to_proto (status : ReceiveStatus) : Api.ReceiveStatusProto :=
  match status with
  | RReceiving => Api.ReceiveStatusProto_RECEIVE_STATUS_RECEIVING
  | RInterrupted => Api.ReceiveStatusProto_RECEIVE_STATUS_INTERRUPTED
  | RCompleted => Api.ReceiveStatusProto_RECEIVE_STATUS_COMPLETED
  | RFailed => Api.ReceiveStatusProto_RECEIVE_STATUS_FAILED
  | RUnknown _ => Api.ReceiveStatusProto_RECEIVE_STATUS_FAILED
  end.

(** ** Messages to the frontend

    The functions of [impl ServerMessage], by the constructor of BrainTypes.v that
    stands for the call. *)
Definition server_message (m : ServerMessage) : Api.ServerMessage :=
  Api.mk_ServerMessage (Some (match m with
    | received_self_contact_invite_over_network =>
        Api.ServerMessage_ReceivedSelfContactInviteOverNetwork Api.mk_ReceivedSelfContactInviteOverNetwork
    | self_contact_invite_accepted_over_network =>
        Api.ServerMessage_SelfContactInviteAcceptedOverNetwork Api.mk_SelfContactInviteAcceptedOverNetwork
    | contact_share_accepted_over_network =>
        Api.ServerMessage_ReceivedContactShareOverNetwork Api.mk_ReceivedContactShareOverNetwork
    | database_restored => Api.ServerMessage_DatabaseRestoredFromBackup Api.mk_DatabaseRestoredFromBackup
    | pending_file_status_changed pending_file_id status target_filerequest_id =>
        let transfer_data := status_transfer_data status in
        Api.ServerMessage_PendingFileStatusChanged (Api.mk_PendingFileStatusChanged pending_file_id
          (Api.SendStatusProto_number (send_status_to_proto status))
          (progress_bytes <$> transfer_data) (transfer_id <$> transfer_data) (file_size_bytes <$> transfer_data)
          target_filerequest_id [])
    | received_file_status_changed rf =>
        Api.ServerMessage_ReceivedFileStatusChanged (Api.mk_ReceivedFileStatusChanged (rf_transfer_id rf)
          (rf_filerequest_id rf) (Api.ReceiveStatusProto_number (receive_status_to_proto (rf_status rf)))
          (rf_progress_bytes rf) (rf_file_size_bytes rf) (rf_file_name rf))
    end)).

(** ** Contacts *)

Definition display_contact_of_proto (proto : Api.ContactProto) : DisplayContact :=
  mk_display_contact (Api.ContactProto_id proto) (Api.ContactProto_name proto).

Definition display_contact_to_proto (contact : DisplayContact) : Api.ContactProto :=
  Api.mk_ContactProto (dc_id contact) (dc_name contact).

Section Contacts.
Context {W : Type} `{!Primitives W} `{!KeyBytes W} `{!Bincode DilithiumPublic} `{!Bincode DilithiumSecret}.

Definition contact_to_proto (contact : Contact) : Api.ContactProto :=
  Api.mk_ContactProto (c_id contact) (c_name contact).

Definition public_keys_of_proto (proto : Api.ContactPublicKeysProto)
  : result ContactPublicKeys PublicKeyDeserializationError :=
  let! dilithium := ok_or (deserialize_dilithium_public_key (Api.ContactPublicKeysProto_dilithium proto)) PublicDilithium in
  let! ed25519 := result_map_err PublicEd25519 (deserialize_ed25519_public_key (Api.ContactPublicKeysProto_ed25519 proto)) in
  Ok (mk_contact_public dilithium ed25519).

Definition private_keys_of_proto (value : Api.ContactPrivateKeysProto)
  : result ContactPrivateKeys PrivateKeyDeserializationError :=
  let! dilithium := ok_or (deserialize_dilithium_private_key (Api.ContactPrivateKeysProto_dilithium value)) PrivateDilithium in
  let! ed25519 := result_map_err PrivateEd25519 (deserialize_ed25519_private_key (Api.ContactPrivateKeysProto_ed25519 value)) in
  Ok (mk_contact_private dilithium ed25519).

Definition contact_keys_of_proto (value : Api.ContactKeysProto) : result ContactKeys SelfContactDeserializationError :=
  let! private := ok_or (Api.ContactKeysProto_private_keys value) (Proto3MissingKey "private_keys") in
  let! private := result_map_err PrivateKeyDeserialization (private_keys_of_proto private) in
  let! public := ok_or (Api.ContactKeysProto_public_keys value) (Proto3MissingKey "public_keys") in
  let! public := result_map_err PublicKeyDeserialization (public_keys_of_proto public) in
  Ok (mk_contact_keys private public).

Definition self_contact_of_proto (value : Api.SelfContactProto) : result SelfContact SelfContactDeserializationError :=
  let! keys := ok_or (Api.SelfContactProto_keys value) (Proto3MissingKey "keys") in
  let! keys := contact_keys_of_proto keys in
  Ok (mk_self_contact (Api.SelfContactProto_id value) (Api.SelfContactProto_name value) keys).

Definition contact_of_proto (proto : Api.SelfContactPublicProto) : result Contact SelfContactDeserializationError :=
  let! public_keys := ok_or (Api.SelfContactPublicProto_public_keys proto) (Proto3MissingKey "public_keys") in
  let! public_keys := result_map_err PublicKeyDeserialization (public_keys_of_proto public_keys) in
  Ok (mk_contact (Api.SelfContactPublicProto_contact_id proto) (Api.SelfContactPublicProto_name proto) public_keys).

Definition public_keys_to_proto (value : ContactPublicKeys)
  : result Api.ContactPublicKeysProto PublicKeySerializationError :=
  let! dilithium := ok_or (serialize_dilithium_public_key (pub_dilithium value)) PublicDilithiumEncoding in
  Ok (Api.mk_ContactPublicKeysProto dilithium (serialize_ed25519_public_key (pub_ed25519 value))).

Definition private_keys_to_proto (value : ContactPrivateKeys)
  : result Api.ContactPrivateKeysProto PrivateKeySerializationError :=
  let! dilithium := ok_or (serialize_dilithium_private_key (priv_dilithium value)) PrivateDilithiumEncoding in
  Ok (Api.mk_ContactPrivateKeysProto dilithium (serialize_ed25519_private_key (priv_ed25519 value))).

Definition contact_keys_to_proto (value : ContactKeys) : result Api.ContactKeysProto SelfContactSerializationError :=
  let! private := result_map_err PrivateKeySerialization (private_keys_to_proto (keys_private value)) in
  let! public := result_map_err PublicKeySerialization (public_keys_to_proto (KeyExchange.keys_public value)) in
  Ok (Api.mk_ContactKeysProto (Some public) (Some private)).

Definition self_contact_to_proto (value : SelfContact) : result Api.SelfContactProto SelfContactSerializationError :=
  let! keys := contact_keys_to_proto (sc_keys value) in
  Ok (Api.mk_SelfContactProto (sc_id value) (sc_name value) (Some keys)).

Definition contact_to_public_proto (contact : Contact)
  : result Api.SelfContactPublicProto PublicKeySerializationError :=
  let! public_keys := public_keys_to_proto (c_public_keys contact) in
  Ok (Api.mk_SelfContactPublicProto (c_name contact) (c_id contact) (Some public_keys)).
End Contacts.

(** ** Round trips *)

Lemma access_roundtrip {E} access : access_of_optional_proto (E := E) (Some (access_to_proto access)) = Ok access.
Proof. by destruct access. Qed.

Lemma filerequest_roundtrip {E} fr : filerequest_of_proto (E := E) (filerequest_to_proto fr) = Ok fr.
Proof. by destruct fr as [? ? ? [] ?]. Qed.

(** The type of the errors does not matter. *)
Lemma filerequest_of_proto_any {E E'} p fr :
  filerequest_of_proto (E := E) p = Ok fr -> filerequest_of_proto (E := E') p = Ok fr.
Proof. destruct p as [? ? ? [[[[]|]]|] ?]; cbn; try done; by intros [= <-]. Qed.

Section KeyRoundtrips.
Context {W : Type} `{!Primitives W} `{!KeyBytes W} `{!Bincode DilithiumPublic} `{!Bincode DilithiumSecret}.
Context `{!KeyBytesLaws W} `{!BincodeLaws DilithiumPublic} `{!BincodeLaws DilithiumSecret}.

Lemma public_keys_roundtrip k p : public_keys_to_proto k = Ok p -> public_keys_of_proto p = Ok k.
Proof.
  unfold public_keys_to_proto, public_keys_of_proto. destruct (serialize_dilithium_public_key _) as [b|] eqn:Eb; [|done].
  intros [= <-]. cbn. apply decode_encode in Eb as [n Eb]. unfold deserialize_dilithium_public_key, deserialize_ed25519_public_key.
  unfold serialize_ed25519_public_key, PUBLIC_KEY_LENGTH. rewrite Eb, ed25519_public_length, ed25519_public_bytes_roundtrip. by destruct k.
Qed.

Lemma private_keys_roundtrip k p : private_keys_to_proto k = Ok p -> private_keys_of_proto p = Ok k.
Proof.
  unfold private_keys_to_proto, private_keys_of_proto. destruct (serialize_dilithium_private_key _) as [b|] eqn:Eb; [|done].
  intros [= <-]. cbn. apply decode_encode in Eb as [n Eb]. unfold deserialize_dilithium_private_key, deserialize_ed25519_private_key.
  unfold serialize_ed25519_private_key. rewrite Eb, ed25519_private_length, ed25519_private_bytes_roundtrip. by destruct k.
Qed.

Lemma self_contact_roundtrip c p : self_contact_to_proto c = Ok p -> self_contact_of_proto p = Ok c.
Proof.
  destruct c as [id name [private public]]. unfold self_contact_to_proto, contact_keys_to_proto. cbn [sc_keys keys_private KeyExchange.keys_public].
  intros (keys & (pr & Hpr & (pu & Hpu & [= <-])%res_bind_Ok)%res_bind_Ok & [= <-])%res_bind_Ok.
  destruct (private_keys_to_proto private) as [pr'|] eqn:Er; [|done]. destruct (public_keys_to_proto public) as [pu'|] eqn:Eu; [|done].
  injection Hpr as <-. injection Hpu as <-. unfold self_contact_of_proto, contact_keys_of_proto. cbn.
  by rewrite (private_keys_roundtrip _ _ Er), (public_keys_roundtrip _ _ Eu).
Qed.

Lemma contact_roundtrip c p : contact_to_public_proto c = Ok p -> contact_of_proto p = Ok c.
Proof.
  destruct c as [id name public]. unfold contact_to_public_proto. intros (pu & Hpu & [= <-])%res_bind_Ok.
  unfold contact_of_proto. cbn. by rewrite (public_keys_roundtrip _ _ Hpu).
Qed.

(** C21 (roundtrip). What one node exports another imports unchanged: an identity with
    all its keys, as GetFullSelfContact gives it and UpdateIdentity takes it; a
    contact with its public keys, as SharePublicSelfContact gives it and
    RegisterContact takes it; filerequests, remote filerequests and display contacts
    in both directions. Distinct statuses of a file are distinct for the frontend,
    but an unknown one looks like one that is pending. *)
Theorem conversions_roundtrip :
  (forall c p, self_contact_to_proto c = Ok p -> self_contact_of_proto p = Ok c) /\
  (forall c p, contact_to_public_proto c = Ok p -> contact_of_proto p = Ok c) /\
  (forall fr, filerequest_of_proto (E := unit) (filerequest_to_proto fr) = Ok fr) /\
  (forall r, remote_filerequest_of_proto (remote_filerequest_to_proto r) = r) /\
  (forall p, remote_filerequest_to_proto (remote_filerequest_of_proto p) = p) /\
  (forall p, create_remote_to_proto (create_remote_of_proto p) = p) /\
  (forall p, display_contact_to_proto (display_contact_of_proto p) = p) /\
  (forall a b, Api.SendStatusProto_number (send_status_to_proto a) = Api.SendStatusProto_number (send_status_to_proto b) ->
     send_status_display a = send_status_display b \/
     (exists u, (a = SUnknown u /\ b = SPending) \/ (a = SPending /\ b = SUnknown u)) \/
     (exists u v, a = SUnknown u /\ b = SUnknown v)).
Proof.
  split_and!.
  - apply self_contact_roundtrip.
  - apply contact_roundtrip.
  - apply filerequest_roundtrip.
  - by intros [].
  - by intros [].
  - by intros [].
  - by intros [].
  - intros [|[[]]| | | |u] [|[[]]| | | |v]; cbn; try done; eauto 6.
Qed.
End KeyRoundtrips.
