(* ===== verification/ApiServer.v ===== *)
(** * The gRPC server

    core/src/core/api_server.rs: one definition per call of the services
    FileRequestService and NodeStatusService. A call makes a oneshot channel, sends an
    action with it to the brain, waits for the answer and turns it into a response or
    a status. The channel to the brain is the class [BrainChannel]; ApiBrain.v joins
    it with the brain. *)

From S2P Require Import Prelude Domain NonceWindow Dencryptor KeyExchange HostPath HostController BrainTypes NodeKeys Brain.
From S2P Require Import Wire Conversions.
#[local] Open Scope string_scope.
#[local] Open Scope Z_scope.

(** Channels have numbers. [action_send] fails when the brain is gone, and does not
    return when the task of the action panics: the release profile aborts on a panic
    (Cargo.toml), which ends the process and the call with it. [oneshot_recv]
    returns [None] when the sender was dropped, and does not return while the sender
    waits somewhere; the projection is the type of the channel. *)
Class BrainChannel (S C F E : Type) `{!BrainKeys} := {
  oneshot_channel : S -> nat * S;
  action_send : BrainAction -> S -> outcome (bool * S);
  oneshot_recv : forall {A}, (Response C F E -> option A) -> nat -> S -> outcome (option A * S);
  now_millis : S -> option Z * S;
}.

(** ** The types of the channels *)

Section Projections.
Context {C F E : Type} `{!BrainKeys}.
Abbreviation Resp := (Response C F E).
Abbreviation FR A := (result A (FilerequestError E)).

Definition as_bool (v : Resp) : option bool := match v with RBool b => Some b | _ => None end.
Definition as_fyles_id (v : Resp) : option (FR FylesId) := match v with RFylesId r => Some r | _ => None end.
Definition as_filerequest (v : Resp) : option (FR Filerequest) := match v with RFilerequest r => Some r | _ => None end.
Definition as_unit_result (v : Resp) : option (FR unit) := match v with RUnitResult r => Some r | _ => None end.
Definition as_filerequests (v : Resp) : option (FR (list Filerequest)) := match v with RFilerequests r => Some r | _ => None end.
Definition as_string (v : Resp) : option (FR string) := match v with RString r => Some r | _ => None end.
Definition as_names (v : Resp) : option (FR (gmap ContactId string)) := match v with RNames r => Some r | _ => None end.
Definition as_contact (v : Resp) : option (FR Contact) := match v with RContact r => Some r | _ => None end.
Definition as_self_contact (v : Resp) : option (FR SelfContact) := match v with RSelfContact r => Some r | _ => None end.
Definition as_display_contacts (v : Resp) : option (FR (list DisplayContact)) := match v with RDisplayContacts r => Some r | _ => None end.
Definition as_display_contact (v : Resp) : option (FR DisplayContact) := match v with RDisplayContact r => Some r | _ => None end.
Definition as_bool_result (v : Resp) : option (FR bool) := match v with RBoolResult r => Some r | _ => None end.
Definition as_node_status (v : Resp) : option (FR NodeStatusInfo) := match v with RNodeStatus r => Some r | _ => None end.
Definition as_remote_filerequest (v : Resp) : option (FR RemoteFilerequest) := match v with RRemoteFilerequest r => Some r | _ => None end.
Definition as_remote_filerequests (v : Resp) : option (FR (list RemoteFilerequest)) := match v with RRemoteFilerequests r => Some r | _ => None end.
Definition as_fyles_ids (v : Resp) : option (FR (list FylesId)) := match v with RFylesIds r => Some r | _ => None end.
Definition as_pending_file (v : Resp) : option (FR PendingFile) := match v with RPendingFile r => Some r | _ => None end.
Definition as_pending_files (v : Resp) : option (FR (list PendingFile)) := match v with RPendingFiles r => Some r | _ => None end.
Definition as_received_files (v : Resp) : option (FR (list ReceivedFile)) := match v with RReceivedFiles r => Some r | _ => None end.
Definition as_challenge (v : Resp) : option Challenge := match v with RChallenge c => Some c | _ => None end.
Definition as_unit (v : Resp) : option unit := match v with RUnit => Some tt | _ => None end.
Definition as_bytes (v : Resp) : option (FR (list Z)) := match v with RBytes r => Some r | _ => None end.
End Projections.

Section Calls.
Context {S K C F E : Type} `{!Primitives K} `{!KeyBytes K} `{!Bincode DilithiumPublic} `{!Bincode DilithiumSecret}.
Context `{!BrainChannel S C F E}.
(** CARGO_PKG_VERSION *)
Context (cargo_pkg_version : string).

Abbreviation rpc := (io S (Status E)).
Abbreviation Resp := (Response C F E).

(** ** A question to the brain *)

(** [BrainRequest::with_receiver] *)
Definition with_receiver {T} (request : T) : rpc (BrainRequest T * nat) := fun s =>
  let (n, s) := oneshot_channel s in Ret (Ok (mk_brain_request request (Some n), n), s).

(** [action_sender.send(BrainAction::Client(..)).await]: whether it was sent *)
Definition send_client (a : Client.ClientAction) : rpc bool := fun s =>
  let? (sent, s) := action_send (ClientActionOf a) s in Ret (Ok sent, s).

(** [response_receiver.await] *)
Definition receive {A} (proj : Resp -> option A) (n : nat) : rpc (option A) := fun s =>
  let? (r, s) := oneshot_recv proj n s in Ret (Ok r, s).

(** The question as most calls put it, with their two messages. *)
Definition ask_brain_or {T A} (not_sent not_received : Status E) (proj : Resp -> option A)
    (action : BrainRequest T -> Client.ClientAction) (request : T) : rpc A :=
  try! (request, response_receiver) := with_receiver request in
  try! sent := send_client (action request) in
  if negb sent then io_throw not_sent else
  try! result := receive proj response_receiver in
  io_result (ok_or result not_received).

Definition ask_brain {T A} : (Resp -> option A) -> (BrainRequest T -> Client.ClientAction) -> T -> rpc A :=
  ask_brain_or (status_internal "Failed to send action") (status_internal "Failed to receive response").

(** [Err(e) => Err(Status::internal(e.to_string()))] *)
Definition respond_with {A R} (result : result A (FilerequestError E)) (f : A -> R) : rpc R :=
  match result with
  | Ok a => io_ret (f a)
  | Err e => io_throw (mk_status Internal (TextOfError e))
  end.

(** ** Filerequests *)

Definition get_file_request (request : Api.FileRequestRequest) : rpc Api.FileRequestResponse :=
  try! result := ask_brain as_filerequest Client.ReadFilerequest (Api.FileRequestRequest_id request) in
  respond_with result (fun filerequest => Api.mk_FileRequestResponse (Some (filerequest_to_proto filerequest))).

Definition create_file_request (inner : Api.CreateFileRequestRequest) : rpc Api.CreateFileRequestResponse :=
  try! access := io_result (access_of_optional_proto (Api.CreateFileRequestRequest_access inner)) in
  try! result := ask_brain as_fyles_id Client.CreateFilerequest
    (mk_create_filerequest (Api.CreateFileRequestRequest_title inner) (Api.CreateFileRequestRequest_description inner)
       access true) in
  respond_with result (fun id => Api.mk_CreateFileRequestResponse (Some
    (Api.mk_FileRequestProto id (Api.CreateFileRequestRequest_title inner) (Api.CreateFileRequestRequest_description inner)
       (Api.CreateFileRequestRequest_access inner) true))).

Definition update_file_request (inner : Api.UpdateFileRequestRequest) : rpc Api.UpdateFileRequestResponse :=
  try! file_request := io_result (ok_or (Api.UpdateFileRequestRequest_file_request inner)
    (status_invalid_argument "Missing file_request")) in
  try! filerequest := io_result (filerequest_of_proto file_request) in
  try! result := ask_brain as_unit_result Client.UpdateFilerequest filerequest in
  respond_with result (fun _ => Api.mk_UpdateFileRequestResponse (Some file_request)).

Definition delete_file_request (request : Api.DeleteFileRequestRequest) : rpc Api.DeleteFileRequestResponse :=
  try! result := ask_brain as_unit_result Client.DeleteFilerequest (Api.DeleteFileRequestRequest_id request) in
  respond_with result (fun _ => Api.mk_DeleteFileRequestResponse true).

Definition get_all_file_requests (_ : Api.GetAllFileRequestsRequest) : rpc Api.GetAllFileRequestsResponse :=
  try! result := ask_brain as_filerequests Client.ListFilerequests tt in
  respond_with result (fun filerequests => Api.mk_GetAllFileRequestsResponse (filerequest_to_proto <$> filerequests)).

(** ** The server *)

Definition get_version (_ : Api.GetVersionRequest) : rpc Api.GetVersionResponse :=
  io_ret (Api.mk_GetVersionResponse cargo_pkg_version).

Definition shutdown (_ : Api.ShutdownRequest) : rpc Api.ShutdownResponse :=
  try! result := ask_brain_or (status_internal "Failed to send shutdown action")
    (status_internal "Failed to receive response") as_bool_result Client.Shutdown tt in
  respond_with result (fun _ => Api.mk_ShutdownResponse true).

Definition wait_for_ready (_ : Api.WaitForReadyRequest) : rpc Api.WaitForReadyResponse :=
  try! successfully_started := ask_brain_or (status_internal "Failed to send action")
    (mk_status ResourceExhausted (Literal "Too many requests")) as_bool Client.WaitForReady tt in
  io_ret (Api.mk_WaitForReadyResponse successfully_started).

(** ** Contacts *)

Definition get_contact_name (request : Api.GetContactNameRequest) : rpc Api.GetContactNameResponse :=
  try! result := ask_brain as_string Client.GetContactName (Api.GetContactNameRequest_id request) in
  respond_with result Api.mk_GetContactNameResponse.

Definition get_contact_names (request : Api.GetContactNamesRequest) : rpc Api.GetContactNamesResponse :=
  try! result := ask_brain as_names Client.GetContactNames (Api.GetContactNamesRequest_ids request) in
  respond_with result Api.mk_GetContactNamesResponse.

Definition get_contact (request : Api.GetContactRequest) : rpc Api.GetContactResponse :=
  try! result := ask_brain as_contact Client.GetContact (Api.GetContactRequest_id request) in
  respond_with result (fun contact => Api.mk_GetContactResponse (Some (contact_to_proto contact))).

Definition get_all_contacts (_ : Api.GetAllContactsRequest) : rpc Api.GetAllContactsResponse :=
  try! result := ask_brain as_display_contacts Client.ListContacts tt in
  respond_with result (fun contacts => Api.mk_GetAllContactsResponse (display_contact_to_proto <$> contacts)).

Definition update_contact (inner : Api.UpdateContactRequest) : rpc Api.UpdateContactResponse :=
  try! contact := io_result (ok_or (Api.UpdateContactRequest_contact inner) (status_invalid_argument "Missing contact")) in
  try! result := ask_brain as_unit_result Client.UpdateContact (display_contact_of_proto contact) in
  respond_with result (fun _ => Api.mk_UpdateContactResponse true).

Definition delete_contact (request : Api.DeleteContactRequest) : rpc Api.DeleteContactResponse :=
  try! result := ask_brain as_unit_result Client.DeleteContact (Api.DeleteContactRequest_id request) in
  respond_with result (fun _ => Api.mk_DeleteContactResponse true).

Definition update_self_contact_name (request : Api.UpdateSelfContactNameRequest) : rpc Api.UpdateSelfContactNameResponse :=
  try! result := ask_brain as_unit_result Client.UpdateSelfContactName (Api.UpdateSelfContactNameRequest_name request) in
  respond_with result (fun _ => Api.mk_UpdateSelfContactNameResponse true).

(** [expect] on the channel and on the answer *)
Definition get_full_self_contact (_ : Api.GetFullSelfContactRequest) : rpc Api.GetFullSelfContactResponse :=
  try! (request, response_receiver) := with_receiver tt in
  try! sent := send_client (Client.GetFullSelfContact request) in
  try! _ := io_expect (if sent : bool then Some tt else None) in
  try! response := receive as_self_contact response_receiver in
  try! response := io_expect response in
  try! proto := match response with
    | Ok r => io_map_err (fun _ => status_internal "Unable to serialize SelfContact") (io_result (self_contact_to_proto r))
    | Err _ => io_throw (status_internal "Unable to get SelfContact")
    end in
  io_ret (Api.mk_GetFullSelfContactResponse (Some proto)).

Definition contact_error_status (e : SelfContactDeserializationError) : Status E :=
  mk_status InvalidArgument (TextOfContactError e).

Definition update_identity (new_self_contact : Api.UpdateIdentityRequest) : rpc Api.UpdateIdentityResponse :=
  try! proto := io_result (ok_or (Api.UpdateIdentityRequest_self_contact new_self_contact)
    (status_invalid_argument "Missing contact in UpdateIdentityRequest")) in
  try! new_self_contact := io_result (result_map_err contact_error_status (self_contact_of_proto proto)) in
  try! result := ask_brain as_unit_result Client.UpdateIdentity new_self_contact in
  respond_with result (fun _ => Api.mk_UpdateIdentityResponse true).

Definition get_self_contact_display (_ : Api.GetSelfContactDisplayRequest) : rpc Api.GetSelfContactDisplayResponse :=
  try! result := ask_brain as_display_contact Client.GetSelfContactDisplay tt in
  respond_with result (fun self_contact =>
    Api.mk_GetSelfContactDisplayResponse (Some (display_contact_to_proto self_contact))).

Definition share_public_self_contact (_ : Api.SharePublicSelfContactRequest) : rpc Api.SharePublicSelfContactResponse :=
  try! result := ask_brain as_contact Client.SharePublicSelfContact tt in
  match result with
  | Ok response =>
      try! sharable_contact := io_result (result_map_err (fun _ => status_internal "Failed to serialize SelfContact")
        (contact_to_public_proto response)) in
      io_ret (Api.mk_SharePublicSelfContactResponse (Some sharable_contact))
  | Err e => io_throw (mk_status Internal (TextOfError e))
  end.

Definition register_contact (inner : Api.RegisterContactRequest) : rpc Api.RegisterContactResponse :=
  try! proto := io_result (ok_or (Api.RegisterContactRequest_sharable_contact inner)
    (status_invalid_argument "Missing sharable_contact")) in
  try! contact := io_result (result_map_err contact_error_status (contact_of_proto proto)) in
  try! result := ask_brain as_unit_result Client.RegisterContact contact in
  respond_with result (fun _ => Api.mk_RegisterContactResponse true).

(** ** Remote filerequests *)

Definition store_remote_file_request (inner : Api.StoreRemoteFileRequestRequest) : rpc Api.StoreRemoteFileRequestResponse :=
  match Api.StoreRemoteFileRequestRequest_remote_file_request inner with
  | None => io_throw (status_invalid_argument "Missing remote file request")
  | Some proto =>
      try! result := ask_brain as_fyles_id Client.CreateRemoteFilerequest (create_remote_of_proto proto) in
      respond_with result Api.mk_StoreRemoteFileRequestResponse
  end.

Definition get_remote_file_request (request : Api.GetRemoteFileRequestRequest) : rpc Api.GetRemoteFileRequestResponse :=
  try! result := ask_brain as_remote_filerequest Client.GetRemoteFilerequest (Api.GetRemoteFileRequestRequest_id request) in
  respond_with result (fun remote_fr => Api.mk_GetRemoteFileRequestResponse (Some (remote_filerequest_to_proto remote_fr))).

Definition list_remote_file_requests (request : Api.ListRemoteFileRequestsRequest) : rpc Api.ListRemoteFileRequestsResponse :=
  try! result := ask_brain as_remote_filerequests Client.GetRemoteFilerequestsByContact
    (Api.ListRemoteFileRequestsRequest_contact_id request) in
  respond_with result (fun remote_frs => Api.mk_ListRemoteFileRequestsResponse (remote_filerequest_to_proto <$> remote_frs)).

Definition get_all_remote_file_requests (_ : Api.GetAllRemoteFileRequestsRequest) : rpc Api.GetAllRemoteFileRequestsResponse :=
  try! result := ask_brain as_remote_filerequests Client.GetAllRemoteFilerequests tt in
  respond_with result (fun remote_frs => Api.mk_GetAllRemoteFileRequestsResponse (remote_filerequest_to_proto <$> remote_frs)).

Definition delete_remote_file_request (request : Api.DeleteRemoteFileRequestRequest) : rpc Api.DeleteRemoteFileRequestResponse :=
  try! result := ask_brain as_bool_result Client.DeleteRemoteFilerequest (Api.DeleteRemoteFileRequestRequest_id request) in
  respond_with result (fun _ => Api.mk_DeleteRemoteFileRequestResponse true).

(** An error of the brain is a response without success. *)
Definition update_remote_file_request (inner : Api.UpdateRemoteFileRequestRequest) : rpc Api.UpdateRemoteFileRequestResponse :=
  match Api.UpdateRemoteFileRequestRequest_remote_file_request inner with
  | None => io_throw (status_invalid_argument "Missing remote file request")
  | Some proto =>
      let remote_fr := remote_filerequest_of_proto proto in
      try! result := ask_brain as_unit_result Client.UpdateRemoteFilerequest (rfr_id remote_fr, rfr_name remote_fr) in
      io_ret (Api.mk_UpdateRemoteFileRequestResponse (is_ok result))
  end.

(** ** Files *)

(** The request is converted while the action is built. *)
Definition store_pending_file (inner : Api.StorePendingFileRequest) : rpc Api.StorePendingFileResponse := fun s =>
  let? pending_files := create_pending_of_proto inner in
  (try! result := ask_brain as_fyles_ids Client.CreatePendingFiles pending_files in
   respond_with result Api.mk_StorePendingFileResponse) s.

Definition get_pending_file (request : Api.GetPendingFileRequest) : rpc Api.GetPendingFileResponse :=
  try! result := ask_brain as_pending_file Client.GetPendingFile (Api.GetPendingFileRequest_id request) in
  respond_with result (fun pending_file => Api.mk_GetPendingFileResponse (Some (pending_file_to_proto pending_file))).

Definition list_pending_files (request : Api.ListPendingFilesRequest) : rpc Api.ListPendingFilesResponse :=
  try! result := ask_brain as_pending_files Client.GetPendingFiles (Api.ListPendingFilesRequest_target_file_request_id request) in
  respond_with result (fun pending_files => Api.mk_ListPendingFilesResponse (pending_file_to_proto <$> pending_files)).

Definition get_all_pending_files (_ : Api.GetAllPendingFilesRequest) : rpc Api.GetAllPendingFilesResponse :=
  try! result := ask_brain as_pending_files Client.GetAllPendingFiles tt in
  respond_with result (fun pending_files => Api.mk_GetAllPendingFilesResponse (pending_file_to_proto <$> pending_files)).

Definition delete_pending_file (request : Api.DeletePendingFileRequest) : rpc Api.DeletePendingFileResponse :=
  try! result := ask_brain as_unit_result Client.DeletePendingFile (Api.DeletePendingFileRequest_id request) in
  respond_with result (fun _ => Api.mk_DeletePendingFileResponse true).

Definition list_received_files (request : Api.ListReceivedFilesRequest) : rpc Api.ListReceivedFilesResponse :=
  try! result := ask_brain_or (status_internal "dispatch failed") (status_internal "no response")
    as_received_files Client.ListReceivedFilesForRequest (Api.ListReceivedFilesRequest_remote_file_request_id request) in
  respond_with result (fun received_files => Api.mk_ListReceivedFilesResponse (received_file_to_proto <$> received_files)).

Definition delete_received_file (request : Api.DeleteReceivedFileRequest) : rpc Api.DeleteReceivedFileResponse :=
  try! result := ask_brain_or (status_internal "dispatch failed") (status_internal "no response")
    as_unit_result Client.DeleteReceivedFile (Api.DeleteReceivedFileRequest_id request) in
  respond_with result (fun _ => Api.mk_DeleteReceivedFileResponse true).

(** ** Invites and shared contacts *)

Definition get_self_contact_invite_challenge (_ : Api.GetSelfContactInviteChallengeRequest)
  : rpc Api.GetSelfContactInviteChallengeResponse :=
  try! challenge := ask_brain as_challenge Client.RegisterSelfContactInviteChallenge tt in
  io_ret (Api.mk_GetSelfContactInviteChallengeResponse challenge).

Definition unregister_self_contact_invite_challenge (request : Api.UnregisterSelfContactInviteChallengeRequest)
  : rpc Api.UnregisterSelfContactInviteChallengeResponse :=
  try! _ := ask_brain as_unit Client.UnregisterSelfContactInviteChallenge
    (Api.UnregisterSelfContactInviteChallengeRequest_challenge request) in
  io_ret Api.mk_UnregisterSelfContactInviteChallengeResponse.

Definition use_self_contact_invite (inner : Api.UseSelfContactInviteRequest) : rpc Api.UseSelfContactInviteResponse :=
  try! _ := ask_brain as_unit Client.UseSelfContactInviteChallenge
    (Api.UseSelfContactInviteRequest_challenge inner, Api.UseSelfContactInviteRequest_peer_id inner) in
  io_ret Api.mk_UseSelfContactInviteResponse.

Definition get_contact_share_challenge (_ : Api.GetContactShareChallengeRequest) : rpc Api.GetContactShareChallengeResponse :=
  try! challenge := ask_brain as_challenge Client.RegisterContactShareChallenge tt in
  io_ret (Api.mk_GetContactShareChallengeResponse challenge).

Definition unregister_contact_share_challenge (request : Api.UnregisterContactShareChallengeRequest)
  : rpc Api.UnregisterContactShareChallengeResponse :=
  try! _ := ask_brain as_unit Client.UnregisterContactShareChallenge
    (Api.UnregisterContactShareChallengeRequest_challenge request) in
  io_ret Api.mk_UnregisterContactShareChallengeResponse.

Definition use_contact_share_challenge (inner : Api.UseContactShareChallengeRequest) : rpc Api.UseContactShareChallengeResponse :=
  try! _ := ask_brain as_unit Client.UseContactShareChallenge
    (Api.UseContactShareChallengeRequest_challenge inner, Api.UseContactShareChallengeRequest_peer_id inner) in
  io_ret Api.mk_UseContactShareChallengeResponse.

(** ** Backup and settings *)

(** Backup and restore: an action that cannot be sent and an error of the brain are
    responses without success; an answer is expected. *)
Definition ask_for_success {T R} (action : BrainRequest T -> Client.ClientAction) (request : T) (response : bool -> R) : rpc R :=
  try! (request, response_receiver) := with_receiver request in
  try! sent := send_client (action request) in
  if negb sent then io_ret (response false) else
  try! res := receive as_unit_result response_receiver in
  try! res := io_expect res in
  io_ret (response (is_ok res)).

Definition backup_data (_ : Api.BackupDataRequest) : rpc Api.BackupDataResponse :=
  ask_for_success Client.BackupData tt Api.mk_BackupDataResponse.

Definition restore_data (request : Api.RestoreDataRequest) : rpc Api.RestoreDataResponse :=
  ask_for_success Client.RestoreData (Api.RestoreDataRequest_backup_file_path request) Api.mk_RestoreDataResponse.

Definition update_settings (request : Api.UpdateSettingsRequest) : rpc Api.UpdateSettingsResponse :=
  try! result := ask_brain_or (status_internal "Failed to send update_settings action")
    (status_internal "Failed to receive response") as_unit_result Client.UpdateSettings
    (Api.UpdateSettingsRequest_settings request) in
  respond_with result (fun _ => Api.mk_UpdateSettingsResponse true).

Definition get_settings (_ : Api.GetSettingsRequest) : rpc Api.GetSettingsResponse :=
  try! result := ask_brain_or (status_internal "Failed to send get_settings action")
    (status_internal "Failed to receive response") as_bytes Client.GetSettings tt in
  respond_with result Api.mk_GetSettingsResponse.

(** ** The node *)

Definition get_node_peer_id (_ : Api.GetNodePeerIdRequest) : rpc Api.GetNodePeerIdResponse :=
  try! result := ask_brain as_string Client.GetNodePeerId tt in
  respond_with result Api.mk_GetNodePeerIdResponse.

(** The clock; [as_millis() as i64], and 0 before the epoch. Both it and the start of
    the node are [u128]. *)
Definition timestamp : rpc Z := fun s =>
  let (t, s) := now_millis s in Ret (Ok (default 0 (as_i64 ∘ wrap64 <$> t)), s).

Definition get_node_status (_ : Api.GetNodeStatusRequest) : rpc Api.GetNodeStatusResponse :=
  try! result := ask_brain_or (status_internal "Failed to request node status")
    (status_internal "Failed to get node status") as_node_status Client.GetNodeStatus tt in
  match result with
  | Err e => io_throw (mk_status Internal (TextOfError e))
  | Ok node_info =>
      try! timestamp := timestamp in
      io_ret (Api.mk_GetNodeStatusResponse (Some (Api.mk_NodeStatus
        (Api.NodeStatus_State_number Api.NodeStatus_State_RUNNING) ""
        (Some (Api.mk_NodeInfo (ns_peer_id node_info) (ns_external_addresses node_info) "0.0.1_rust" ∅
           (as_i64 (wrap64 (ns_start_timestamp node_info)))))
        (Some (Api.mk_NodeStats 0 (as_i64 (ns_connected_peers node_info)) 0 0 0 0 0))
        timestamp)))
  end.

Definition health_check (_ : Api.HealthCheckRequest) : rpc Api.HealthCheckResponse :=
  io_ret (Api.mk_HealthCheckResponse true "OK").

(** ** Messages of the frontend on a stream

    The handler that [ApiServer::new] gives to the stream registry. Nobody waits for
    the answer of the brain. *)
Definition handle_stream_message {StreamId} (message : option (StreamId * result Api.ClientMessage (Status E))) : rpc unit :=
  match message with
  | None => io_ret tt
  | Some (_, Err _) => io_ret tt
  | Some (_, Ok msg) =>
      try! message := io_expect (Api.ClientMessage_oneof msg) in
      match message with
      | Api.ClientMessage_StoreRemoteFileRequest store_remote_file_request_request =>
          try! proto := io_expect (Api.StoreRemoteFileRequestRequest_remote_file_request store_remote_file_request_request) in
          try! (request, _) := with_receiver (create_remote_of_proto proto) in
          try! sent := send_client (Client.CreateRemoteFilerequest request) in
          io_expect (if sent : bool then Some tt else None)
      end
  end.

(** ** The services *)

Definition dispatch {R} (r : Api.Rpc R) : rpc R :=
  match r with
  | Api.WaitForReady r => wait_for_ready r
  | Api.GetFullSelfContact r => get_full_self_contact r
  | Api.UpdateIdentity r => update_identity r
  | Api.SharePublicSelfContact r => share_public_self_contact r
  | Api.RegisterContact r => register_contact r
  | Api.GetContactName r => get_contact_name r
  | Api.GetContactNames r => get_contact_names r
  | Api.GetVersion r => get_version r
  | Api.Shutdown r => shutdown r
  | Api.GetFileRequest r => get_file_request r
  | Api.CreateFileRequest r => create_file_request r
  | Api.UpdateFileRequest r => update_file_request r
  | Api.DeleteFileRequest r => delete_file_request r
  | Api.GetAllFileRequests r => get_all_file_requests r
  | Api.GetContact r => get_contact r
  | Api.GetAllContacts r => get_all_contacts r
  | Api.UpdateContact r => update_contact r
  | Api.DeleteContact r => delete_contact r
  | Api.UpdateSelfContactName r => update_self_contact_name r
  | Api.GetSelfContactDisplay r => get_self_contact_display r
  | Api.GetNodePeerId r => get_node_peer_id r
  | Api.StoreRemoteFileRequest r => store_remote_file_request r
  | Api.UpdateRemoteFileRequest r => update_remote_file_request r
  | Api.GetRemoteFileRequest r => get_remote_file_request r
  | Api.ListRemoteFileRequests r => list_remote_file_requests r
  | Api.GetAllRemoteFileRequests r => get_all_remote_file_requests r
  | Api.DeleteRemoteFileRequest r => delete_remote_file_request r
  | Api.StorePendingFile r => store_pending_file r
  | Api.GetPendingFile r => get_pending_file r
  | Api.ListPendingFiles r => list_pending_files r
  | Api.GetAllPendingFiles r => get_all_pending_files r
  | Api.DeletePendingFile r => delete_pending_file r
  | Api.ListReceivedFiles r => list_received_files r
  | Api.DeleteReceivedFile r => delete_received_file r
  | Api.GetSelfContactInviteChallenge r => get_self_contact_invite_challenge r
  | Api.UnregisterSelfContactInviteChallenge r => unregister_self_contact_invite_challenge r
  | Api.UseSelfContactInvite r => use_self_contact_invite r
  | Api.GetContactShareChallenge r => get_contact_share_challenge r
  | Api.UnregisterContactShareChallenge r => unregister_contact_share_challenge r
  | Api.UseContactShareChallenge r => use_contact_share_challenge r
  | Api.BackupData r => backup_data r
  | Api.RestoreData r => restore_data r
  | Api.UpdateSettings r => update_settings r
  | Api.GetSettings r => get_settings r
  | Api.GetNodeStatus r => get_node_status r
  | Api.HealthCheck r => health_check r
  end.

(** ** The endpoints

    [ApiServer::run] serves both services, over TCP behind the interceptor of
    ApiToken.v, which tonic calls before the call itself; over a Unix domain socket
    without. *)
Definition serve_call {Req R} (auth : option (Req -> result Req (Status E))) (req : Req) (r : Api.Rpc R) : rpc R :=
  match auth with
  | Some auth => try! _ := io_result (auth req) in dispatch r
  | None => dispatch r
  end.
End Calls.

Create HintDb api_calls.
#[export] Hint Unfold wait_for_ready get_full_self_contact update_identity share_public_self_contact
  register_contact get_contact_name get_contact_names get_version shutdown get_file_request create_file_request
  update_file_request delete_file_request get_all_file_requests get_contact get_all_contacts update_contact
  delete_contact update_self_contact_name get_self_contact_display get_node_peer_id store_remote_file_request
  update_remote_file_request get_remote_file_request list_remote_file_requests get_all_remote_file_requests
  delete_remote_file_request store_pending_file get_pending_file list_pending_files get_all_pending_files
  delete_pending_file list_received_files delete_received_file get_self_contact_invite_challenge
  unregister_self_contact_invite_challenge use_self_contact_invite get_contact_share_challenge
  unregister_contact_share_challenge use_contact_share_challenge backup_data restore_data update_settings
  get_settings get_node_status health_check : api_calls.
