(* ===== verification/ApiToken.v ===== *)
(** * The token of the API

    core/src/core/api_server/tcp_token_interceptor.rs: over TCP every call carries a
    random token, which the server writes to a file for the frontend. Base64, the
    comparison in constant time and the header of a request are third-party code. *)

From S2P Require Import Prelude Domain BrainTypes Conversions.
From stdpp Require Import pretty.
#[local] Open Scope string_scope.
#[local] Open Scope Z_scope.

Definition is_bytes (l : list Z) : Prop := Forall (fun b => 0 <= b < 256) l.

(** [base64::engine::general_purpose::STANDARD]: with padding, and only the canonical
    form is decoded. *)
Class Base64 := {
  b64_encode : list Z -> string;
  b64_decode : string -> option (list Z);
}.

Class Base64Laws `{!Base64} := {
  b64_decode_encode b : is_bytes b -> b64_decode (b64_encode b) = Some b;
  b64_canonical s b : b64_decode s = Some b -> s = b64_encode b;
}.

(** [subtle::ConstantTimeEq] on slices of equal length *)
Class ConstantTimeEq := { ct_eq : list Z -> list Z -> bool }.
Class ConstantTimeEqLaws `{!ConstantTimeEq} := {
  ct_eq_spec a b : length a = length b -> ct_eq a b = bool_decide (a = b);
}.

(** [req.metadata().get(name).and_then(|v| v.to_str().ok())] *)
Class Metadata (Req : Type) := { metadata_str : Req -> string -> option string }.

(** [str::strip_prefix] *)
Fixpoint strip_prefix (p s : string) : option string :=
  match p, s with
  | EmptyString, _ => Some s
  | String a p, String b s => if Ascii.eqb a b then strip_prefix p s else None
  | _, EmptyString => None
  end.

Section Token.
Context {Req E : Type} `{!Base64} `{!ConstantTimeEq} `{!Metadata Req}.

(** The closure of [bearer_auth_interceptor] *)
Definition interceptor (token : list Z) (req : Req) : result Req (Status E) :=
  let! hdr := ok_or (metadata_str req "authorization") (status_unauthenticated "missing authorization") in
  let! b64 := ok_or (strip_prefix "Bearer " hdr) (status_unauthenticated "bad authorization scheme") in
  let! presented := ok_or (b64_decode b64) (status_unauthenticated "bad token encoding") in
  if negb (length presented =? length token)%nat then Err (status_unauthenticated "invalid token")
  else if negb (ct_eq presented token) then Err (status_unauthenticated "invalid token")
  else Ok req.

(** The token is 32 random bytes. *)
Definition bearer_auth_interceptor (generate_random_bytes : nat -> list Z) : (Req -> result Req (Status E)) * string :=
  let token := generate_random_bytes 32%nat in
  let token_string := b64_encode token in
  (interceptor token, token_string).

(** What [ApiServer::run] writes to the file api_server_config. *)
Definition api_server_config (chosen_port : N) (token : string) : string := pretty chosen_port +:+ ":" +:+ token.

Lemma strip_prefix_Some p s t : strip_prefix p s = Some t <-> s = p +:+ t.
Proof.
  revert s. induction p as [|a p IH]; intros s; cbn.
  - split; [by intros [= ->]|by intros ->].
  - destruct s as [|b s]; [done|]. destruct (Ascii.eqb_spec a b) as [->|Hne].
    + rewrite IH. split; [by intros ->|by intros [= ->]].
    + split; [done|]. by intros [= ? _].
Qed.

Lemma interceptor_spec `{!Base64Laws} `{!ConstantTimeEqLaws} token req :
  is_bytes token ->
  (metadata_str req "authorization" = Some ("Bearer " +:+ b64_encode token) -> interceptor token req = Ok req) /\
  (metadata_str req "authorization" <> Some ("Bearer " +:+ b64_encode token) ->
     exists e, interceptor token req = Err e /\ status_code e = Unauthenticated).
Proof.
  intros Ht. unfold interceptor. split.
  - intros ->. cbn [ok_or res_bind]. replace (strip_prefix "Bearer " _) with (Some (b64_encode token))
      by (symmetry; by apply strip_prefix_Some). cbn [ok_or res_bind]. rewrite b64_decode_encode by done. cbn [ok_or res_bind].
    rewrite Nat.eqb_refl, ct_eq_spec, bool_decide_true; done.
  - intros Hne. destruct (metadata_str req "authorization") as [hdr|]; cbn [ok_or res_bind]; [|by eexists].
    destruct (strip_prefix "Bearer " hdr) as [b64|] eqn:Eh; cbn [ok_or res_bind]; [|by eexists].
    destruct (b64_decode b64) as [presented|] eqn:Ed; cbn [ok_or res_bind]; [|by eexists].
    destruct (Nat.eqb_spec (length presented) (length token)) as [El|]; cbn [negb]; [|by eexists].
    rewrite ct_eq_spec by done. case_bool_decide as Eq; [|by eexists]. subst presented. exfalso. apply Hne.
    apply strip_prefix_Some in Eh as ->. by apply b64_canonical in Ed as ->.
Qed.
End Token.
