(* ===== verification/ApiBrain.v ===== *)
(** * The gRPC server on the brain

    [BrainChannel] of ApiServer.v implemented by the brain, and what follows for all
    calls: they are answered, by values of the right type; a call with bad arguments
    or without the token has no effect. *)

From S2P Require Import Prelude Domain NonceWindow Dencryptor KeyExchange TtlMap ReceiveManager HostPath HostController DriveHandler.
From S2P Require Import BrainTypes NodeKeys Brain BrainAnswers Wire Conversions ApiServer ApiToken.
#[local] Open Scope string_scope.
#[local] Open Scope Z_scope.

Create HintDb api.

Section ApiBrain.
Context {K C W F E St : Type} `{!Primitives K} `{!KeyBytes K} `{!Bincode DilithiumPublic} `{!Bincode DilithiumSecret}.
Context `{!ExpiringSet Challenge St}.
Context `{!FilerequestDb W F} `{!NetworkNode W} `{!BrainEnv W} `{!HostController C W F E} `{!Sanitizer}.
Context (host_controller : C) (internal_data_dir : path).

Abbreviation the_brain := (brain C W F E St).
Abbreviation Resp := (Response C F E).
Abbreviation M A := (BM C W F E St A).
Implicit Types (b : the_brain).

(** ** The brain behind its channel

    A task that panics ends the process ([panic = "abort"] in Cargo.toml). The state
    that a task leaves behind which never ends is not known from the handler:
    [interrupted] is any function. *)
Context (interrupted : BrainAction -> the_brain -> the_brain).

(** The brain, the number of the next channel, the channels whose senders tasks hold
    that never end, and whether the brain takes actions. *)
Record served := mk_served {
  sv_brain : the_brain;
  sv_next : nat;
  sv_blocked : list nat;
  sv_running : bool;
}.
Implicit Types (s : served).

Definition with_brain (s : served) (b : the_brain) : served := mk_served b (sv_next s) (sv_blocked s) (sv_running s).

(** The brain takes an action from its queue and spawns a task for it, which drops
    the sender at its end. *)
Definition brain_send (a : BrainAction) (s : served) : outcome (bool * served) :=
  if negb (sv_running s) then Ret (false, s) else
  match handle_action host_controller internal_data_dir a (sv_brain s) with
  | Ret (_, b) => Ret (true, with_brain s b)
  | Panic => Panic
  | Deadlock | Diverge =>
      Ret (true, mk_served (interrupted a (sv_brain s)) (sv_next s) (option_list (action_sender a) ++ sv_blocked s) (sv_running s))
  end.

Definition queued (d : EphemeralBrainData St) : list nat :=
  match queued_wait_for_ready_requests d with Some q => bl_items q | None => [] end.

Definition answer_on (n : nat) b : option Resp := snd <$> List.find (fun a => (a.1 =? n)%nat) (answers b).

(** A value of another type is no value of the channel. *)
Definition brain_recv {A} (proj : Resp -> option A) (n : nat) (s : served) : outcome (option A * served) :=
  match answer_on n (sv_brain s) with
  | Some v => match proj v with Some a => Ret (Some a, s) | None => Deadlock end
  | None =>
      if bool_decide (n ∈ queued (ephemeral_data (sv_brain s))) || bool_decide (n ∈ sv_blocked s)
      then Deadlock else Ret (None, s)
  end.

#[local] Instance brain_channel : BrainChannel served C F E := {|
  oneshot_channel s := (sv_next s, mk_served (sv_brain s) (S (sv_next s)) (sv_blocked s) (sv_running s));
  action_send := brain_send;
  oneshot_recv A proj n s := brain_recv proj n s;
  now_millis s :=
    let b := sv_brain s in
    let (t, w) := brain_epoch_millis (brain_world b) in
    (t, with_brain s (mk_brain w (ephemeral_data b) (ephemeral_guard b) (answers b)));
|}.

(** ** The types of the answers

    The response types of [enum ClientAction]. *)
Definition well_typed (a : Client.ClientAction) (v : Resp) : bool :=
  match a, v with
  | Client.WaitForReady _, RBool _
  | Client.CreateFilerequest _, RFylesId _
  | Client.ReadFilerequest _, RFilerequest _
  | Client.UpdateFilerequest _, RUnitResult _
  | Client.DeleteFilerequest _, RUnitResult _
  | Client.ListFilerequests _, RFilerequests _
  | Client.GetContactName _, RString _
  | Client.GetContactNames _, RNames _
  | Client.GetContact _, RContact _
  | Client.GetFullSelfContact _, RSelfContact _
  | Client.ListContacts _, RDisplayContacts _
  | Client.UpdateContact _, RUnitResult _
  | Client.DeleteContact _, RUnitResult _
  | Client.Shutdown _, RBoolResult _
  | Client.GetNodeStatus _, RNodeStatus _
  | Client.GetNodePeerId _, RString _
  | Client.CreateRemoteFilerequest _, RFylesId _
  | Client.GetRemoteFilerequest _, RRemoteFilerequest _
  | Client.GetRemoteFilerequestsByContact _, RRemoteFilerequests _
  | Client.GetAllRemoteFilerequests _, RRemoteFilerequests _
  | Client.DeleteRemoteFilerequest _, RBoolResult _
  | Client.UpdateRemoteFilerequest _, RUnitResult _
  | Client.CreatePendingFiles _, RFylesIds _
  | Client.GetPendingFile _, RPendingFile _
  | Client.GetPendingFiles _, RPendingFiles _
  | Client.GetAllPendingFiles _, RPendingFiles _
  | Client.DeletePendingFile _, RUnitResult _
  | Client.ListReceivedFilesForRequest _, RReceivedFiles _
  | Client.DeleteReceivedFile _, RUnitResult _
  | Client.UpdateSelfContactName _, RUnitResult _
  | Client.UpdateIdentity _, RUnitResult _
  | Client.GetSelfContactDisplay _, RDisplayContact _
  | Client.SharePublicSelfContact _, RContact _
  | Client.RegisterContact _, RUnitResult _
  | Client.RegisterSelfContactInviteChallenge _, RChallenge _
  | Client.UnregisterSelfContactInviteChallenge _, RUnit
  | Client.UseSelfContactInviteChallenge _, RUnit
  | Client.RegisterContactShareChallenge _, RChallenge _
  | Client.UnregisterContactShareChallenge _, RUnit
  | Client.UseContactShareChallenge _, RUnit
  | Client.BackupData _, RUnitResult _
  | Client.RestoreData _, RUnitResult _
  | Client.UpdateSettings _, RUnitResult _
  | Client.GetSettings _, RBytes _ => true
  | _, _ => false
  end.

(** [tells T m]: [m] keeps the queue of those who wait for readiness, and all that it
    answers satisfies [T]. *)
Definition tells (T : Resp -> bool) {A} (m : M A) : Prop :=
  forall b a b', m b = Ret (a, b') ->
    queued (ephemeral_data b') = queued (ephemeral_data b) /\
    exists l, answers b' = (answers b ++ l)%list /\ Forall (fun x => T x.2 = true) l.

Lemma tells_quiet T {A} (m : M A) :
  (forall b a b', m b = Ret (a, b') -> queued (ephemeral_data b') = queued (ephemeral_data b) /\ answers b' = answers b) ->
  tells T m.
Proof. intros Hm b a b' E0. destruct (Hm _ _ _ E0) as [-> ->]. split; [done|]. exists []. by rewrite app_nil_r. Qed.

Lemma tells_ret T {A} (a : A) : tells T (bret a).
Proof. apply tells_quiet. by intros b ? ? [= <- <-]. Qed.

Lemma tells_call T {A} (f : W -> A * W) : tells T (call f).
Proof. apply tells_quiet. unfold call. intros b ? ?. destruct (f _). by intros [= <- <-]. Qed.

Lemma tells_host T {A} (m : io W (BoxedError E) A) : tells T (host m).
Proof. apply tells_quiet. unfold host. intros b ? ?. destruct (m _) as [[]| | |]; cbn; try done. by intros [= <- <-]. Qed.

Lemma tells_expect T {A E'} (r : result A E') : tells T (bexpect r).
Proof. apply tells_quiet. unfold bexpect. intros b ? ?. destruct r; [|done]. by intros [= <- <-]. Qed.

Lemma tells_respond (T : Resp -> bool) sender v : T v = true -> tells T (respond sender v).
Proof.
  intros Hv b a b'. unfold respond. destruct sender as [n|]; intros [= <- <-]; (split; [done|]).
  - exists [(n, v)]. split; [done|]. by repeat constructor.
  - exists []. by rewrite app_nil_r.
Qed.

Lemma tells_bind T {A B} (m : M A) (k : A -> M B) : tells T m -> (forall a, tells T (k a)) -> tells T (bbind m k).
Proof.
  intros Hm Hk b x b'. unfold bbind. destruct (m b) as [[a b1]| | |] eqn:Em; cbn; try done. intros Ek.
  destruct (Hm _ _ _ Em) as (Hq & l & Hl & Hf). destruct (Hk _ _ _ _ Ek) as (Hq' & l' & Hl' & Hf'). split; [congruence|].
  exists (l ++ l')%list. rewrite Hl', Hl, app_assoc. split; [done|]. by apply Forall_app.
Qed.

Lemma tells_change T {A} (f : Z -> EphemeralBrainData St -> A * EphemeralBrainData St) :
  (forall now d, queued (f now d).2 = queued d) -> tells T (change_ephemeral f : M A).
Proof.
  intros Hf. apply tells_quiet. intros b a b'. unfold change_ephemeral, bbind, lock_ephemeral, call, get_ephemeral.
  destruct (ephemeral_guard b); [done|]. cbn. destruct (brain_now _) as [now w]. cbn. specialize (Hf now (ephemeral_data b)).
  destruct (f now _) as [x d]. by intros [= <- <-].
Qed.

Lemma tells_rename T fr title : tells T (rename_directory host_controller fr title : M bool).
Proof.
  apply tells_quiet. unfold rename_directory. intros b a b'. destruct (rename_filerquest _ _ _) as [[]| | |]; cbn; try done.
  by intros [= <- <-].
Qed.

#[local] Hint Resolve tells_ret tells_call tells_host tells_expect tells_respond tells_rename : api.
#[local] Hint Extern 1 (tells _ (change_ephemeral _)) => apply tells_change; done : api.

Ltac tells_solve :=
  repeat first
    [ solve [eauto with api]
    | match goal with
      | |- tells _ (bbind _ _) => apply tells_bind; [|intros ?]
      | |- tells _ (match ?x with _ => _ end) => destruct x
      end ].

Lemma client_action_tells a :
  waits_for_ready a = false -> tells (well_typed a) (handle_client_action host_controller internal_data_dir a).
Proof.
  intros Hw. destruct a; try done; cbn [handle_client_action].
  all: autounfold with brain_actions; tells_solve.
Qed.

(** ** Every call is answered *)

(** Nothing has been sent yet on the next channel, and no task holds the mutex. *)
Record served_ok (s : served) : Prop := {
  ok_guard : ephemeral_guard (sv_brain s) = false;
  ok_answers : Forall (fun x => (x.1 < sv_next s)%nat) (answers (sv_brain s));
  ok_queued : Forall (fun n => (n < sv_next s)%nat) (queued (ephemeral_data (sv_brain s)));
  ok_blocked : Forall (fun n => (n < sv_next s)%nat) (sv_blocked s);
}.

Context `{!HostReturns C W F E}.

(** [serves p m]: from a good state [m] returns to one, or it panics and [p] holds of
    whether the brain runs. *)
Definition serves (p : bool -> Prop) {E' A} (m : io served E' A) : Prop :=
  forall s, served_ok s ->
    match m s with
    | Ret (_, s') => served_ok s' /\ sv_running s' = sv_running s
    | Panic => p (sv_running s)
    | Deadlock | Diverge => False
    end.

Definition never (running : bool) : Prop := False.

Lemma find_fresh n l l' :
  Forall (fun x : nat * Resp => (x.1 < n)%nat) l ->
  List.find (fun x => (x.1 =? n)%nat) (l ++ l') = List.find (fun x => (x.1 =? n)%nat) l'.
Proof.
  induction 1 as [|x l Hx _ IH]; [done|]. cbn. destruct (Nat.eqb_spec x.1 n); [lia|done].
Qed.

(** An action on a fresh channel: it is answered with a value of its type, or its
    handler panics and ends the process. *)
Lemma sent_action a s (n := sv_next s) :
  served_ok s -> sv_running s = true -> waits_for_ready a = false -> client_sender a = Some n ->
  match brain_send (ClientActionOf a) (mk_served (sv_brain s) (S n) (sv_blocked s) (sv_running s)) with
  | Ret (sent, s1) =>
      sent = true /\ sv_running s1 = true /\ served_ok s1 /\
      exists v, answer_on n (sv_brain s1) = Some v /\ well_typed a v = true
  | Panic => client_may_panic a = true
  | Deadlock | Diverge => False
  end.
Proof.
  intros [Hg Ha Hq Hb] Hr Hw Hs. unfold brain_send. cbn [sv_running sv_brain]. rewrite Hr. cbn [negb handle_action].
  pose proof (client_action_replies (C := C) (F := F) (E := E) host_controller internal_data_dir (fun _ => True) ltac:(by split) a Hw
    (sv_brain s) Hg I) as Hrep. rewrite Hs in Hrep.
  destruct (handle_client_action _ _ a (sv_brain s)) as [[[] b1]| | |] eqn:Eh; [|done..].
  destruct Hrep as (Hg1 & _ & v & Hv). destruct (client_action_tells a Hw _ _ _ Eh) as (Hq1 & l & Hl & Ht).
  assert (l = [(n, v)]) as -> by (rewrite Hv in Hl; by apply app_inv_head in Hl).
  apply Forall_cons_1 in Ht as [Ht _]. split_and!; [done..| |].
  - split; cbn; [done| | |].
    + rewrite Hv. apply Forall_app. split; [|by repeat constructor]. eapply Forall_impl; [done|cbn; subst n; lia].
    + rewrite Hq1. eapply Forall_impl; [done|cbn; subst n; lia].
    + eapply Forall_impl; [done|cbn; subst n; lia].
  - exists v. split; [|done]. unfold answer_on. cbn. rewrite Hv, find_fresh by done. cbn. by rewrite Nat.eqb_refl.
Qed.

Lemma serves_ret p {E' A} (a : A) : serves (E' := E') p (io_ret a).
Proof. by intros s Hs. Qed.

Lemma serves_throw p {E' A} (e : E') : serves (A := A) p (io_throw e).
Proof. by intros s Hs. Qed.

Lemma serves_result p {E' A} (r : result A E') : serves p (io_result r).
Proof. by intros s Hs. Qed.

Lemma serves_map_err p {E' E'' A} (f : E' -> E'') (m : io served E' A) : serves p m -> serves p (io_map_err f m).
Proof. intros Hm s Hs. specialize (Hm s Hs). unfold io_map_err. by destruct (m s) as [[]| | |]. Qed.

Lemma serves_bind p {E' A B} (m : io served E' A) (k : A -> io served E' B) :
  serves p m -> (forall a, serves p (k a)) -> serves p (io_bind m k).
Proof.
  intros Hm Hk s Hs. specialize (Hm s Hs). unfold io_bind. destruct (m s) as [[[a|e] s1]| | |]; try done. destruct Hm as [Hs1 Hr1].
  cbn. specialize (Hk a s1 Hs1). rewrite Hr1 in Hk. by destruct (k a s1) as [[]| | |].
Qed.

Lemma serves_respond p {A R} (r : result A (FilerequestError E)) (f : A -> R) : serves p (respond_with r f).
Proof. destruct r; [apply serves_ret|apply serves_throw]. Qed.

Lemma serves_timestamp p : serves p timestamp.
Proof.
  intros s [Hg Ha Hq Hb]. unfold timestamp, now_millis. cbn. by destruct (brain_epoch_millis _).
Qed.

(** A question to the brain: what follows has to serve without the brain and with an
    answer; the handler of the question may panic. *)
Lemma serves_question p {T A R} (action : BrainRequest T -> Client.ClientAction) (proj : Resp -> option A) request
    (unsent : io served (Status E) R) (k : option A -> io served (Status E) R) (next : bool -> nat -> io served (Status E) R) :
  (forall r, waits_for_ready (action r) = false) -> (forall r, client_sender (action r) = response_sender r) ->
  (forall r v, well_typed (action r) v = true -> is_Some (proj v)) ->
  (forall n, next false n = unsent) -> (forall n, next true n = io_bind (receive proj n) k) ->
  serves (fun running => running = false -> p false) unsent ->
  (forall a, serves p (k (Some a))) ->
  (forall r, client_may_panic (action r) = true -> p true) ->
  serves p (io_bind (with_receiver request) (fun '(request, n) => io_bind (send_client (action request)) (fun sent => next sent n))).
Proof.
  intros Hw Hsnd Hty Hunsent Hnext Hp Hsome Hpan s Hs. set (n := sv_next s).
  set (s0 := mk_served (sv_brain s) (S n) (sv_blocked s) (sv_running s)).
  assert (served_ok s0) as Hs0.
  { destruct Hs as [Hg Ha Hq Hb]. split; [done|..]; cbn; (eapply Forall_impl; [done|]); cbn; subst n; lia. }
  unfold io_bind at 1, with_receiver. cbn [oneshot_channel brain_channel]. fold n. fold s0. cbn [outcome_bind].
  unfold io_bind, send_client. cbn [action_send brain_channel].
  destruct (sv_running s) eqn:Er.
  - pose proof (sent_action _ _ Hs Er (Hw _) (Hsnd (mk_brain_request request (Some n)))) as Hsent. rewrite Er in Hsent. fold n s0 in Hsent.
    destruct (brain_send _ s0) as [[sent s1]| | |]; cbn [outcome_bind]; [|by eapply Hpan|done..].
    destruct Hsent as (-> & Hr1 & Hs1 & v & Hv & [a Ea]%Hty). rewrite Hnext.
    unfold io_bind, receive. cbn [oneshot_recv brain_channel]. unfold brain_recv. rewrite Hv, Ea. cbn.
    specialize (Hsome a s1 Hs1). by rewrite Hr1 in Hsome.
  - unfold brain_send. cbn [sv_running s0 negb outcome_bind]. rewrite Hunsent. specialize (Hp s0 Hs0). cbn [sv_running s0] in Hp.
    destruct (unsent s0) as [[]| | |]; auto.
Qed.

Lemma serves_ask (p : bool -> Prop) {T A} not_sent not_received (proj : Resp -> option A)
    (action : BrainRequest T -> Client.ClientAction) request :
  (forall r, waits_for_ready (action r) = false) -> (forall r, client_sender (action r) = response_sender r) ->
  (forall r v, well_typed (action r) v = true -> is_Some (proj v)) ->
  (forall r, client_may_panic (action r) = true -> p true) ->
  serves p (ask_brain_or not_sent not_received proj action request).
Proof.
  intros Hw Hs Ht Hp. unfold ask_brain_or.
  apply (serves_question p action proj request (io_throw not_sent) (fun result => io_result (ok_or result not_received))
    (fun sent n => if negb sent then io_throw not_sent else io_bind (receive proj n) (fun result => io_result (ok_or result not_received))));
    try done; intros; first [apply serves_throw|apply serves_result].
Qed.

Lemma serves_for_success (p : bool -> Prop) {T R} (action : BrainRequest T -> Client.ClientAction) request (response : bool -> R) :
  (forall r, waits_for_ready (action r) = false) -> (forall r, client_sender (action r) = response_sender r) ->
  (forall r v, well_typed (action r) v = true -> is_Some (as_unit_result v)) ->
  (forall r, client_may_panic (action r) = true -> p true) -> serves p (ask_for_success action request response).
Proof.
  intros Hw Hs Ht Hp. unfold ask_for_success.
  set (k := fun res => io_bind (io_expect res) (fun res => io_ret (response (is_ok res))) : io served (Status E) R).
  by apply (serves_question _ action as_unit_result request (io_ret (response false)) k
    (fun sent n => if negb sent then io_ret (response false) else io_bind (receive as_unit_result n) k)).
Qed.

Lemma serves_mono (p q : bool -> Prop) {E' A} (m : io served E' A) : serves p m -> (forall r, p r -> q r) -> serves q m.
Proof. intros Hm Hpq s Hs. specialize (Hm s Hs). destruct (m s) as [[]| | |]; auto. Qed.

#[local] Hint Resolve serves_ret serves_throw serves_result serves_map_err serves_respond serves_timestamp : api.
#[local] Hint Extern 1 (serves _ (ask_brain_or _ _ _ _ _)) => apply serves_ask; [done|done|by intros ? []|done] : api.
#[local] Hint Extern 1 (serves _ (ask_brain _ _ _)) => apply serves_ask; [done|done|by intros ? []|done] : api.

Ltac serves_solve :=
  repeat first
    [ solve [eauto with api]
    | match goal with
      | |- serves _ (io_bind _ _) => apply serves_bind; [|intros ?]
      | |- serves _ (match ?x with _ => _ end) => destruct x
      end ].

Definition is_wait_for_ready {R} (r : Api.Rpc R) : bool :=
  match r with Api.WaitForReady _ => true | _ => false end.

(** A request without files, no brain for GetFullSelfContact, and the two actions of
    the brain with an [expect]: pending files that the node does not take, and a
    frontend that is gone when a backup was restored. *)
Definition call_may_panic {R} (r : Api.Rpc R) (running : bool) : Prop :=
  match r with
  | Api.StorePendingFile request => Api.StorePendingFileRequest_pending_files request = None \/ running = true
  | Api.GetFullSelfContact _ => running = false
  | Api.RestoreData _ => running = true
  | _ => False
  end.

Lemma serves_store_pending request :
  serves (fun running => Api.StorePendingFileRequest_pending_files request = None \/ running = true) (store_pending_file request).
Proof.
  unfold store_pending_file, create_pending_of_proto. intros s Hs.
  destruct (Api.StorePendingFileRequest_pending_files request) as [files|]; [|by left]. cbn. revert s Hs.
  refine (serves_bind (fun running => Some files = None \/ running = true) _ _ _ _); [|serves_solve].
  apply serves_ask; [done|done|by intros ? []|by right].
Qed.

Lemma serves_full_self_contact request : serves (fun running => running = false) (get_full_self_contact request).
Proof.
  unfold get_full_self_contact.
  set (k := fun response : option (result SelfContact (FilerequestError E)) => (try! response := io_expect response in
    try! proto := match response with
      | Ok r => io_map_err (fun _ => status_internal "Unable to serialize SelfContact") (io_result (self_contact_to_proto r))
      | Err _ => io_throw (status_internal "Unable to get SelfContact")
      end in
    io_ret (Api.mk_GetFullSelfContactResponse (Some proto))) : io served (Status E) _).
  apply (serves_question _ Client.GetFullSelfContact as_self_contact tt (fun _ => Panic) k
    (fun sent n => io_bind (io_expect (if sent : bool then Some tt else None)) (fun _ => io_bind (receive as_self_contact n) k)));
    try done; [by intros ? []|]. intros a. unfold k. apply serves_bind; [by intros s Hs|]. intros response. serves_solve.
Qed.

Lemma call_serves version {R} (r : Api.Rpc R) : is_wait_for_ready r = false -> serves (call_may_panic r) (dispatch version r).
Proof.
  intros Hr. destruct r; try done; cbn [dispatch].
  all: try (apply (serves_mono never); [|done]; autounfold with api_calls; serves_solve; fail).
  - apply serves_full_self_contact.
  - apply serves_store_pending.
  - by apply serves_for_success; [..|by intros ? []|].
  - by apply serves_for_success; [..|by intros ? []|].
Qed.


(** ** Refused calls *)

Definition arguments_ok {R} (r : Api.Rpc R) : bool :=
  match r with
  | Api.CreateFileRequest q => is_ok (access_of_optional_proto (E := E) (Api.CreateFileRequestRequest_access q))
  | Api.UpdateFileRequest q =>
      match Api.UpdateFileRequestRequest_file_request q with
      | Some proto => is_ok (access_of_optional_proto (E := E) (Api.FileRequestProto_access proto))
      | None => false
      end
  | Api.UpdateContact q => match Api.UpdateContactRequest_contact q with Some _ => true | None => false end
  | Api.UpdateIdentity q =>
      match Api.UpdateIdentityRequest_self_contact q with Some proto => is_ok (self_contact_of_proto proto) | None => false end
  | Api.RegisterContact q =>
      match Api.RegisterContactRequest_sharable_contact q with Some proto => is_ok (contact_of_proto proto) | None => false end
  | Api.StoreRemoteFileRequest q =>
      match Api.StoreRemoteFileRequestRequest_remote_file_request q with Some _ => true | None => false end
  | Api.UpdateRemoteFileRequest q =>
      match Api.UpdateRemoteFileRequestRequest_remote_file_request q with Some _ => true | None => false end
  | Api.StorePendingFile q => match Api.StorePendingFileRequest_pending_files q with Some _ => true | None => false end
  | _ => true
  end.

(** The call whose missing part is met with [unwrap] while the request is converted. *)
Definition is_store_pending_file {R} (r : Api.Rpc R) : bool :=
  match r with Api.StorePendingFile _ => true | _ => false end.

(** [accepts m]: no error of [m] blames the arguments. *)
Definition accepts {A} (m : io served (Status E) A) : Prop :=
  forall s st s', m s = Ret (Err st, s') -> status_code st <> InvalidArgument.

Lemma accepts_ret {A} (a : A) : accepts (io_ret a).
Proof. by intros s st s'. Qed.

Lemma accepts_throw {A} st : status_code st <> InvalidArgument -> accepts (A := A) (io_throw st).
Proof. by intros Hst s st' s' [= <- <-]. Qed.

Lemma accepts_result {A} (r : result A (Status E)) :
  (forall st, r = Err st -> status_code st <> InvalidArgument) -> accepts (io_result r).
Proof. intros Hr s st s' [= Er _]. by apply Hr. Qed.

Lemma accepts_expect {A} (o : option A) : accepts (io_expect o).
Proof. intros s st s'. unfold io_expect. by destruct o. Qed.

Lemma accepts_bind {A B} (m : io served (Status E) A) (k : A -> io served (Status E) B) :
  accepts m -> (forall a, accepts (k a)) -> accepts (io_bind m k).
Proof.
  intros Hm Hk s st s'. unfold io_bind. destruct (m s) as [[[a|e] s1]| | |] eqn:Em; cbn; try done; [by apply Hk|].
  intros [= <- <-]. by eapply Hm.
Qed.

Lemma accepts_respond {A R} (r : result A (FilerequestError E)) (f : A -> R) : accepts (respond_with r f).
Proof. destruct r; [apply accepts_ret|by apply accepts_throw]. Qed.

Lemma accepts_with_receiver {T} (request : T) : accepts (with_receiver request).
Proof. by intros s st s'. Qed.

Lemma accepts_send a : accepts (send_client a).
Proof. intros s st s'. unfold send_client. by destruct (action_send _ s) as [[]| | |]. Qed.

Lemma accepts_receive {A} (proj : Resp -> option A) n : accepts (receive proj n).
Proof. intros s st s'. unfold receive. by destruct (oneshot_recv proj n s) as [[]| | |]. Qed.

Lemma accepts_timestamp : accepts timestamp.
Proof. intros s st s'. unfold timestamp. by destruct (now_millis s). Qed.

#[local] Hint Resolve accepts_ret accepts_expect accepts_respond accepts_with_receiver accepts_send accepts_receive
  accepts_timestamp : api.
#[local] Hint Extern 1 (accepts (io_throw _)) => apply accepts_throw; done : api.

Ltac accepts_solve :=
  repeat first
    [ solve [eauto with api]
    | match goal with
      | |- accepts (let _ := _ in _) => cbv zeta
      | |- accepts (io_bind _ _) => apply accepts_bind; [|intros ?]
      | |- accepts (io_result (ok_or ?o _)) => apply accepts_result; destruct o; [done|by intros ? [= <-]]
      | |- accepts (match ?x with _ => _ end) => destruct x
      end ].

Lemma accepts_ask {T A} not_sent not_received (proj : Resp -> option A) (action : BrainRequest T -> Client.ClientAction) request :
  status_code not_sent <> InvalidArgument -> status_code not_received <> InvalidArgument ->
  accepts (ask_brain_or not_sent not_received proj action request).
Proof.
  intros H1 H2. unfold ask_brain_or. accepts_solve.
Qed.
#[local] Hint Extern 1 (accepts (ask_brain_or _ _ _ _ _)) => apply accepts_ask; done : api.
#[local] Hint Extern 1 (accepts (ask_brain _ _ _)) => apply accepts_ask; done : api.

Definition refused {A} (m : io served (Status E) A) s : Prop :=
  exists st, m s = Ret (Err st, s) /\ status_code st = InvalidArgument.

Lemma access_error (o : option Api.AccessProto) :
  match access_of_optional_proto (E := E) o with Ok _ => True | Err e => status_code e = InvalidArgument end.
Proof. destruct o as [[[[]|]]|]; done. Qed.

Lemma bind_ok {E' A B} (a : A) (k : A -> io served E' B) : io_bind (io_result (Ok a)) k = k a.
Proof. done. Qed.

Lemma refused_err {A B} e (k : A -> io served (Status E) B) s :
  status_code e = InvalidArgument -> refused (io_bind (io_result (Err e)) k) s.
Proof. by exists e. Qed.

Lemma refused_throw {A} st s : status_code st = InvalidArgument -> refused (A := A) (io_throw st) s.
Proof. by exists st. Qed.

Lemma accepts_map_err {E' A} (f : E' -> Status E) (m : io served E' A) :
  (forall e, status_code (f e) <> InvalidArgument) -> accepts (io_map_err f m).
Proof. intros Hf s st s'. unfold io_map_err. destruct (m s) as [[[a|e] s1]| | |]; try done. intros [= <- <-]. apply Hf. Qed.
#[local] Hint Extern 1 (accepts (io_map_err _ _)) => apply accepts_map_err; done : api.

Lemma arguments_decide version {R} (r : Api.Rpc R) s :
  if arguments_ok r then accepts (dispatch version r)
  else if is_store_pending_file r then dispatch version r s = Panic else refused (dispatch version r) s.
Proof.
  destruct r as [q|q|q|q|q|q|q|q|q|q|q|q|q|q|q|q|q|q|q|q|q|q|q|q|q|q|q|q|q|q|q|q|q|q|q|q|q|q|q|q|q|q|q|q|q|q];
    cbn [dispatch arguments_ok is_store_pending_file]; autounfold with api_calls.
  all: try (unfold ask_for_success; accepts_solve; fail).
  all: repeat match goal with
    | |- context [ok_or ?o _] => destruct o; cbn [ok_or]; rewrite ?bind_ok
    | |- context [filerequest_of_proto _] => unfold filerequest_of_proto
    | |- context [access_of_optional_proto ?o] =>
        pose proof (access_error o); destruct (access_of_optional_proto o); cbn [is_ok res_bind]
    | |- context [self_contact_of_proto ?o] => destruct (self_contact_of_proto o); cbn [is_ok result_map_err]
    | |- context [contact_of_proto ?o] => destruct (contact_of_proto o); cbn [is_ok result_map_err]
    | |- context [Api.StoreRemoteFileRequestRequest_remote_file_request ?q] =>
        destruct (Api.StoreRemoteFileRequestRequest_remote_file_request q)
    | |- context [Api.UpdateRemoteFileRequestRequest_remote_file_request ?q] =>
        destruct (Api.UpdateRemoteFileRequestRequest_remote_file_request q)
    | |- refused (io_throw _) _ => by apply refused_throw
    | |- refused (io_bind (io_result (Err _)) _) _ => by apply refused_err
    | _ => progress rewrite ?bind_ok
    end; try (accepts_solve; fail).
  - accepts_solve. apply accepts_result. by destruct (contact_to_public_proto _); intros ? [= <-].
  - unfold create_pending_of_proto. destruct (Api.StorePendingFileRequest_pending_files q); [|done]. cbn.
    refine (_ : accepts (io_bind _ _)). accepts_solve.
Qed.

(** C16 (safety). Who may call, and with what: over TCP a call whose header authorization
    is not Bearer and the token of the server is answered with Unauthenticated and
    changes nothing, whatever it asks for; with the token it runs as it would without
    interceptor. A call that lacks a required part, or with keys that cannot be read,
    is answered with InvalidArgument and changes nothing, and no other call gets that
    answer; except that StorePendingFile without its files panics. *)
Theorem refused_calls_change_nothing {Req} `{!Base64} `{!ConstantTimeEq} `{!Metadata Req} `{!Base64Laws} `{!ConstantTimeEqLaws}
    version token (req : Req) {R} (r : Api.Rpc R) s :
  is_bytes token ->
  (metadata_str req "authorization" <> Some ("Bearer " +:+ b64_encode token) ->
     exists st, serve_call version (Some (interceptor token)) req r s = Ret (Err st, s) /\ status_code st = Unauthenticated) /\
  (metadata_str req "authorization" = Some ("Bearer " +:+ b64_encode token) ->
     serve_call version (Some (interceptor token)) req r s = serve_call version None req r s) /\
  (if arguments_ok r
   then forall st s', dispatch version r s = Ret (Err st, s') -> status_code st <> InvalidArgument
   else if is_store_pending_file r then dispatch version r s = Panic
   else exists st, dispatch version r s = Ret (Err st, s) /\ status_code st = InvalidArgument).
Proof.
  intros Ht. destruct (interceptor_spec (E := E) token req Ht) as [Hyes Hno]. split_and!.
  - intros Hne. destruct (Hno Hne) as (st & Est & Hst). exists st. unfold serve_call. by rewrite Est.
  - intros Heq. unfold serve_call. by rewrite (Hyes Heq).
  - pose proof (arguments_decide version r s) as Hd. destruct (arguments_ok r); [by apply Hd|done].
Qed.
End ApiBrain.
