(* ===== verification/ApiStore.v ===== *)
(** * Filerequests from the API to the database and back

    What a database has to promise for it is the class [FilerequestStore]; the client
    theorem is proved against it, and the SQLite database beside any other world is
    an instance. *)

From S2P Require Import Prelude Domain NonceWindow Dencryptor KeyExchange TtlMap ReceiveManager HostPath HostController DriveHandler.
From S2P Require Import BrainTypes NodeKeys Sql SqlText Connection SqliteActor SqlTheory Migrations Sqlite SqliteStore SqliteExample SqliteAtomic SqliteReads SqliteRoundtrip.
From S2P Require Import Brain BrainAnswers Wire Conversions ApiServer ApiBrain.
#[local] Open Scope string_scope.
#[local] Open Scope Z_scope.

(** ** What the database promises *)

(** [same_db]: worlds that differ in other things than the database. [holds w fr]:
    the database of [w] holds [fr]. *)
Class FilerequestStore (C W F E : Type) `{!BrainKeys} `{!FilerequestDb W F} `{!HostController C W F E} := {
  store_ok : W -> Prop;
  same_db : W -> W -> Prop;
  holds : W -> Filerequest -> Prop;
  same_db_refl w : same_db w w;
  host_create_same (c : C) ns w r w' : host_create_filerequest_resource (F := F) (E := E) c ns w = Ret (r, w') -> same_db w w';
  host_rename_same (c : C) a b w r w' : host_rename_resource (F := F) (E := E) c a b w = Ret (r, w') -> same_db w w';
  holds_same w w' fr : same_db w w' -> holds w fr -> holds w' fr;
  created_held w new id w1 : store_ok w -> db_create_filerequest (F := F) new w = (Ok id, w1) ->
    holds w1 (mk_filerequest id (cfr_title new) (cfr_description new) (cfr_access new) (cfr_is_active new));
  updated_held w fr old w0 w1 w2 : store_ok w -> db_get_filerequest (F := F) (fr_id fr) w = (Ok old, w0) -> same_db w0 w1 ->
    db_update_filerequest (F := F) fr w1 = (Ok tt, w2) -> holds w2 fr;
  held_read w fr : holds w fr -> exists fr', (db_get_filerequest (F := F) (fr_id fr) w).1 = Ok fr' /\ same_filerequest fr' fr;
}.

(** Two messages for one filerequest; an audience is a set. *)
Definition same_proto (a b : Api.FileRequestProto) : Prop :=
  match filerequest_of_proto (E := unit) a, filerequest_of_proto (E := unit) b with
  | Ok a, Ok b => same_filerequest a b
  | _, _ => False
  end.

(** ** Questions to the brain that succeed *)

Section Roundtrip.
Context {K C W F E St : Type} `{!Primitives K} `{!KeyBytes K} `{!Bincode DilithiumPublic} `{!Bincode DilithiumSecret}.
Context `{!ExpiringSet Challenge St}.
Context `{!FilerequestDb W F} `{!NetworkNode W} `{!BrainEnv W} `{!HostController C W F E} `{!Sanitizer}.
Context (host_controller : C) (internal_data_dir : path).
Context (interrupted : BrainAction -> brain C W F E St -> brain C W F E St).
#[local] Hint Extern 0 (BrainChannel _ _ _ _) =>
  exact (brain_channel host_controller internal_data_dir interrupted) : typeclass_instances.
Abbreviation Resp := (Response C F E).
Implicit Types (s : served (C := C) (W := W) (F := F) (E := E) (St := St)).

Definition asked s (b : brain C W F E St) : served := mk_served b (S (sv_next s)) (sv_blocked s) (sv_running s).

(** The handler returned with the answer [v]. *)
Lemma ask_brain_run {T A} (proj : Resp -> option A) (action : BrainRequest T -> Client.ClientAction) request s b v a
    not_sent not_received :
  served_ok s -> sv_running s = true ->
  handle_client_action host_controller internal_data_dir (action (mk_brain_request request (Some (sv_next s)))) (sv_brain s) = Ret (tt, b) ->
  answers b = (answers (sv_brain s) ++ [(sv_next s, v)])%list -> proj v = Some a ->
  ask_brain_or not_sent not_received proj action request s = Ret (Ok a, asked s b).
Proof.
  intros Hs Hr Hh Hv Ha. unfold ask_brain_or, io_bind, with_receiver. cbn [oneshot_channel brain_channel outcome_bind].
  unfold send_client. cbn [action_send brain_channel]. unfold brain_send. cbn [sv_running sv_brain handle_action].
  rewrite Hr, Hh. cbn [negb outcome_bind]. unfold receive. cbn [oneshot_recv brain_channel].
  unfold brain_recv, with_brain, answer_on. cbn [sv_brain]. rewrite Hv, find_fresh by apply Hs. cbn.
  rewrite Nat.eqb_refl. cbn. rewrite Ha. unfold asked. by rewrite Hr.
Qed.

Context `{!HostReturns C W F E}.

Lemma ask_brain_inv {T A} (proj : Resp -> option A) (action : BrainRequest T -> Client.ClientAction) request s a s1
    not_sent not_received :
  served_ok s -> (forall r, waits_for_ready (action r) = false) -> (forall r, client_sender (action r) = response_sender r) ->
  (forall r, client_may_panic (action r) = false) ->
  ask_brain_or not_sent not_received proj action request s = Ret (Ok a, s1) ->
  sv_running s = true /\ exists b v, s1 = asked s b /\ proj v = Some a /\
    handle_client_action host_controller internal_data_dir (action (mk_brain_request request (Some (sv_next s)))) (sv_brain s) = Ret (tt, b) /\
    answers b = (answers (sv_brain s) ++ [(sv_next s, v)])%list.
Proof.
  intros Hs Hw Hsnd Hp Hask. set (act := action (mk_brain_request request (Some (sv_next s)))).
  destruct (sv_running s) eqn:Hr.
  2: { exfalso. revert Hask. unfold ask_brain_or, io_bind, with_receiver. cbn [oneshot_channel brain_channel outcome_bind].
       unfold send_client. cbn [action_send brain_channel]. unfold brain_send. cbn [sv_running]. by rewrite Hr. }
  split; [done|].
  pose proof (client_action_replies (C := C) (F := F) (E := E) host_controller internal_data_dir (fun _ => True) ltac:(by split) act (Hw _)
    (sv_brain s) (ok_guard _ Hs) I) as Hrep. unfold act in Hrep. rewrite Hsnd, Hp in Hrep. cbn [response_sender] in Hrep. fold act in Hrep.
  destruct (handle_client_action _ _ act (sv_brain s)) as [[[] b]| | |] eqn:Eh; try done. destruct Hrep as (_ & _ & v & Hv).
  destruct (proj v) as [a'|] eqn:Ea.
  - rewrite (ask_brain_run proj action request s b v a' not_sent not_received Hs Hr Eh Hv Ea) in Hask. injection Hask as <- <-. eauto 8.
  - exfalso. revert Hask. unfold ask_brain_or, io_bind, with_receiver. cbn [oneshot_channel brain_channel outcome_bind].
    unfold send_client. cbn [action_send brain_channel]. unfold brain_send. cbn [sv_running sv_brain handle_action].
    fold act. rewrite Hr, Eh. cbn [negb outcome_bind]. unfold receive. cbn [oneshot_recv brain_channel].
    unfold brain_recv, with_brain, answer_on. cbn [sv_brain]. rewrite Hv, find_fresh by apply Hs. cbn. by rewrite Nat.eqb_refl; cbn; rewrite Ea.
Qed.
(** ** Filerequests *)

Context `{!FilerequestStore C W F E} (version : string).

Definition world_of s : W := brain_world (sv_brain s).

Lemma rename_directory_same fr title (b : brain C W F E St) r b' :
  rename_directory host_controller fr title b = Ret (r, b') -> same_db (brain_world b) (brain_world b') /\ answers b' = answers b.
Proof.
  unfold rename_directory, rename_filerquest. case_bool_decide; [intros [= <- <-]; split; [apply same_db_refl|done]|].
  unfold io_bind, io_map_err. destruct (host_rename_resource _ _ _ _) as [[r' w]| | |] eqn:Er; try done.
  destruct r' as [u|e]; cbn; intros [= <- <-]; (split; [by eapply host_rename_same|done]).
Qed.

Lemma create_action_held (q : BrainRequest BrainTypes.CreateFilerequest) n id (b b' : brain C W F E St) :
  store_ok (brain_world b) -> response_sender q = Some n -> create_filerequest_action host_controller q b = Ret (tt, b') ->
  answers b' = (answers b ++ [(n, RFylesId (Ok id))])%list ->
  holds (brain_world b') (mk_filerequest id (cfr_title (request q)) (cfr_description (request q)) (cfr_access (request q)) (cfr_is_active (request q))).
Proof.
  intros Hok Hn. unfold create_filerequest_action, bbind, call. destruct (db_create_filerequest _ _) as [[id'|e] w1] eqn:Ec; cbn [outcome_bind].
  2: { unfold respond. rewrite Hn. intros [= <-]. cbn. by intros [= ?]%app_inv_head. }
  unfold host. cbn [brain_world]. destruct (host_create_filerequest_resource _ _ _) as [[[u|e] w2]| | |] eqn:Eh; cbn [outcome_bind]; try done.
  - unfold respond. rewrite Hn. intros [= <-]. cbn. intros [= ->]%app_inv_head. eapply holds_same; [by eapply host_create_same|].
    by eapply created_held.
  - destruct (db_delete_filerequest _ _). cbn [outcome_bind]. unfold respond. rewrite Hn. intros [= <-]. cbn. by intros [= ?]%app_inv_head.
Qed.

Lemma update_action_held (q : BrainRequest Filerequest) n (b b' : brain C W F E St) :
  store_ok (brain_world b) -> response_sender q = Some n -> update_filerequest_action host_controller q b = Ret (tt, b') ->
  answers b' = (answers b ++ [(n, RUnitResult (Ok tt))])%list -> holds (brain_world b') (request q).
Proof.
  intros Hok Hn. unfold update_filerequest_action, bbind, call. destruct (db_get_filerequest _ _) as [[old|e] w0] eqn:Eg; cbn [outcome_bind].
  2: { unfold respond. rewrite Hn. intros [= <-]. cbn. by intros [= ?]%app_inv_head. }
  destruct (if negb _ then _ else _) as [[renamed b1]| | |] eqn:Er; cbn [outcome_bind]; try done.
  assert (same_db w0 (brain_world b1) /\ answers b1 = answers b) as [Hw Ha].
  { revert Er. case_bool_decide; cbn [negb]; [intros [= <- <-]; split; [apply same_db_refl|done]|]. intros Er. by apply rename_directory_same in Er. }
  destruct renamed; cbn [negb].
  2: { unfold respond. rewrite Hn. intros [= <-]. cbn. rewrite Ha. by intros [= ?]%app_inv_head. }
  unfold answer, bbind, call. destruct (db_update_filerequest _ _) as [[[]|e] w2] eqn:Eu; cbn [outcome_bind]; unfold respond; rewrite Hn;
    intros [= <-]; cbn; rewrite Ha; [|by intros [= ?]%app_inv_head]. intros _. by eapply updated_held.
Qed.

(** The database holds it, so the API reads it. *)
Lemma held_is_served s fr :
  served_ok s -> sv_running s = true -> holds (world_of s) fr ->
  exists p s', get_file_request (Api.mk_FileRequestRequest (fr_id fr)) s = Ret (Ok (Api.mk_FileRequestResponse (Some p)), s') /\
    same_proto p (filerequest_to_proto fr).
Proof.
  intros Hs Hr (fr' & Hget & Hsame)%held_read. unfold get_file_request, io_bind at 1, ask_brain.
  destruct (db_get_filerequest (F := F) (fr_id fr) (brain_world (sv_brain s))) as [r w] eqn:Eg.
  replace r with (Ok fr' : result Filerequest DbError) in Eg by (symmetry; unfold world_of in Hget; by rewrite Eg in Hget).
  erewrite (ask_brain_run as_filerequest Client.ReadFilerequest (fr_id fr) s
    _ (RFilerequest (Ok fr')) (Ok fr'));
    [|done|done|cbn [handle_client_action]; unfold read_filerequest_action, answer, bbind, call; cbn [request]; by rewrite Eg|done|done].
  cbn. eexists _, _. split; [done|]. destruct fr' as [? ? ? [] ?], fr as [? ? ? [] ?]; done.
Qed.

Lemma created_is_served s q resp s1 :
  served_ok s -> store_ok (world_of s) -> create_file_request q s = Ret (Ok resp, s1) ->
  sv_running s1 = true /\ exists id access, Api.CreateFileRequestResponse_file_request resp =
      Some (Api.mk_FileRequestProto id (Api.CreateFileRequestRequest_title q) (Api.CreateFileRequestRequest_description q)
        (Api.CreateFileRequestRequest_access q) true) /\
    access_of_optional_proto (E := E) (Api.CreateFileRequestRequest_access q) = Ok access /\
    holds (world_of s1) (mk_filerequest id (Api.CreateFileRequestRequest_title q) (Api.CreateFileRequestRequest_description q) access true).
Proof.
  intros Hs Hok. unfold create_file_request. destruct (access_of_optional_proto _) as [access|e] eqn:Ea; [|done].
  unfold io_bind at 1. cbn [io_result outcome_bind]. unfold io_bind.
  destruct (ask_brain _ _ _ s) as [[[r|e] s2]| | |] eqn:Eask; cbn [outcome_bind]; try done.
  apply ask_brain_inv in Eask as (Hr & b & v & -> & Hv & Hh & Hb); [|done..]. destruct r as [id|e]; [|done]. intros [= <- <-].
  split; [done|]. exists id, access. split_and!; [done..|]. destruct v; try done. injection Hv as ->.
  by apply (create_action_held (mk_brain_request _ _) (sv_next s) id (sv_brain s) b Hok eq_refl Hh).
Qed.

Lemma updated_is_served s p resp s1 :
  served_ok s -> store_ok (world_of s) -> update_file_request (Api.mk_UpdateFileRequestRequest (Some p)) s = Ret (Ok resp, s1) ->
  sv_running s1 = true /\ exists fr, filerequest_of_proto (E := E) p = Ok fr /\ holds (world_of s1) fr.
Proof.
  intros Hs Hok. unfold update_file_request. cbn [ok_or Api.UpdateFileRequestRequest_file_request]. rewrite bind_ok.
  destruct (filerequest_of_proto p) as [fr|e] eqn:Ef; [|done]. rewrite bind_ok. unfold io_bind.
  destruct (ask_brain _ _ _ s) as [[[r|e] s2]| | |] eqn:Eask; cbn [outcome_bind]; try done.
  apply ask_brain_inv in Eask as (Hr & b & v & -> & Hv & Hh & Hb); [|done..]. destruct r as [[]|e]; [|done]. intros [= <- <-].
  split; [done|]. exists fr. split; [done|]. destruct v; try done. injection Hv as ->.
  by apply (update_action_held (mk_brain_request fr _) (sv_next s) (sv_brain s) b Hok eq_refl Hh).
Qed.

Lemma same_proto_of p' fr p :
  same_proto p' (filerequest_to_proto fr) -> filerequest_of_proto (E := E) p = Ok fr -> same_proto p' p.
Proof. unfold same_proto. intros Hs Hp. rewrite (filerequest_of_proto_any (E' := unit) _ _ Hp). by rewrite filerequest_roundtrip in Hs. Qed.

(** C18 (roundtrip). What the frontend stores is what it reads, through the server, the
    brain and the database: after CreateFileRequest succeeded, its response carries
    the title, the description and the access of the request and an id under which
    GetFileRequest succeeds and answers with just that; after UpdateFileRequest
    succeeded, GetFileRequest answers with the updated filerequest. The order of an
    audience may differ. *)
Theorem api_filerequest_roundtrip s :
  served_ok s -> store_ok (world_of s) ->
  (forall q resp s1, dispatch version (Api.CreateFileRequest q) s = Ret (Ok resp, s1) ->
     exists p, Api.CreateFileRequestResponse_file_request resp = Some p /\
       Api.FileRequestProto_title p = Api.CreateFileRequestRequest_title q /\
       Api.FileRequestProto_description p = Api.CreateFileRequestRequest_description q /\
       Api.FileRequestProto_access p = Api.CreateFileRequestRequest_access q /\ Api.FileRequestProto_is_active p = true /\
       exists p' s2, dispatch version (Api.GetFileRequest (Api.mk_FileRequestRequest (Api.FileRequestProto_id p))) s1
         = Ret (Ok (Api.mk_FileRequestResponse (Some p')), s2) /\ same_proto p' p) /\
  (forall p resp s1, dispatch version (Api.UpdateFileRequest (Api.mk_UpdateFileRequestRequest (Some p))) s = Ret (Ok resp, s1) ->
     exists p' s2, dispatch version (Api.GetFileRequest (Api.mk_FileRequestRequest (Api.FileRequestProto_id p))) s1
       = Ret (Ok (Api.mk_FileRequestResponse (Some p')), s2) /\ same_proto p' p).
Proof.
  intros Hs Hok. split.
  - intros q resp s1 Hd. pose proof (call_serves host_controller internal_data_dir interrupted version (Api.CreateFileRequest q) eq_refl s Hs) as Hs1.
    rewrite Hd in Hs1. destruct (created_is_served s q resp s1 Hs Hok Hd) as (Hr & id & access & -> & Ha & Hh).
    eexists. do 5 (split; [done|]). destruct (held_is_served s1 _ (proj1 Hs1) Hr Hh) as (p' & s2 & Hg & Hp). exists p', s2.
    split; [exact Hg|]. eapply same_proto_of; [done|]. unfold filerequest_of_proto. cbn. by rewrite Ha.
  - intros p resp s1 Hd.
    pose proof (call_serves host_controller internal_data_dir interrupted version (Api.UpdateFileRequest (Api.mk_UpdateFileRequestRequest (Some p))) eq_refl s Hs) as Hs1.
    rewrite Hd in Hs1. destruct (updated_is_served s p resp s1 Hs Hok Hd) as (Hr & fr & Hp & Hh).
    destruct (held_is_served s1 _ (proj1 Hs1) Hr Hh) as (p' & s2 & Hg & Hsame). exists p', s2.
    assert (fr_id fr = Api.FileRequestProto_id p) as <- by (apply res_bind_Ok in Hp as (? & _ & [= <-]); done).
    split; [exact Hg|]. by eapply same_proto_of.
Qed.
End Roundtrip.

(** ** The SQLite database is such a store

    A world beside the database, and a host that works on the former. *)

Section Beside.
Context {X Y : Type}.

Definition on_db {A} (f : Y -> A * Y) (w : X * Y) : A * (X * Y) := let (a, y) := f w.2 in (a, (w.1, y)).
Definition beside {E A} (m : io X E A) : io (X * Y) E A := fun w => let? (r, x) := m w.1 in Ret (r, (x, w.2)).

#[global] Instance db_beside {F} `{!BrainKeys} `{!FilerequestDb Y F} : FilerequestDb (X * Y) F := {|
  db_get_filerequest a := on_db (db_get_filerequest a);
  db_get_filerequests := on_db db_get_filerequests;
  db_create_filerequest a := on_db (db_create_filerequest a);
  db_update_filerequest a := on_db (db_update_filerequest a);
  db_delete_filerequest a := on_db (db_delete_filerequest a);
  db_get_contact_name a := on_db (db_get_contact_name a);
  db_get_contact_names a := on_db (db_get_contact_names a);
  db_get_contact a := on_db (db_get_contact a);
  db_get_contacts := on_db db_get_contacts;
  db_update_contact a := on_db (db_update_contact a);
  db_delete_contact a := on_db (db_delete_contact a);
  db_get_contact_public_keys a := on_db (db_get_contact_public_keys a);
  db_store_node_keys a := on_db (db_store_node_keys a);
  db_get_node_keys := on_db db_get_node_keys;
  db_get_remote_filerequest a := on_db (db_get_remote_filerequest a);
  db_get_remote_filerequests_by_contact a := on_db (db_get_remote_filerequests_by_contact a);
  db_get_all_remote_filerequests := on_db db_get_all_remote_filerequests;
  db_create_remote_filerequest a := on_db (db_create_remote_filerequest a);
  db_delete_remote_filerequest a := on_db (db_delete_remote_filerequest a);
  db_update_remote_filerequest a b := on_db (db_update_remote_filerequest a b);
  db_get_pending_file a := on_db (db_get_pending_file a);
  db_get_pending_files a := on_db (db_get_pending_files a);
  db_get_all_pending_files := on_db db_get_all_pending_files;
  db_create_pending_files a := on_db (db_create_pending_files a);
  db_update_pending_file_status a b c := on_db (db_update_pending_file_status a b c);
  db_add_interruption_reason a b := on_db (db_add_interruption_reason a b);
  db_delete_pending_file a := on_db (db_delete_pending_file a);
  db_count_non_terminal_pending_files_for_path a := on_db (db_count_non_terminal_pending_files_for_path a);
  db_create_incoming_file a := on_db (db_create_incoming_file a);
  db_update_received_file_status a b c := on_db (db_update_received_file_status a b c);
  db_get_received_file_by_transfer_id a := on_db (db_get_received_file_by_transfer_id a);
  db_complete_received_file a := on_db (db_complete_received_file a);
  db_list_received_files a := on_db (db_list_received_files a);
  db_delete_received_file a := on_db (db_delete_received_file a);
  db_get_stale_received_files a := on_db (db_get_stale_received_files a);
  db_get_self_contact := on_db db_get_self_contact;
  db_get_self_contact_for_display := on_db db_get_self_contact_for_display;
  db_update_self_contact_name a := on_db (db_update_self_contact_name a);
  db_update_identity a := on_db (db_update_identity a);
  db_get_sharable_public_self_contact := on_db db_get_sharable_public_self_contact;
  db_register_contact a := on_db (db_register_contact a);
  db_backup_database a b := on_db (db_backup_database a b);
  db_restore_database a := on_db (db_restore_database a);
  db_get_settings := on_db db_get_settings;
  db_store_settings a := on_db (db_store_settings a);
|}.

#[global] Instance host_beside {C F E} `{!HostController C X F E} : HostController C (X * Y) F E := {|
  host_access_file_for_reading c p := beside (host_access_file_for_reading c p);
  host_create_file_for_writing c p := beside (host_create_file_for_writing c p);
  host_get_exact_file_for_writing c p := beside (host_get_exact_file_for_writing c p);
  host_remove_file c p := beside (host_remove_file c p);
  host_create_filerequest_resource c p := beside (host_create_filerequest_resource c p);
  host_rename_resource c p q := beside (host_rename_resource c p q);
  host_get_path_to_db_backup_file c := beside (host_get_path_to_db_backup_file c);
  host_remove_source_file_if_temporary c p := beside (host_remove_source_file_if_temporary c p);
  host_list_temporary_outgoing_files c := beside (host_list_temporary_outgoing_files c);
  host_get_partial_file_for_writing c p := beside (host_get_partial_file_for_writing c p);
  host_remove_partial_file c p := beside (host_remove_partial_file c p);
  host_finalize_partial_file c p q := beside (host_finalize_partial_file c p q);
  host_list_partial_files c := beside (host_list_partial_files c);
|}.

Lemma beside_same {E A} (m : io X E A) w r w' : beside m w = Ret (r, w') -> w'.2 = w.2.
Proof. unfold beside. destruct (m w.1) as [[]| | |]; cbn; try done. by intros [= <- <-]. Qed.

Lemma beside_returns {E A} (m : io X E A) w :
  (exists r x, m w.1 = Ret (r, x)) -> exists r w', beside m w = Ret (r, w').
Proof. unfold beside. intros (r & x & ->). by eexists _, _. Qed.

#[global] Instance host_beside_returns {C F E} `{!HostController C X F E} `{!HostReturns C X F E} : HostReturns C (X * Y) F E.
Proof.
  split; intros; try (apply beside_returns; by destruct (HostReturns0)).
  pose proof (returns_access (C := C) (W := X) (F := F) (E := E) c p w.1) as Ha. cbn. unfold beside.
  by destruct (host_access_file_for_reading c p w.1) as [[]| | |].
Qed.
End Beside.

Section SqliteStore.
Context {K D X C F E : Type} `{!Primitives K} `{!KeyBytes K} `{!Bincode DilithiumPublic} `{!Bincode DilithiumSecret}.
Context `{!SqliteConnection D} `{!ActorEnv D} {HJ : Json} {HV : Semver} `{!BackupHost D F}.
Context `{!SqliteLaws D} `{!ActorEnvLaws D} {HVL : SemverLaws} `{!HostController C X F E}.
Context (Hreliable : reliable D).

Lemma on_db_run {Y A} (f : Y -> A * Y) (w : X * Y) a w' : on_db f w = (a, w') -> f w.2 = (a, w'.2).
Proof. unfold on_db. destruct (f w.2). by intros [= <- <-]. Qed.

Definition sqlite_store : FilerequestStore C (X * Sqlite (C := D)) F E.
Proof.
  refine {|
    store_ok w := reached (F := F) w.2;
    same_db w w' := w'.2 = w.2;
    holds w fr := sound w.2 /\ filerequest_stored (stored w.2) fr;
  |}.
  - done.
  - intros c ns w r w' Hh. exact (beside_same _ _ _ _ Hh).
  - intros c a b w r w' Hh. exact (beside_same _ _ _ _ Hh).
  - intros w w' fr Heq [Hs Hf]. by rewrite Heq.
  - intros w new id w1 Hok Hc%on_db_run.
    apply (stored_message (CreateFilerequest new) w.2 id w1.2 (fun id d => filerequest_stored d (mk_filerequest id _ _ _ _)));
      [done..|]. intros c Hready _. by apply create_stores.
  - intros w fr old w0 w1 w2 Hok Hg%on_db_run Hsame Hu%on_db_run. rewrite Hsame in Hu.
    apply (stored_message (UpdateFilerequest fr) w0.2 tt w2.2 (fun _ d => filerequest_stored d fr)); [done| |done|done|done|].
    + replace w0.2 with (Sqlite.call (F := F) (GetFilerequest (fr_id fr)) w.2).2 by (change (Sqlite.call (GetFilerequest (fr_id fr)) w.2 = (Ok old, w0.2)) in Hg; by rewrite Hg). by apply reached_call.
    + intros c Hready Hc. apply update_stores; [done|]. rewrite Hc. by apply (found_exists w.2 _ old).
  - intros w fr [Hsound Hst]. assert (forall r, (db_get_filerequest (F := F) (fr_id fr) w).1 = r <->
      (Sqlite.call (F := F) (GetFilerequest (fr_id fr)) w.2).1 = r) as Heq.
    { intros r. cbn. unfold on_db, client_get_filerequest. by destruct (Sqlite.call _ w.2). }
    destruct (read_message (F := F) (GetFilerequest (fr_id fr)) w.2 (fun fr' => same_filerequest fr' fr)) as (fr' & Hr & Hs);
      [done|done| |exists fr'; split; [by apply Heq|done]]. intros c Hready Hc. apply get_stored; [done|]. by rewrite Hc.
Defined.
End SqliteStore.
