(* ===== verification/ApiExample.v ===== *)
(** * A node with its API in memory

    The server on a brain with the file system controller of FsController.v on the
    disk of Disk.v and the database of SqliteExample.v, and the theorems about the
    API at concrete calls. *)

From S2P Require Import Prelude Domain NonceWindow Dencryptor KeyExchange TtlMap ReceiveManager HostPath HostController FsController Disk.
From S2P Require Import DriveHandler DriveFiles BrainTypes NodeKeys Sql SqlText SqlTheory Connection SqliteActor Migrations Sqlite.
From S2P Require Import SqliteStore SqliteExample SqliteAtomic SqliteReads SqliteRoundtrip Brain BrainAnswers BrainFiles Wire Conversions.
From S2P Require Import ApiServer ApiToken ApiBrain ApiStore.
#[local] Open Scope string_scope.
#[local] Open Scope Z_scope.

Module ApiExample.
Import Toy ToyKeys MemoryDb MemoryDisk MemorySet.
#[local] Existing Instance DriveExample.sanitizer.

#[local] Instance no_backup_files : BackupHost memory nat := no_files nat.

Definition world : Type := disk * Sqlite (C := memory).

#[local] Instance network : NetworkNode world := {|
  net_display_keypair _ _ := Ok "12D3";
  net_send_files _ w := (Ok tt, w);
  net_initial_files_to_send _ w := (Ok tt, w);
  net_get_node_info w := (Ok (mk_node_status "12D3" [] [] 3 1000), w);
  net_cancel_file _ w := (Ok false, w);
  net_cancel_files_for_remote_filerequest _ _ w := (Ok false, w);
  net_generate_keypair w := (Ok [1], w);
  net_update_identity _ _ w := w;
  net_use_self_contact_invite _ _ w := w;
  net_use_contact_share_challenge _ _ w := w;
  net_apply_settings _ w := (Ok tt, w);
|}.

#[local] Instance surroundings : BrainEnv world := {|
  brain_now w := (10, w);
  brain_epoch_millis w := (Some 5000, w);
  random_challenge w := ([7], w);
  new_contact_id w := ("new", w);
  new_contact_keys w := (toy_keys 1, w);
  client_push _ w := (true, w);
  send_notification _ w := w;
|}.

Abbreviation the_brain := (brain DirectFsController world nat unit (gmap Challenge Z)).

Definition controller : DirectFsController := DriveExample.controller.
Definition data_dir : path := path_from "/data".

(** A task that never ends leaves the state as it was. *)
Definition interrupted (_ : BrainAction) (b : the_brain) : the_brain :=
  mk_brain (brain_world b) (ephemeral_data b) false (answers b).

#[local] Hint Extern 0 (BrainChannel _ _ _ _) => exact (brain_channel controller data_dir interrupted) : typeclass_instances.

(** A database with two contacts, and nobody has asked anything yet. *)
Definition contacts : Sqlite (C := memory) :=
  (Sqlite.call (F := nat) (RegisterContact bob) (Sqlite.call (F := nat) (RegisterContact alice) started).2).2.

Definition s0 : served :=
  mk_served (mk_brain (DriveExample.disk0, contacts) ephemeral_new false [] : the_brain) 0 [] true.

Lemma s0_ok : served_ok s0.
Proof. by split; [|constructor..]. Qed.

Lemma contacts_reached : reached (F := nat) contacts.
Proof. apply reached_call; [apply reached_call; [by apply reached_new|done|done]|done|done]. Qed.

#[local] Instance example_store : FilerequestStore DirectFsController world nat unit := sqlite_store memory_reliable.

Lemma s0_store : store_ok (world_of s0).
Proof. unfold store_ok, example_store, sqlite_store, world_of. cbn [sv_brain s0 brain_world snd]. exact contacts_reached. Qed.

Definition answered {R} (r : Api.Rpc R) (s : served) : option R :=
  match dispatch "1.2.3" r s with Ret (Ok a, _) => Some a | _ => None end.
Definition after {R} (r : Api.Rpc R) (s : served) : served :=
  match dispatch "1.2.3" r s with Ret (_, s) => s | _ => s end.

Definition create : Api.Rpc Api.CreateFileRequestResponse :=
  Api.CreateFileRequest (Api.mk_CreateFileRequestRequest "Holidays" "Photos" (Some (access_to_proto (Audience ["alice"; "bob"])))).
Definition created : Api.FileRequestProto :=
  Api.mk_FileRequestProto "id0" "Holidays" "Photos" (Some (access_to_proto (Audience ["alice"; "bob"]))) true.
Definition changed : Api.FileRequestProto :=
  Api.mk_FileRequestProto "id0" "Holidays" "Films" (Some (access_to_proto (Audience ["bob"]))) false.

Definition update : Api.Rpc Api.UpdateFileRequestResponse := Api.UpdateFileRequest (Api.mk_UpdateFileRequestRequest (Some changed)).

Lemma created_served : served_ok (after create s0).
Proof. split; vm_compute; [done|..]; repeat constructor. Qed.

Lemma created_store : store_ok (world_of (after create s0)).
Proof.
  unfold store_ok, example_store, sqlite_store, world_of. cbv beta.
  refine (eq_ind _ (reached (F := nat)) (reached_call (F := nat) (CreateFilerequest (mk_create_filerequest "Holidays" "Photos" (Audience ["alice"; "bob"]) true))
    contacts contacts_reached eq_refl I) _ _). vm_compute. reflexivity.
Qed.

Lemma api_filerequest_roundtrip_witness :
  (exists p' s2, dispatch "1.2.3" (Api.GetFileRequest (Api.mk_FileRequestRequest "id0")) (after create s0)
     = Ret (Ok (Api.mk_FileRequestResponse (Some p')), s2) /\ same_proto p' created) /\
  (exists p' s2, dispatch "1.2.3" (Api.GetFileRequest (Api.mk_FileRequestRequest "id0")) (after update (after create s0))
     = Ret (Ok (Api.mk_FileRequestResponse (Some p')), s2) /\ same_proto p' changed).
Proof.
  split.
  - destruct (proj1 (api_filerequest_roundtrip controller data_dir interrupted "1.2.3" s0 s0_ok s0_store)
      (Api.mk_CreateFileRequestRequest "Holidays" "Photos" (Some (access_to_proto (Audience ["alice"; "bob"]))))
      (Api.mk_CreateFileRequestResponse (Some created)) (after create s0)) as (p & Hp & _ & _ & _ & _ & Hget).
    + vm_compute. reflexivity.
    + injection Hp as <-. exact Hget.
  - apply (proj2 (api_filerequest_roundtrip controller data_dir interrupted "1.2.3" (after create s0) created_served
      created_store) changed (Api.mk_UpdateFileRequestResponse (Some changed)) (after update (after create s0))).
    vm_compute. reflexivity.
Defined.


(** ** The token *)

(** A character per byte. *)
#[local] Instance characters : Base64 := {|
  b64_encode b := String.string_of_list_ascii ((fun z => Ascii.ascii_of_nat (Z.to_nat z)) <$> b);
  b64_decode s := Some ((fun c => Z.of_nat (Ascii.nat_of_ascii c)) <$> String.list_ascii_of_string s);
|}.

#[local] Instance characters_laws : Base64Laws.
Proof.
  split.
  - intros b Hb. cbn. rewrite String.list_ascii_of_string_of_list_ascii. f_equal. induction Hb as [|z b Hz Hb IH]; [done|]. cbn.
    rewrite IH, Ascii.nat_ascii_embedding by lia. f_equal. lia.
  - intros s b [= <-]. cbn. rewrite <- (String.string_of_list_ascii_of_string s) at 1. f_equal.
    induction (String.list_ascii_of_string s) as [|c l IH]; [done|]. cbn. by rewrite <- IH, Nat2Z.id, Ascii.ascii_nat_embedding.
Qed.

#[local] Instance comparison : ConstantTimeEq := {| ct_eq a b := bool_decide (a = b) |}.
#[local] Instance comparison_laws : ConstantTimeEqLaws.
Proof. by split. Qed.

(** A request is the header authorization. *)
#[local] Instance header : Metadata (option string) := {| metadata_str r _ := r |}.

Lemma refused_calls_change_nothing_witness :
  (exists st, serve_call "1.2.3" (Some (interceptor [65; 66])) (Some "Bearer AC") create s0 = Ret (Err st, s0) /\
     status_code st = Unauthenticated) /\
  serve_call "1.2.3" (Some (interceptor [65; 66])) (Some "Bearer AB") create s0 = serve_call "1.2.3" None (Some "Bearer AB") create s0 /\
  (exists st, dispatch "1.2.3" (Api.UpdateContact (Api.mk_UpdateContactRequest None)) s0 = Ret (Err st, s0) /\
     status_code st = InvalidArgument) /\
  dispatch "1.2.3" (Api.StorePendingFile (Api.mk_StorePendingFileRequest None)) s0 = Panic.
Proof.
  assert (is_bytes [65; 66]) as Hb by (repeat constructor; lia).
  split_and!.
  - apply (refused_calls_change_nothing controller data_dir interrupted "1.2.3" [65; 66] (Some "Bearer AC" : option string) create s0 Hb).
    done.
  - apply (refused_calls_change_nothing controller data_dir interrupted "1.2.3" [65; 66] (Some "Bearer AB" : option string) create s0 Hb).
    done.
  - apply (refused_calls_change_nothing controller data_dir interrupted "1.2.3" [65; 66] (None : option string)
      (Api.UpdateContact (Api.mk_UpdateContactRequest None)) s0 Hb).
  - apply (refused_calls_change_nothing controller data_dir interrupted "1.2.3" [65; 66] (None : option string)
      (Api.StorePendingFile (Api.mk_StorePendingFileRequest None)) s0 Hb).
Defined.

(** The identity of one node, on its way to another. *)
Lemma conversions_roundtrip_witness :
  exists p, self_contact_to_proto (mk_self_contact "me" "Me" (toy_keys 5)) = Ok p /\
    self_contact_of_proto p = Ok (mk_self_contact "me" "Me" (toy_keys 5)).
Proof.
  eexists. split; [vm_compute; reflexivity|]. apply (proj1 conversions_roundtrip). vm_compute. reflexivity.
Defined.
End ApiExample.
