(* ===== verification/Notifications.v ===== *)
(** * Notifications in the language of the user

    direct_host_utils/src/i18n.rs and [send_notification] of
    direct_host_utils/src/direct_fs_controller.rs: the choice among the translations
    that the program carries, texts with arguments, and sizes of files. Language
    identifiers (unic_langid), Fluent and the locale of the system (sys_locale) are
    third-party code. Numbers are IEEE doubles, by the definitions of the Standard
    Library. The profile is release: what is wrong with a text is logged. *)

From S2P Require Import Prelude Domain BrainTypes.
From stdpp Require Import pretty.
From Stdlib Require Import Ascii SpecFloat.
#[local] Open Scope string_scope.
#[local] Open Scope Z_scope.

(** ** Translations *)

(** The files that [flate!] includes, by their names *)
Definition EN_US_FTL : string := "i18n/en-US.ftl".
Definition DE_DE_FTL : string := "i18n/de-DE.ftl".
Definition PT_PT_FTL : string := "i18n/pt-PT.ftl".
Definition PT_BR_FTL : string := "i18n/pt-BR.ftl".
Definition FR_FR_FTL : string := "i18n/fr-FR.ftl".
Definition ES_ES_FTL : string := "i18n/es-ES.ftl".
Definition IT_IT_FTL : string := "i18n/it-IT.ftl".
Definition NL_NL_FTL : string := "i18n/nl-NL.ftl".
Definition SV_SE_FTL : string := "i18n/sv-SE.ftl".
Definition DA_DK_FTL : string := "i18n/da-DK.ftl".
Definition NB_NO_FTL : string := "i18n/nb-NO.ftl".
Definition FI_FI_FTL : string := "i18n/fi-FI.ftl".
Definition IS_IS_FTL : string := "i18n/is-IS.ftl".
Definition GA_IE_FTL : string := "i18n/ga-IE.ftl".
Definition MT_MT_FTL : string := "i18n/mt-MT.ftl".
Definition RU_RU_FTL : string := "i18n/ru-RU.ftl".
Definition UK_UA_FTL : string := "i18n/uk-UA.ftl".
Definition PL_PL_FTL : string := "i18n/pl-PL.ftl".
Definition CS_CZ_FTL : string := "i18n/cs-CZ.ftl".
Definition SK_SK_FTL : string := "i18n/sk-SK.ftl".
Definition SL_SI_FTL : string := "i18n/sl-SI.ftl".
Definition HR_HR_FTL : string := "i18n/hr-HR.ftl".
Definition SR_RS_FTL : string := "i18n/sr-RS.ftl".
Definition BS_BA_FTL : string := "i18n/bs-BA.ftl".
Definition RO_RO_FTL : string := "i18n/ro-RO.ftl".
Definition BG_BG_FTL : string := "i18n/bg-BG.ftl".
Definition HU_HU_FTL : string := "i18n/hu-HU.ftl".
Definition EL_GR_FTL : string := "i18n/el-GR.ftl".
Definition TR_TR_FTL : string := "i18n/tr-TR.ftl".
Definition ET_EE_FTL : string := "i18n/et-EE.ftl".
Definition LV_LV_FTL : string := "i18n/lv-LV.ftl".
Definition LT_LT_FTL : string := "i18n/lt-LT.ftl".
Definition SQ_AL_FTL : string := "i18n/sq-AL.ftl".
Definition MK_MK_FTL : string := "i18n/mk-MK.ftl".
Definition AR_SA_FTL : string := "i18n/ar-SA.ftl".
Definition ZH_CN_FTL : string := "i18n/zh-CN.ftl".
Definition ZH_TW_FTL : string := "i18n/zh-TW.ftl".
Definition JA_JP_FTL : string := "i18n/ja-JP.ftl".
Definition KO_KR_FTL : string := "i18n/ko-KR.ftl".
Definition HI_IN_FTL : string := "i18n/hi-IN.ftl".
Definition ID_ID_FTL : string := "i18n/id-ID.ftl".

Record LanguageSelector := mk_selector { code : string; ftl : string }.

Definition SUPPORTED_LOCALES : list LanguageSelector := [
  mk_selector "en-US" EN_US_FTL;
  mk_selector "de-DE" DE_DE_FTL;
  mk_selector "pt-PT" PT_PT_FTL;
  mk_selector "pt-BR" PT_BR_FTL;
  mk_selector "fr-FR" FR_FR_FTL;
  mk_selector "es-ES" ES_ES_FTL;
  mk_selector "it-IT" IT_IT_FTL;
  mk_selector "nl-NL" NL_NL_FTL;
  mk_selector "sv-SE" SV_SE_FTL;
  mk_selector "da-DK" DA_DK_FTL;
  mk_selector "nb-NO" NB_NO_FTL;
  mk_selector "fi-FI" FI_FI_FTL;
  mk_selector "is-IS" IS_IS_FTL;
  mk_selector "ga-IE" GA_IE_FTL;
  mk_selector "mt-MT" MT_MT_FTL;
  mk_selector "ru-RU" RU_RU_FTL;
  mk_selector "uk-UA" UK_UA_FTL;
  mk_selector "pl-PL" PL_PL_FTL;
  mk_selector "cs-CZ" CS_CZ_FTL;
  mk_selector "sk-SK" SK_SK_FTL;
  mk_selector "sl-SI" SL_SI_FTL;
  mk_selector "hr-HR" HR_HR_FTL;
  mk_selector "sr-RS" SR_RS_FTL;
  mk_selector "bs-BA" BS_BA_FTL;
  mk_selector "ro-RO" RO_RO_FTL;
  mk_selector "bg-BG" BG_BG_FTL;
  mk_selector "hu-HU" HU_HU_FTL;
  mk_selector "el-GR" EL_GR_FTL;
  mk_selector "tr-TR" TR_TR_FTL;
  mk_selector "et-EE" ET_EE_FTL;
  mk_selector "lv-LV" LV_LV_FTL;
  mk_selector "lt-LT" LT_LT_FTL;
  mk_selector "sq-AL" SQ_AL_FTL;
  mk_selector "mk-MK" MK_MK_FTL;
  mk_selector "ar-SA" AR_SA_FTL;
  mk_selector "zh-CN" ZH_CN_FTL;
  mk_selector "zh-TW" ZH_TW_FTL;
  mk_selector "ja-JP" JA_JP_FTL;
  mk_selector "ko-KR" KO_KR_FTL;
  mk_selector "hi-IN" HI_IN_FTL;
  mk_selector "id-ID" ID_ID_FTL].

(** [LanguageIdentifier] and [FluentBundle]: a message may have no value, and a value
    may not format; [parse_resource] and [add_resource] are [None] on errors. *)
Class Fluent := {
  LanguageIdentifier : Type;
  parse_langid : string -> option LanguageIdentifier;
  langid_to_string : LanguageIdentifier -> string;
  langid_language : LanguageIdentifier -> string;
  Resource : Type;
  Bundle : Type;
  Pattern : Type;
  FluentError : Type;
  parse_resource : string -> option Resource;
  new_bundle : LanguageIdentifier -> Bundle;
  add_resource : Resource -> Bundle -> option Bundle;
  get_message : Bundle -> string -> option (option Pattern);
  format_pattern : Bundle -> Pattern -> gmap string string -> string * list FluentError;
}.

(** [str::starts_with] *)
Fixpoint starts_with (p s : string) : bool :=
  match p, s with
  | EmptyString, _ => true
  | String a p, String b s => if Ascii.eqb a b then starts_with p s else false
  | String _ _, EmptyString => false
  end.

(** [str::replace] of one character *)
Fixpoint replace_char (a b : Ascii.ascii) (s : string) : string :=
  match s with
  | EmptyString => EmptyString
  | String c s => String (if Ascii.eqb c a then b else c) (replace_char a b s)
  end.

Section Language.
Context `{!Fluent} (file_text : string -> string) (get_locale : option string).

Definition language_new (lang : LanguageIdentifier) (text : string) : outcome Bundle :=
  let bundle := new_bundle lang in
  let? res := unwrap_panic (parse_resource text) in
  unwrap_panic (add_resource res bundle).

(** [split('.').next()] is never [None]. *)
Definition detect_langid : outcome LanguageIdentifier :=
  let raw := default "en-US" get_locale in
  let cleaned := replace_char "_"%char "-"%char (split_first "."%char raw) in
  match parse_langid cleaned with
  | Some langid => Ret langid
  | None => unwrap_panic (parse_langid "en-US")
  end.

(** The choice of [init_i18n] *)
Definition select_ftl (langid : LanguageIdentifier) : string :=
  let requested_tag := langid_to_string langid in
  match List.find (fun selector => (code selector =? requested_tag)%string) SUPPORTED_LOCALES with
  | Some selector => ftl selector
  | None =>
      match List.find (fun selector => starts_with (langid_language langid) (code selector)) SUPPORTED_LOCALES with
      | Some selector => ftl selector
      | None => EN_US_FTL
      end
  end.

Definition init_i18n : outcome Bundle :=
  let? langid := detect_langid in
  language_new langid (file_text (select_ftl langid)).

Definition text_resource_args (bundle : Bundle) (id : string) (args : list (string * string)) : string :=
  let missing := "<" +:+ id +:+ ">" in
  match get_message bundle id with
  | None => missing
  | Some None => missing
  | Some (Some pattern) =>
      let fl_args := fold_left (fun fl_args kv => <[kv.1 := kv.2]> fl_args) args ∅ in
      match format_pattern bundle pattern fl_args with
      | (value, []) => value
      | (_, _ :: _) => missing
      end
  end.

Definition text_resource (bundle : Bundle) (id : string) : string := text_resource_args bundle id [].

(** ** Numbers *)

Definition comma_languages : list string := [
  "de"; "fr"; "es"; "it"; "pt"; "nl"; "sv"; "da"; "no"; "nb"; "fi"; "pl"; "cs"; "sk"; "sl"; "hr";
  "sr"; "bs"; "ro"; "bg"; "hu"; "el"; "tr"; "et"; "lv"; "lt"; "ru"; "uk"].

Definition get_decimal_separator : outcome Ascii.ascii :=
  let? langid := detect_langid in
  Ret (if bool_decide (langid_language langid ∈ comma_languages) then "," else ".")%char.

(** f64 *)
Definition f64_of (z : Z) : spec_float := binary_normalize 53 1024 z 0 false.
Definition f64_div : spec_float -> spec_float -> spec_float := SFdiv 53 1024.
Definition UNIT : spec_float := f64_of 1000.

(** [n / d] rounded to the nearest integer, and to the even one of two *)
Definition div_half_even (n d : Z) : Z :=
  let q := n / d in let r := n mod d in
  if 2 * r <? d then q else if d <? 2 * r then q + 1 else if Z.even q then q else q + 1.

(** The tenths of a finite number that is not negative *)
Definition tenths (x : spec_float) : Z :=
  match x with
  | S754_finite false m e => if 0 <=? e then 10 * Zpos m * 2 ^ e else div_half_even (10 * Zpos m) (2 ^ (- e))
  | _ => 0
  end.

(** [format!("{:.1}", value)]; values are sizes, which are finite and not negative. *)
Definition format_1 (value : spec_float) : string :=
  pretty (tenths value / 10) +:+ "." +:+ pretty (tenths value mod 10).

Definition format_decimal (value : spec_float) : outcome string :=
  let formatted := format_1 value in
  let? separator := get_decimal_separator in
  Ret (if Ascii.eqb separator ","%char then replace_char "."%char ","%char formatted else formatted).

Definition format_file_size (bytes : Z) : outcome (string * string) :=
  if bytes <? 1000 then Ret (pretty bytes, "B")
  else if bytes <? 1000 * 1000 then let? s := format_decimal (f64_div (f64_of bytes) UNIT) in Ret (s, "KB")
  else if bytes <? 1000 * 1000 * 1000 then
    let? s := format_decimal (f64_div (f64_div (f64_of bytes) UNIT) UNIT) in Ret (s, "MB")
  else let? s := format_decimal (f64_div (f64_div (f64_div (f64_of bytes) UNIT) UNIT) UNIT) in Ret (s, "GB").

(** ** The notification

    The title and the body that the system is asked to show. *)
Definition notification_text (lang : Bundle) (notification : Notification) : outcome (string * string) :=
  match notification with
  | FileReceived contact_name filerequest_name file_name file_size =>
      let? (file_size_value, file_size_unit) := format_file_size file_size in
      let title := text_resource lang "file-received-title" in
      let body :=
        match contact_name with
        | Some name =>
            text_resource_args lang "file-received-mess-with-contact"
              [("senderName", name); ("fileName", file_name); ("fileSizeValue", file_size_value);
               ("fileSizeUnit", file_size_unit); ("requestName", filerequest_name)]
        | None =>
            text_resource_args lang "received-file-via-filerequest"
              [("fileName", file_name); ("fileSizeValue", file_size_value); ("fileSizeUnit", file_size_unit);
               ("requestName", filerequest_name)]
        end in
      Ret (title, body)
  end.
End Language.

(** ** The choice of a language *)

(** The subtag of a language has two letters at least, and no hyphen; English is
    known. *)
Class FluentLaws `{!Fluent} : Prop := {
  language_subtag l : exists a b s, langid_language l = String a (String b s) /\ split_first "-" (langid_language l) = langid_language l;
  english_parses : is_Some (parse_langid "en-US");
}.

Lemma find_first {A} (f : A -> bool) l x :
  List.find f l = Some x -> exists before after, l = (before ++ x :: after)%list /\ f x = true /\ Forall (fun y => f y = false) before.
Proof.
  induction l as [|y l IH]; cbn; [done|]. destruct (f y) eqn:Ef.
  - intros [= <-]. by exists [], l.
  - intros (before & after & -> & Hx & Hb)%IH. exists (y :: before), after. by rewrite Forall_cons.
Qed.

(** Codes have a language of two letters, and then their region. *)
Definition two_letters (s : string) : bool :=
  match s with String a (String b (String c _)) => negb (Ascii.eqb a "-") && negb (Ascii.eqb b "-") && Ascii.eqb c "-" | _ => false end%char.

Lemma codes_two_letters : Forall (fun s => two_letters (code s) = true) SUPPORTED_LOCALES.
Proof. unfold SUPPORTED_LOCALES. repeat constructor. Qed.

Lemma starts_with_language lang c :
  two_letters c = true -> (exists a b s, lang = String a (String b s)) -> split_first "-" lang = lang ->
  starts_with lang c = true <-> split_first "-" c = lang.
Proof.
  destruct c as [|x [|y [|z c]]]; try done. cbn [two_letters]. intros Hc (a & b & s & ->) Hl.
  apply andb_prop in Hc as [[Hx%negb_true_iff%Ascii.eqb_neq Hy%negb_true_iff%Ascii.eqb_neq]%andb_prop Hz%Ascii.eqb_eq]. subst z.
  cbn [split_first starts_with] in *. rewrite !(decide_False (P := _ = "-"%char)) by done.
  rewrite (decide_True (P := "-"%char = "-"%char)) by done. revert Hl. case_decide; [done|]. case_decide; [done|]. intros [= Hs].
  destruct (Ascii.eqb_spec a x) as [->|]; [|split; [done|congruence]].
  destruct (Ascii.eqb_spec b y) as [->|]; [|split; [done|congruence]].
  destruct s as [|w s]; cbn [split_first starts_with] in *; [done|]. destruct (Ascii.eqb_spec w "-") as [->|]; [by rewrite decide_True in Hs|].
  split; [done|intros [=]].
Qed.

Section Properties.
Context `{!Fluent} `{!FluentLaws} (file_text : string -> string) (get_locale : option string).

(** The language of a code *)
Definition language_of (s : LanguageSelector) : string := split_first "-" (code s).

Lemma approximate_iff l s : s ∈ SUPPORTED_LOCALES -> starts_with (langid_language l) (code s) = true <-> language_of s = langid_language l.
Proof.
  intros Hs. destruct (language_subtag l) as (a & b & t & El & Hl). apply starts_with_language; [|by eauto|done].
  by apply (proj1 (Forall_forall _ _) codes_two_letters).
Qed.

(** Which translation is used: that of the very locale if there is one; else the first
    of the same language, and of no language that is merely spelled alike; English
    only if the program has none of the language. *)
Theorem language_is_chosen l :
  (exists s, s ∈ SUPPORTED_LOCALES /\ code s = langid_to_string l /\ select_ftl l = ftl s) \/
  Forall (fun s => code s <> langid_to_string l) SUPPORTED_LOCALES /\
  ((exists before s after, SUPPORTED_LOCALES = (before ++ s :: after)%list /\ select_ftl l = ftl s /\
      language_of s = langid_language l /\ Forall (fun s => language_of s <> langid_language l) before) \/
   select_ftl l = EN_US_FTL /\ Forall (fun s => language_of s <> langid_language l) SUPPORTED_LOCALES).
Proof.
  unfold select_ftl. destruct (List.find _ SUPPORTED_LOCALES) as [s|] eqn:Ef.
  { apply List.find_some in Ef as [Hin%list_elem_of_In Hs%String.eqb_eq]. eauto. }
  right. split.
  { apply Forall_forall. intros s Hs%list_elem_of_In. by apply String.eqb_neq, (List.find_none _ _ Ef). }
  destruct (List.find (fun s => starts_with _ _) SUPPORTED_LOCALES) as [s|] eqn:Ea; [left|right].
  - apply find_first in Ea as (before & after & El & Hs & Hb). exists before, s, after. split_and!; [done..| |].
    + apply approximate_iff; [|done]. rewrite El. set_solver.
    + rewrite Forall_forall in Hb |- *. intros s' Hin Hl%approximate_iff; [|by rewrite El; set_solver].
      by rewrite (Hb s' Hin) in Hl.
  - split; [done|]. apply Forall_forall. intros s Hs Hl%approximate_iff; [|done]. apply list_elem_of_In in Hs.
    by rewrite (List.find_none _ _ Ea s Hs) in Hl.
Qed.

Lemma detect_returns : exists l, detect_langid get_locale = Ret l.
Proof. unfold detect_langid. destruct (parse_langid _); [by eexists|]. destruct english_parses as [l ->]. by exists l. Qed.

Lemma format_returns x : exists s, format_decimal get_locale x = Ret s.
Proof. unfold format_decimal, get_decimal_separator. destruct detect_returns as [l ->]. by eexists. Qed.

(** Every notification is shown, whatever is wrong with a text: with a text for each
    id, or with the id in angle brackets. Sizes below 1000 are given to the byte, and
    larger ones in the unit they reach. *)
Theorem notifications_are_shown lang contact request file size :
  exists value unit title body,
    format_file_size get_locale size = Ret (value, unit) /\
    notification_text get_locale lang (FileReceived contact request file size) = Ret (title, body) /\
    (size < 1000 -> value = pretty size) /\
    unit = (if size <? 1000 then "B" else if size <? 10 ^ 6 then "KB" else if size <? 10 ^ 9 then "MB" else "GB") /\
    (get_message lang "file-received-title" = None -> title = "<file-received-title>").
Proof.
  assert (exists value unit, format_file_size get_locale size = Ret (value, unit) /\ (size < 1000 -> value = pretty size) /\
    unit = (if size <? 1000 then "B" else if size <? 10 ^ 6 then "KB" else if size <? 10 ^ 9 then "MB" else "GB"))
    as (value & unit & Es & Hv & Hu).
  { unfold format_file_size. destruct (Z.ltb_spec size 1000); [by eexists _, _|].
    change (1000 * 1000 * 1000) with (10 ^ 9). change (1000 * 1000) with (10 ^ 6).
    destruct (size <? 10 ^ 6), (size <? 10 ^ 9);
      match goal with |- context [format_decimal _ ?x] => destruct (format_returns x) as [v ->] end;
      exists v; eexists; (split; [done|]); (split; [lia|done]). }
  exists value, unit. do 2 eexists. split; [done|]. unfold notification_text. rewrite Es. split; [done|]. split_and!; [done..|].
  intros Hm. unfold text_resource, text_resource_args. by rewrite Hm.
Qed.
End Properties.

(** A size just below a unit is rounded up to 1000 of the smaller one. *)
Definition plain : Fluent := {|
  LanguageIdentifier := unit; parse_langid _ := Some tt; langid_to_string _ := "en-US"; langid_language _ := "en";
  Resource := unit; Bundle := unit; Pattern := unit; FluentError := unit; parse_resource _ := Some tt; new_bundle _ := tt;
  add_resource _ _ := Some tt; get_message _ _ := None; format_pattern _ _ _ := ("", []) |}.

Example almost_a_megabyte :
  @format_file_size plain None 999999 = Ret ("1000.0", "KB") /\
  @format_file_size plain None 1000000 = Ret ("1.0", "MB") /\
  @format_file_size plain None 1250 = Ret ("1.2", "KB") /\
  @format_file_size plain None (2 ^ 64 - 1) = Ret ("18446744073.7", "GB").
Proof. by vm_compute. Qed.
